(* ===== verification/_CoqProject ===== *)
-Q . S2P
Prelude.v
Sums.v
Buffers.v
MerkleTree.v
BalanceTree.v
ParseBalanceMap.v
MerkleDistributor.v
Evm.v
Uint.v
HuskyMath.v
Amm.v
InterestModel.v
Timelock.v
TimelockTheory.v
HuskyToken.v
Shield.v
Offering.v
OfferingTheory.v
HuskyVotes.v
HuskyLocks.v
FairLaunch.v
FairLaunchTheory.v
Lending.v
Badges.v
Staking.v
StakingTheory.v
Pending.v
BadgeTheory.v
BadgeRelayer.v
BadgeLocks.v
Workers.v
Bank.v
BankTheory.v
BankValue.v
Strategies.v
Farm.v
FarmTheory.v
Protocol.v
Chain.v
ChainTheory.v
Watch.v
Governance.v
Script.v
ScriptTheory.v
Effects.v
TimelockScripts.v
TimelockScriptTheory.v
TimelockScriptRuns.v
CoreScripts.v
VaultScripts.v
WorkerScripts.v
OwnerScripts.v
ProductScripts.v
Validate.v
CoreScriptTheory.v
PipelineTheory.v
WorkerTheory.v
WorkerRuns.v
StrategyTheory.v
OwnerScriptTheory.v
ValidateTheory.v
VaultScriptTheory.v
UserScripts.v
UserScriptTheory.v
ShieldTheory.v
ProductScriptTheory.v
Instances.v
AirdropWitnesses.v
ChainInstances.v
MarketInstances.v
TokenWitnesses.v
LendingWitnesses.v
DeploymentWitnesses.v
WorkerWitnesses.v
OwnerWitnesses.v
ProductWitnesses.v
BadgeWitnesses.v
UserWitnesses.v
