(* ===== verification/Prelude.v ===== *)
(** * Huski Finance: a verification library for a leveraged-farming protocol

    The repository holds the Solidity contracts of a leveraged-farming protocol on BNB
    Chain (src/contracts) and the TypeScript that runs it: the Merkle airdrop tools
    (src/utils), the deployment scripts (src/deploy/scripts), the setup scripts that
    operate the deployed contracts, most of them through a timelock (src/deploy/setup), and
    the scripts that check a deployment (src/validate).  This library models the TypeScript,
    and the contracts twice: as their owners configure them, on a chain of accounts that
    the scripts act on, and as their users move funds through them.

    ** The parts and the files that model them

    - The airdrop.  Buffers.v: Node buffers, their order, hexadecimal, Solidity's packed
      encoding.  MerkleTree.v, BalanceTree.v, ParseBalanceMap.v: the files of the same names
      under src/utils.  MerkleDistributor.v: the contract that pays the claims.
    - Arithmetic.  Evm.v: messages, SafeMath, ownership, the ABI.  Uint.v: tactics for it.
      HuskyMath.v: the square root.  Amm.v: the prices of the exchange's library, the value
      of LP tokens, the amounts the strategies trade.  InterestModel.v: the three models.
      Sums.v: sums over Solidity mappings.
    - The contracts as they are configured.  Timelock.v, HuskyToken.v, FairLaunch.v,
      Lending.v (vault and worker configurations, debt token, relayer, oracle, vault) and
      Workers.v (workers, strategies): one Record per contract and one function per
      operation, with the guards in the order of the source and [Err] for a revert.
      Shield.v: the contract that owns FairLaunch once it is decentralised; its forwarding
      functions are external calls and so in Chain.v.
    - The chain.  Chain.v: the contracts at their addresses behind their proxies, the
      dispatch of calldata to the function tables, and the external call --
      executeTransaction of the timelock calls back into it.
    - The protocol at work.  Bank.v: Vault.sol's interest, deposit, withdraw, work and kill
      and what a strategy may call back.  Strategies.v: execute of the six strategies.
      Farm.v: PancakeswapV2Worker.sol's work, health, liquidate and reinvest, WorkerConfig.sol's
      stability check and WNativeRelayer.sol's withdraw, at their addresses over a market.
      Staking.v: FairLaunch.sol for its users, with the debt tokens that are staked.
      HuskyToken.v: transfers, locks, delegation and votes too.
      Badges.v: ComplexPriceOracle.sol, BadgePoints.sol, BadgeNFT.sol; Staking.v calls the
      first two as FairLaunch does, and BadgeRelayer.v joins all of them to FairLaunch.
      Offering.v: PublicOfferingConfig.sol and PublicOffering.sol, with three sales over one
      configuration.
    - The scripts.  Script.v: JavaScript values and their ABI coercion by ethers, the JSON
      configuration, FileService.write (src/deploy/utils/file.ts), transactions with and
      without a gas limit, contract and proxy deployment; a script is a state and error
      monad in which everything done before an exception stays done.  CoreScripts.v:
      001 to 007.  VaultScripts.v: 010-1 to 010-8 and 011-1 to 011-8.  WorkerScripts.v: 012,
      013 and 014-1 to 014-8.  TimelockScripts.v: s001, s007, s009 to s012, s014 to s016 and
      s020.  OwnerScripts.v: s004, s005, s008, h001 and h003.  ProductScripts.v: 020 to 023
      and s003. Validate.v: the validation of vaults and oracles. UserScripts.v: s002 and
      the validation of the workers' stability, over the protocol at work. Where the files
      of a family differ in constants only, there is one function and an instance per file.

    ** What the theorems show

    - MerkleTree.v, BalanceTree.v: the constructor terminates on every non-empty list, the
      tree depends on the set of leaves only, proofs of leaves exist, are short and verify,
      and what verifies is a leaf up to a collision of the hash.  ParseBalanceMap.v: the
      published claims are the input, in any order of it, with distinct indices and the
      right total, and each verifies; bad input aborts.  MerkleDistributor.v: what the
      contract pays is on the list, once, and the whole list can be claimed in any order.
    - BankTheory.v: the books of a vault as an invariant of every history of calls; the
      functions for strategies are closed outside of work.  BankValue.v: what lenders hold
      through deposits, withdrawals, work and kill; a position just worked on cannot be
      killed in its block.  FarmTheory.v: a worker's call keeps its books and never dilutes
      the other positions.  Protocol.v: vaults, workers, strategies, the relayer, the
      configurations and FairLaunch put together discharge what BankTheory.v and BankValue.v
      assume; debt moves at oracle prices only.  StakingTheory.v: stakes are backed and who
      funded one can take it out.  HuskyVotes.v: past votes are final and the search finds them.
      HuskyLocks.v: locked tokens are held and released.  HuskyMath.v, Amm.v,
      InterestModel.v: the square root is exact, the trades are optimal, rates are monotone.
    - TimelockTheory.v: an abstract transition system of the timelock and its invariant;
      what is executed was queued the minimal delay before, is in its window, and is not
      replayed.  ChainTheory.v: every call on the chain, nested or not, is a sequence of
      transitions of every timelock on it (a refinement), so the guarantees hold there.
      Governance.v: what the timelock owns, with its proxy administrator, changes through it
      only.  FairLaunchTheory.v: the invariant of the pools; bounds under which setPool
      cannot overflow.  ShieldTheory.v (on Watch.v, what calls can do to two contracts): once
      Shield owns it, FairLaunch keeps its owner and its pools' tokens for good, and Shield
      mints what it counts.
    - Pending.v: what the frontend is told is pending is what a harvest pays.  BadgeTheory.v:
      the invariant of the badges' grades.  BadgeLocks.v: the counts of grades are those of
      the badges that exist, unless an operator upgrades one that does not; the HUSKI locked
      for badges is there through every history of the relayer, and anyone may take a badge.
      OfferingTheory.v: the offering's books, its invitees, and native currency it traps.
    - CoreScriptTheory.v, PipelineTheory.v: what scripts 001 to 010 leave, run in order.
      VaultScriptTheory.v, StrategyTheory.v, WorkerRuns.v (on Effects.v and WorkerTheory.v):
      what 011, 012, 013 and 014 leave, and how 011 and 014-1 fail.  OwnerScriptTheory.v:
      the owner's setup scripts.  TimelockScriptTheory.v, TimelockScriptRuns.v: the commands
      a setup script prints are the transactions it queued; run in their window they do what
      the script spells out, and those of s010 and s016 can only revert.  ProductScriptTheory.v:
      the three sales that 022 deploys.  UserScriptTheory.v: the first deposit of a vault, and
      how anyone can prevent it.  ValidateTheory.v:
      deployed workers pass the validation; the oracle's answers and their truncation.
    - Instances.v, ChainInstances.v, MarketInstances.v and the files of witnesses: concrete
      instances of every interface, and theorems that have hypotheses applied to concrete
      inputs.

    ** Interfaces

    Code that is not in the repository is a type class with the laws relied on:
    [EthereumJsUtil] and [Ethers] (hashing, addresses, big numbers), [AbiCoder] (the codec
    inverts and types what it decodes), [ERC20] and [MerkleProofLib] and [OpenZeppelin] (the
    reentrancy guard and the token base), [EthersNumbers] (parseEther, BigNumber.from),
    [Network] (signer, block times, fresh addresses of created contracts), [Selectors] (the
    selectors of the known signatures differ), [Signatures] (the recovery of signers) and
    [Pancake] (what the exchange's views answer), [Aggregators] (the price feeds of
    Chainlink) and [ERC721] (the token base of the badges).  FairLaunch meets its tokens through the
    interface [Tokens], which Chain.v implements by calls on the chain and Staking.v on its
    own record.  No hash is assumed injective: theorems that need it exhibit a collision.

    The protocol at work is built on interfaces too.  The vault sees tokens ([Ledger]), the
    relayer ([NativeRelayer]) and everything it calls ([Surroundings]); its theorems are
    proved from laws of these ([Lawful]: what a worker may do to the vault that calls it;
    [BaseToken] and [PaymentLaws]: transfers move what they say, payments do not change
    prices).  Farm.v implements the interfaces by the code of the other contracts and
    Protocol.v proves the laws, down to the market of third parties: [Ledger] and [Exchange]
    (router, pairs, MasterChef), [Chef] (it keeps stakes), [PlainToken] (no fees on
    transfers) and [Pairs] (payments are no trades); and [Rewards], which Protocol.v
    implements by Staking.v.

    ** Bounds

    [getLayers] takes the number of leaves as fuel, which is enough as every layer is
    shorter than the one before (proved).  The search for past votes has 33 steps of fuel,
    enough for lists whose length has 32 bits (proved).  External calls carry the EVM's
    remaining call depth, 1024 at the outermost.  [max_creations] bounds how many contracts
    get addresses of their own; theorems on scripts ask for the room the script needs.

    ** Not modelled

    The chain of the scripts has the functions that configure the contracts, the protocol at
    work those that move funds; there is no single state with both. h002, which opens a
    position with a gas limit that the call cannot run in. CakeMaxi workers and the
    strategies, oracles and configurations the scripts do not deploy; BadgeBonus,
    StronkHusky, FairLaunchV2, LinearRelease and the mocks. The testnet scripts 000 and
    s013, which drive third-party exchange contracts; s006, an upgrade by the plugin; the
    build files. Gas, account nonces, the deployment records by which hardhat-deploy and the
    upgrades plugin skip repeated work, and console lines other than the commands to run
    later. An upgrade changes the implementation slot of a proxy and keeps the modelled
    functions. A call to a function outside the tables reverts; calls that name no
    function of PublicOffering are accepted, by its payable fallback. The native currency of the
    badge relayer is not followed, as no call that brings some succeeds. Of the distributor,
    its owner and the owner's functions, which deposit and withdraw tokens; of the proxies,
    upgradeAndCall, which also runs code of the new implementation. Events are modelled
    for the timelock. *)

From stdpp Require Export prelude gmap strings sorting list.
From Stdlib Require Export ZArith Lia.

#[global] Arguments Nat.modulo : simpl never.
#[global] Arguments Nat.div : simpl never.

(** ** Failure

    JavaScript code throws and Solidity code reverts; both abort the current
    computation with a message.  [result] is the type of computations that may
    do so. *)

Inductive result (A : Type) : Type :=
| Ok (a : A)
| Err (msg : string).
Arguments Ok {A} a.
Arguments Err {A} msg.

#[export] Instance result_ret : MRet result := fun A a => Ok a.
#[export] Instance result_bind : MBind result := fun A B f m =>
  match m with
  | Ok a => f a
  | Err msg => Err msg
  end.
#[export] Instance result_fmap : FMap result := fun A B f m =>
  match m with
  | Ok a => Ok (f a)
  | Err msg => Err msg
  end.

(** [require cond msg] is Solidity's [require] and also the shape of
    [if (!cond) throw new Error(msg)]. *)
Definition require (cond : bool) (msg : string) : result unit :=
  if cond then Ok tt else Err msg.

(** An absent value ([undefined], a failed library call) turned into a failure. *)
Definition of_option {A} (o : option A) (msg : string) : result A :=
  match o with
  | Some a => Ok a
  | None => Err msg
  end.

Definition is_ok {A} (r : result A) : bool :=
  match r with
  | Ok _ => true
  | Err _ => false
  end.

Section ResultLemmas.
Context {A B : Type}.

Lemma bind_ext (r : result A) (f g : A -> result B) :
  (forall a, r = Ok a -> f a = g a) -> r ≫= f = r ≫= g.
Proof. destruct r; cbn; auto. Qed.

Lemma bind_Ok (r : result A) (f : A -> result B) (b : B) :
  r ≫= f = Ok b <-> exists a, r = Ok a /\ f a = Ok b.
Proof. destruct r; simpl; split; naive_solver. Qed.

Lemma fmap_Ok (r : result A) (f : A -> B) (b : B) :
  f <$> r = Ok b <-> exists a, r = Ok a /\ f a = b.
Proof. destruct r; simpl; split; naive_solver. Qed.

Lemma of_option_Ok (o : option A) msg (a : A) :
  of_option o msg = Ok a <-> o = Some a.
Proof. destruct o; simpl; split; naive_solver. Qed.

Lemma require_Ok (c : bool) msg u : require c msg = Ok u <-> c = true.
Proof. destruct c, u; simpl; split; naive_solver. Qed.
End ResultLemmas.

(** Loops over an array with an accumulator that may fail. *)
Fixpoint foldM {A B} (f : B -> A -> result B) (b : B) (l : list A) : result B :=
  match l with
  | [] => Ok b
  | a :: l => b ← f b a; foldM f b l
  end.

Lemma foldM_app {A B} (f : B -> A -> result B) b (l k : list A) :
  foldM f b (l ++ k) = (b ← foldM f b l; foldM f b k).
Proof.
  revert b; induction l as [|a l IH]; intros b; simpl; [done|].
  destruct (f b a); simpl; [apply IH|done].
Qed.

(** An invariant preserved by every iteration holds at the end. *)
Lemma foldM_invariant {A B} (P : B -> Prop) (f : B -> A -> result B) l b b' :
  P b -> (forall b a b', a ∈ l -> P b -> f b a = Ok b' -> P b') ->
  foldM f b l = Ok b' -> P b'.
Proof.
  revert b; induction l as [|a l IH]; intros b Hb Hstep Hrun; simpl in *.
  - by simplify_eq.
  - apply bind_Ok in Hrun as (b1 & H1 & H2).
    eapply IH; [|set_solver|done]. eapply Hstep; [|done..]. set_solver.
Qed.

(** ** Automation *)

(** Breaks successful computations into their successful steps. *)
Ltac inv_result :=
  repeat match goal with
  | H : _ ≫= _ = Ok _ |- _ => apply bind_Ok in H as (? & ? & ?)
  | H : _ <$> _ = Ok _ |- _ => apply fmap_Ok in H as (? & ? & ?)
  | H : of_option _ _ = Ok _ |- _ => apply of_option_Ok in H
  | H : require _ _ = Ok _ |- _ => apply require_Ok in H
  | H : Ok _ = Ok _ |- _ => injection H as ?
  | H : Err _ = Ok _ |- _ => discriminate H
  | H : mret _ = Ok _ |- _ => unfold mret, result_ret in H
  | x : unit |- _ => destruct x
  | H : (_, _) = (_, _) |- _ => injection H as ? ?
  end.

(** Boolean tests of the code turned into propositions. *)
Ltac to_props :=
  repeat match goal with
  | H : bool_decide _ = true |- _ => apply bool_decide_eq_true in H
  | H : bool_decide _ = false |- _ => apply bool_decide_eq_false in H
  | H : _ && _ = true |- _ => apply andb_true_iff in H as [? ?]
  | H : (_ <=? _)%Z = true |- _ => apply Z.leb_le in H
  | H : (_ <? _)%Z = true |- _ => apply Z.ltb_lt in H
  | H : (_ =? _)%Z = true |- _ => apply Z.eqb_eq in H
  | H : (_ <=? _)%Z = false |- _ => apply Z.leb_gt in H
  | H : (_ <? _)%Z = false |- _ => apply Z.ltb_ge in H
  end.

(** Proves [x ∈ l] for a concrete list [l]. *)
Ltac in_list := first [by left | right; in_list].

(** ** Lists *)

(** Two-step induction: the shape of loops that consume elements in pairs. *)
Lemma list_pair_ind {A} (P : list A -> Prop) :
  P [] -> (forall x, P [x]) -> (forall x y l, P l -> P (x :: y :: l)) ->
  forall l, P l.
Proof.
  intros H0 H1 H2 l. enough (P l /\ forall x, P (x :: l)) by naive_solver.
  induction l as [|y l [IH1 IH2]]; naive_solver.
Qed.

Lemma sum_list_Z_permutation (l k : list Z) :
  l ≡ₚ k -> foldr Z.add 0%Z l = foldr Z.add 0%Z k.
Proof. induction 1; simpl; lia. Qed.

Lemma list_choice {A B} (P : A -> B -> Prop) (l : list A) :
  (forall x, x ∈ l -> exists y, P x y) -> exists k, Forall2 P l k.
Proof.
  induction l as [|x l IH]; intros H; [by exists []|].
  destruct (H x) as [y Hy]; [by left|].
  destruct IH as [k Hk]; [intros ??; apply H; by right|]. exists (y :: k). by constructor.
Qed.

Lemma Forall2_conj {A B} (P Q : A -> B -> Prop) l k :
  Forall2 (fun x y => P x y /\ Q x y) l k -> Forall2 P l k /\ Forall2 Q l k.
Proof. induction 1 as [|x y l k [??] _ [??]]; split; by constructor. Qed.

Lemma sum_list_Z_nonneg (l : list Z) :
  (forall z, z ∈ l -> (0 <= z)%Z) -> (0 <= foldr Z.add 0 l)%Z.
Proof.
  induction l as [|z l IH]; intros H; [done|]. cbn [foldr].
  pose proof (H z ltac:(by left)). assert (0 <= foldr Z.add 0 l)%Z; [|lia].
  apply IH. intros ??. apply H. by right.
Qed.

Lemma Forall2_permute_l {A B} (P : A -> B -> Prop) l l' k :
  l ≡ₚ l' -> Forall2 P l k -> exists k', Forall2 P l' k' /\ k ≡ₚ k'.
Proof.
  intros Hp. revert k. induction Hp as [|x l l' _ IH|x y l|l1 l2 l3 _ IH1 _ IH2]; intros k Hk.
  - inversion Hk; subst. by exists [].
  - inversion Hk as [|? y ? k0 Hxy Hk0]; subst. destruct (IH k0 Hk0) as (k' & ? & ?).
    exists (y :: k'). split; [by constructor|by constructor].
  - inversion Hk as [|? a ? k0 Ha Hk0]; subst. inversion Hk0 as [|? b ? k1 Hb Hk1]; subst.
    exists (b :: a :: k1). split; [by repeat constructor|constructor].
  - destruct (IH1 k Hk) as (k2 & Hk2 & Hp2), (IH2 k2 Hk2) as (k3 & ? & ?).
    exists k3. split; [done|by etrans].
Qed.

Create HintDb huski.
