(* ===== verification/Sums.v ===== *)
(** * Sums over finite maps

    The total of a quantity over the entries of a map -- debt shares over positions, shares
    over the positions of a worker, stakes over the users of a pool -- and how one write
    changes it.  An absent key counts as the default entry, as Solidity's mappings read. *)

From S2P Require Import Prelude.

Open Scope Z_scope.

Section Sum.
Context `{Countable K} {A : Type} (zero : A) (f : A -> Z) (Hzero : f zero = 0).

Definition map_sum (m : gmap K A) : Z := foldr Z.add 0 (f <$> (map_to_list m).*2).

Definition at_ (m : gmap K A) (k : K) : A := default zero (m !! k).

Lemma map_sum_empty : map_sum ∅ = 0.
Proof. unfold map_sum. by rewrite map_to_list_empty. Qed.

Lemma map_sum_insert_new m k x : m !! k = None -> map_sum (<[ k := x ]> m) = f x + map_sum m.
Proof.
  intros Hk. unfold map_sum.
  rewrite (sum_list_Z_permutation _ (f <$> (((k, x) :: map_to_list m).*2))); [done|].
  by rewrite map_to_list_insert.
Qed.

(** One write replaces the entry's share of the sum. *)
Lemma map_sum_insert m k x : map_sum (<[ k := x ]> m) = map_sum m - f (at_ m k) + f x.
Proof.
  unfold at_. destruct (m !! k) as [y|] eqn:Hk; cbn.
  - rewrite <-insert_delete_eq, map_sum_insert_new by apply lookup_delete_eq.
    rewrite <-(insert_delete_id m k y Hk) at 2.
    rewrite map_sum_insert_new by apply lookup_delete_eq. lia.
  - rewrite map_sum_insert_new, Hzero by done. lia.
Qed.

Lemma map_sum_nonneg m : (forall k, 0 <= f (at_ m k)) -> 0 <= map_sum m.
Proof.
  intros Hf. apply sum_list_Z_nonneg. intros z Hz. apply list_elem_of_fmap in Hz as (x & -> & Hx).
  apply list_elem_of_fmap in Hx as ([k y] & -> & Hk). apply elem_of_map_to_list in Hk.
  specialize (Hf k). unfold at_ in Hf. by rewrite Hk in Hf.
Qed.

(** An entry is at most the sum. *)
Lemma map_sum_le m k : (forall k, 0 <= f (at_ m k)) -> f (at_ m k) <= map_sum m.
Proof.
  intros Hf. destruct (m !! k) as [y|] eqn:Hk.
  - rewrite <-(insert_delete_id m k y Hk), map_sum_insert_new by apply lookup_delete_eq.
    unfold at_. rewrite lookup_insert_eq. cbn. enough (0 <= map_sum (delete k m)) by lia.
    apply map_sum_nonneg. intros j. unfold at_. destruct (decide (j = k)) as [->|Hj].
    + rewrite lookup_delete_eq. cbn. lia.
    + rewrite lookup_delete_ne by done. apply Hf.
  - unfold at_ at 1. rewrite Hk. cbn. rewrite Hzero. by apply map_sum_nonneg.
Qed.

Lemma map_sum_delete m k : map_sum m = f (at_ m k) + map_sum (delete k m).
Proof.
  unfold at_. destruct (m !! k) as [y|] eqn:Hk; cbn.
  - rewrite <-(insert_delete_id m k y Hk) at 1. by rewrite map_sum_insert_new by apply lookup_delete_eq.
  - rewrite delete_id, Hzero by done. lia.
Qed.

(** The sum depends on what the keys read only. *)
Lemma map_sum_ext m m' : (forall k, f (at_ m' k) = f (at_ m k)) -> map_sum m' = map_sum m.
Proof.
  revert m'. induction m as [|k x m Hk IH] using map_ind; intros m' Hf.
  - unfold at_ in Hf. rewrite map_sum_empty.
    induction m' as [|k x m' Hk IH] using map_ind; [apply map_sum_empty|].
    rewrite map_sum_insert_new by done. pose proof (Hf k) as Hx.
    rewrite lookup_insert_eq, lookup_empty in Hx. cbn in Hx. rewrite Hx, Hzero, IH; [done|].
    intros j. destruct (decide (j = k)) as [->|Hj]; [by rewrite Hk|].
    by rewrite <-(Hf j), lookup_insert_ne.
  - rewrite (map_sum_delete m' k), Hf, (map_sum_delete (<[ k := x ]> m) k). f_equal.
    rewrite delete_insert_id by done. apply IH. intros j. unfold at_ in *.
    destruct (decide (j = k)) as [->|Hj]; [by rewrite lookup_delete_eq, Hk|].
    rewrite lookup_delete_ne by done. rewrite Hf, lookup_insert_ne by done. done.
Qed.
End Sum.
