(* ===== verification/Buffers.v ===== *)
(** * Buffers

    Node's [Buffer] as a list of bytes: [Buffer.compare], [Array.prototype.sort]
    with it, [toString('hex')] and [Buffer.from(_, 'hex')]; Solidity's packed
    encoding of [(uint256, address, uint256)].  The files under src/utils
    handle Merkle nodes with these operations. *)

From S2P Require Import Prelude.
From Stdlib Require Import Strings.Byte Strings.Ascii.

Abbreviation Buffer := (list byte).

#[export] Instance byte_eq_dec : EqDecision byte.
Proof. intros x y. destruct (Byte.byte_eq_dec x y); [by left|by right]. Defined.

#[export] Instance byte_countable : Countable byte :=
  inj_countable Byte.to_N Byte.of_N Byte.of_to_N.

(** ** Comparison: [Buffer.compare] *)

Fixpoint compare (a b : Buffer) : comparison :=
  match a, b with
  | [], [] => Eq
  | [], _ :: _ => Lt
  | _ :: _, [] => Gt
  | x :: a, y :: b =>
      match N.compare (Byte.to_N x) (Byte.to_N y) with
      | Eq => compare a b
      | c => c
      end
  end.

(** [buf_le a b] is the order [Array.prototype.sort(Buffer.compare)] sorts by. *)
Definition buf_le (a b : Buffer) : Prop := compare a b <> Gt.

#[export] Instance buf_le_dec : RelDecision buf_le.
Proof. intros a b. unfold buf_le. destruct (compare a b); [left|left|right]; congruence. Defined.

Lemma to_N_inj x y : Byte.to_N x = Byte.to_N y -> x = y.
Proof.
  intros H. assert (Some x = Some y) as [=]; [|done].
  by rewrite <-!Byte.of_to_N, H.
Qed.

Lemma compare_refl a : compare a a = Eq.
Proof. induction a; simpl; [done|]. by rewrite N.compare_refl. Qed.

Lemma compare_Eq a b : compare a b = Eq -> a = b.
Proof.
  revert b; induction a as [|x a IH]; intros [|y b] H; simpl in *; try done.
  destruct (N.compare_spec (Byte.to_N x) (Byte.to_N y)); try done.
  f_equal; [by apply to_N_inj|by apply IH].
Qed.

Lemma compare_antisym a b : compare b a = CompOpp (compare a b).
Proof.
  revert b; induction a as [|x a IH]; intros [|y b]; simpl; try done.
  rewrite (N.compare_antisym (Byte.to_N x) (Byte.to_N y)).
  destruct (N.compare (Byte.to_N x) (Byte.to_N y)); simpl; auto.
Qed.

Lemma compare_le_trans a b c :
  compare a b <> Gt -> compare b c <> Gt -> compare a c <> Gt.
Proof.
  revert b c; induction a as [|x a IH]; intros [|y b] [|z c]; simpl; try done.
  destruct (N.compare_spec (Byte.to_N x) (Byte.to_N y));
  destruct (N.compare_spec (Byte.to_N y) (Byte.to_N z));
  destruct (N.compare_spec (Byte.to_N x) (Byte.to_N z));
    try done; try lia; try congruence; eauto.
Qed.

#[export] Instance buf_le_trans : Transitive buf_le.
Proof. intros a b c. apply compare_le_trans. Qed.

#[export] Instance buf_le_total : Total buf_le.
Proof.
  intros a b. unfold buf_le. rewrite (compare_antisym a b).
  destruct (compare a b); simpl; [left|left|right]; congruence.
Qed.

#[export] Instance buf_le_antisym : AntiSymm (=) buf_le.
Proof.
  intros a b. unfold buf_le. rewrite (compare_antisym a b).
  destruct (compare a b) eqn:E; simpl; try congruence.
  intros _ _. by apply compare_Eq.
Qed.

(** Sorting a permutation gives the same array: elements equal for
    [Buffer.compare] are equal as buffers, so stability plays no role. *)
Definition sort (l : list Buffer) : list Buffer := merge_sort buf_le l.

Lemma sort_Permutation l : sort l ≡ₚ l.
Proof. apply merge_sort_Permutation. Qed.

Lemma sort_Sorted l : StronglySorted buf_le (sort l).
Proof. apply StronglySorted_merge_sort; apply _. Qed.

Lemma sort_unique l k : l ≡ₚ k -> sort l = sort k.
Proof.
  intros H. apply (StronglySorted_unique buf_le); [apply sort_Sorted..|].
  by rewrite !sort_Permutation.
Qed.

Lemma elem_of_sort x l : x ∈ sort l <-> x ∈ l.
Proof. by rewrite sort_Permutation. Qed.

(** ** Hexadecimal: [toString('hex')] and [Buffer.from(_, 'hex')] *)

Definition hex_digit (n : N) : ascii :=
  ascii_of_N (if (n <? 10)%N then 48 + n else 87 + n)%N.

(** Both cases of [a]-[f] are read; anything else is not a hex digit. *)
Definition unhex_digit (c : ascii) : option N :=
  let n := N_of_ascii c in
  if ((48 <=? n) && (n <=? 57))%N then Some (n - 48)%N
  else if ((97 <=? n) && (n <=? 102))%N then Some (n - 87)%N
  else if ((65 <=? n) && (n <=? 70))%N then Some (n - 55)%N
  else None.

Fixpoint hex (b : Buffer) : string :=
  match b with
  | [] => EmptyString
  | x :: b =>
      let n := Byte.to_N x in
      String (hex_digit (n / 16)) (String (hex_digit (n mod 16)) (hex b))
  end.

(** Node stops at the first pair of characters that is not two hex digits. *)
Fixpoint from_hex (s : string) : Buffer :=
  match s with
  | String c1 (String c2 s) =>
      match unhex_digit c1, unhex_digit c2 with
      | Some h, Some l =>
          match Byte.of_N (16 * h + l) with
          | Some x => x :: from_hex s
          | None => []
          end
      | _, _ => []
      end
  | _ => []
  end.

Lemma from_hex_byte x s :
  from_hex (String (hex_digit (Byte.to_N x / 16)) (String (hex_digit (Byte.to_N x mod 16)) s))
  = x :: from_hex s.
Proof. by destruct x. Qed.

Lemma from_hex_hex b : from_hex (hex b) = b.
Proof. induction b as [|x b IH]; [done|]. cbn [hex]. by rewrite from_hex_byte, IH. Qed.

Lemma hex_inj a b : hex a = hex b -> a = b.
Proof. intros H. by rewrite <-(from_hex_hex a), H, from_hex_hex. Qed.

Lemma hex_length b : String.length (hex b) = 2 * length b.
Proof. induction b; simpl; lia. Qed.

(** [s.substr(2)] *)
Definition substr2 (s : string) : string :=
  match s with
  | String _ (String _ s) => s
  | _ => EmptyString
  end.

Lemma substr2_0x s : substr2 ("0x" +:+ s) = s.
Proof. done. Qed.

(** ** Integers as big-endian bytes *)

Definition byte_of_Z (z : Z) : byte :=
  match Byte.of_N (Z.to_N (z mod 256)) with
  | Some x => x
  | None => "000"%byte
  end.

(** The [n] low bytes of [z], most significant first. *)
Fixpoint be_bytes (n : nat) (z : Z) : Buffer :=
  match n with
  | O => []
  | S n => be_bytes n (z / 256) ++ [byte_of_Z z]
  end.

Lemma be_bytes_length n z : length (be_bytes n z) = n.
Proof.
  revert z; induction n as [|n IH]; intros z; simpl; [done|].
  rewrite length_app, IH; simpl; lia.
Qed.

Lemma byte_of_Z_inj a b : byte_of_Z a = byte_of_Z b -> (a mod 256 = b mod 256)%Z.
Proof.
  unfold byte_of_Z. intros H.
  pose proof (Z.mod_pos_bound a 256 ltac:(lia)).
  pose proof (Z.mod_pos_bound b 256 ltac:(lia)).
  assert (forall z, (0 <= z < 256)%Z -> exists x, Byte.of_N (Z.to_N z) = Some x) as Hsome.
  { intros z Hz. destruct (Byte.of_N (Z.to_N z)) eqn:E; [eauto|].
    apply Byte.of_N_None_iff in E. lia. }
  destruct (Hsome (a mod 256)%Z) as [x Hx], (Hsome (b mod 256)%Z) as [y Hy]; [lia..|].
  rewrite Hx, Hy in H. subst y.
  apply Byte.to_of_N_iff in Hx, Hy. lia.
Qed.

Lemma be_bytes_inj n a b :
  (0 <= a < 256 ^ Z.of_nat n)%Z -> (0 <= b < 256 ^ Z.of_nat n)%Z ->
  be_bytes n a = be_bytes n b -> a = b.
Proof.
  revert a b; induction n as [|n IH]; intros a b Ha Hb H; simpl in *; [lia|].
  apply app_inj_2 in H as [H1 [= H2]]; [|done].
  apply byte_of_Z_inj in H2.
  assert (256 ^ Z.of_nat (S n) = 256 * 256 ^ Z.of_nat n)%Z as E.
  { rewrite Nat2Z.inj_succ, Z.pow_succ_r; lia. }
  assert (a / 256 = b / 256)%Z.
  { apply IH; [..|done]; split; try (apply Z.div_pos; lia);
      apply Z.div_lt_upper_bound; lia. }
  pose proof (Z.div_mod a 256). pose proof (Z.div_mod b 256). lia.
Qed.

(** Solidity's [abi.encodePacked(uint256, address, uint256)]. *)
Definition UINT256 : Z := 2 ^ 256.

Definition encodePacked (index : Z) (account : Buffer) (amount : Z) : Buffer :=
  be_bytes 32 index ++ account ++ be_bytes 32 amount.

#[global] Arguments be_bytes : simpl never.
#[global] Arguments encodePacked : simpl never.

Lemma encodePacked_length i acc m :
  length acc = 20 -> length (encodePacked i acc m) = 84.
Proof. intros H. unfold encodePacked. rewrite !length_app, !be_bytes_length. lia. Qed.

Lemma encodePacked_inj i acc m i' acc' m' :
  (0 <= i < UINT256)%Z -> (0 <= i' < UINT256)%Z ->
  (0 <= m < UINT256)%Z -> (0 <= m' < UINT256)%Z ->
  length acc = length acc' ->
  encodePacked i acc m = encodePacked i' acc' m' -> i = i' /\ acc = acc' /\ m = m'.
Proof.
  unfold encodePacked, UINT256. intros Hi Hi' Hm Hm' Hlen H.
  apply app_inj_1 in H as [H1 H]; [|by rewrite !be_bytes_length].
  apply app_inj_1 in H as [H2 H3]; [|done].
  apply be_bytes_inj in H1, H3; [done|..]; replace (256 ^ Z.of_nat 32)%Z with (2 ^ 256)%Z by done; lia.
Qed.

#[export] Hint Resolve sort_Permutation sort_Sorted : huski.
