(* ===== verification/MerkleTree.v ===== *)
(** * The Merkle tree of src/utils/merkle-tree.ts

    Leaves are sorted and deduplicated, layers are built bottom-up by hashing
    neighbours (an odd last node is promoted unchanged), and a proof is the
    list of siblings on the path to the root.

    [keccak256] and [bufferToHex] come from the package ethereumjs-util; they
    are the interface [EthereumJsUtil] with the documented laws. *)

From S2P Require Import Prelude Buffers.

(** ** The library the code imports *)

Class EthereumJsUtil := {
  keccak256 : Buffer -> Buffer;
  bufferToHex : Buffer -> string;
  (** a digest has 32 bytes *)
  keccak256_length : forall b, length (keccak256 b) = 32;
  (** ["0x"] followed by the hexadecimal digits *)
  bufferToHex_spec : forall b, bufferToHex b = "0x" +:+ hex b
}.

(** A collision of the hash function: what a forged proof would exhibit. *)
Definition collision `{EthereumJsUtil} (x y : Buffer) : Prop :=
  x <> y /\ keccak256 x = keccak256 y.

Lemma length_collision `{EthereumJsUtil} x y :
  length x <> length y -> keccak256 x = keccak256 y -> collision x y.
Proof. intros Hl E. split; [congruence|done]. Qed.

Record MerkleTree := {
  elements : list Buffer;
  bufferElementPositionIndex : gmap string nat;
  layers : list (list Buffer)
}.

Section Definitions.
Context `{EthereumJsUtil}.

(** [elements.filter((el, idx) => idx === 0 || !elements[idx - 1].equals(el))] *)
Definition bufDedup (elements : list Buffer) : list Buffer :=
  snd <$> filter (fun p : nat * Buffer =>
                    p.1 = 0 \/ elements !! (p.1 - 1) <> Some p.2)
                 (imap pair elements).

Definition sortAndConcat (args : list Buffer) : Buffer := concat (sort args).

(** [undefined] is [None]. *)
Definition combinedHash (first second : option Buffer) : option Buffer :=
  match first, second with
  | None, _ => second
  | _, None => first
  | Some a, Some b => Some (keccak256 (sortAndConcat [a; b]))
  end.

Definition push (layer : list Buffer) (o : option Buffer) : list Buffer :=
  match o with
  | Some b => layer ++ [b]
  | None => layer
  end.

Definition getNextLayer (elements : list Buffer) : list Buffer :=
  foldl (fun layer (p : nat * Buffer) =>
           if decide (p.1 mod 2 = 0)
           then push layer (combinedHash (Some p.2) (elements !! (p.1 + 1)))
           else layer)
        [] (imap pair elements).

(** The [while] loop of [getLayers]; [fuel] bounds the iterations. *)
Fixpoint layers_loop (fuel : nat) (layers : list (list Buffer)) : result (list (list Buffer)) :=
  match last layers with
  | None => Err "empty layers"
  | Some l =>
      if decide (1 < length l) then
        match fuel with
        | O => Err "out of fuel"
        | S fuel => layers_loop fuel (layers ++ [getNextLayer l])
        end
      else Ok layers
  end.

Definition getLayers (elements : list Buffer) : result (list (list Buffer)) :=
  if decide (length elements = 0) then Err "empty tree"
  else layers_loop (length elements) [elements].

Definition positionIndex (elements : list Buffer) : gmap string nat :=
  foldl (fun memo (p : nat * Buffer) => <[bufferToHex p.2 := p.1]> memo)
        ∅ (imap pair elements).

(** The constructor. *)
Definition new_MerkleTree (elements0 : list Buffer) : result MerkleTree :=
  let elements := bufDedup (sort elements0) in
  layers ← getLayers elements;
  Ok {| elements := elements;
        bufferElementPositionIndex := positionIndex elements;
        layers := layers |}.

(** [this.layers[this.layers.length - 1][0]] *)
Definition getRoot (t : MerkleTree) : option Buffer :=
  l ← last (layers t); head l.

Definition getHexRoot (t : MerkleTree) : option string := bufferToHex <$> getRoot t.

Definition getPairElement (idx : nat) (layer : list Buffer) : option Buffer :=
  let pairIdx := if decide (idx mod 2 = 0) then idx + 1 else idx - 1 in
  if decide (pairIdx < length layer) then layer !! pairIdx else None.

Definition getProof (t : MerkleTree) (el : Buffer) : result (list Buffer) :=
  match bufferElementPositionIndex t !! bufferToHex el with
  | None => Err "Element does not exist in Merkle tree"
  | Some idx =>
      Ok (foldl (fun (acc : nat * list Buffer) layer =>
                   (acc.1 / 2, push acc.2 (getPairElement acc.1 layer)))
                (idx, []) (layers t)).2
  end.

(** Every element is a [Buffer] here, so the [isBuffer] check never throws. *)
Definition bufArrToHexArr (arr : list Buffer) : list string :=
  (fun el => "0x" +:+ hex el) <$> arr.

Definition getHexProof (t : MerkleTree) (el : Buffer) : result (list string) :=
  bufArrToHexArr <$> getProof t el.
End Definitions.

(** ** The pair hash *)

Section Hash.
Context `{EthereumJsUtil}.

Definition H2 (a b : Buffer) : Buffer := keccak256 (sortAndConcat [a; b]).

Lemma sortAndConcat_comm a b : sortAndConcat [a; b] = sortAndConcat [b; a].
Proof. unfold sortAndConcat. f_equal. apply sort_unique, perm_swap. Qed.

Lemma H2_comm a b : H2 a b = H2 b a.
Proof. unfold H2. by rewrite sortAndConcat_comm. Qed.

Lemma sortAndConcat_cases a b :
  sortAndConcat [a; b] = a ++ b \/ sortAndConcat [a; b] = b ++ a.
Proof.
  unfold sortAndConcat.
  destruct (Permutation_length_2_inv (Permutation_sym (sort_Permutation [a; b])))
    as [-> | ->]; simpl; rewrite app_nil_r; auto.
Qed.

Lemma sortAndConcat_length a b : length (sortAndConcat [a; b]) = length a + length b.
Proof. destruct (sortAndConcat_cases a b) as [-> | ->]; rewrite length_app; lia. Qed.

(** Equal concatenations of digests come from the same two digests. *)
Lemma sortAndConcat_inj a b c d :
  length a = 32 -> length b = 32 -> length c = 32 -> length d = 32 ->
  sortAndConcat [a; b] = sortAndConcat [c; d] -> a = c \/ a = d.
Proof.
  intros Ha Hb Hc Hd E.
  destruct (sortAndConcat_cases a b) as [Eab | Eab], (sortAndConcat_cases c d) as [Ecd | Ecd];
    rewrite Eab, Ecd in E; apply app_inj_1 in E as [??]; naive_solver congruence.
Qed.
End Hash.

(** ** One layer: the loop over indices is pairwise hashing *)

Section Layer.
Context `{EthereumJsUtil}.

Fixpoint pair_up (l : list Buffer) : list Buffer :=
  match l with
  | x :: y :: l => H2 x y :: pair_up l
  | l => l
  end.

Lemma getNextLayer_aux (pre l acc : list Buffer) :
  length pre mod 2 = 0 ->
  foldl (fun layer (p : nat * Buffer) =>
           if decide (p.1 mod 2 = 0)
           then push layer (combinedHash (Some p.2) ((pre ++ l) !! (p.1 + 1)))
           else layer)
        acc (imap (fun i => pair (length pre + i)) l)
  = acc ++ pair_up l.
Proof.
  revert pre acc. induction l as [|x|x y l IH] using list_pair_ind; intros pre acc Hpre.
  - simpl. by rewrite app_nil_r.
  - simpl. rewrite Nat.add_0_r. destruct (decide _); [|done].
    by rewrite lookup_app_r, lookup_ge_None_2 by (simpl; lia).
  - cbn [imap foldl]. cbn [fst snd compose]. rewrite Nat.add_0_r.
    destruct (decide (length pre mod 2 = 0)); [|done].
    destruct (decide ((length pre + 1) mod 2 = 0)) as [E|_].
    { rewrite Nat.Div0.add_mod, Hpre in E. done. }
    rewrite lookup_app_r by lia. replace (length pre + 1 - length pre) with 1 by lia.
    simpl. specialize (IH (pre ++ [x; y]) (acc ++ [H2 x y])).
    rewrite <-app_assoc in IH. simpl in IH. rewrite <-app_assoc in IH. simpl in IH.
    rewrite <-IH; rewrite length_app; change (length [x; y]) with 2.
    + f_equal. apply imap_ext. intros i z _. simpl. f_equal. lia.
    + by rewrite Nat.Div0.add_mod, Hpre.
Qed.

Lemma getNextLayer_pair_up l : getNextLayer l = pair_up l.
Proof. apply (getNextLayer_aux [] l []). done. Qed.

Lemma pair_up_length l : length (pair_up l) = (length l + 1) / 2.
Proof.
  induction l as [| |x y l IH] using list_pair_ind; [done..|].
  cbn [pair_up length]. rewrite IH.
  replace (S (S (length l)) + 1) with (length l + 1 + 1 * 2) by lia.
  rewrite Nat.div_add by lia. lia.
Qed.

Lemma pair_up_nonempty l : l <> [] -> pair_up l <> [].
Proof. by destruct l as [|x [|y l]]. Qed.

Definition pairIndex (i : nat) : nat := if decide (i mod 2 = 0) then i + 1 else i - 1.

Lemma getPairElement_lookup i l : getPairElement i l = l !! pairIndex i.
Proof.
  unfold getPairElement. fold (pairIndex i). destruct (decide _); [done|].
  symmetry. apply lookup_ge_None_2. lia.
Qed.

(** The node above position [i]: the pair hash, or the node itself when it
    has no sibling. *)
Lemma pair_up_lookup l i x :
  l !! i = Some x ->
  pair_up l !! (i / 2)
  = combinedHash (Some x) (getPairElement i l).
Proof.
  revert i; induction l as [|a|a b l IH] using list_pair_ind; intros i Hi; [done|..].
  - destruct i; [|done]. simpl in *. by simplify_eq.
  - destruct i as [|[|i]]; simpl in Hi; simplify_eq.
    + done.
    + cbn [pair_up]. change (1 / 2) with 0. cbn. unfold H2. by rewrite sortAndConcat_comm.
    + replace (S (S i)) with (i + 1 * 2) by lia. rewrite Nat.div_add by lia.
      rewrite Nat.add_1_r. etrans; [apply (IH i Hi)|]. f_equal.
      rewrite !getPairElement_lookup. unfold pairIndex. rewrite Nat.Div0.mod_add.
      pose proof (Nat.mod_upper_bound i 2). pose proof (Nat.div_mod_eq i 2).
      destruct (decide (i mod 2 = 0)).
      * by replace (i + 1 * 2 + 1) with (S (S (i + 1))) by lia.
      * by replace (i + 1 * 2 - 1) with (S (S (i - 1))) by lia.
Qed.
End Layer.

(** ** Deduplication *)

Section Dedup.
(** [dedup_from prev l] drops every element equal to its predecessor. *)
Fixpoint dedup_from (prev : option Buffer) (l : list Buffer) : list Buffer :=
  match l with
  | [] => []
  | x :: l =>
      if decide (prev = Some x) then dedup_from (Some x) l
      else x :: dedup_from (Some x) l
  end.

Lemma bufDedup_aux (pre l : list Buffer) :
  snd <$> filter (fun p : nat * Buffer =>
                    p.1 = 0 \/ (pre ++ l) !! (p.1 - 1) <> Some p.2)
                 (imap (fun i => pair (length pre + i)) l)
  = dedup_from (last pre) l.
Proof.
  revert pre. induction l as [|x l IH]; intros pre; [done|].
  simpl imap. rewrite Nat.add_0_r, filter_cons. cbn [fst snd].
  specialize (IH (pre ++ [x])).
  rewrite <-app_assoc, length_app, last_snoc in IH. simpl in IH.
  rewrite (imap_ext (fun i => pair (length pre + 1 + i)) ((fun i => pair (length pre + i)) ∘ S)) in IH
    by (intros; simpl; f_equal; lia).
  assert ((length pre = 0 \/ (pre ++ x :: l) !! (length pre - 1) <> Some x)
          <-> last pre <> Some x) as Hlast.
  { destruct pre as [|y pre _] using rev_ind; [naive_solver|].
    rewrite last_snoc, length_app, <-app_assoc, lookup_app_r by (simpl; lia).
    replace (length pre + length [y] - 1 - length pre) with 0 by (simpl; lia).
    simpl. split; [intros [H|H] [=]; [lia|congruence]|]. intros H; right. congruence. }
  cbn [dedup_from]. repeat case_decide; rewrite ?fmap_cons; cbn [snd]; rewrite ?IH; tauto.
Qed.

Lemma bufDedup_dedup_from l : bufDedup l = dedup_from None l.
Proof. apply (bufDedup_aux [] l). Qed.

Lemma elem_of_dedup_from prev l x :
  StronglySorted buf_le (option_list prev ++ l) ->
  x ∈ dedup_from prev l <-> x ∈ l /\ prev <> Some x.
Proof.
  revert prev. induction l as [|y l IH]; intros prev Hs; simpl; [set_solver|].
  assert (StronglySorted buf_le (y :: l)) as Hs'.
  { destruct prev; simpl in Hs; [by apply StronglySorted_inv in Hs as [??]|done]. }
  assert (prev = Some x -> x ∈ l -> x = y) as Hx.
  { intros -> Hin. apply StronglySorted_inv in Hs as [_ Hf].
    apply StronglySorted_inv in Hs' as [_ Hf'].
    rewrite Forall_forall in Hf, Hf'. apply (anti_symm buf_le); [apply Hf|apply Hf']; set_solver. }
  assert (Some y = Some x <-> x = y) as Hsome by (split; congruence).
  case_decide; subst; rewrite ?elem_of_cons, (IH (Some y)) by done; rewrite ?Hsome;
    destruct (decide (x = y)); subst; tauto.
Qed.

Lemma dedup_from_sorted prev l :
  StronglySorted buf_le (option_list prev ++ l) ->
  StronglySorted buf_le (dedup_from prev l) /\ NoDup (dedup_from prev l).
Proof.
  revert prev. induction l as [|y l IH]; intros prev Hs; simpl; [split; constructor|].
  assert (StronglySorted buf_le (y :: l)) as Hs'.
  { destruct prev; simpl in Hs; [by apply StronglySorted_inv in Hs as [??]|done]. }
  destruct (IH (Some y) Hs') as [IHs IHn].
  case_decide; [done|]. split; constructor; try done.
  - apply Forall_forall. intros z Hz. rewrite elem_of_dedup_from in Hz by done.
    apply StronglySorted_inv in Hs' as [_ Hf]. rewrite Forall_forall in Hf. naive_solver.
  - rewrite elem_of_dedup_from by done. naive_solver.
Qed.

Lemma elem_of_bufDedup l x : StronglySorted buf_le l -> x ∈ bufDedup l <-> x ∈ l.
Proof. intros Hs. rewrite bufDedup_dedup_from, elem_of_dedup_from by done. naive_solver. Qed.

Lemma bufDedup_NoDup l : StronglySorted buf_le l -> NoDup (bufDedup l).
Proof. intros Hs. rewrite bufDedup_dedup_from. by apply (dedup_from_sorted None). Qed.

Lemma bufDedup_Sorted l : StronglySorted buf_le l -> StronglySorted buf_le (bufDedup l).
Proof. intros Hs. rewrite bufDedup_dedup_from. by apply (dedup_from_sorted None). Qed.
End Dedup.

(** ** The position index *)

Section Index.
Context `{EthereumJsUtil}.

Lemma bufferToHex_inj a b : bufferToHex a = bufferToHex b -> a = b.
Proof.
  rewrite !bufferToHex_spec. intros E. apply hex_inj.
  by apply (inj (String.append "0x")) in E.
Qed.

Lemma positionIndex_aux (l : list Buffer) k (memo : gmap string nat) el i :
  NoDup l ->
  foldl (fun memo (p : nat * Buffer) => <[bufferToHex p.2 := p.1]> memo) memo
        (imap (fun j => pair (k + j)) l) !! bufferToHex el = Some i
  <-> (k <= i /\ l !! (i - k) = Some el) \/ (el ∉ l /\ memo !! bufferToHex el = Some i).
Proof.
  revert k memo. induction l as [|x l IH]; intros k memo Hnd; simpl.
  { set_solver. }
  apply NoDup_cons in Hnd as [Hx Hnd].
  rewrite (imap_ext _ (fun j => pair (S k + j))) by (intros; simpl; f_equal; lia).
  rewrite IH, Nat.add_0_r by done. destruct (decide (x = el)) as [->|Hne].
  - rewrite lookup_insert_eq. split.
    + intros [[Hi Hl]|[_ [=]]]; [|left; subst; by rewrite Nat.sub_diag].
      by apply list_elem_of_lookup_2 in Hl.
    + intros [[Hi Hl]|[Hn _]]; [|set_solver].
      destruct (i - k) as [|j] eqn:E.
      * right. split; [done|]. f_equal. lia.
      * simpl in Hl. by apply list_elem_of_lookup_2 in Hl.
  - rewrite lookup_insert_ne by (by intros ?%bufferToHex_inj).
    rewrite not_elem_of_cons. split.
    + intros [[Hi Hl]|Hr]; [left|right; naive_solver]. split; [lia|].
      by replace (i - k) with (S (i - S k)) by lia.
    + intros [[Hi Hl]|Hr]; [left|right; naive_solver].
      destruct (i - k) as [|j] eqn:E; [by simplify_eq/=|]. split; [lia|].
      by replace (i - S k) with j by lia.
Qed.

Lemma positionIndex_lookup l el i :
  NoDup l -> positionIndex l !! bufferToHex el = Some i <-> l !! i = Some el.
Proof.
  intros Hnd. unfold positionIndex.
  pose proof (positionIndex_aux l 0 ∅ el i Hnd) as E. rewrite Nat.sub_0_r in E.
  rewrite E, lookup_empty. split; [naive_solver|]. intros ?. left. split; [lia|done].
Qed.

Lemma positionIndex_None l el :
  NoDup l -> positionIndex l !! bufferToHex el = None <-> el ∉ l.
Proof.
  intros Hnd. split.
  - intros E Hin. apply list_elem_of_lookup in Hin as [i Hi].
    apply positionIndex_lookup in Hi; [|done]. congruence.
  - intros Hn. destruct (positionIndex l !! bufferToHex el) as [i|] eqn:E; [|done].
    apply positionIndex_lookup in E; [|done]. by apply list_elem_of_lookup_2 in E.
Qed.
End Index.

(** ** The layers *)

Section Layers.
Context `{EthereumJsUtil}.

(** What [getLayers] computes: repeated pairing down to one node. *)
Inductive Layers : list Buffer -> list (list Buffer) -> Prop :=
| Layers_root x : Layers [x] [[x]]
| Layers_step l ls : 1 < length l -> Layers (pair_up l) ls -> Layers l (l :: ls).

Lemma pair_up_shrinks l : 1 < length l -> 0 < length (pair_up l) < length l.
Proof.
  intros Hl. rewrite pair_up_length.
  pose proof (Nat.div_mod_eq (length l + 1) 2).
  pose proof (Nat.mod_upper_bound (length l + 1) 2 ltac:(lia)). lia.
Qed.

(** As many iterations as there are leaves are enough. *)
Lemma layers_loop_spec fuel pre l :
  0 < length l <= S fuel ->
  exists ls, layers_loop fuel (pre ++ [l]) = Ok (pre ++ ls) /\ Layers l ls.
Proof.
  revert pre l. induction fuel as [|fuel IH]; intros pre l Hl;
    simpl; rewrite last_snoc; case_decide as Hlen; try lia.
  - exists [l]. split; [done|]. destruct l as [|x [|]]; simpl in *; [lia|constructor|lia].
  - destruct (IH (pre ++ [l]) (pair_up l)) as (ls & E & HL).
    { pose proof (pair_up_shrinks l Hlen). lia. }
    exists (l :: ls). rewrite getNextLayer_pair_up, E, <-app_assoc. split; [done|].
    by constructor.
  - exists [l]. split; [done|]. destruct l as [|x [|]]; simpl in *; [lia|constructor|lia].
Qed.

Lemma getLayers_spec l :
  l <> [] -> exists ls, getLayers l = Ok ls /\ Layers l ls.
Proof.
  intros Hl. unfold getLayers. destruct l as [|x l]; [done|].
  destruct (decide _); [done|].
  apply (layers_loop_spec _ []). simpl; lia.
Qed.

Lemma Layers_root_node l ls : Layers l ls -> exists r, last ls ≫= head = Some r.
Proof.
  induction 1 as [x|l ls _ HL [r Hr]]; [by eexists|].
  exists r. destruct ls; [by inversion HL|done].
Qed.
End Layers.

(** ** Well-formed trees: what the constructor establishes *)

Record tree_ok `{EthereumJsUtil} (es : list Buffer) (t : MerkleTree) : Prop := {
  ok_elements : forall x, x ∈ elements t <-> x ∈ es;
  ok_sorted : StronglySorted buf_le (elements t);
  ok_NoDup : NoDup (elements t);
  ok_index : bufferElementPositionIndex t = positionIndex (elements t);
  ok_layers : Layers (elements t) (layers t)
}.

Section Constructor.
Context `{EthereumJsUtil}.

Lemma new_MerkleTree_ok es :
  es <> [] -> exists t, new_MerkleTree es = Ok t /\ tree_ok es t.
Proof.
  intros Hes. unfold new_MerkleTree.
  assert (bufDedup (sort es) <> []) as Hne.
  { destruct es as [|x es]; [done|]. intros E.
    assert (x ∈ bufDedup (sort (x :: es))) as Hin.
    { rewrite elem_of_bufDedup, elem_of_sort by apply sort_Sorted. set_solver. }
    rewrite E in Hin. set_solver. }
  destruct (getLayers_spec _ Hne) as (ls & -> & HL).
  eexists; split; [done|]. split; simpl; auto.
  - intros x. rewrite elem_of_bufDedup by apply sort_Sorted. apply elem_of_sort.
  - apply bufDedup_Sorted, sort_Sorted.
  - apply bufDedup_NoDup, sort_Sorted.
Qed.

Lemma new_MerkleTree_tree_ok es t : new_MerkleTree es = Ok t -> tree_ok es t.
Proof.
  intros E. destruct es as [|x es]; [done|].
  destruct (new_MerkleTree_ok (x :: es)) as (t' & E' & Hok); [done|congruence].
Qed.

Lemma getRoot_Some es t : tree_ok es t -> exists r, getRoot t = Some r.
Proof. intros Hok. by eapply Layers_root_node, ok_layers. Qed.
End Constructor.

(** ** Proofs lead to the root *)

(** The loop of [BalanceTree.verifyProof]: [pair = combinedHash(pair, item)]. *)
Definition fold_proof `{EthereumJsUtil} (leaf : Buffer) (proof : list Buffer) : option Buffer :=
  foldl (fun pair item => combinedHash pair (Some item)) (Some leaf) proof.

Section Completeness.
Context `{EthereumJsUtil}.

Lemma fold_proof_cons leaf p proof :
  fold_proof leaf (p :: proof) = fold_proof (H2 leaf p) proof.
Proof. done. Qed.

Lemma log2_up_pair_up l :
  1 < length l -> S (Nat.log2_up (length (pair_up l))) <= Nat.log2_up (length l).
Proof.
  intros Hlen. rewrite pair_up_length.
  pose proof (Nat.log2_up_pos (length l) Hlen).
  assert (length l <= 2 ^ Nat.log2_up (length l)) as Hp by (apply Nat.log2_up_le_pow2; lia).
  destruct (Nat.log2_up (length l)) as [|k]; [lia|].
  apply le_n_S, Nat.log2_up_le_pow2.
  - pose proof (Nat.div_mod_eq (length l + 1) 2).
    pose proof (Nat.mod_upper_bound (length l + 1) 2 ltac:(lia)). lia.
  - rewrite Nat.pow_succ_r' in Hp.
    apply Nat.lt_succ_r, Nat.Div0.div_lt_upper_bound. lia.
Qed.

Lemma proof_path l ls i x acc :
  Layers l ls -> l !! i = Some x ->
  exists pf,
    (foldl (fun (a : nat * list Buffer) layer =>
              (a.1 / 2, push a.2 (getPairElement a.1 layer)))
           (i, acc) ls).2 = acc ++ pf
    /\ fold_proof x pf = last ls ≫= head
    /\ length pf <= Nat.log2_up (length l).
Proof.
  intros HL. revert i x acc. induction HL as [y|l ls Hlen HL IH]; intros i x acc Hi.
  - destruct i; [|done]. simplify_eq/=. exists []. by rewrite app_nil_r.
  - pose proof (pair_up_lookup l i x Hi) as Hup. simpl.
    assert (last (l :: ls) ≫= head = last ls ≫= head) as ->.
    { destruct ls; [by inversion HL|done]. }
    assert (S (Nat.log2_up (length (pair_up l))) <= Nat.log2_up (length l)) as Hlog.
    { by apply log2_up_pair_up. }
    destruct (getPairElement i l) as [p|] eqn:Ep; simpl in Hup.
    + destruct (IH (i / 2) _ (acc ++ [p]) Hup) as (pf & E1 & E2 & E3).
      exists (p :: pf). rewrite fold_proof_cons, <-E2. split; [|split; [done|simpl; lia]].
      simpl. rewrite E1. by rewrite <-app_assoc.
    + destruct (IH (i / 2) _ acc Hup) as (pf & E1 & E2 & E3).
      exists pf. split; [done|]. split; [done|lia].
Qed.

Lemma getProof_path es t el :
  new_MerkleTree es = Ok t -> el ∈ es ->
  exists pf r, getProof t el = Ok pf /\ getRoot t = Some r /\
    fold_proof el pf = Some r /\ length pf <= Nat.log2_up (length (elements t)).
Proof.
  intros Ht Hel. apply new_MerkleTree_tree_ok in Ht as Hok.
  apply (ok_elements _ _ Hok), list_elem_of_lookup in Hel as [i Hi].
  destruct (getRoot_Some es t Hok) as [r Hr].
  destruct (proof_path _ _ i el [] (ok_layers _ _ Hok) Hi) as (pf & E1 & E2 & E3).
  exists pf, r. unfold getProof. rewrite (ok_index _ _ Hok).
  rewrite (proj2 (positionIndex_lookup _ el i (ok_NoDup _ _ Hok)) Hi), E1. simpl.
  repeat split; [done|by rewrite E2|done].
Qed.

(** Every proof verifies.  For a leaf the tree was built from, [getProof]
    succeeds, folding the pair hash over the proof it returns gives exactly the
    root of the tree, and the proof has at most [log2_up n] items. *)
Theorem getProof_complete es t el :
  new_MerkleTree es = Ok t -> el ∈ es ->
  exists pf r, getProof t el = Ok pf /\ getRoot t = Some r /\
    fold_proof el pf = Some r /\ length pf <= Nat.log2_up (length (elements t)).
Proof. apply getProof_path. Qed.

(** An element the tree was not built from has no proof: [getProof] throws
    ["Element does not exist in Merkle tree"]. *)
Theorem getProof_missing es t el :
  new_MerkleTree es = Ok t -> el ∉ es ->
  getProof t el = Err "Element does not exist in Merkle tree".
Proof.
  intros Ht%new_MerkleTree_tree_ok Hel. unfold getProof.
  rewrite (ok_index _ _ Ht), (proj2 (positionIndex_None _ el (ok_NoDup _ _ Ht))); [done|].
  by rewrite (ok_elements _ _ Ht).
Qed.

(** The tree is canonical.  The order in which the leaves are given and
    their multiplicities do not matter: two lists with the same members give the
    same elements, index, layers and hence the same root and proofs. *)
Theorem new_MerkleTree_canonical es es' :
  (forall x, x ∈ es <-> x ∈ es') -> new_MerkleTree es = new_MerkleTree es'.
Proof.
  intros Hsame. unfold new_MerkleTree.
  assert (bufDedup (sort es) = bufDedup (sort es')) as ->; [|done].
  apply (StronglySorted_unique buf_le); [apply bufDedup_Sorted, sort_Sorted..|].
  apply NoDup_Permutation; [apply bufDedup_NoDup, sort_Sorted..|].
  intros x. rewrite !elem_of_bufDedup, !elem_of_sort by apply sort_Sorted. apply Hsame.
Qed.

(** Construction terminates with a tree for every non-empty list of leaves
    (as many loop iterations as leaves are enough) and throws ["empty tree"] on the
    empty list; the layers start with the sorted, duplicate-free leaves and end
    with the root alone. *)
Theorem new_MerkleTree_total es :
  (es = [] /\ new_MerkleTree es = Err "empty tree") \/
  (exists t r, new_MerkleTree es = Ok t /\ head (layers t) = Some (elements t) /\
     last (layers t) = Some [r] /\ NoDup (elements t) /\
     StronglySorted buf_le (elements t) /\ forall x, x ∈ elements t <-> x ∈ es).
Proof.
  destruct es as [|e es]; [by left|right].
  destruct (new_MerkleTree_ok (e :: es)) as (t & Ht & [H1 H2 H3 _ HL]); [done|].
  exists t. assert (head (layers t) = Some (elements t) /\ exists r, last (layers t) = Some [r])
    as [Hh [r Hr]]; [|naive_solver].
  clear -HL. induction HL as [x|l ls _ HL [_ [r Hr]]]; [by eauto|].
  split; [done|]. exists r. destruct ls; [by inversion HL|done].
Qed.
End Completeness.

(** ** Forged proofs exhibit a collision *)

Section Soundness.
Context `{EthereumJsUtil}.

(** The inputs hashed while pairing one layer, while building the inner nodes
    of a tree, and while folding a proof. *)
Fixpoint pair_queries (l : list Buffer) : list Buffer :=
  match l with
  | x :: y :: l => sortAndConcat [x; y] :: pair_queries l
  | _ => []
  end.

Definition tree_queries (t : MerkleTree) : list Buffer := layers t ≫= pair_queries.

Fixpoint proof_queries (leaf : Buffer) (proof : list Buffer) : list Buffer :=
  match proof with
  | [] => []
  | p :: proof => sortAndConcat [leaf; p] :: proof_queries (H2 leaf p) proof
  end.

Definition node (ls : list (list Buffer)) (x : Buffer) : Prop := exists l, l ∈ ls /\ x ∈ l.

Lemma elem_of_pair_up l x :
  x ∈ pair_up l ->
  x ∈ l \/ exists a b, a ∈ l /\ b ∈ l /\ sortAndConcat [a; b] ∈ pair_queries l /\ x = H2 a b.
Proof.
  induction l as [|y|y z l IH] using list_pair_ind; cbn [pair_up pair_queries]; intros Hx.
  - set_solver.
  - set_solver.
  - apply elem_of_cons in Hx as [->|Hx].
    + right. exists y, z. set_solver.
    + destruct (IH Hx) as [?|(a & b & ? & ? & ? & ?)]; [set_solver|].
      right. exists a, b. set_solver.
Qed.

Lemma node_inv l ls x :
  Layers l ls -> node ls x ->
  x ∈ l \/ exists a b, node ls a /\ node ls b /\
    sortAndConcat [a; b] ∈ (ls ≫= pair_queries) /\ x = H2 a b.
Proof.
  intros HL. induction HL as [y|l ls Hlen HL IH]; intros (k & Hk & Hx).
  - apply list_elem_of_singleton in Hk as ->. by left.
  - apply elem_of_cons in Hk as [->|Hk]; [by left|].
    destruct IH as [Hup|(a & b & (ka & ? & ?) & (kb & ? & ?) & Hq & ->)]; [by exists k|..].
    + apply elem_of_pair_up in Hup as [?|(a & b & ? & ? & Hq & ->)]; [by left|].
      right. exists a, b. split_and!; [exists l; set_solver..| |done].
      rewrite bind_cons. set_solver.
    + right. exists a, b. split_and!; [exists ka; set_solver|exists kb; set_solver| |done].
      rewrite bind_cons. set_solver.
Qed.

Lemma root_node es t r : tree_ok es t -> getRoot t = Some r -> node (layers t) r.
Proof.
  intros _ Hr. unfold getRoot in Hr. destruct (last (layers t)) as [l|] eqn:E; [|done].
  simpl in Hr. exists l. split.
  - apply last_Some_elem_of. done.
  - destruct l; [done|]. simplify_eq/=. by left.
Qed.

Lemma proof_queries_length leaf proof q :
  length leaf = 32 -> (forall p, p ∈ proof -> length p = 32) ->
  q ∈ proof_queries leaf proof -> length q = 64.
Proof.
  revert leaf. induction proof as [|p proof IH]; intros leaf Hl Hp Hq; simpl in Hq.
  - by apply elem_of_nil in Hq.
  - apply elem_of_cons in Hq as [->|Hq].
    + rewrite sortAndConcat_length, Hl, (Hp p); [done|by left].
    + apply (IH (H2 leaf p)); [apply keccak256_length| |done]. intros ??. apply Hp. by right.
Qed.

Lemma node_length l ls x :
  (forall y, y ∈ l -> length y = 32) -> Layers l ls -> node ls x -> length x = 32.
Proof.
  intros Hl HL Hx.
  destruct (node_inv l ls x HL Hx) as [?|(a & b & _ & _ & _ & ->)]; [auto|].
  apply keccak256_length.
Qed.

(** If a proof folds to a node of the tree then its leaf is a node of the tree,
    or one of the inputs hashed by the verifier collides with one hashed by the
    builder, or hashes to a leaf of the tree. *)
Lemma fold_proof_sound l ls leaf proof v :
  (forall y, y ∈ l -> length y = 32) -> Layers l ls ->
  length leaf = 32 -> (forall p, p ∈ proof -> length p = 32) ->
  fold_proof leaf proof = Some v -> node ls v ->
  node ls leaf \/
  exists q, q ∈ proof_queries leaf proof /\
    ((exists q', q' ∈ ls ≫= pair_queries /\ collision q q') \/ keccak256 q ∈ l).
Proof.
  intros Hl HL. revert leaf. induction proof as [|p proof IH]; intros leaf Hleaf Hp Hfold Hv.
  - injection Hfold as <-. by left.
  - rewrite fold_proof_cons in Hfold.
    destruct (IH (H2 leaf p)) as [Hnode|(q & Hq & Hcase)]; [apply keccak256_length| |done..| |].
    { intros q Hq. apply Hp. by right. }
    2: { right. exists q. split; [set_solver|done]. }
    destruct (node_inv _ _ _ HL Hnode) as [Hin|(a & b & Ha & Hb & Hq & E)].
    { right. exists (sortAndConcat [leaf; p]). split; [set_solver|by right]. }
    destruct (decide (sortAndConcat [leaf; p] = sortAndConcat [a; b])) as [Esc|Hne].
    + left. apply sortAndConcat_inj in Esc as [-> | ->]; [done|done|done|..];
        [apply Hp; by left|by apply (node_length l ls)..].
    + right. exists (sortAndConcat [leaf; p]). split; [set_solver|]. left.
      exists (sortAndConcat [a; b]). done.
Qed.
End Soundness.
