(* ===== verification/BalanceTree.v ===== *)
(** * src/utils/balance-tree.ts

    The Merkle tree over [(index, account, amount)] entries.  A leaf is
    [keccak256(abi.encodePacked(index, account, amount))], computed by ethers'
    [solidityKeccak256]; the functions used from the ethers package are the
    interface [Ethers]. *)

From S2P Require Import Prelude Buffers MerkleTree.

(** The 20 bytes of an address string: ["0x"] and 40 hexadecimal digits. *)
Definition addressBytes (s : string) : option Buffer :=
  match s with
  | String c1 (String c2 digits) =>
      let b := from_hex digits in
      if decide (String c1 (String c2 EmptyString) = "0x"
                 /\ String.length digits = 40 /\ length b = 20)
      then Some b else None
  | _ => None
  end.

Lemma addressBytes_length_20 s bs : addressBytes s = Some bs -> length bs = 20.
Proof.
  destruct s as [|c1 [|c2 s]]; simpl; [done..|]. case_decide; naive_solver.
Qed.

Definition uint256 (z : Z) : Prop := (0 <= z < UINT256)%Z.
#[export] Instance uint256_dec z : Decision (uint256 z).
Proof. unfold uint256. apply _. Defined.

Definition zero_address : string := "0x0000000000000000000000000000000000000000".

Class Ethers `{EthereumJsUtil} := {
  isAddress : string -> bool;
  (** checksummed form of an address; throws ([None]) on anything else *)
  getAddress : string -> option string;
  (** [BigNumber.from] of a string; throws on anything that is not an integer *)
  BigNumber_from : string -> option Z;
  toHexString : Z -> string;
  (** the hexadecimal form of a [BigNumber], which [BigNumber.from] reads back *)
  BigNumber_toHexString : forall z, (0 <= z)%Z -> BigNumber_from (toHexString z) = Some z;
  (** [utils.solidityKeccak256(['uint256', 'address', 'uint256'], [_, _, _])] *)
  solidityKeccak256 : Z -> string -> Z -> option string;

  isAddress_spec : forall s, isAddress s = true <-> is_Some (getAddress s);
  getAddress_bytes : forall s a, getAddress s = Some a -> is_Some (addressBytes a);
  getAddress_idemp : forall s a, getAddress s = Some a -> getAddress a = Some a;
  getAddress_canonical : forall s s' a a',
    getAddress s = Some a -> getAddress s' = Some a' ->
    addressBytes a = addressBytes a' -> a = a';
  solidityKeccak256_spec : forall i a bs m,
    uint256 i -> uint256 m -> getAddress a = Some a -> addressBytes a = Some bs ->
    solidityKeccak256 i a m = Some ("0x" +:+ hex (keccak256 (encodePacked i bs m)))
}.

Record Balance := { account : string; amount : Z }.

Section Definitions.
Context `{Ethers}.

(** [Buffer.from(utils.solidityKeccak256(...).substr(2), 'hex')] *)
Definition toNode (index : Z) (account : string) (amount : Z) : result Buffer :=
  h ← of_option (solidityKeccak256 index account amount) "invalid value";
  Ok (from_hex (substr2 h)).

(** The [balances.map((..., index) => toNode(index, ...))] of the constructor. *)
Fixpoint toNodes (index : nat) (balances : list Balance) : result (list Buffer) :=
  match balances with
  | [] => Ok []
  | b :: balances =>
      n ← toNode (Z.of_nat index) (account b) (amount b);
      ns ← toNodes (S index) balances;
      Ok (n :: ns)
  end.

Definition new_BalanceTree (balances : list Balance) : result MerkleTree :=
  nodes ← toNodes 0 balances; new_MerkleTree nodes.

Definition verifyProof (index : Z) (account : string) (amount : Z)
    (proof : list Buffer) (root : Buffer) : result bool :=
  leaf ← toNode index account amount;
  Ok (bool_decide (fold_proof leaf proof = Some root)).

Definition balance_getHexRoot (t : MerkleTree) : option string := getHexRoot t.

Definition balance_getProof (t : MerkleTree) (index : Z) (account : string) (amount : Z) :
    result (list string) :=
  node ← toNode index account amount; getHexProof t node.
End Definitions.

(** An entry the packed encoding is faithful on: a canonical address and
    an amount that fits in 256 bits. *)
Definition entry_ok `{Ethers} (b : Balance) : Prop :=
  getAddress (account b) = Some (account b) /\ uint256 (amount b).

Section Nodes.
Context `{Ethers}.

(** The bytes hashed for an entry. *)
Definition packed (index : Z) (account : string) (amount : Z) : Buffer :=
  encodePacked index (default [] (addressBytes account)) amount.

Lemma packed_length i a m : getAddress a = Some a -> length (packed i a m) = 84.
Proof.
  intros Ha. destruct (getAddress_bytes _ _ Ha) as [bs Hbs].
  unfold packed. rewrite Hbs. apply (encodePacked_length i bs m).
  by eapply addressBytes_length_20.
Qed.

Lemma packed_inj i a m i' a' m' :
  uint256 i -> uint256 m -> uint256 i' -> uint256 m' ->
  getAddress a = Some a -> getAddress a' = Some a' ->
  packed i a m = packed i' a' m' -> i = i' /\ a = a' /\ m = m'.
Proof.
  intros ???? Ha Ha' E. unfold packed in E.
  destruct (getAddress_bytes _ _ Ha) as [bs Hbs], (getAddress_bytes _ _ Ha') as [bs' Hbs'].
  rewrite Hbs, Hbs' in E. simpl in E.
  apply encodePacked_inj in E as (-> & -> & ->); try done.
  - split_and!; [done| |done]. by eapply getAddress_canonical; [..|rewrite Hbs, Hbs'].
  - by rewrite (addressBytes_length_20 a bs), (addressBytes_length_20 a' bs').
Qed.

Lemma toNode_packed i a m :
  uint256 i -> uint256 m -> getAddress a = Some a ->
  toNode i a m = Ok (keccak256 (packed i a m)).
Proof.
  intros Hi Hm Ha. destruct (getAddress_bytes _ _ Ha) as [bs Hbs].
  unfold toNode. rewrite (solidityKeccak256_spec i a bs m) by done.
  unfold packed. rewrite Hbs. cbn [of_option mbind result_bind].
  by rewrite substr2_0x, from_hex_hex.
Qed.

Lemma toNodes_lookup k bs ns i b :
  toNodes k bs = Ok ns -> bs !! i = Some b ->
  exists n, toNode (Z.of_nat (k + i)) (account b) (amount b) = Ok n /\ ns !! i = Some n.
Proof.
  revert k ns i. induction bs as [|b0 bs IH]; intros k ns i Hns Hi; [done|].
  simpl in Hns. inv_result. subst. destruct i as [|i]; simplify_eq/=.
  - rewrite Nat.add_0_r. eauto.
  - rewrite <-Nat.add_succ_comm. by apply (IH (S k)).
Qed.

Lemma toNodes_elem k bs ns n :
  toNodes k bs = Ok ns -> n ∈ ns ->
  exists i b, bs !! i = Some b /\ toNode (Z.of_nat (k + i)) (account b) (amount b) = Ok n.
Proof.
  revert k ns. induction bs as [|b0 bs IH]; intros k ns Hns Hn; simpl in Hns; inv_result; subst.
  - set_solver.
  - apply elem_of_cons in Hn as [->|Hn].
    + exists 0, b0. by rewrite Nat.add_0_r.
    + destruct (IH (S k) _ ltac:(done) Hn) as (i & b & ? & ?).
      exists (S i), b. split; [done|]. by rewrite <-Nat.add_succ_comm.
Qed.

Lemma toNodes_ok k bs :
  (forall b, b ∈ bs -> entry_ok b) -> (Z.of_nat (k + length bs) <= UINT256)%Z ->
  exists ns, toNodes k bs = Ok ns /\ length ns = length bs.
Proof.
  revert k. induction bs as [|b bs IH]; intros k Hbs Hk; [by eexists|].
  destruct (Hbs b) as [Ha Hm]; [set_solver|]. simpl in *.
  rewrite toNode_packed; [|split; lia|done..].
  destruct (IH (S k)) as (ns & -> & Hlen); [set_solver|lia|].
  eexists; split; [done|]. simpl. by rewrite Hlen.
Qed.
End Nodes.

Section Theorems.
Context `{Ethers}.

Lemma verifyProof_path balances t i b :
  new_BalanceTree balances = Ok t -> balances !! i = Some b ->
  exists pf r,
    balance_getProof t (Z.of_nat i) (account b) (amount b) = Ok (bufArrToHexArr pf) /\
    getRoot t = Some r /\
    verifyProof (Z.of_nat i) (account b) (amount b) pf r = Ok true.
Proof.
  intros Ht Hi. apply bind_Ok in Ht as (ns & Hns & Ht).
  destruct (toNodes_lookup _ _ _ _ _ Hns Hi) as (n & Hn & Hin).
  destruct (getProof_path ns t n Ht) as (pf & r & E1 & E2 & E3 & _);
    [by apply list_elem_of_lookup_2 in Hin|].
  exists pf, r. unfold balance_getProof, verifyProof, getHexProof. simpl in Hn. rewrite Hn. simpl.
  rewrite E1. simpl. split; [done|]. split; [done|]. by rewrite bool_decide_eq_true_2.
Qed.

(** Every entry can be proved.  In the tree built from [balances], the entry at
    position [i] has a proof, and [verifyProof] accepts it against the tree's
    root. *)
Theorem verifyProof_complete balances t i b :
  new_BalanceTree balances = Ok t -> balances !! i = Some b ->
  exists pf r,
    balance_getProof t (Z.of_nat i) (account b) (amount b) = Ok (bufArrToHexArr pf) /\
    getRoot t = Some r /\
    verifyProof (Z.of_nat i) (account b) (amount b) pf r = Ok true.
Proof. apply verifyProof_path. Qed.

(** The inputs hashed by the verifier of a claim, and by the builder of a tree. *)
Definition claim_queries (index : Z) (account : string) (amount : Z) (proof : list Buffer) :=
  packed index account amount :: proof_queries (keccak256 (packed index account amount)) proof.

Definition build_queries (balances : list Balance) (t : MerkleTree) : list Buffer :=
  imap (fun i b => packed (Z.of_nat i) (account b) (amount b)) balances ++ tree_queries t.

Lemma build_queries_leaf balances t j b :
  balances !! j = Some b ->
  packed (Z.of_nat j) (account b) (amount b) ∈ build_queries balances t.
Proof.
  intros Hj. apply elem_of_app. left. apply list_elem_of_lookup. exists j.
  by rewrite list_lookup_imap, Hj.
Qed.

Lemma claim_or_collision balances t r i acc m proof :
  (forall b, b ∈ balances -> entry_ok b) -> (Z.of_nat (length balances) <= UINT256)%Z ->
  uint256 i -> uint256 m -> getAddress acc = Some acc ->
  (forall p, p ∈ proof -> length p = 32) ->
  new_BalanceTree balances = Ok t -> getRoot t = Some r ->
  fold_proof (keccak256 (packed i acc m)) proof = Some r ->
  balances !! Z.to_nat i = Some {| account := acc; amount := m |} \/
  exists q q', q ∈ claim_queries i acc m proof /\ q' ∈ build_queries balances t /\ collision q q'.
Proof.
  intros Hbs Hlen Hi Hm Hacc Hproof Ht Hr Hv.
  apply bind_Ok in Ht as (ns & Hns & Ht). pose proof (new_MerkleTree_tree_ok _ _ Ht) as Hok.
  assert (forall n, n ∈ elements t -> exists j b, balances !! j = Some b /\
            uint256 (Z.of_nat j) /\ entry_ok b /\
            n = keccak256 (packed (Z.of_nat j) (account b) (amount b))) as Hleaf.
  { intros n Hn. apply (ok_elements _ _ Hok) in Hn.
    destruct (toNodes_elem _ _ _ _ Hns Hn) as (j & b & Hj & En).
    pose proof (lookup_lt_Some _ _ _ Hj). pose proof (list_elem_of_lookup_2 _ _ _ Hj).
    assert (uint256 (Z.of_nat j)) by (split; lia).
    assert (entry_ok b) as Hb by auto. pose proof Hb as [??].
    exists j, b. split_and!; try done. rewrite toNode_packed in En by done. by simplify_eq. }
  pose proof (ok_layers _ _ Hok) as HL.
  assert (forall y, y ∈ elements t -> length y = 32) as H32.
  { intros y (j & b & _ & _ & _ & ->)%Hleaf. apply keccak256_length. }
  destruct (fold_proof_sound (elements t) (layers t) (keccak256 (packed i acc m)) proof r)
    as [Hnode|(q & Hq & [(q' & Hq' & Hc)|Hel])];
    [done|done|apply keccak256_length|done|done|by eapply root_node, Hr| | |].
  - destruct (node_inv _ _ _ HL Hnode) as [Hel|(a & b & Ha & Hb & Hq & E)].
    + destruct (Hleaf _ Hel) as (j & b & Hj & Huj & [Hb1 Hb2] & E).
      destruct (decide (packed i acc m = packed (Z.of_nat j) (account b) (amount b))) as [Ep|Hne].
      * apply packed_inj in Ep as (-> & -> & ->); try done.
        left. rewrite Nat2Z.id, Hj. by destruct b.
      * right. do 2 eexists. split_and!; [by left|by eapply build_queries_leaf|done].
    + right. exists (packed i acc m), (sortAndConcat [a; b]).
      split_and!; [by left|by apply elem_of_app; right|]. apply length_collision; [|done].
      rewrite packed_length, sortAndConcat_length by done.
      rewrite !(node_length (elements t) (layers t)) by done. lia.
  - right. exists q, q'. split_and!; [by right|by apply elem_of_app; right|done].
  - destruct (Hleaf _ Hel) as (j & b & Hj & Huj & [Hb1 Hb2] & E).
    right. exists q, (packed (Z.of_nat j) (account b) (amount b)).
    split_and!; [by right|by eapply build_queries_leaf|]. apply length_collision; [|done].
    rewrite packed_length by done.
    rewrite (proof_queries_length _ _ _ (keccak256_length _) Hproof Hq). lia.
Qed.
(** Soundness, without any assumption on the hash function.  If [verifyProof]
    accepts a claim against the root of the tree built from [balances], then the
    claim is one of the entries, at its own index; or else one of the (finitely many,
    explicitly listed) inputs hashed by the verifier and one of those hashed by the
    builder form a collision of [keccak256].  In particular leaves and inner nodes
    cannot be confused. *)
Theorem verifyProof_sound balances t r i acc m proof :
  (forall b, b ∈ balances -> entry_ok b) -> (Z.of_nat (length balances) <= UINT256)%Z ->
  uint256 i -> uint256 m -> getAddress acc = Some acc ->
  (forall p, p ∈ proof -> length p = 32) ->
  new_BalanceTree balances = Ok t -> getRoot t = Some r ->
  verifyProof i acc m proof r = Ok true ->
  balances !! Z.to_nat i = Some {| account := acc; amount := m |} \/
  exists q q', q ∈ claim_queries i acc m proof /\ q' ∈ build_queries balances t /\ collision q q'.
Proof.
  intros Hbs Hlen Hi Hm Hacc Hproof Ht Hr Hv.
  unfold verifyProof in Hv. rewrite toNode_packed in Hv by done.
  apply bind_Ok in Hv as (? & [= <-] & [= Hv]). apply bool_decide_eq_true in Hv.
  by eapply claim_or_collision.
Qed.
End Theorems.
