(* ===== verification/ParseBalanceMap.v ===== *)
(** * src/utils/parse-balance-map.ts

    From a list of balances to the blob that is published for an airdrop: the
    Merkle root, the total, and for every account its index, amount and proof. *)

From S2P Require Import Prelude Buffers MerkleTree BalanceTree.

(** ** Data *)

Record Flags := { isSOCKS : bool; isLP : bool; isUser : bool }.

Record NewFormat := { address : string; earnings : string; reasons : string }.

(** A value of the old format: an (integral) number or a string. *)
Inductive OldValue := ONumber (n : Z) | OString (s : string).

(** The old format is an object: its entries in [Object.keys] order. *)
Inductive BalanceMap :=
| OldFormat (balances : list (string * OldValue))
| NewFormats (balances : list NewFormat).

Record AccountData := { data_amount : Z; data_flags : option Flags }.

Record ClaimInfo := {
  claim_index : nat;
  claim_amount : string;
  claim_proof : list string;
  claim_flags : option Flags
}.

Record MerkleDistributorInfo := {
  merkleRoot : string;
  tokenTotal : string;
  claims : gmap string ClaimInfo
}.

(** ** The code *)

(** [Number.prototype.toString(16)] on integers. *)
Fixpoint hex_digits (fuel : nat) (n : N) (acc : string) : string :=
  match fuel with
  | O => acc
  | S fuel =>
      let acc := String (hex_digit (n mod 16)) acc in
      if (n <? 16)%N then acc else hex_digits fuel (n / 16) acc
  end.

Definition number_toString16 (z : Z) : string :=
  let n := Z.to_N (Z.abs z) in
  let s := hex_digits (S (N.to_nat (N.log2 n))) n "" in
  if (z <? 0)%Z then "-" +:+ s else s.

(** The argument 16 is ignored when the value is a string. *)
Definition toString16 (v : OldValue) : string :=
  match v with
  | ONumber n => number_toString16 n
  | OString s => s
  end.

(** [s.includes(sub)] *)
Fixpoint includes (sub s : string) : bool :=
  String.prefix sub s ||
  match s with
  | EmptyString => false
  | String _ s => includes sub s
  end.

Definition balancesInNewFormat (balances : BalanceMap) : list NewFormat :=
  match balances with
  | NewFormats l => l
  | OldFormat l =>
      (fun p : string * OldValue =>
         {| address := p.1; earnings := "0x" +:+ toString16 p.2; reasons := "" |}) <$> l
  end.

Section Definitions.
Context `{Ethers}.

Definition flags_of (reasons : string) : option Flags :=
  if decide (reasons = "") then None
  else Some {| isSOCKS := includes "socks" reasons;
               isLP := includes "lp" reasons;
               isUser := includes "user" reasons |}.

(** The body of the [reduce] that builds [dataByAddress]. *)
Definition add_account (memo : gmap string AccountData) (e : NewFormat) :
    result (gmap string AccountData) :=
  _ ← require (isAddress (address e)) ("Found invalid address: " +:+ address e);
  parsed ← of_option (getAddress (address e)) "invalid address";
  _ ← require (bool_decide (memo !! parsed = None)) ("Duplicate address: " +:+ parsed);
  parsedNum ← of_option (BigNumber_from (earnings e)) "invalid BigNumber string";
  _ ← require (negb (parsedNum <=? 0)%Z) ("Invalid amount for account: " +:+ address e);
  Ok (<[parsed := {| data_amount := parsedNum; data_flags := flags_of (reasons e) |}]> memo).

Definition dataByAddress (l : list NewFormat) : result (gmap string AccountData) :=
  foldM add_account ∅ l.

(** [Object.keys(dataByAddress).sort()] *)
Definition sortedAddresses (data : gmap string AccountData) : list string :=
  merge_sort String.le (base.elements (dom data)).

(** [dataByAddress[address].amount]; the keys are those of the object. *)
Definition amount_of (data : gmap string AccountData) (a : string) : Z :=
  default 0%Z (data_amount <$> data !! a).
Definition flags_at (data : gmap string AccountData) (a : string) : option Flags :=
  data !! a ≫= data_flags.

(** The body of the [reduce] that builds [claims]. *)
Definition add_claim (data : gmap string AccountData) (t : MerkleTree)
    (memo : gmap string ClaimInfo) (p : nat * string) : result (gmap string ClaimInfo) :=
  let '(index, a) := p in
  proof ← balance_getProof t (Z.of_nat index) a (amount_of data a);
  Ok (<[a := {| claim_index := index;
                claim_amount := toHexString (amount_of data a);
                claim_proof := proof;
                claim_flags := flags_at data a |}]> memo).

Definition parseBalanceMap (balances : BalanceMap) : result MerkleDistributorInfo :=
  data ← dataByAddress (balancesInNewFormat balances);
  let sorted := sortedAddresses data in
  t ← new_BalanceTree ((fun a => {| account := a; amount := amount_of data a |}) <$> sorted);
  cs ← foldM (add_claim data t) ∅ (imap pair sorted);
  let total := foldl (fun memo key => (memo + amount_of data key)%Z) 0%Z sorted in
  root ← of_option (balance_getHexRoot t) "undefined";
  Ok {| merkleRoot := root; tokenTotal := toHexString total; claims := cs |}.
End Definitions.

(** ** What the reduce over the input computes *)

Section Collect.
Context `{Ethers}.

(** The key and data of a valid input entry. *)
Definition parse_entry (e : NewFormat) : option (string * AccountData) :=
  parsed ← getAddress (address e);
  n ← BigNumber_from (earnings e);
  if (n <=? 0)%Z then None
  else Some (parsed, {| data_amount := n; data_flags := flags_of (reasons e) |}).

Lemma add_account_Ok memo e memo' :
  add_account memo e = Ok memo' <->
  exists kd, parse_entry e = Some kd /\ memo !! kd.1 = None /\ memo' = <[kd.1 := kd.2]> memo.
Proof.
  unfold add_account, parse_entry. split.
  - intros E. inv_result. simplify_eq. to_props.
    match goal with H1 : getAddress _ = _, H2 : BigNumber_from _ = _ |- _ =>
      rewrite H1; simpl; rewrite H2; simpl end.
    destruct (_ <=? _)%Z; [done|]. eexists; split_and!; [done|done|done].
  - intros ([k d] & E & Hk & ->). simpl in *.
    destruct (getAddress (address e)) as [a|] eqn:Ea; simplify_eq/=.
    destruct (BigNumber_from (earnings e)) as [n|] eqn:En; simplify_eq/=.
    destruct (n <=? 0)%Z eqn:Hn; simplify_eq/=.
    rewrite (proj2 (isAddress_spec (address e))) by eauto. simpl.
    by rewrite bool_decide_eq_true_2.
Qed.

Lemma dataByAddress_aux memo l m :
  foldM add_account memo l = Ok m <->
  exists es, Forall2 (fun e kd => parse_entry e = Some kd) l es /\
    NoDup es.*1 /\ (forall k, k ∈ es.*1 -> memo !! k = None) /\ m = list_to_map es ∪ memo.
Proof.
  revert memo. induction l as [|e l IH]; intros memo; simpl.
  - split.
    + intros [= <-]. exists []. rewrite list_to_map_nil, (left_id_L ∅ (∪)). split_and!; [done|constructor|set_solver|done].
    + intros (es & Hes & _ & _ & ->). inversion Hes. by rewrite list_to_map_nil, (left_id_L ∅ (∪)).
  - rewrite bind_Ok. split.
    + intros (memo' & ([k d] & Ekd & Hk & ->)%add_account_Ok & (es & Hes & Hnd & Hfresh & ->)%IH).
      simpl in *. exists ((k, d) :: es). split_and!; simpl; [by constructor| | |].
      * constructor; [|done]. intros Hin. specialize (Hfresh k Hin). by rewrite lookup_insert_eq in Hfresh.
      * intros k' [->|Hk']%elem_of_cons; [done|]. specialize (Hfresh k' Hk').
        by apply lookup_insert_None in Hfresh as [??].
      * rewrite <-insert_union_r, insert_union_l; [done|].
        apply not_elem_of_list_to_map_1. intros Hin. specialize (Hfresh k Hin).
        by rewrite lookup_insert_eq in Hfresh.
    + intros (es & Hes & Hnd & Hfresh & ->). inversion Hes as [|? [k d] ? es' Ekd Hes']; subst.
      simpl in *. apply NoDup_cons in Hnd as [Hk Hnd].
      exists (<[k := d]> memo). split.
      * apply add_account_Ok. exists (k, d). split_and!; [done| |done]. apply Hfresh. by left.
      * apply IH. exists es'. split_and!; [done|done| |].
        -- intros k' Hk'. rewrite lookup_insert_ne by set_solver. apply Hfresh. by right.
        -- rewrite <-insert_union_r, insert_union_l; [done|]. by apply not_elem_of_list_to_map_1.
Qed.

(** [dataByAddress] succeeds exactly when every entry is valid and no two
    parse to the same address; the data is then the map of the parsed entries. *)
Lemma dataByAddress_Ok l m :
  dataByAddress l = Ok m <->
  exists es, Forall2 (fun e kd => parse_entry e = Some kd) l es /\
    NoDup es.*1 /\ m = list_to_map es.
Proof.
  unfold dataByAddress. rewrite dataByAddress_aux. split; intros (es & ? & ? & H3).
  - destruct H3 as [_ ->]. exists es. by rewrite (right_id_L ∅ (∪)).
  - exists es. rewrite (right_id_L ∅ (∪)). split_and!; [done|done|set_solver|done].
Qed.

Lemma parse_entry_ok e k d :
  parse_entry e = Some (k, d) -> getAddress k = Some k /\ (0 < data_amount d)%Z.
Proof.
  unfold parse_entry. intros E.
  destruct (getAddress (address e)) as [a|] eqn:Ea; simplify_eq/=.
  destruct (BigNumber_from (earnings e)) as [n|] eqn:En; simplify_eq/=.
  destruct (n <=? 0)%Z eqn:Hn; simplify_eq/=. to_props.
  split; [by eapply getAddress_idemp|done].
Qed.

Lemma dataByAddress_entry l m k d :
  dataByAddress l = Ok m -> m !! k = Some d ->
  exists e, e ∈ l /\ parse_entry e = Some (k, d).
Proof.
  intros (es & Hes & Hnd & ->)%dataByAddress_Ok Hk.
  apply elem_of_list_to_map in Hk; [|done].
  apply list_elem_of_lookup in Hk as [i Hi].
  destruct (Forall2_lookup_r _ _ _ _ _ Hes Hi) as (e & He & Hp).
  exists e. split; [by eapply list_elem_of_lookup_2|done].
Qed.

Lemma parse_entry_amount e k d :
  parse_entry e = Some (k, d) -> BigNumber_from (earnings e) = Some (data_amount d).
Proof.
  unfold parse_entry. intros E.
  destruct (getAddress (address e)) as [a|] eqn:Ea; simplify_eq/=.
  destruct (BigNumber_from (earnings e)) as [n|] eqn:En; simplify_eq/=.
  by destruct (n <=? 0)%Z; simplify_eq/=.
Qed.

Lemma dataByAddress_lookup l m k d :
  dataByAddress l = Ok m -> m !! k = Some d ->
  getAddress k = Some k /\ (0 < data_amount d)%Z.
Proof.
  intros Hl Hk. destruct (dataByAddress_entry _ _ _ _ Hl Hk) as (e & _ & He).
  by eapply parse_entry_ok.
Qed.
End Collect.

(** ** The later stages *)

Section Stages.
Context `{Ethers}.

Lemma sortedAddresses_Permutation data : sortedAddresses data ≡ₚ base.elements (dom data).
Proof. apply merge_sort_Permutation. Qed.

Lemma sortedAddresses_NoDup data : NoDup (sortedAddresses data).
Proof. rewrite sortedAddresses_Permutation. apply NoDup_elements. Qed.

Lemma elem_of_sortedAddresses data a : a ∈ sortedAddresses data <-> is_Some (data !! a).
Proof. by rewrite sortedAddresses_Permutation, elem_of_elements, elem_of_dom. Qed.

(** The entries handed to the [BalanceTree] constructor. *)
Definition tree_entries (data : gmap string AccountData) : list Balance :=
  (fun a => {| account := a; amount := amount_of data a |}) <$> sortedAddresses data.

Lemma tree_entries_lookup data i a :
  sortedAddresses data !! i = Some a ->
  tree_entries data !! i = Some {| account := a; amount := amount_of data a |}.
Proof. intros Hi. unfold tree_entries. by rewrite list_lookup_fmap, Hi. Qed.

Lemma claims_aux data t l k memo cs :
  NoDup l -> (forall a, a ∈ l -> memo !! a = None) ->
  foldM (add_claim data t) memo (imap (fun i => pair (k + i)) l) = Ok cs ->
  forall a c, cs !! a = Some c <->
    memo !! a = Some c \/
    exists i, l !! i = Some a /\ claim_index c = k + i /\
      claim_amount c = toHexString (amount_of data a) /\ claim_flags c = flags_at data a /\
      balance_getProof t (Z.of_nat (k + i)) a (amount_of data a) = Ok (claim_proof c).
Proof.
  revert k memo. induction l as [|b l IH]; intros k memo Hnd Hfresh Hcs a c; simpl in Hcs.
  { inv_result. subst. set_solver. }
  apply NoDup_cons in Hnd as [Hb Hnd]. rewrite Nat.add_0_r in Hcs.
  apply bind_Ok in Hcs as (memo' & Hmemo & Hcs). simpl in Hmemo. inv_result. subst memo'.
  rewrite (imap_ext _ (fun i => pair (S k + i))) in Hcs by (intros; simpl; f_equal; lia).
  apply IH with (a := a) (c := c) in Hcs; [|done|].
  2: { intros a' Ha'. rewrite lookup_insert_ne by set_solver. apply Hfresh. by right. }
  rewrite Hcs. clear Hcs IH. destruct (decide (b = a)) as [->|Hne].
  - rewrite lookup_insert_eq. split.
    + intros [[= <-]|(i & Hi & _)].
      2: { by apply list_elem_of_lookup_2 in Hi. }
      right. exists 0. by rewrite Nat.add_0_r.
    + intros [Hm|(i & Hi & E1 & E2 & E3 & E4)].
      * rewrite Hfresh in Hm by (by left). done.
      * destruct i as [|i]; [|simpl in Hi; by apply list_elem_of_lookup_2 in Hi].
        left. f_equal. rewrite Nat.add_0_r in *. destruct c; simpl in *. subst. congruence.
  - rewrite lookup_insert_ne by done. split.
    + intros [?|(i & Hi & ?)]; [by left|]. right. exists (S i).
      rewrite <-Nat.add_succ_comm. done.
    + intros [?|(i & Hi & ?)]; [by left|]. right. destruct i as [|i]; [by simplify_eq/=|].
      exists i. rewrite <-Nat.add_succ_comm in *. done.
Qed.

(** Everything [parseBalanceMap] does once it succeeds. *)
Lemma parseBalanceMap_inv bm info :
  parseBalanceMap bm = Ok info ->
  exists data t r,
    dataByAddress (balancesInNewFormat bm) = Ok data /\
    new_BalanceTree (tree_entries data) = Ok t /\ getRoot t = Some r /\
    merkleRoot info = bufferToHex r /\
    tokenTotal info = toHexString (foldr Z.add 0%Z (amount_of data <$> sortedAddresses data)) /\
    forall a c, claims info !! a = Some c <->
      exists i, sortedAddresses data !! i = Some a /\ claim_index c = i /\
        claim_amount c = toHexString (amount_of data a) /\ claim_flags c = flags_at data a /\
        balance_getProof t (Z.of_nat i) a (amount_of data a) = Ok (claim_proof c).
Proof.
  intros E. unfold parseBalanceMap in E.
  apply bind_Ok in E as (data & Hdata & E). apply bind_Ok in E as (t & Ht & E).
  apply bind_Ok in E as (cs & Hcs & E). apply bind_Ok in E as (root & Hr & [= <-]).
  apply of_option_Ok in Hr. unfold balance_getHexRoot, getHexRoot in Hr.
  destruct (getRoot t) as [r|] eqn:Er; simplify_eq/=.
  exists data, t, r. split_and!; [done..| |].
  - f_equal. generalize (sortedAddresses data) as l. clear.
    intros l. enough (forall z, foldl (fun memo key => (memo + amount_of data key)%Z) z l
      = (z + foldr Z.add 0 (amount_of data <$> l))%Z) as E by (by rewrite E, Z.add_0_l).
    induction l as [|a l IH]; intros z; simpl; [by rewrite Z.add_0_r|].
    by rewrite IH, Z.add_assoc.
  - intros a c.
    rewrite (claims_aux data t _ 0 ∅ cs (sortedAddresses_NoDup data)); [|done|exact Hcs].
    rewrite lookup_empty. simpl. naive_solver.
Qed.

(** The claimed amounts are the amounts of the input. *)
Lemma sorted_amounts l es data :
  Forall2 (fun e kd => parse_entry e = Some kd) l es -> NoDup es.*1 ->
  data = list_to_map es ->
  amount_of data <$> sortedAddresses data ≡ₚ data_amount <$> es.*2.
Proof.
  intros _ Hnd ->.
  assert (sortedAddresses (list_to_map es) ≡ₚ es.*1) as ->.
  { rewrite sortedAddresses_Permutation. apply NoDup_Permutation; [apply NoDup_elements|done|].
    intros a. rewrite elem_of_elements, dom_list_to_map_L, elem_of_list_to_set. done. }
  rewrite <-!list_fmap_compose. apply reflexive_eq.
  apply list_fmap_ext. intros i [k d] Hi. simpl. unfold amount_of.
  rewrite (elem_of_list_to_map_1 es k d Hnd (list_elem_of_lookup_2 _ _ _ Hi)). done.
Qed.
Lemma sortedAddresses_length l data :
  dataByAddress l = Ok data -> length (sortedAddresses data) = length l.
Proof.
  intros (es & Hes & Hnd & ->)%dataByAddress_Ok.
  rewrite <-(length_fmap (amount_of (list_to_map es))).
  rewrite (Permutation_length (sorted_amounts l es _ Hes Hnd eq_refl)).
  rewrite !length_fmap. by rewrite (Forall2_length _ _ _ Hes).
Qed.


Lemma claims_dom data t (cs : gmap string ClaimInfo) :
  new_BalanceTree (tree_entries data) = Ok t ->
  (forall a c, cs !! a = Some c <->
    exists i, sortedAddresses data !! i = Some a /\ claim_index c = i /\
      claim_amount c = toHexString (amount_of data a) /\ claim_flags c = flags_at data a /\
      balance_getProof t (Z.of_nat i) a (amount_of data a) = Ok (claim_proof c)) ->
  forall a, is_Some (cs !! a) <-> a ∈ sortedAddresses data.
Proof.
  intros Ht Hcl a. split.
  - intros [c Hc]. apply Hcl in Hc as (i & Hi & _). by eapply list_elem_of_lookup_2.
  - intros Hin. apply list_elem_of_lookup in Hin as [i Hi].
    destruct (verifyProof_path _ _ _ _ Ht (tree_entries_lookup _ _ _ Hi)) as (pf & _ & E & _).
    exists {| claim_index := i; claim_amount := toHexString (amount_of data a);
              claim_proof := bufArrToHexArr pf; claim_flags := flags_at data a |}.
    apply Hcl. by exists i.
Qed.
End Stages.

(** ** Properties *)

Section Theorems.
Context `{Ethers}.

(** C3: every published claim verifies.  Each account of the blob carries a positive
    amount and a proof that [BalanceTree.verifyProof] accepts, for the published
    index, account and amount, against the published root. *)
Theorem parseBalanceMap_claims_verify bm info :
  parseBalanceMap bm = Ok info ->
  exists root, merkleRoot info = bufferToHex root /\
    forall a c, claims info !! a = Some c -> exists m pf,
      (0 < m)%Z /\ claim_amount c = toHexString m /\ claim_proof c = bufArrToHexArr pf /\
      verifyProof (Z.of_nat (claim_index c)) a m pf root = Ok true.
Proof.
  intros (data & t & r & Hdata & Ht & Hr & E1 & _ & Hcl)%parseBalanceMap_inv.
  exists r. split; [done|]. intros a c Hc.
  apply Hcl in Hc as (i & Hi & -> & Ham & _ & Hpf).
  assert (is_Some (data !! a)) as [d Hd]
    by (by eapply elem_of_sortedAddresses, list_elem_of_lookup_2).
  destruct (dataByAddress_lookup _ _ _ _ Hdata Hd) as [_ Hpos].
  destruct (verifyProof_path _ _ _ _ Ht (tree_entries_lookup _ _ _ Hi)) as (pf & r' & E2 & E3 & E4).
  simpl in *. rewrite Hpf in E2. rewrite Hr in E3. injection E3 as <-. injection E2 as E2.
  exists (amount_of data a), pf. split_and!; [|done..].
  unfold amount_of. by rewrite Hd.
Qed.

(** C30: the published accounts are exactly the input's, each with its own amount,
    under consecutive distinct indices, and the published total is the sum of the
    input amounts. *)
Theorem parseBalanceMap_conserves l info :
  parseBalanceMap (NewFormats l) = Ok info ->
  exists es, Forall2 (fun e kd => parse_entry e = Some kd) l es /\ NoDup es.*1 /\
    (forall a, is_Some (claims info !! a) <-> a ∈ es.*1) /\
    (forall a d c, (a, d) ∈ es -> claims info !! a = Some c ->
       claim_amount c = toHexString (data_amount d) /\ claim_flags c = data_flags d /\
       claim_index c < length l) /\
    (forall a a' c c', claims info !! a = Some c -> claims info !! a' = Some c' ->
       claim_index c = claim_index c' -> a = a') /\
    tokenTotal info = toHexString (foldr Z.add 0%Z (data_amount <$> es.*2)).
Proof.
  intros (data & t & r & Hdata & Ht & Hr & _ & Htot & Hcl)%parseBalanceMap_inv.
  simpl in Hdata. pose proof Hdata as (es & Hes & Hnd & Hm)%dataByAddress_Ok.
  assert (forall a, is_Some (data !! a) <-> a ∈ es.*1) as Hdom.
  { intros a. rewrite <-elem_of_dom, Hm, dom_list_to_map_L. by rewrite elem_of_list_to_set. }
  assert (length (sortedAddresses data) = length l) as Hlen.
  { by apply sortedAddresses_length. }
  exists es. split_and!; [done|done| | | |].
  - intros a. rewrite <-Hdom, <-elem_of_sortedAddresses. by apply (claims_dom _ t).
  - intros a d c Hin (i & Hi & -> & -> & -> & _)%Hcl.
    assert (data !! a = Some d) as Hd by (subst data; by apply elem_of_list_to_map_1).
    unfold amount_of, flags_at. rewrite Hd. split_and!; [done|done|].
    rewrite <-Hlen. by eapply lookup_lt_Some.
  - intros a a' c c' (i & Hi & Ei & _)%Hcl (i' & Hi' & Ei' & _)%Hcl E.
    assert (i = i') as -> by congruence. congruence.
  - rewrite Htot. f_equal. apply sum_list_Z_permutation. by apply (sorted_amounts l).
Qed.

(** The blob does not depend on the order of the input: a permuted input gives the
    same root, the same total and the same claims. *)
Theorem parseBalanceMap_permutation l l' info :
  l ≡ₚ l' -> parseBalanceMap (NewFormats l) = Ok info ->
  parseBalanceMap (NewFormats l') = Ok info.
Proof.
  intros Hperm Hok. unfold parseBalanceMap in *.
  apply bind_Ok in Hok as (data & Hdata & Hok). simpl in *.
  assert (dataByAddress l' = Ok data) as ->; [|done].
  apply dataByAddress_Ok in Hdata as (es & Hes & Hnd & ->). apply dataByAddress_Ok.
  destruct (Forall2_permute_l _ _ _ _ Hperm Hes) as (es' & Hes' & Hp).
  exists es'. split_and!; [done|by rewrite <-Hp|].
  apply list_to_map_proper; [done|by symmetry].
Qed.

(** Rejection.  After a valid prefix, an entry whose address is invalid, whose
    parsed address was already seen, or whose amount is not positive makes
    [parseBalanceMap] throw the corresponding message, whatever follows. *)
Theorem parseBalanceMap_rejects pre e post memo :
  dataByAddress pre = Ok memo ->
  (isAddress (address e) = false ->
     parseBalanceMap (NewFormats (pre ++ e :: post))
     = Err ("Found invalid address: " +:+ address e)) /\
  (forall a, getAddress (address e) = Some a -> a ∈ dom memo ->
     parseBalanceMap (NewFormats (pre ++ e :: post)) = Err ("Duplicate address: " +:+ a)) /\
  (forall a n, getAddress (address e) = Some a -> a ∉ dom memo ->
     BigNumber_from (earnings e) = Some n -> (n <= 0)%Z ->
     parseBalanceMap (NewFormats (pre ++ e :: post))
     = Err ("Invalid amount for account: " +:+ address e)).
Proof.
  intros Hpre. assert (forall m, add_account memo e = Err m ->
    parseBalanceMap (NewFormats (pre ++ e :: post)) = Err m) as Herr.
  { intros m Hm. unfold parseBalanceMap, dataByAddress. simpl.
    rewrite foldM_app. unfold dataByAddress in Hpre. rewrite Hpre. simpl. by rewrite Hm. }
  split_and!.
  - intros Hi. apply Herr. unfold add_account. by rewrite Hi.
  - intros a Ha [d Hd]%elem_of_dom. apply Herr. unfold add_account.
    rewrite (proj2 (isAddress_spec (address e))) by eauto. rewrite Ha. simpl.
    by rewrite bool_decide_eq_false_2 by (by rewrite Hd).
  - intros a n Ha Hd%not_elem_of_dom Hn Hpos. apply Herr. unfold add_account.
    rewrite (proj2 (isAddress_spec (address e))) by eauto. rewrite Ha. simpl.
    rewrite bool_decide_eq_true_2 by done. rewrite Hn. simpl.
    by rewrite (proj2 (Z.leb_le _ _) Hpos).
Qed.
End Theorems.
