(* ===== verification/MerkleDistributor.v ===== *)
(** * contracts/6/token/MerkleDistributor.sol

    The contract that pays the claims published by parse-balance-map.ts.  The
    ERC20 token it pays with and OpenZeppelin's [MerkleProof] are interfaces:
    [ERC20] and [MerkleProofLib]. *)

From S2P Require Import Prelude Buffers MerkleTree BalanceTree ParseBalanceMap.

(** ** Imported contracts *)

(** OpenZeppelin's token: [transfer] moves exactly the amount between two different
    accounts, none of them the zero address, and returns [true] when the sender can afford
    it. *)
Class ERC20 (T : Type) := {
  balanceOf : T -> string -> Z;
  transfer : T -> string -> string -> Z -> result (T * bool);
  transfer_spec : forall t src dst m,
    src <> zero_address -> dst <> zero_address -> src <> dst -> (0 <= m <= balanceOf t src)%Z ->
    exists t', transfer t src dst m = Ok (t', true) /\
      balanceOf t' src = (balanceOf t src - m)%Z /\
      balanceOf t' dst = (balanceOf t dst + m)%Z /\
      forall a, a <> src -> a <> dst -> balanceOf t' a = balanceOf t a
}.

(** [MerkleProof.verify]: each pair is hashed in sorted order. *)
Class MerkleProofLib `{EthereumJsUtil} := {
  MerkleProof_verify : list Buffer -> Buffer -> Buffer -> bool;
  MerkleProof_verify_spec : forall proof root leaf,
    MerkleProof_verify proof root leaf = true <->
    foldl (fun computed p =>
             if decide (buf_le computed p) then keccak256 (computed ++ p)
             else keccak256 (p ++ computed)) leaf proof = root
}.

(** ** The contract *)

Record Distributor := {
  self : string;              (** [address(this)] *)
  root : Buffer;              (** [merkleRoot] *)
  claimedBitMap : gmap Z Z    (** absent words are zero *)
}.

Section Contract.
Context `{Ethers} `{!MerkleProofLib} {T : Type} `{!ERC20 T}.

Definition new_Distributor (self : string) (merkleRoot : Buffer) : Distributor :=
  {| self := self; root := merkleRoot; claimedBitMap := ∅ |}.

Definition claimedWord (d : Distributor) (index : Z) : Z :=
  default 0%Z (claimedBitMap d !! (index / 256)%Z).

Definition isClaimed (d : Distributor) (index : Z) : bool :=
  let mask := Z.shiftl 1 (index mod 256) in
  (Z.land (claimedWord d index) mask =? mask)%Z.

Definition setClaimed (d : Distributor) (index : Z) : Distributor :=
  {| self := self d; root := root d;
     claimedBitMap := <[(index / 256)%Z :=
        Z.lor (claimedWord d index) (Z.shiftl 1 (index mod 256))]> (claimedBitMap d) |}.

(** A claim transaction: [claim(index, account, amount, merkleProof)]. *)
Record ClaimCall := { c_index : Z; c_account : string; c_amount : Z; c_proof : list Buffer }.

Definition claim (d : Distributor) (token : T) (c : ClaimCall) : result (Distributor * T) :=
  _ ← require (negb (isClaimed d (c_index c))) "MerkleDistributor::claim: drop already claimed";
  let node := keccak256 (packed (c_index c) (c_account c) (c_amount c)) in
  _ ← require (MerkleProof_verify (c_proof c) (root d) node)
        "MerkleDistributor::claim: invalid proof";
  let d := setClaimed d (c_index c) in
  r ← transfer token (self d) (c_account c) (c_amount c);
  _ ← require r.2 "MerkleDistributor::claim: transfer failed";
  Ok (d, r.1).

(** A sequence of claim transactions. *)
Definition claim_all (s : Distributor * T) (cs : list ClaimCall) : result (Distributor * T) :=
  foldM (fun s c => claim s.1 s.2 c) s cs.
End Contract.
Arguments ClaimCall : clear implicits.

(** ** The packed bitmap *)

Section Bitmap.
Lemma setClaimed_testbit d i j :
  (0 <= i)%Z -> (0 <= j)%Z ->
  Z.testbit (claimedWord (setClaimed d i) j) (j mod 256)
  = bool_decide (i = j) || Z.testbit (claimedWord d j) (j mod 256).
Proof.
  intros Hi Hj. unfold claimedWord, setClaimed. simpl.
  pose proof (Z.mod_pos_bound i 256). pose proof (Z.mod_pos_bound j 256).
  pose proof (Z.div_mod i 256). pose proof (Z.div_mod j 256).
  destruct (decide (i / 256 = j / 256)%Z) as [E|E].
  - rewrite E, lookup_insert_eq. simpl.
    rewrite Z.lor_spec, Z.shiftl_spec, orb_comm by lia.
    f_equal; [|unfold claimedWord; by rewrite E].
    destruct (decide (i = j)) as [->|Hne].
    + rewrite Z.sub_diag. by rewrite bool_decide_eq_true_2.
    + rewrite bool_decide_eq_false_2 by done.
      assert (j mod 256 - i mod 256 <> 0)%Z by (intros ?; apply Hne; lia).
      destruct (Z.lt_ge_cases (j mod 256 - i mod 256) 0).
      * by apply Z.testbit_neg_r.
      * apply Z.bits_above_log2; simpl; lia.
  - rewrite lookup_insert_ne by done. by rewrite bool_decide_eq_false_2 by congruence.
Qed.

Lemma isClaimed_testbit d i :
  (0 <= i)%Z -> isClaimed d i = Z.testbit (claimedWord d i) (i mod 256).
Proof.
  intros Hi. unfold isClaimed.
  pose proof (Z.mod_pos_bound i 256 ltac:(lia)) as Hb.
  revert Hb. generalize (claimedWord d i), (i mod 256)%Z. clear. intros w k Hk.
  assert (forall n, (0 <= n)%Z -> Z.testbit (Z.land w (Z.shiftl 1 k)) n
            = Z.testbit w k && bool_decide (n = k)) as Hbit.
  { intros n Hn. rewrite Z.land_spec, Z.shiftl_spec by done.
    destruct (decide (n = k)) as [->|Hne].
    - rewrite Z.sub_diag, bool_decide_eq_true_2 by done. done.
    - rewrite bool_decide_eq_false_2, andb_false_r by done.
      destruct (Z.lt_ge_cases (n - k) 0); [by rewrite (Z.testbit_neg_r 1), andb_false_r|].
      rewrite (Z.bits_above_log2 1) by (simpl; lia). apply andb_false_r. }
  destruct (Z.testbit w k) eqn:E.
  - apply Z.eqb_eq, Z.bits_inj'. intros n Hn. rewrite Hbit, Z.shiftl_spec by done. simpl.
    destruct (decide (n = k)) as [->|Hne].
    + by rewrite Z.sub_diag, bool_decide_eq_true_2.
    + rewrite bool_decide_eq_false_2 by done.
      destruct (Z.lt_ge_cases (n - k) 0); [by rewrite (Z.testbit_neg_r 1)|].
      rewrite (Z.bits_above_log2 1) by (simpl; lia). done.
  - apply Z.eqb_neq. intros Heq. specialize (Hbit k ltac:(lia)).
    rewrite Heq, Z.shiftl_spec, Z.sub_diag in Hbit by lia.
    discriminate Hbit.
Qed.

Lemma isClaimed_setClaimed d i j :
  (0 <= i)%Z -> (0 <= j)%Z ->
  isClaimed (setClaimed d i) j = bool_decide (i = j) || isClaimed d j.
Proof. intros Hi Hj. rewrite !isClaimed_testbit by done. by apply setClaimed_testbit. Qed.

Lemma isClaimed_fresh me r j : (0 <= j)%Z -> isClaimed (new_Distributor me r) j = false.
Proof.
  intros Hj. rewrite isClaimed_testbit by done. unfold claimedWord. simpl. apply Z.testbit_0_l.
Qed.

(** The packed bitmap is a set of indices.  Marking an index sets exactly that
    index: [isClaimed] of any other index, in the same 256-bit word or not, is
    unchanged, and no index is claimed in a fresh contract. *)
Theorem isClaimed_bitmap d i j :
  (0 <= i)%Z -> (0 <= j)%Z ->
  isClaimed (setClaimed d i) j = bool_decide (i = j) || isClaimed d j /\
  isClaimed (new_Distributor (self d) (root d)) j = false.
Proof.
  intros Hi Hj. split; [by apply isClaimed_setClaimed|by apply isClaimed_fresh].
Qed.
End Bitmap.

(** ** OpenZeppelin's verifier and the tooling's verifier agree *)

Section Claims.
Context `{Ethers} `{!MerkleProofLib} {T : Type} `{!ERC20 T}.

Lemma sorted_concat a b :
  (if decide (buf_le a b) then a ++ b else b ++ a) = sortAndConcat [a; b].
Proof.
  unfold sortAndConcat. case_decide as Hab.
  - assert (sort [a; b] = [a; b]) as ->; [|by simpl; rewrite app_nil_r].
    apply (StronglySorted_unique buf_le); [apply sort_Sorted| |apply sort_Permutation].
    repeat constructor; done.
  - assert (buf_le b a) by (destruct (total buf_le a b); done).
    assert (sort [a; b] = [b; a]) as ->; [|by simpl; rewrite app_nil_r].
    apply (StronglySorted_unique buf_le); [apply sort_Sorted| |].
    + repeat constructor; done.
    + etrans; [apply sort_Permutation|apply perm_swap].
Qed.

Lemma verify_fold_proof proof root leaf :
  MerkleProof_verify proof root leaf = true <-> fold_proof leaf proof = Some root.
Proof.
  rewrite MerkleProof_verify_spec. revert leaf.
  induction proof as [|p proof IH]; intros leaf; simpl.
  { unfold fold_proof. simpl. split; congruence. }
  rewrite fold_proof_cons, <-IH. unfold H2. rewrite <-sorted_concat. by case_decide.
Qed.

(** A claim that succeeds, step by step. *)
Lemma claim_inv d tok c d' tok' :
  claim d tok c = Ok (d', tok') ->
  isClaimed d (c_index c) = false /\ d' = setClaimed d (c_index c) /\
  fold_proof (keccak256 (packed (c_index c) (c_account c) (c_amount c))) (c_proof c)
    = Some (root d) /\
  transfer tok (self d) (c_account c) (c_amount c) = Ok (tok', true).
Proof.
  unfold claim. intros E. inv_result. simplify_eq.
  match goal with H : negb _ = true |- _ => apply negb_true_iff in H end.
  split_and!; [done|done|by apply verify_fold_proof|].
  match goal with H : transfer _ _ _ _ = Ok ?r |- _ => destruct r; simpl in *; by subst end.
Qed.

(** A claim that must succeed. *)
Lemma claim_ok d tok c :
  isClaimed d (c_index c) = false ->
  fold_proof (keccak256 (packed (c_index c) (c_account c) (c_amount c))) (c_proof c)
    = Some (root d) ->
  self d <> zero_address -> c_account c <> zero_address ->
  self d <> c_account c -> (0 <= c_amount c <= balanceOf tok (self d))%Z ->
  exists tok', claim d tok c = Ok (setClaimed d (c_index c), tok') /\
    balanceOf tok' (self d) = (balanceOf tok (self d) - c_amount c)%Z /\
    balanceOf tok' (c_account c) = (balanceOf tok (c_account c) + c_amount c)%Z /\
    forall a, a <> self d -> a <> c_account c -> balanceOf tok' a = balanceOf tok a.
Proof.
  intros Hc Hp Hz1 Hz2 Hne Hm. unfold claim. rewrite Hc. simpl.
  rewrite (proj2 (verify_fold_proof _ _ _) Hp). simpl.
  destruct (transfer_spec tok (self d) (c_account c) (c_amount c) Hz1 Hz2 Hne Hm) as (tok' & E & Hb).
  rewrite E. simpl. eauto.
Qed.

Lemma claim_all_claimed s s' cs i :
  (forall c, c ∈ cs -> (0 <= c_index c)%Z) -> (0 <= i)%Z ->
  claim_all s cs = Ok s' ->
  isClaimed s.1 i = true -> isClaimed s'.1 i = true.
Proof.
  intros Hidx Hi Hrun Hs. revert Hrun. apply (foldM_invariant (fun s => isClaimed s.1 i = true)); [done|].
  intros [d tok] c [d' tok'] Hc Hcl (_ & -> & _)%claim_inv. simpl in *.
  rewrite isClaimed_setClaimed by auto. rewrite Hcl. apply orb_true_r.
Qed.

(** No double claim.  Once a claim has succeeded, any later claim of the same
    index reverts with ["drop already claimed"], whatever account, amount and proof
    it carries and whatever claims were made in between. *)
Theorem claim_once d tok c d1 tok1 cs d2 tok2 c' :
  (0 <= c_index c)%Z -> (forall c, c ∈ cs -> (0 <= c_index c)%Z) ->
  claim d tok c = Ok (d1, tok1) -> claim_all (d1, tok1) cs = Ok (d2, tok2) ->
  c_index c' = c_index c ->
  claim d2 tok2 c' = Err "MerkleDistributor::claim: drop already claimed".
Proof.
  intros Hi Hcs (_ & -> & _)%claim_inv Hall Hsame. unfold claim. rewrite Hsame.
  apply (claim_all_claimed _ _ _ _ Hcs Hi) in Hall; simpl in *; [by rewrite Hall|].
  rewrite isClaimed_setClaimed by done. by rewrite bool_decide_eq_true_2.
Qed.

(** C5: only published claims are paid.  If the contract holds the root of the tree of
    [balances] and a claim succeeds, then the claimed account and amount are the entry
    of [balances] at the claimed index, or the claimant exhibits a collision of
    [keccak256] among finitely many listed inputs. *)
Theorem claim_sound balances t d tok c d' tok' :
  (forall b, b ∈ balances -> entry_ok b) -> (Z.of_nat (length balances) <= UINT256)%Z ->
  new_BalanceTree balances = Ok t -> getRoot t = Some (root d) ->
  uint256 (c_index c) -> uint256 (c_amount c) ->
  getAddress (c_account c) = Some (c_account c) ->
  (forall p, p ∈ c_proof c -> length p = 32) ->
  claim d tok c = Ok (d', tok') ->
  balances !! Z.to_nat (c_index c)
    = Some {| account := c_account c; amount := c_amount c |} \/
  exists q q', q ∈ claim_queries (c_index c) (c_account c) (c_amount c) (c_proof c) /\
    q' ∈ build_queries balances t /\ collision q q'.
Proof.
  intros ???????? (_ & _ & Hfold & _)%claim_inv. by eapply claim_or_collision.
Qed.

(** The claims of a published blob, as its readers submit them: the amount and
    the proof are read back from their hexadecimal forms. *)
Definition claim_call (a : string) (c : ClaimInfo) : option ClaimCall :=
  m ← BigNumber_from (claim_amount c);
  Some {| c_index := Z.of_nat (claim_index c); c_account := a; c_amount := m;
          c_proof := (fun h => from_hex (substr2 h)) <$> claim_proof c |}.

Lemma bufArrToHexArr_inv pf :
  (fun h => from_hex (substr2 h)) <$> bufArrToHexArr pf = pf.
Proof.
  unfold bufArrToHexArr. rewrite <-list_fmap_compose. induction pf as [|p pf IH]; [done|].
  rewrite fmap_cons, IH. cbn [compose]. by rewrite substr2_0x, from_hex_hex.
Qed.

(** What is known of the calls of a blob: each is [claim_call] of an entry. *)
Lemma claim_call_spec bm info :
  parseBalanceMap bm = Ok info ->
  (forall b m, b ∈ balancesInNewFormat bm -> BigNumber_from (earnings b) = Some m -> uint256 m) ->
  (Z.of_nat (length (balancesInNewFormat bm)) <= UINT256)%Z ->
  exists data r,
    dataByAddress (balancesInNewFormat bm) = Ok data /\
    merkleRoot info = bufferToHex r /\
    tokenTotal info = toHexString (foldr Z.add 0%Z (amount_of data <$> sortedAddresses data)) /\
    (forall a, is_Some (claims info !! a) <-> a ∈ sortedAddresses data) /\
    forall a c, claims info !! a = Some c ->
      exists i pf, sortedAddresses data !! i = Some a /\ (0 < amount_of data a)%Z /\
        claim_call a c = Some {| c_index := Z.of_nat i; c_account := a;
                                 c_amount := amount_of data a; c_proof := pf |} /\
        fold_proof (keccak256 (packed (Z.of_nat i) a (amount_of data a))) pf = Some r.
Proof.
  intros Hp Hamt Hlen.
  destruct (parseBalanceMap_inv _ _ Hp) as (data & t & r & Hdata & Ht & Hr & E1 & E2 & Hcl).
  exists data, r. split_and!; [done..|by apply (claims_dom _ t)|]. intros a c (i & Hi & Eidx & Eamt & _ & Hpf)%Hcl.
  assert (is_Some (data !! a)) as [dt Hdt]
    by (by eapply elem_of_sortedAddresses, list_elem_of_lookup_2).
  destruct (dataByAddress_lookup _ _ _ _ Hdata Hdt) as [Ha Hpos].
  destruct (dataByAddress_entry _ _ _ _ Hdata Hdt) as (e & He & Hpe).
  assert (amount_of data a = data_amount dt) as Em by (unfold amount_of; by rewrite Hdt).
  assert (uint256 (amount_of data a)) as Hm.
  { rewrite Em. eapply Hamt; [done|]. by eapply parse_entry_amount. }
  assert (uint256 (Z.of_nat i)) as Hi'.
  { apply lookup_lt_Some in Hi. rewrite (sortedAddresses_length _ _ Hdata) in Hi. split; lia. }
  destruct (verifyProof_path _ _ _ _ Ht (tree_entries_lookup _ _ _ Hi)) as (pf & r' & Q1 & Q2 & Q3).
  simpl in *. rewrite Hr in Q2. injection Q2 as <-. rewrite Hpf in Q1. injection Q1 as Q1.
  unfold verifyProof in Q3. rewrite toNode_packed in Q3 by done. simpl in Q3.
  injection Q3 as Q3. apply bool_decide_eq_true in Q3.
  exists i, pf. split_and!; [done|lia| |done].
  unfold claim_call. rewrite Eamt, BigNumber_toHexString by lia. simpl.
  by rewrite Eidx, Q1, bufArrToHexArr_inv.
Qed.

(** Calls that prove distinct entries of the tree can all be paid, in any order. *)
Lemma claim_all_ok d tok cs :
  NoDup (c_index <$> cs) -> NoDup (c_account <$> cs) ->
  self d <> zero_address -> zero_address ∉ c_account <$> cs ->
  (forall c, c ∈ cs -> (0 <= c_index c)%Z /\ (0 <= c_amount c)%Z /\ self d <> c_account c /\
     isClaimed d (c_index c) = false /\
     fold_proof (keccak256 (packed (c_index c) (c_account c) (c_amount c))) (c_proof c)
       = Some (root d)) ->
  (foldr Z.add 0%Z (c_amount <$> cs) <= balanceOf tok (self d))%Z ->
  exists d' tok', claim_all (d, tok) cs = Ok (d', tok') /\
    balanceOf tok' (self d) = (balanceOf tok (self d) - foldr Z.add 0 (c_amount <$> cs))%Z /\
    (forall c, c ∈ cs ->
       balanceOf tok' (c_account c) = (balanceOf tok (c_account c) + c_amount c)%Z) /\
    (forall a, a <> self d -> a ∉ c_account <$> cs -> balanceOf tok' a = balanceOf tok a).
Proof.
  revert d tok. induction cs as [|c cs IH]; intros d tok Hni Hna Hz Hzs Hcs Hsum.
  { exists d, tok. split_and!; [done|simpl; lia|set_solver|done]. }
  rewrite !fmap_cons in *. cbn [foldr] in *.
  apply not_elem_of_cons in Hzs as [Hzc Hzs].
  apply NoDup_cons in Hni as [Hi Hni]. apply NoDup_cons in Hna as [Ha Hna].
  destruct (Hcs c) as (Hc1 & Hc2 & Hc3 & Hc4 & Hc5); [by left|].
  assert (0 <= foldr Z.add 0 (c_amount <$> cs))%Z as Hrest.
  { apply sum_list_Z_nonneg. intros z (c' & -> & Hc')%list_elem_of_fmap.
    apply (Hcs c'). by right. }
  destruct (claim_ok d tok c Hc4 Hc5 Hz (not_eq_sym Hzc) Hc3) as (tok1 & E1 & B1 & B2 & B3); [lia|].
  destruct (IH (setClaimed d (c_index c)) tok1) as (d' & tok' & E2 & R1 & R2 & R3);
    [done|done|done|done| |simpl; lia|].
  { intros c' Hc'. destruct (Hcs c') as (?&?&?&?&?); [by right|]. split_and!; try done.
    rewrite isClaimed_setClaimed by done. rewrite bool_decide_eq_false_2; [done|].
    intros E. apply Hi. rewrite E. by apply list_elem_of_fmap_2. }
  exists d', tok'. unfold claim_all. simpl. rewrite E1. cbn [mbind result_bind].
  split; [exact E2|]. simpl in *. split; [lia|]. split.
  - intros c' [->|Hc']%elem_of_cons; [by rewrite (R3 (c_account c)), B2|].
    rewrite (R2 c' Hc'), B3; [done| |].
    + destruct (Hcs c') as (_&_&?&_); [by right|done].
    + intros E. apply Ha. rewrite <-E. by apply list_elem_of_fmap_2.
  - intros a Hne [Hn1 Hn2]%not_elem_of_cons. by rewrite R3, B3.
Qed.

(** A call made from the entry of account [a]. *)
Definition entry_call (data : gmap string AccountData) (r : Buffer) (a : string) (c : ClaimCall) : Prop :=
  sortedAddresses data !! Z.to_nat (c_index c) = Some a /\ (0 <= c_index c)%Z /\
  c_account c = a /\ c_amount c = amount_of data a /\ (0 < c_amount c)%Z /\
  fold_proof (keccak256 (packed (c_index c) (c_account c) (c_amount c))) (c_proof c) = Some r.

Lemma entry_calls_fields data r accounts cs :
  Forall2 (entry_call data r) accounts cs ->
  c_account <$> cs = accounts /\ c_amount <$> cs = amount_of data <$> accounts /\
  (fun c => sortedAddresses data !! Z.to_nat (c_index c)) <$> cs = Some <$> accounts.
Proof.
  induction 1 as [|a c accounts cs (Q1 & _ & Q2 & Q3 & _) _ (E1 & E2 & E3)]; [done|].
  rewrite !fmap_cons. repeat split; f_equal; done.
Qed.

Lemma entry_calls_indices data r accounts cs :
  Forall2 (entry_call data r) accounts cs -> NoDup accounts -> NoDup (c_index <$> cs).
Proof.
  intros (_ & _ & E)%entry_calls_fields Hnd.
  apply (NoDup_fmap_1 (fun i => sortedAddresses data !! Z.to_nat i)).
  rewrite <-list_fmap_compose. unfold compose. rewrite E. by apply NoDup_fmap_2; [apply _|].
Qed.

(** C16: the airdrop pays out.  Deploy the contract with the published root and fund it
    with the published total: whatever the order in which the published claims are
    submitted, every one of them succeeds, every account receives exactly its amount,
    and exactly the published total leaves the contract.  Neither the contract itself nor
    the zero address, to which the token does not transfer, may be on the list. *)
Theorem distribution_completes bm info me r tok total order :
  parseBalanceMap bm = Ok info ->
  (forall b m, b ∈ balancesInNewFormat bm -> BigNumber_from (earnings b) = Some m -> uint256 m) ->
  (Z.of_nat (length (balancesInNewFormat bm)) <= UINT256)%Z ->
  merkleRoot info = bufferToHex r -> me <> zero_address ->
  claims info !! me = None -> claims info !! zero_address = None ->
  BigNumber_from (tokenTotal info) = Some total -> (total <= balanceOf tok me)%Z ->
  order ≡ₚ map_to_list (claims info) ->
  exists calls d' tok',
    Forall2 (fun ac call => claim_call ac.1 ac.2 = Some call) order calls /\
    claim_all (new_Distributor me r, tok) calls = Ok (d', tok') /\
    balanceOf tok' me = (balanceOf tok me - total)%Z /\
    forall call, call ∈ calls ->
      balanceOf tok' (c_account call) = (balanceOf tok (c_account call) + c_amount call)%Z.
Proof.
  intros Hp Hamt Hlen Hroot Hz Hme Hzero Htot Hbal Horder.
  destruct (claim_call_spec _ _ Hp Hamt Hlen) as (data & r' & Hdata & E1 & E2 & Hdom & Hcalls).
  assert (r' = r) as -> by (apply bufferToHex_inj; congruence).
  destruct (list_choice (fun ac call => claim_call ac.1 ac.2 = Some call /\
    entry_call data r ac.1 call) order) as [calls Hc].
  { intros [a c] Hin. rewrite Horder, elem_of_map_to_list in Hin.
    destruct (Hcalls a c Hin) as (i & pf & ? & ? & ? & ?). eexists.
    split; [done|]. repeat split; simpl; rewrite ?Nat2Z.id; (done || lia). }
  apply Forall2_conj in Hc as [Hcall Hentry].
  assert (order.*1 ≡ₚ sortedAddresses data) as Hsorted.
  { rewrite Horder. apply NoDup_Permutation;
      [apply NoDup_fst_map_to_list|apply sortedAddresses_NoDup|].
    intros a. rewrite <-Hdom, list_elem_of_fmap. split.
    - intros ([a' c] & -> & Hin%elem_of_map_to_list). by eexists.
    - intros [c Hc]. exists (a, c). by rewrite elem_of_map_to_list. }
  assert (Forall2 (entry_call data r) order.*1 calls) as Hentry' by (by apply Forall2_fmap_l).
  clear Hentry. rename Hentry' into Hentry.
  destruct (entry_calls_fields _ _ _ _ Hentry) as (Ha & Hm & _).
  assert (NoDup order.*1) as Hnd by (rewrite Hsorted; apply sortedAddresses_NoDup).
  assert (foldr Z.add 0 (c_amount <$> calls) = total)%Z as Hsum.
  { rewrite Hm, (sum_list_Z_permutation _ _ (fmap_Permutation (amount_of data) _ _ Hsorted)).
    rewrite E2, BigNumber_toHexString in Htot; [by injection Htot|].
    rewrite <-(sum_list_Z_permutation _ _ (fmap_Permutation (amount_of data) _ _ Hsorted)), <-Hm.
    apply sum_list_Z_nonneg. intros z (c & -> & [i Hi]%list_elem_of_lookup)%list_elem_of_fmap.
    destruct (Forall2_lookup_r _ _ _ _ _ Hentry Hi) as (a & _ & (_ & _ & _ & _ & ? & _)). lia. }
  destruct (claim_all_ok (new_Distributor me r) tok calls) as (d' & tok' & R1 & R2 & R3 & _).
  - by eapply entry_calls_indices.
  - by rewrite Ha.
  - done.
  - rewrite Ha, Hsorted. intros [c Hc]%Hdom. congruence.
  - intros c [i Hi]%list_elem_of_lookup.
    destruct (Forall2_lookup_r _ _ _ _ _ Hentry Hi) as (a & Hai & (Q1 & Q2 & Q3 & Q4 & Q5 & Q6)).
    split_and!; [done|lia| |by apply (isClaimed_fresh me r)|done]. intros Eme. simpl in Eme.
    assert (is_Some (claims info !! me)) as [? ?]; [|congruence].
    apply Hdom. rewrite Eme, Q3. by eapply list_elem_of_lookup_2.
  - simpl. by rewrite Hsum.
  - exists calls, d', tok'. rewrite Hsum in R2. done.
Qed.
End Claims.
