(* ===== verification/Evm.v ===== *)
(** * The execution environment of the contracts

    Blocks, messages, 256-bit checked arithmetic ([SafeMath]), ownership
    ([Ownable]) and the ABI.  [SafeMath] and [Ownable] are the copies the
    repository vendors (src/contracts/6/apis/pancake/PancakeMasterChef.sol and
    src/contracts/6/upgradeable/ProxyAdmin.sol).  The ABI codec of ethers, and
    the parts of OpenZeppelin that are not vendored (ERC-20 balances and
    allowances, the reentrancy guard), are interfaces with their documented laws. *)

From S2P Require Import Prelude Buffers MerkleTree BalanceTree.
From Stdlib Require Import Strings.Byte Strings.Ascii.

(** An address is the checksummed string [getAddress] returns. *)
Abbreviation address := string.

Record Block := { number : Z; timestamp : Z }.

(** What a function sees of the call that runs it. *)
Record Msg := { sender : address; self : address; block : Block }.

Definition MAX_UINT256 : Z := UINT256 - 1.

(** ** SafeMath *)

Definition sm_add (a b : Z) : result Z :=
  let c := ((a + b) mod UINT256)%Z in
  require (a <=? c)%Z "SafeMath: addition overflow" ;; Ok c.

Definition sm_sub (a b : Z) (errorMessage : string) : result Z :=
  require (b <=? a)%Z errorMessage ;; Ok (a - b)%Z.

Definition SUB_OVERFLOW : string := "SafeMath: subtraction overflow".

Definition sm_mul (a b : Z) : result Z :=
  if (a =? 0)%Z then Ok 0%Z else
  let c := ((a * b) mod UINT256)%Z in
  require (c / a =? b)%Z "SafeMath: multiplication overflow" ;; Ok c.

Definition sm_div (a b : Z) : result Z :=
  require (0 <? b)%Z "SafeMath: division by zero" ;; Ok (a / b)%Z.

Lemma UINT256_pos : (0 < UINT256)%Z.
Proof. done. Qed.

Lemma sm_add_Ok a b c :
  uint256 a -> uint256 b -> sm_add a b = Ok c <-> c = (a + b)%Z /\ uint256 c.
Proof.
  unfold uint256, sm_add. intros Ha Hb. pose proof UINT256_pos. cbv zeta.
  destruct (decide (a + b < UINT256)%Z) as [Hlt|Hge].
  - rewrite Z.mod_small by lia. replace (a <=? a + b)%Z with true by (symmetry; apply Z.leb_le; lia).
    cbn. split; [intros [= <-]; lia|intros [-> _]; done].
  - replace ((a + b) mod UINT256)%Z with (a + b - UINT256)%Z
      by (apply (Z.mod_unique_pos _ _ 1); lia).
    replace (a <=? a + b - UINT256)%Z with false by (symmetry; apply Z.leb_gt; lia).
    cbn. split; [done|lia].
Qed.

Lemma sm_add_small a b :
  uint256 a -> uint256 b -> (a + b < UINT256)%Z -> sm_add a b = Ok (a + b)%Z.
Proof. intros Ha Hb Hs. apply sm_add_Ok; [done..|]. unfold uint256 in *. lia. Qed.

Lemma sm_sub_Ok a b msg c : sm_sub a b msg = Ok c <-> c = (a - b)%Z /\ (b <= a)%Z.
Proof.
  unfold sm_sub. destruct (Z.leb_spec b a); cbn; split; intros; destruct_and?; simplify_eq; try done; lia.
Qed.

Lemma sm_mul_Ok a b c :
  uint256 a -> uint256 b -> sm_mul a b = Ok c <-> c = (a * b)%Z /\ uint256 c.
Proof.
  unfold uint256, sm_mul. intros Ha Hb. pose proof UINT256_pos.
  destruct (Z.eqb_spec a 0) as [->|Hnz]; [split; [intros [= <-]; lia|intros [-> _]; done]|].
  cbv zeta. destruct (decide (a * b < UINT256)%Z) as [Hlt|Hge].
  - rewrite Z.mod_small by nia. rewrite Z.mul_comm, Z.div_mul by done.
    rewrite Z.eqb_refl. cbn. split; [intros [= <-]; nia|intros [-> _]; f_equal; lia].
  - assert ((a * b) mod UINT256 / a <> b)%Z as Hne.
    { intros E. pose proof (Z.mod_pos_bound (a * b) UINT256 ltac:(done)).
      pose proof (Z.mul_div_le ((a * b) mod UINT256) a ltac:(lia)). nia. }
    apply Z.eqb_neq in Hne. rewrite Hne. cbn. split; [done|lia].
Qed.

Lemma sm_div_Ok a b c : sm_div a b = Ok c <-> c = (a / b)%Z /\ (0 < b)%Z.
Proof.
  unfold sm_div. destruct (Z.ltb_spec 0 b); cbn; split; intros; destruct_and?; simplify_eq; try done; lia.
Qed.

(** ** Ownable *)

Definition onlyOwner (owner : address) (m : Msg) : result unit :=
  require (bool_decide (owner = sender m)) "Ownable: caller is not the owner".

(** [transferOwnership(newOwner)]: the new owner. *)
Definition transferOwnership (owner : address) (m : Msg) (newOwner : address) : result address :=
  onlyOwner owner m ;;
  require (bool_decide (newOwner <> zero_address)) "Ownable: new owner is the zero address" ;;
  Ok newOwner.

Lemma onlyOwner_Ok owner m u : onlyOwner owner m = Ok u <-> owner = sender m.
Proof. unfold onlyOwner. rewrite require_Ok. apply bool_decide_eq_true. Qed.

Lemma onlyOwner_owner owner m : owner = sender m -> onlyOwner owner m = Ok tt.
Proof. apply onlyOwner_Ok. Qed.

(** ** Decimal strings *)

Definition digit (c : ascii) : option Z :=
  let n := Z.of_nat (nat_of_ascii c) in
  if (48 <=? n)%Z && (n <=? 57)%Z then Some (n - 48)%Z else None.

(** The value of a non-empty string of decimal digits. *)
Fixpoint decimal_from (acc : Z) (s : string) : option Z :=
  match s with
  | EmptyString => Some acc
  | String c s => d ← digit c; decimal_from (10 * acc + d)%Z s
  end.

Definition decimal (s : string) : option Z :=
  if bool_decide (s = EmptyString) then None else decimal_from 0 s.

(** ** The parts of OpenZeppelin that are not vendored *)

Class OpenZeppelin := {
  (** [ERC20]: balances, supply and allowances *)
  Erc20 : Type;
  erc20_new : Erc20;
  erc20_balanceOf : Erc20 -> address -> Z;
  erc20_totalSupply : Erc20 -> Z;
  erc20_allowance : Erc20 -> address -> address -> Z;
  erc20_approve : Erc20 -> address -> address -> Z -> result Erc20;
  erc20_mint : Erc20 -> address -> Z -> result Erc20;
  erc20_transfer : Erc20 -> address -> address -> Z -> result Erc20;
  erc20_burn : Erc20 -> address -> Z -> result Erc20;
  erc20_new_balance : forall a, erc20_balanceOf erc20_new a = 0%Z;
  erc20_new_supply : erc20_totalSupply erc20_new = 0%Z;
  (** [_approve] reverts on the zero address and changes one allowance *)
  erc20_approve_spec : forall t o s v,
    o <> zero_address -> s <> zero_address -> exists t', erc20_approve t o s v = Ok t' /\
      (forall a, erc20_balanceOf t' a = erc20_balanceOf t a) /\
      (forall o' s', erc20_allowance t' o' s'
                     = if decide (o' = o /\ s' = s) then v else erc20_allowance t o' s');
  erc20_approve_inv : forall t o s v t', erc20_approve t o s v = Ok t' ->
    (forall a, erc20_balanceOf t' a = erc20_balanceOf t a) /\
    (forall o' s', erc20_allowance t' o' s'
                   = if decide (o' = o /\ s' = s) then v else erc20_allowance t o' s');
  (** [_mint] reverts on the zero address and credits the account *)
  erc20_mint_spec : forall t a v t', erc20_mint t a v = Ok t' ->
    erc20_totalSupply t' = (erc20_totalSupply t + v)%Z /\
    erc20_balanceOf t' a = (erc20_balanceOf t a + v)%Z /\
    forall b, b <> a -> erc20_balanceOf t' b = erc20_balanceOf t b;
  (** the new supply is a SafeMath sum *)
  erc20_mint_bound : forall t a v t', erc20_mint t a v = Ok t' -> (erc20_totalSupply t' < UINT256)%Z;
  (** [_burn] and [_transfer] revert when the account holds less *)
  erc20_burn_spec : forall t a v t', erc20_burn t a v = Ok t' ->
    (v <= erc20_balanceOf t a)%Z /\ erc20_totalSupply t' = (erc20_totalSupply t - v)%Z /\
    erc20_balanceOf t' a = (erc20_balanceOf t a - v)%Z /\
    forall b, b <> a -> erc20_balanceOf t' b = erc20_balanceOf t b;
  erc20_transfer_spec : forall t from to v t', erc20_transfer t from to v = Ok t' ->
    (v <= erc20_balanceOf t from)%Z /\ erc20_totalSupply t' = erc20_totalSupply t /\
    forall b, erc20_balanceOf t' b =
      (erc20_balanceOf t b - (if decide (b = from) then v else 0)
       + (if decide (b = to) then v else 0))%Z;
  erc20_transfer_ok : forall t from to v, from <> zero_address -> to <> zero_address ->
    (0 <= v <= erc20_balanceOf t from)%Z -> is_ok (erc20_transfer t from to v) = true;
  erc20_mint_ok : forall t a v, a <> zero_address -> (0 <= v)%Z ->
    (erc20_totalSupply t + v < UINT256)%Z -> is_ok (erc20_mint t a v) = true;
  (** the other operations leave the allowances *)
  erc20_new_allowance : forall o s, erc20_allowance erc20_new o s = 0%Z;
  erc20_mint_allowance : forall t a v t' o s, erc20_mint t a v = Ok t' ->
    erc20_allowance t' o s = erc20_allowance t o s;
  erc20_burn_allowance : forall t a v t' o s, erc20_burn t a v = Ok t' ->
    erc20_allowance t' o s = erc20_allowance t o s;
  erc20_transfer_allowance : forall t from to v t' o s, erc20_transfer t from to v = Ok t' ->
    erc20_allowance t' o s = erc20_allowance t o s;
  (** [ReentrancyGuard]: entering twice reverts, leaving resets *)
  Guard : Type;
  guard_new : Guard;
  guard_enter : Guard -> result Guard;
  guard_leave : Guard -> Guard;
  guard_new_ok : is_ok (guard_enter guard_new) = true;
  guard_entered : forall g g', guard_enter g = Ok g' -> is_ok (guard_enter g') = false;
  guard_left : forall g g', guard_enter g = Ok g' -> is_ok (guard_enter (guard_leave g')) = true
}.

(** ** ABI values *)

Inductive AbiType :=
| TAddress | TUint (bits : Z) | TBool | TString | TBytes
| TArray (t : AbiType) | TTuple (ts : list AbiType).

Inductive AbiValue :=
| VAddress (a : address) | VUint (z : Z) | VBool (b : bool) | VString (s : string)
| VBytes (b : Buffer) | VArray (vs : list AbiValue) | VTuple (vs : list AbiValue).

Section Abi.
Context `{Ethers}.

(** A value of a type, in the range the type has. *)
Inductive has_type : AbiValue -> AbiType -> Prop :=
| ht_address a : getAddress a = Some a -> has_type (VAddress a) TAddress
| ht_uint n z : (0 <= z < 2 ^ n)%Z -> has_type (VUint z) (TUint n)
| ht_bool b : has_type (VBool b) TBool
| ht_string s : has_type (VString s) TString
| ht_bytes b : has_type (VBytes b) TBytes
| ht_array t vs : (forall v, v ∈ vs -> has_type v t) -> has_type (VArray vs) (TArray t)
| ht_tuple ts vs : have_types vs ts -> has_type (VTuple vs) (TTuple ts)
with have_types : list AbiValue -> list AbiType -> Prop :=
| ht_nil : have_types [] []
| ht_cons v t vs ts : has_type v t -> have_types vs ts -> have_types (v :: vs) (t :: ts).

(** [defaultAbiCoder.encode] and the decoder of a contract's entry point. *)
Class AbiCoder := {
  abi_encode : list AbiType -> list AbiValue -> Buffer;
  abi_decode : list AbiType -> Buffer -> option (list AbiValue);
  abi_decode_encode : forall ts vs, have_types vs ts -> abi_decode ts (abi_encode ts vs) = Some vs;
  abi_decode_typed : forall ts b vs, abi_decode ts b = Some vs -> have_types vs ts
}.

Lemma abi_encode_inj `{!AbiCoder} ts vs vs' :
  have_types vs ts -> have_types vs' ts -> abi_encode ts vs = abi_encode ts vs' -> vs = vs'.
Proof.
  intros Hv Hv' E. apply abi_decode_encode in Hv. apply abi_decode_encode in Hv'. congruence.
Qed.

(** The bytes of a string: [bytes(signature)]. *)
Fixpoint string_bytes (s : string) : Buffer :=
  match s with
  | EmptyString => []
  | String c s => byte_of_ascii c :: string_bytes s
  end.

(** [bytes4(keccak256(bytes(signature)))] *)
Definition selector (signature : string) : Buffer := take 4 (keccak256 (string_bytes signature)).

Lemma selector_length s : length (selector s) = 4.
Proof. unfold selector. rewrite length_take, keccak256_length. done. Qed.
End Abi.

Create HintDb abi.
#[export] Hint Constructors has_type have_types : abi.
