(* ===== verification/Uint.v ===== *)
(** * Evaluating checked arithmetic

    Lemmas and tactics for SafeMath expressions: evaluating one whose operands are small
    enough, inverting one that succeeded, and the division facts that fixed-point
    conversions between shares and values rest on. *)

From S2P Require Import Prelude Buffers MerkleTree BalanceTree Evm.

Open Scope Z_scope.

(** [a / b] of Solidity: the EVM's division, whose compiled form stops on a zero divisor. *)
Definition raw_div (a b : Z) : result Z := require (0 <? b) EmptyString ;; Ok (a / b).

(** [Math.min] *)
Definition Math_min (a b : Z) : Z := if a <? b then a else b.

Lemma Math_min_spec a b : Math_min a b = Z.min a b.
Proof. unfold Math_min. destruct (Z.ltb_spec a b); lia. Qed.

(** ** Evaluation *)

Lemma sm_add_fits a b : 0 <= a -> 0 <= b -> a + b < UINT256 -> sm_add a b = Ok (a + b).
Proof. intros. apply sm_add_small; unfold uint256; lia. Qed.

Lemma sm_sub_fits a b msg : b <= a -> sm_sub a b msg = Ok (a - b).
Proof. intros. by apply sm_sub_Ok. Qed.

Lemma sm_mul_fits a b : 0 <= a -> 0 <= b -> a * b < UINT256 -> sm_mul a b = Ok (a * b).
Proof.
  intros Ha Hb Hs. unfold sm_mul. destruct (Z.eqb_spec a 0) as [->|]; [done|]. cbv zeta.
  rewrite Z.mod_small by nia. rewrite Z.mul_comm, Z.div_mul, Z.eqb_refl by done. done.
Qed.

Lemma sm_div_fits a b : 0 < b -> sm_div a b = Ok (a / b).
Proof. intros. by apply sm_div_Ok. Qed.

Lemma raw_div_fits a b : 0 < b -> raw_div a b = Ok (a / b).
Proof. intros. unfold raw_div. by rewrite (proj2 (Z.ltb_lt _ _)). Qed.

(** Evaluates the first checked operation of the goal; the bound is left to the caller. *)
Ltac eval_step :=
  first [ rewrite sm_add_fits by (solve [lia | nia])
        | rewrite sm_sub_fits by (solve [lia | nia])
        | rewrite sm_mul_fits by (solve [lia | nia])
        | rewrite sm_div_fits by (solve [lia | nia])
        | rewrite raw_div_fits by (solve [lia | nia]) ];
  cbn [mbind result_bind].

(** Non-negativity by the shape of the expression. *)
Ltac nonneg :=
  repeat first [lia | apply Z.mul_nonneg_nonneg | apply Z.add_nonneg_nonneg | apply Z.div_pos].

(** ** Inversion

    An operation that succeeds returns the exact result. *)

Lemma sm_add_inv a b c : 0 <= a -> 0 <= b < UINT256 -> sm_add a b = Ok c -> c = a + b /\ c < UINT256.
Proof.
  unfold sm_add. intros Ha Hb H. cbv zeta in H. inv_result. to_props. subst.
  pose proof (Z.mod_pos_bound (a + b) UINT256 UINT256_pos).
  destruct (Z.lt_ge_cases (a + b) UINT256); [rewrite Z.mod_small; lia|].
  rewrite <-(Z.mod_unique_pos (a + b) UINT256 1 (a + b - UINT256)) in * by lia. lia.
Qed.

Lemma sm_mul_inv a b c : 0 <= a -> sm_mul a b = Ok c -> c = a * b /\ c < UINT256.
Proof.
  unfold sm_mul. intros Ha. destruct (Z.eqb_spec a 0) as [->|Hnz]; [by intros [= <-]|].
  cbv zeta. intros H. inv_result. to_props. subst.
  pose proof (Z.mod_pos_bound (a * b) UINT256 UINT256_pos).
  assert (0 <= b) by (rewrite <-H; nonneg).
  pose proof (Z.mod_le (a * b) UINT256 ltac:(nia) UINT256_pos).
  pose proof (Z.mul_div_le ((a * b) mod UINT256) a ltac:(lia)). split; [nia|lia].
Qed.

Lemma raw_div_Ok a b c : raw_div a b = Ok c <-> c = a / b /\ 0 < b.
Proof.
  unfold raw_div. destruct (Z.ltb_spec 0 b); cbn; split; intros; destruct_and?; simplify_eq; try done; lia.
Qed.

Ltac uint_side := solve [lia | nonneg | split; [nonneg|lia]].

(** Turns every successful operation into an equation for its result. *)
Ltac inv_uint :=
  repeat match goal with
  | H : sm_mul ?a ?b = Ok ?c |- _ =>
      apply sm_mul_inv in H as [? ?]; [subst c|uint_side..]
  | H : sm_add ?a ?b = Ok ?c |- _ =>
      apply sm_add_inv in H as [? ?]; [subst c|uint_side..]
  | H : sm_sub ?a ?b _ = Ok ?c |- _ => apply sm_sub_Ok in H as [? ?]; subst c
  | H : sm_div ?a ?b = Ok ?c |- _ => apply sm_div_Ok in H as [? ?]; subst c
  | H : raw_div ?a ?b = Ok ?c |- _ => apply raw_div_Ok in H as [? ?]; subst c
  end.

(** ** Division *)

(** [a / b] as an interval: what [nia] needs. *)
Lemma div_bounds a b : 0 < b -> b * (a / b) <= a < b * (a / b) + b.
Proof. intros Hb. pose proof (Z.div_mod a b). pose proof (Z.mod_pos_bound a b Hb). lia. Qed.

Lemma mul_div_nonneg a b c : 0 <= a -> 0 <= b -> 0 < c -> 0 <= a * b / c.
Proof. intros. apply Z.div_pos; nia. Qed.

(** A share of a total is at most the total. *)
Lemma mul_div_le a b c : 0 <= a <= c -> 0 <= b -> 0 < c -> a * b / c <= b.
Proof. intros. apply Z.div_le_upper_bound; nia. Qed.

Create HintDb uint.
#[export] Hint Resolve mul_div_nonneg mul_div_le : uint.
