(* ===== verification/HuskyMath.v ===== *)
(** * The integer square root of HuskyMath.sol

    [sqrt] of src/contracts/6/utils/HuskyMath.sol, at its width of 256 bits: a first
    estimate from the position of the leading bit, seven Newton steps and a last
    correction.  It is the floor of the root of every 256-bit number; the strategies use it
    to find how much to trade before adding liquidity. *)

From S2P Require Import Prelude Buffers MerkleTree BalanceTree.

Open Scope Z_scope.

(** [if (xx >= 2^k) { xx >>= k; r <<= k / 2; }] *)
Definition narrow (k : Z) (p : Z * Z) : Z * Z :=
  let '(xx, r) := p in
  if 2 ^ k <=? xx then (Z.shiftr xx k, (Z.shiftl r (k / 2)) mod UINT256) else (xx, r).

(** The estimate the iteration starts from. *)
Definition sqrt_estimate (x : Z) : Z :=
  let p := (x, 1) in
  let p := narrow 128 p in
  let p := narrow 64 p in
  let p := narrow 32 p in
  let p := narrow 16 p in
  let p := narrow 8 p in
  let '(xx, r) := narrow 4 p in
  if 8 <=? xx then (Z.shiftl r 1) mod UINT256 else r.

(** [r = (r + x / r) >> 1] *)
Definition newton (x r : Z) : Z := Z.shiftr ((r + x / r) mod UINT256) 1.

Definition sqrt (x : Z) : Z :=
  if x =? 0 then 0 else
  let r := sqrt_estimate x in
  let r := newton x r in
  let r := newton x r in
  let r := newton x r in
  let r := newton x r in
  let r := newton x r in
  let r := newton x r in
  let r := newton x r in
  let r1 := x / r in
  if r <? r1 then r else r1.

(** ** The estimate is within a factor of the root *)

(** [narrow] keeps [xx] the leading part of [x] and [r] the root of the rest. *)
Definition narrowed (x w : Z) (p : Z * Z) : Prop :=
  exists j, 0 <= j /\ p.2 = 2 ^ j /\ p.1 = x / 2 ^ (2 * j) /\ 1 <= p.1 < 2 ^ w /\ 2 * j + w <= 256.

Lemma narrow_narrowed x h p :
  0 < h -> narrowed x (4 * h) p -> narrowed x (2 * h) (narrow (2 * h) p).
Proof.
  intros Hh (j & Hj & Hr & Hxx & Hb & Hw). destruct p as [xx r]; cbn in *. subst r.
  destruct (Z.leb_spec (2 ^ (2 * h)) xx) as [Hge|Hlt]; [|exists j; cbn; repeat split; try done; lia].
  exists (j + h). cbn. replace (2 * h / 2) with h by (rewrite Z.mul_comm, Z.div_mul; lia).
  rewrite Z.shiftl_mul_pow2, Z.shiftr_div_pow2, <-Z.pow_add_r by lia.
  rewrite (Z.mod_small (2 ^ (j + h))) by (split; [lia|apply Z.pow_lt_mono_r; lia]).
  assert (0 < 2 ^ (2 * h)) by lia. replace (4 * h) with (2 * h + 2 * h) in Hb by lia.
  rewrite Z.pow_add_r in Hb by lia.
  repeat split; [lia|..|lia].
  - rewrite Hxx, Z.div_div, <-Z.pow_add_r by lia. do 2 f_equal. lia.
  - apply Z.div_le_lower_bound; lia.
  - apply Z.div_lt_upper_bound; lia.
Qed.

Lemma sqrt_estimate_bounds x :
  0 < x < UINT256 ->
  let r := sqrt_estimate x in 0 < r /\ r * r <= x < 8 * (r * r).
Proof.
  intros Hx. cbv zeta. unfold sqrt_estimate.
  assert (narrowed x 4 (narrow 4 (narrow 8 (narrow 16 (narrow 32 (narrow 64
            (narrow 128 (x, 1)))))))) as (j & Hj & Hr & Hxx & Hb & Hw).
  { apply (narrow_narrowed x 2), (narrow_narrowed x 4), (narrow_narrowed x 8),
      (narrow_narrowed x 16), (narrow_narrowed x 32), (narrow_narrowed x 64); try lia.
    exists 0. cbn. rewrite Z.div_1_r. unfold UINT256 in Hx. lia. }
  destruct (narrow 4 _) as [xx r]; cbn in *. subst r.
  pose proof (Z.div_mod x (2 ^ (2 * j)) ltac:(lia)) as Hdm.
  pose proof (Z.mod_pos_bound x (2 ^ (2 * j)) ltac:(lia)) as Hm. rewrite <-Hxx in Hdm.
  assert (2 ^ (2 * j) = 2 ^ j * 2 ^ j) as Hsq by (rewrite <-Z.pow_add_r by lia; f_equal; lia).
  destruct (Z.leb_spec 8 xx).
  - rewrite Z.shiftl_mul_pow2 by lia. rewrite Z.mod_small.
    2: { split; [lia|]. rewrite <-Z.pow_add_r by lia. apply Z.pow_lt_mono_r; lia. }
    change (2 ^ 1) with 2. nia.
  - nia.
Qed.

(** ** A Newton step at least squares the error *)

Section Step.
Context (x f : Z) (Hx : 0 < x < UINT256) (Hf : f * f <= x < (f + 1) * (f + 1)) (Hf0 : 0 <= f).

Lemma root_pos : 0 < f.
Proof. nia. Qed.

Lemma root_small : f < 2 ^ 128.
Proof. unfold UINT256 in Hx. change (2 ^ 256) with (2 ^ 128 * 2 ^ 128) in Hx. nia. Qed.

(** The step without its wrap-around. *)
Lemma newton_div r : 0 < r < 2 ^ 130 -> x < 8 * (r * r) -> newton x r = (r * r + x) / (2 * r).
Proof.
  intros Hr Hlow. unfold newton. rewrite Z.shiftr_div_pow2 by lia.
  assert (x / r < 8 * r) by (apply Z.div_lt_upper_bound; lia).
  assert (0 <= x / r) by (apply Z.div_pos; lia).
  rewrite Z.mod_small by (unfold UINT256; lia).
  change (2 ^ 1) with 2. rewrite (Z.mul_comm 2 r), <-Z.div_div by lia. f_equal.
  rewrite Z.add_comm, (Z.add_comm (r * r)), Z.div_add; lia.
Qed.

(** The step in real arithmetic, with its rounding. *)
Lemma newton_spec r :
  0 < r < 2 ^ 130 -> x < 8 * (r * r) ->
  let r' := newton x r in 2 * r * r' <= r * r + x < 2 * r * (r' + 1).
Proof.
  intros Hr Hlow. cbv zeta. rewrite newton_div by done.
  pose proof (Z.div_mod (r * r + x) (2 * r) ltac:(lia)).
  pose proof (Z.mod_pos_bound (r * r + x) (2 * r) ltac:(lia)). lia.
Qed.

(** [r] is at least the root, and is the root, one more, or at most [a / b] above it in
    the square. *)
Definition close (a b r : Z) : Prop :=
  f <= r /\ (r = f \/ r = f + 1 /\ f * f + f <= x \/ r * r * b <= x * (a + b)).

Lemma close_bounds a b r : 0 <= a <= 2 * b -> 0 < b -> close a b r -> 0 < r < 2 ^ 130 /\ x < 8 * (r * r).
Proof.
  intros Ha Hb [Hr Hc]. pose proof root_pos. pose proof root_small.
  split; [split; [lia|]|nia]. destruct Hc as [->|[[-> _]|Hc]]; [lia..|].
  assert (r * r <= 3 * x).
  { apply Z.mul_le_mono_pos_r with b; [done|]. assert (x * a <= x * (2 * b)) by nia. lia. }
  apply Z.square_lt_simpl_nonneg; [lia|]. unfold UINT256 in Hx. change (2 ^ 130 * 2 ^ 130) with (16 * 2 ^ 256). lia.
Qed.

Lemma newton_above r : 0 < r < 2 ^ 130 -> x < 8 * (r * r) -> f <= newton x r.
Proof.
  intros Hr Hlow. pose proof (newton_spec r Hr Hlow) as Hn. cbv zeta in Hn.
  apply Z.nlt_ge. intros Hlt. assert (r * (newton x r + 1) <= r * f) by nia.
  pose proof (Z.square_nonneg (r - f)). lia.
Qed.

(** From [a / b] to [a^2 / (4 b (a + b))]. *)
Lemma newton_close a b r :
  0 <= a <= 2 * b -> 0 < b -> close a b r -> close (a * a) (4 * b * (a + b)) (newton x r).
Proof.
  intros Ha Hb Hc. destruct (close_bounds a b r Ha Hb Hc) as [Hr Hlow].
  split; [by apply newton_above|]. pose proof (newton_spec r Hr Hlow) as Hn. cbv zeta in Hn.
  set (r' := newton x r) in *. destruct Hc as [Hfr Hc].
  destruct (decide (r = f)) as [->|Hne].
  { destruct (decide (r' = f)); [by left|]. right; left. nia. }
  assert (x < r * r) by nia. destruct Hc as [->|[[-> Hup]|Hc]]; [done|left; nia|].
  right; right. set (d := r * r - x). assert (0 < d /\ d * b <= x * a) as [Hd Hdb] by (unfold d; lia).
  assert (0 <= r') by (pose proof (newton_above r Hr Hlow); lia).
  assert ((2 * r * r') * (2 * r * r') <= (r * r + x) * (r * r + x)) as Hsq
    by (apply Z.mul_le_mono_nonneg; nia).
  assert ((d * b) * (d * a + d * b) <= (x * a) * (d * a + x * a)) as Hdd
    by (apply Z.mul_le_mono_nonneg; nia).
  assert (r * r = x + d) as Hrr by (unfold d; lia). rewrite Hrr in Hsq.
  apply Z.mul_le_mono_pos_l with (r * r); [lia|].
  assert (0 <= b * (a + b)) as Hba by nia.
  pose proof (Z.mul_le_mono_nonneg_r _ _ _ Hba Hsq) as Hm.
  replace (2 * r * r' * (2 * r * r')) with (4 * (r * r) * (r' * r')) in Hm by ring.
  rewrite Hrr in Hm |- *. lia.
Qed.

(** The first step, from the estimate. *)
Lemma newton_first r : 0 < r -> r * r <= x < 8 * (r * r) -> close 49 32 (newton x r).
Proof.
  intros Hr Hb. pose proof root_small. assert (r <= f) by nia.
  pose proof (newton_spec r ltac:(lia) ltac:(lia)) as Hn. cbv zeta in Hn.
  split; [apply newton_above; lia|]. right; right. set (r' := newton x r) in *.
  assert (0 <= r') by (pose proof (newton_above r ltac:(lia) ltac:(lia)); lia).
  assert ((2 * r * r') * (2 * r * r') <= (r * r + x) * (r * r + x))
    by (apply Z.mul_le_mono_nonneg; nia).
  assert (0 <= (8 * (r * r) - x) * (8 * x - r * r)) by nia.
  apply Z.mul_le_mono_pos_l with (4 * (r * r)); [nia|]. lia.
Qed.

(** The last correction. *)
Lemma close_root a b r :
  0 <= a -> 2 ^ 128 * a < b -> close a b r -> (if r <? x / r then r else x / r) = f.
Proof.
  intros Ha Hb [Hr Hc]. pose proof root_pos. pose proof root_small.
  assert (r = f \/ r = f + 1 /\ f * f + f <= x) as [->|[-> Hup]].
  { destruct Hc as [?|[?|Hc]]; [tauto..|]. destruct (decide (r = f)); [tauto|right].
    assert ((f + 1) * a <= 2 ^ 128 * a) by (apply Z.mul_le_mono_nonneg_r; lia).
    assert (x * a <= (f + 1) * ((f + 1) * a)) by nia.
    assert ((f + 1) * ((f + 1) * a) <= (f + 1) * b) by (apply Z.mul_le_mono_nonneg_l; lia).
    assert (r * r <= x + (f + 1)) by (apply Z.mul_le_mono_pos_r with b; lia).
    assert (r = f + 1) as -> by nia. lia. }
  - destruct (Z.ltb_spec f (x / f)); [done|]. assert (f <= x / f); [|lia].
    apply Z.div_le_lower_bound; lia.
  - assert (x / (f + 1) = f) as ->; [|destruct (Z.ltb_spec (f + 1) f); lia].
    symmetry. apply (Z.div_unique_pos _ _ _ (x - (f + 1) * f)); nia.
Qed.
End Step.

(** C32: the routine computes the floor of the square root of every 256-bit number: seven
    Newton steps are enough from the estimate, no step overflows, and the last correction
    removes an estimate that is one too high. *)
Theorem sqrt_correct x : uint256 x -> sqrt x = Z.sqrt x.
Proof.
  intros Hx. unfold sqrt. destruct (Z.eqb_spec x 0) as [->|Hnz]; [done|].
  assert (0 < x < UINT256) as Hpos by (unfold uint256 in Hx; lia).
  pose proof (Z.sqrt_spec x ltac:(lia)) as Hf. pose proof (Z.sqrt_nonneg x) as Hf0.
  set (f := Z.sqrt x) in *. unfold Z.succ in Hf. cbv zeta.
  pose proof (sqrt_estimate_bounds x Hpos) as [Hr Hb]. cbv zeta in *.
  assert (close x f 49 32 (newton x (sqrt_estimate x))) as H1 by by apply newton_first.
  do 6 (apply newton_close in H1; [|done..|lia|lia]).
  by apply close_root in H1.
Qed.
