(* ===== verification/Amm.v ===== *)
(** * Trading on the exchange

    The formulas of src/contracts/6/apis/pancakeV2/PancakeLibraryV2.sol, by which the
    exchange trades; the formula of PancakeswapV2Worker.sol that values a position by
    them; and the amounts that the strategies PancakeswapV2AddBaseTokenOnly.sol and
    PancakeswapV2AddTwosidesOptimal.sol trade before they add liquidity. *)

From S2P Require Import Prelude Buffers MerkleTree BalanceTree Evm Uint HuskyMath.

Open Scope Z_scope.

(** ** PancakeLibraryV2.sol *)

Definition quote (amountA reserveA reserveB : Z) : result Z :=
  require (0 <? amountA) "PancakeLibrary: INSUFFICIENT_AMOUNT" ;;
  require ((0 <? reserveA) && (0 <? reserveB)) "PancakeLibrary: INSUFFICIENT_LIQUIDITY" ;;
  x ← sm_mul amountA reserveB; raw_div x reserveA.

Definition getAmountOut (amountIn reserveIn reserveOut : Z) : result Z :=
  require (0 <? amountIn) "PancakeLibrary: INSUFFICIENT_INPUT_AMOUNT" ;;
  require ((0 <? reserveIn) && (0 <? reserveOut)) "PancakeLibrary: INSUFFICIENT_LIQUIDITY" ;;
  amountInWithFee ← sm_mul amountIn 9975;
  numerator ← sm_mul amountInWithFee reserveOut;
  scaled ← sm_mul reserveIn 10000;
  denominator ← sm_add scaled amountInWithFee;
  raw_div numerator denominator.

Definition getAmountIn (amountOut reserveIn reserveOut : Z) : result Z :=
  require (0 <? amountOut) "PancakeLibrary: INSUFFICIENT_OUTPUT_AMOUNT" ;;
  require ((0 <? reserveIn) && (0 <? reserveOut)) "PancakeLibrary: INSUFFICIENT_LIQUIDITY" ;;
  x ← sm_mul reserveIn amountOut;
  numerator ← sm_mul x 10000;
  left ← sm_sub reserveOut amountOut SUB_OVERFLOW;
  denominator ← sm_mul left 9975;
  q ← raw_div numerator denominator;
  sm_add q 1.

(** ** PancakeswapV2Worker.sol *)

Definition getMktSellAmount (fee feeDenom aIn rIn rOut : Z) : result Z :=
  if aIn =? 0 then Ok 0 else
  require ((0 <? rIn) && (0 <? rOut)) "PancakeswapV2Worker::getMktSellAmount: bad reserve values" ;;
  aInWithFee ← sm_mul aIn fee;
  numerator ← sm_mul aInWithFee rOut;
  scaled ← sm_mul rIn feeDenom;
  denominator ← sm_add scaled aInWithFee;
  raw_div numerator denominator.

(** The value of [lpBalance] of the [lpSupply] tokens of a pair in its base token: what
    [health] computes once it has read the pair. *)
Definition lpValue (fee feeDenom lpBalance lpSupply totalBaseToken totalFarmingToken : Z) : result Z :=
  x ← sm_mul lpBalance totalBaseToken; userBaseToken ← sm_div x lpSupply;
  y ← sm_mul lpBalance totalFarmingToken; userFarmingToken ← sm_div y lpSupply;
  farmingLeft ← sm_sub totalFarmingToken userFarmingToken SUB_OVERFLOW;
  baseLeft ← sm_sub totalBaseToken userBaseToken SUB_OVERFLOW;
  sold ← getMktSellAmount fee feeDenom userFarmingToken farmingLeft baseLeft;
  sm_add sold userBaseToken.

(** ** The strategies that add liquidity *)

(** PancakeswapV2AddBaseTokenOnly.sol: the part of [balance] to trade, [aIn] in [execute]. *)
Definition addBaseToken_aIn (balance rIn : Z) : result Z :=
  x ← sm_mul balance 399000000;
  y ← sm_mul rIn 399000625;
  s ← sm_add x y;
  d ← sm_mul rIn s;
  z ← sm_mul rIn 19975;
  n ← sm_sub (sqrt d) z SUB_OVERFLOW;
  Ok (n / 19950).

(** PancakeswapV2AddTwosidesOptimal.sol *)
Definition optimalDepositA (amtA amtB resA resB : Z) : result Z :=
  x ← sm_mul amtA resB; y ← sm_mul amtB resA;
  require (y <=? x) "Reversed" ;;
  b ← sm_mul 19975 resA;
  c0 ← sm_sub x y SUB_OVERFLOW;
  c1 ← sm_mul c0 10000;
  total ← sm_add amtB resB;
  c2 ← sm_div c1 total;
  c ← sm_mul c2 resA;
  ac ← sm_mul 9975 c; d ← sm_mul ac 4;
  bb ← sm_mul b b; dd ← sm_add bb d;
  let e := sqrt dd in
  numerator ← sm_sub e b SUB_OVERFLOW;
  denominator ← sm_mul 9975 2;
  sm_div numerator denominator.

Definition optimalDeposit (amtA amtB resA resB : Z) : result (Z * bool) :=
  x ← sm_mul amtA resB; y ← sm_mul amtB resA;
  if y <=? x then s ← optimalDepositA amtA amtB resA resB; Ok (s, false)
  else s ← optimalDepositA amtB amtA resB resA; Ok (s, true).

(** ** Amounts the exchange can hold

    The exchange keeps reserves in 112 bits. *)

Definition uint112 (z : Z) : Prop := 0 <= z < 2 ^ 112.

(** [lia] over 112-bit amounts. *)
Ltac fits := unfold uint112, UINT256 in *; lia.

(** ** What the formulas compute *)

Lemma getAmountOut_Ok a rIn rOut out :
  getAmountOut a rIn rOut = Ok out ->
  0 < a /\ 0 < rIn /\ 0 < rOut /\ out = a * 9975 * rOut / (rIn * 10000 + a * 9975).
Proof. intros H. unfold getAmountOut in H. inv_result. to_props. inv_uint. done. Qed.

Lemma getAmountIn_Ok out rIn rOut a :
  getAmountIn out rIn rOut = Ok a ->
  0 < out < rOut /\ 0 < rIn /\ a = rIn * out * 10000 / ((rOut - out) * 9975) + 1.
Proof.
  intros H. unfold getAmountIn in H. inv_result. to_props. inv_uint.
  repeat split; lia.
Qed.

(** The worker values a sale by the exchange's own formula: for every amount above
    zero [getMktSellAmount] with the fee the worker is initialised with returns a value
    exactly when the router's [getAmountOut] does, and the same one. *)
Theorem worker_sells_at_router_price aIn rIn rOut v :
  0 < aIn -> getMktSellAmount 9975 10000 aIn rIn rOut = Ok v <-> getAmountOut aIn rIn rOut = Ok v.
Proof.
  intros Ha. unfold getMktSellAmount, getAmountOut.
  rewrite (proj2 (Z.eqb_neq aIn 0)), (proj2 (Z.ltb_lt 0 aIn)) by lia. cbn [require mbind result_bind].
  destruct (_ && _); cbn; done.
Qed.

(** A trade never empties a pair and never lowers the product of its reserves: the fee
    stays in the pool. *)
Theorem trade_keeps_product a rIn rOut out :
  getAmountOut a rIn rOut = Ok out ->
  0 <= out < rOut /\ rIn * rOut <= (rIn + a) * (rOut - out).
Proof.
  intros (Ha & HrI & HrO & ->)%getAmountOut_Ok.
  pose proof (div_bounds (a * 9975 * rOut) (rIn * 10000 + a * 9975) ltac:(lia)) as Hb.
  set (out := _ / _) in *. assert (0 <= out) by (apply Z.div_pos; nia).
  assert (out < rOut) by nia. split; [lia|]. nia.
Qed.

(** The amount the exchange asks for an output is enough for it: trading the result of
    [getAmountIn] yields at least the amount wanted, so the strategies that trade for an
    exact amount never fall short. *)
Theorem amount_in_is_enough out rIn rOut a got :
  getAmountIn out rIn rOut = Ok a -> getAmountOut a rIn rOut = Ok got -> out <= got.
Proof.
  intros (Ho & HrI & Ha)%getAmountIn_Ok (Hpos & _ & HrO & ->)%getAmountOut_Ok.
  pose proof (div_bounds (rIn * out * 10000) ((rOut - out) * 9975) ltac:(lia)) as Hb.
  set (q := _ / _) in Hb, Ha. apply Z.div_le_lower_bound; [lia|].
  assert (rIn * out * 10000 <= (rOut - out) * 9975 * a) by (subst a; lia). lia.
Qed.

(** ** The optimal trade

    Selling [s] of A into reserves [resA], [resB] leaves amounts that match the pool's new
    proportion when [9975 s^2 + 19975 resA s = 10000 resA imbalance], with the imbalance
    [(amtA resB - amtB resA) / (amtB + resB)]. *)

Definition trade_cost (resA s : Z) : Z := 9975 * (s * s) + 19975 * resA * s.

(** The floor of a root of the quadratic. *)
Lemma quadratic_floor (b c : Z) :
  0 <= b -> 0 <= c ->
  let s := (Z.sqrt (b * b + 4 * 9975 * c) - b) / 19950 in
  0 <= s /\ 9975 * (s * s) + b * s <= c < 9975 * ((s + 1) * (s + 1)) + b * (s + 1).
Proof.
  intros Hb Hc. cbv zeta. set (d := b * b + 4 * 9975 * c).
  pose proof (Z.sqrt_spec d ltac:(unfold d; nia)) as Hs. set (e := Z.sqrt d) in *. unfold Z.succ in Hs.
  assert (b <= e) by nia.
  pose proof (div_bounds (e - b) 19950 ltac:(lia)) as Hq. set (s := (e - b) / 19950) in *.
  assert (0 <= s) by (apply Z.div_pos; lia). split; [done|].
  assert ((19950 * s + b) * (19950 * s + b) <= d) by nia.
  assert (d < (19950 * (s + 1) + b) * (19950 * (s + 1) + b)) by nia.
  unfold d in *. split; lia.
Qed.

Lemma addBaseToken_aIn_Ok balance rIn s :
  0 <= balance -> 0 <= rIn -> addBaseToken_aIn balance rIn = Ok s ->
  0 <= s /\ trade_cost rIn s <= 10000 * rIn * balance < trade_cost rIn (s + 1).
Proof.
  intros Hb Hr H. unfold addBaseToken_aIn in H. inv_result. inv_uint. subst s.
  rewrite sqrt_correct by (unfold uint256; nia). unfold trade_cost.
  pose proof (quadratic_floor (19975 * rIn) (10000 * rIn * balance) ltac:(lia) ltac:(nia)) as Hq.
  replace (rIn * (balance * 399000000 + rIn * 399000625))
    with (19975 * rIn * (19975 * rIn) + 4 * 9975 * (10000 * rIn * balance)) by ring.
  rewrite (Z.mul_comm rIn 19975). exact Hq.
Qed.

(** A trade of at most the root leaves at least as much of A as the pool's new proportion
    asks for the B then held. *)
Lemma balanced_trade amtA amtB s out rIn rOut :
  0 <= amtB -> 0 <= s <= amtA -> 0 < rIn ->
  (amtB + rOut) * trade_cost rIn s <= 10000 * rIn * (amtA * rOut - amtB * rIn) ->
  (rIn * 10000 + s * 9975) * out <= s * 9975 * rOut ->
  (amtB + out) * (rIn + s) <= (amtA - s) * (rOut - out).
Proof.
  unfold trade_cost. intros HB Hs Hr Hc Ho. set (k := rIn * 10000 + s * 9975) in *.
  apply Z.mul_le_mono_pos_l with k; [unfold k; lia|].
  apply Z.le_trans with ((amtB * k + s * 9975 * rOut) * (rIn + s)); [nia|].
  apply Z.le_trans with ((amtA - s) * (10000 * rIn * rOut)); [unfold k; lia|].
  assert (10000 * rIn * rOut <= k * (rOut - out)) by (unfold k in *; lia).
  transitivity ((amtA - s) * (k * (rOut - out))); [apply Z.mul_le_mono_nonneg_l; lia|lia].
Qed.

(** [PancakeswapV2AddBaseTokenOnly] trades the right part of its base token: after the
    trade at the exchange's price the rest suffices to add all the farming token bought
    as liquidity, while trading one unit more would, at the price without rounding, leave
    too little base token. *)
Theorem addBaseToken_optimal balance rIn rOut s out :
  0 <= balance -> 0 < rOut -> addBaseToken_aIn balance rIn = Ok s -> getAmountOut s rIn rOut = Ok out ->
  s <= balance /\ out * (rIn + s) <= (balance - s) * (rOut - out) /\
  (balance - (s + 1)) * (10000 * rIn) < 9975 * (s + 1) * (rIn + (s + 1)).
Proof.
  intros Hb HrO Hs Hout. pose proof (trade_keeps_product _ _ _ _ Hout) as [Hpair _].
  apply getAmountOut_Ok in Hout as (Hpos & HrI & _ & Ho).
  destruct (addBaseToken_aIn_Ok balance rIn s Hb ltac:(lia) Hs) as (_ & Hle & Hlt). unfold trade_cost in *.
  pose proof (div_bounds (s * 9975 * rOut) (rIn * 10000 + s * 9975) ltac:(lia)) as Hd. rewrite <-Ho in Hd.
  assert (s <= balance) by nia. split; [done|]. split; [|lia].
  apply (balanced_trade balance 0); try lia. unfold trade_cost.
  apply (Z.mul_le_mono_nonneg_l _ _ rOut) in Hle; lia.
Qed.

Lemma optimalDepositA_Ok amtA amtB resA resB s :
  0 <= amtA -> 0 <= amtB -> 0 <= resA -> 0 < resB < UINT256 ->
  optimalDepositA amtA amtB resA resB = Ok s ->
  let imbalance := amtA * resB - amtB * resA in
  let c := imbalance * 10000 / (amtB + resB) * resA in
  0 <= imbalance /\ 0 <= s /\ trade_cost resA s <= c < trade_cost resA (s + 1).
Proof.
  intros HA HB HrA HrB H. cbv zeta. unfold optimalDepositA in H. inv_result. to_props. inv_uint.
  set (i := amtA * resB - amtB * resA) in *. assert (0 <= i) by (unfold i; lia).
  assert (0 <= i * 10000 / (amtB + resB) * resA) as Hc
    by (apply Z.mul_nonneg_nonneg; [apply Z.div_pos|]; lia).
  set (c := i * 10000 / (amtB + resB) * resA) in *. inv_uint. split; [done|].
  rewrite sqrt_correct by (unfold uint256; nia). unfold trade_cost.
  pose proof (quadratic_floor (19975 * resA) c ltac:(lia) Hc) as Hq.
  replace (19975 * resA * (19975 * resA) + 9975 * c * 4)
    with (19975 * resA * (19975 * resA) + 4 * 9975 * c) by ring.
  exact Hq.
Qed.

(** C33: [optimalDeposit] trades on the side that has too much and trades the right part:
    after the trade at the exchange's price that side still covers what the other needs as
    liquidity, and two units more would be past the exact optimum. *)
Theorem optimalDeposit_optimal amtA amtB resA resB s rev out :
  0 <= amtA -> 0 <= amtB -> uint256 resA -> uint256 resB ->
  optimalDeposit amtA amtB resA resB = Ok (s, rev) ->
  let '(a, b, ra, rb) := if rev then (amtB, amtA, resB, resA) else (amtA, amtB, resA, resB) in
  getAmountOut s ra rb = Ok out ->
  s <= a /\ (b + out) * (ra + s) <= (a - s) * (rb - out) /\
  10000 * ra * (a * rb - b * ra) < (b + rb) * trade_cost ra (s + 2).
Proof.
  unfold uint256. intros HA HB HrA HrB H. unfold optimalDeposit in H.
  assert (forall a b ra rb, 0 <= a -> 0 <= b -> rb < UINT256 -> optimalDepositA a b ra rb = Ok s ->
    getAmountOut s ra rb = Ok out -> s <= a /\ (b + out) * (ra + s) <= (a - s) * (rb - out) /\
    10000 * ra * (a * rb - b * ra) < (b + rb) * trade_cost ra (s + 2)) as Hside.
  { clear. intros a b ra rb Ha Hb Hu Hs Hout.
    pose proof (trade_keeps_product _ _ _ _ Hout) as [Hpair _].
    apply getAmountOut_Ok in Hout as (Hpos & Hra & Hrb & Ho).
    pose proof (div_bounds (s * 9975 * rb) (ra * 10000 + s * 9975) ltac:(lia)) as Hd. rewrite <-Ho in Hd.
    apply optimalDepositA_Ok in Hs as (Hi & _ & Hle & Hlt); [|lia..].
    pose proof (div_bounds ((a * rb - b * ra) * 10000) (b + rb) ltac:(lia)) as Hq.
    set (q := _ / (b + rb)) in *.
    assert ((b + rb) * trade_cost ra s <= 10000 * ra * (a * rb - b * ra)).
    { apply Z.le_trans with ((b + rb) * (q * ra)); [apply Z.mul_le_mono_nonneg_l; lia|nia]. }
    assert (s <= a) by (unfold trade_cost in *; nia).
    split; [done|]. split; [apply balanced_trade; lia|].
    apply Z.lt_le_trans with ((b + rb) * (q * ra + ra)); [nia|].
    apply Z.mul_le_mono_nonneg_l; [lia|]. unfold trade_cost in *. nia. }
  inv_result. destruct (_ <=? _); inv_result; subst; apply Hside; (done || lia).
Qed.

(** ** No overflow on amounts the exchange can hold *)

Lemma mul_pow_lt m n w a b :
  0 <= m -> 0 <= n -> w = m + n -> 0 <= a < 2 ^ m -> 0 <= b < 2 ^ n -> 0 <= a * b < 2 ^ w.
Proof. intros Hm Hn -> Ha Hb. rewrite Z.pow_add_r by done. nia. Qed.

Lemma optimalDepositA_total amtA amtB resA resB :
  uint112 amtA -> uint112 amtB -> uint112 resA -> uint112 resB -> 0 < resB ->
  amtB * resA <= amtA * resB -> exists s, optimalDepositA amtA amtB resA resB = Ok s.
Proof.
  unfold uint112. intros HA HB HrA HrB Hpos Hle.
  pose proof (mul_pow_lt 112 112 224 amtA resB ltac:(lia) ltac:(lia) eq_refl HA HrB) as H1.
  pose proof (mul_pow_lt 112 112 224 amtB resA ltac:(lia) ltac:(lia) eq_refl HB HrA) as H2.
  unfold optimalDepositA. rewrite !sm_mul_fits by fits. cbn [mbind result_bind].
  rewrite (proj2 (Z.leb_le _ _)) by done. cbn [require mbind result_bind].
  rewrite sm_sub_fits by done. cbn [mbind result_bind].
  set (i := amtA * resB - amtB * resA). assert (0 <= i < 2 ^ 224) by lia.
  rewrite (sm_mul_fits i) by fits. cbn [mbind result_bind].
  rewrite (sm_add_fits amtB) by fits. cbn [mbind result_bind].
  rewrite sm_div_fits by lia. cbn [mbind result_bind].
  assert (0 <= i * 10000 / (amtB + resB) < 2 ^ 126) as Hq.
  { split; [nonneg|]. apply Z.div_lt_upper_bound; [lia|]. unfold i.
    assert (amtA * resB <= 2 ^ 112 * resB) by (apply Z.mul_le_mono_nonneg_r; lia). lia. }
  set (q := _ / _) in *.
  pose proof (mul_pow_lt 126 112 238 q resA ltac:(lia) ltac:(lia) eq_refl Hq HrA) as Hc.
  assert (0 <= 19975 * resA < 2 ^ 127) as Hb by lia.
  pose proof (mul_pow_lt 127 127 254 _ _ ltac:(lia) ltac:(lia) eq_refl Hb Hb) as Hbb.
  set (b := 19975 * resA) in *.
  rewrite (sm_mul_fits q), (sm_mul_fits b b) by fits. cbn [mbind result_bind].
  do 2 (rewrite sm_mul_fits by fits; cbn [mbind result_bind]).
  rewrite sm_add_fits by fits. cbn [mbind result_bind].
  assert (b <= sqrt (b * b + 9975 * (q * resA) * 4)).
  { rewrite sqrt_correct by (unfold uint256; fits). apply Z.sqrt_le_square; lia. }
  rewrite sm_sub_fits by done. cbn [mbind result_bind]. by eexists.
Qed.

(** On amounts and reserves of 112 bits, all the exchange can hold, [optimalDeposit]
    never overflows: it always returns an amount. *)
Theorem optimalDeposit_total amtA amtB resA resB :
  uint112 amtA -> uint112 amtB -> uint112 resA -> uint112 resB -> 0 < resA -> 0 < resB ->
  exists s rev, optimalDeposit amtA amtB resA resB = Ok (s, rev).
Proof.
  intros HA HB HrA HrB Ha Hb. unfold optimalDeposit.
  pose proof (mul_pow_lt 112 112 224 amtA resB ltac:(lia) ltac:(lia) eq_refl HA HrB) as H1.
  pose proof (mul_pow_lt 112 112 224 amtB resA ltac:(lia) ltac:(lia) eq_refl HB HrA) as H2.
 rewrite !sm_mul_fits by fits. cbn [mbind result_bind].
  destruct (Z.leb_spec (amtB * resA) (amtA * resB)).
  - destruct (optimalDepositA_total amtA amtB resA resB) as [s ->]; [done..|]. by exists s, false.
  - destruct (optimalDepositA_total amtB amtA resB resA) as [s ->]; [done..|lia|]. by exists s, true.
Qed.
