(* ===== verification/InterestModel.v ===== *)
(** * The interest models

    src/contracts/6/protocol/interestmodels: three contracts with one formula, a rate per
    second as a piecewise linear function of the utilisation of a vault, and constants of
    their own. *)

From S2P Require Import Prelude Buffers MerkleTree BalanceTree Evm Uint.

Open Scope Z_scope.

(** The constants of a contract. *)
Record Slopes := {
  CEIL_SLOPE_1 : Z; CEIL_SLOPE_2 : Z; CEIL_SLOPE_3 : Z;
  MAX_INTEREST_SLOPE_1 : Z; MAX_INTEREST_SLOPE_2 : Z; MAX_INTEREST_SLOPE_3 : Z
}.

Definition TripleSlopeModel : Slopes :=
  {| CEIL_SLOPE_1 := 50 * 10 ^ 18; CEIL_SLOPE_2 := 90 * 10 ^ 18; CEIL_SLOPE_3 := 100 * 10 ^ 18;
     MAX_INTEREST_SLOPE_1 := 20 * 10 ^ 16; MAX_INTEREST_SLOPE_2 := 20 * 10 ^ 16;
     MAX_INTEREST_SLOPE_3 := 150 * 10 ^ 16 |}.

Definition HighInterestTripleSlopeModel : Slopes :=
  {| CEIL_SLOPE_1 := 40 * 10 ^ 18; CEIL_SLOPE_2 := 95 * 10 ^ 18; CEIL_SLOPE_3 := 100 * 10 ^ 18;
     MAX_INTEREST_SLOPE_1 := 4 * 10 ^ 16; MAX_INTEREST_SLOPE_2 := 8 * 10 ^ 16;
     MAX_INTEREST_SLOPE_3 := 100 * 10 ^ 16 |}.

Definition LowInterestTripleSlopeModel : Slopes :=
  {| CEIL_SLOPE_1 := 40 * 10 ^ 18; CEIL_SLOPE_2 := 95 * 10 ^ 18; CEIL_SLOPE_3 := 100 * 10 ^ 18;
     MAX_INTEREST_SLOPE_1 := 3 * 10 ^ 16; MAX_INTEREST_SLOPE_2 := 6 * 10 ^ 16;
     MAX_INTEREST_SLOPE_3 := 100 * 10 ^ 16 |}.

(** [365 days] *)
Definition YEAR : Z := 365 * 24 * 60 * 60.

(** The rate per second, with denominator [10^18]. *)
Definition getInterestRate (m : Slopes) (debt floating : Z) : result Z :=
  if (debt =? 0) && (floating =? 0) then Ok 0 else
  total ← sm_add debt floating;
  x ← sm_mul debt (100 * 10 ^ 18);
  utilization ← sm_div x total;
  if utilization <? CEIL_SLOPE_1 m then
    y ← sm_mul utilization (MAX_INTEREST_SLOPE_1 m);
    z ← sm_div y (CEIL_SLOPE_1 m);
    raw_div z YEAR
  else if utilization <? CEIL_SLOPE_2 m then
    raw_div (MAX_INTEREST_SLOPE_2 m) YEAR
  else if utilization <? CEIL_SLOPE_3 m then
    above ← sm_sub utilization (CEIL_SLOPE_2 m) SUB_OVERFLOW;
    rise ← sm_sub (MAX_INTEREST_SLOPE_3 m) (MAX_INTEREST_SLOPE_2 m) SUB_OVERFLOW;
    y ← sm_mul above rise;
    width ← sm_sub (CEIL_SLOPE_3 m) (CEIL_SLOPE_2 m) SUB_OVERFLOW;
    z ← sm_div y width;
    raw_div ((MAX_INTEREST_SLOPE_2 m + z) mod UINT256) YEAR
  else raw_div (MAX_INTEREST_SLOPE_3 m) YEAR.

(** ** The rate as a function of the utilisation *)

(** The constants rise, and are small enough for the products. *)
Definition rising (m : Slopes) : Prop :=
  0 < CEIL_SLOPE_1 m <= CEIL_SLOPE_2 m /\ CEIL_SLOPE_2 m < CEIL_SLOPE_3 m < 2 ^ 100 /\
  0 <= MAX_INTEREST_SLOPE_1 m <= MAX_INTEREST_SLOPE_2 m /\
  MAX_INTEREST_SLOPE_2 m <= MAX_INTEREST_SLOPE_3 m < 2 ^ 100.

Lemma models_rising :
  rising TripleSlopeModel /\ rising HighInterestTripleSlopeModel /\ rising LowInterestTripleSlopeModel.
Proof. unfold rising; cbn; lia. Qed.

Section Rate.
Context (m : Slopes) (Hm : rising m).

Definition slope (u : Z) : Z :=
  if u <? CEIL_SLOPE_1 m then u * MAX_INTEREST_SLOPE_1 m / CEIL_SLOPE_1 m
  else if u <? CEIL_SLOPE_2 m then MAX_INTEREST_SLOPE_2 m
  else if u <? CEIL_SLOPE_3 m then
    MAX_INTEREST_SLOPE_2 m
    + (u - CEIL_SLOPE_2 m) * (MAX_INTEREST_SLOPE_3 m - MAX_INTEREST_SLOPE_2 m)
      / (CEIL_SLOPE_3 m - CEIL_SLOPE_2 m)
  else MAX_INTEREST_SLOPE_3 m.

Definition utilization (debt floating : Z) : Z := debt * (100 * 10 ^ 18) / (debt + floating).

Lemma slope_bounds u : 0 <= u -> 0 <= slope u <= MAX_INTEREST_SLOPE_3 m.
Proof.
  intros Hu. destruct Hm as (?&?&?&?). unfold slope.
  destruct (Z.ltb_spec u (CEIL_SLOPE_1 m)); [|destruct (Z.ltb_spec u (CEIL_SLOPE_2 m));
    [lia|destruct (Z.ltb_spec u (CEIL_SLOPE_3 m)); [|lia]]].
  - split; [nonneg|]. pose proof (mul_div_le u (MAX_INTEREST_SLOPE_1 m) (CEIL_SLOPE_1 m)). lia.
  - pose proof (mul_div_le (u - CEIL_SLOPE_2 m) (MAX_INTEREST_SLOPE_3 m - MAX_INTEREST_SLOPE_2 m)
      (CEIL_SLOPE_3 m - CEIL_SLOPE_2 m)) as Hle.
    split; [nonneg|lia].
Qed.

Lemma slope_monotone u v : 0 <= u <= v -> slope u <= slope v.
Proof.
  intros Huv. pose proof (slope_bounds u ltac:(lia)). destruct Hm as (?&?&?&?).
  assert (forall w, CEIL_SLOPE_1 m <= w -> MAX_INTEREST_SLOPE_2 m <= slope w) as Hlow.
  { intros w Hw. unfold slope. 
    destruct (Z.ltb_spec w (CEIL_SLOPE_1 m)); [lia|].
    destruct (Z.ltb_spec w (CEIL_SLOPE_2 m)); [lia|].
    destruct (Z.ltb_spec w (CEIL_SLOPE_3 m)); [|lia].
    assert (0 <= (w - CEIL_SLOPE_2 m) * (MAX_INTEREST_SLOPE_3 m - MAX_INTEREST_SLOPE_2 m)
      / (CEIL_SLOPE_3 m - CEIL_SLOPE_2 m)) by nonneg. lia. }
  destruct (Z.lt_ge_cases u (CEIL_SLOPE_1 m)) as [Hu1|Hu1].
  { pose proof (mul_div_le u (MAX_INTEREST_SLOPE_1 m) (CEIL_SLOPE_1 m) ltac:(lia) ltac:(lia) ltac:(lia)).
    destruct (Z.lt_ge_cases v (CEIL_SLOPE_1 m)) as [Hu2|Hu2].
    - unfold slope. rewrite !(proj2 (Z.ltb_lt _ _)) by done. apply Z.div_le_mono; nia.
    - specialize (Hlow v Hu2). unfold slope at 1. rewrite (proj2 (Z.ltb_lt _ _)) by done. lia. }
  destruct (Z.lt_ge_cases u (CEIL_SLOPE_2 m)) as [Hu2|Hu2].
  { specialize (Hlow v ltac:(lia)). unfold slope at 1.
    rewrite (proj2 (Z.ltb_ge u (CEIL_SLOPE_1 m))), (proj2 (Z.ltb_lt u (CEIL_SLOPE_2 m))) by lia. done. }
  destruct (Z.lt_ge_cases v (CEIL_SLOPE_3 m)) as [Hu3|Hu3].
  - unfold slope. rewrite !(proj2 (Z.ltb_ge _ (CEIL_SLOPE_1 m))), !(proj2 (Z.ltb_ge _ (CEIL_SLOPE_2 m))),
      !(proj2 (Z.ltb_lt _ (CEIL_SLOPE_3 m))) by lia.
    apply Zplus_le_compat_l, Z.div_le_mono; nia.
  - unfold slope at 2. rewrite (proj2 (Z.ltb_ge v (CEIL_SLOPE_1 m))), (proj2 (Z.ltb_ge v (CEIL_SLOPE_2 m))),
      (proj2 (Z.ltb_ge v (CEIL_SLOPE_3 m))) by lia. lia.
Qed.

Lemma utilization_bounds debt floating :
  0 <= debt -> 0 <= floating -> 0 < debt + floating -> 0 <= utilization debt floating <= 100 * 10 ^ 18.
Proof. intros. unfold utilization. split; [nonneg|apply mul_div_le; lia]. Qed.

Lemma utilization_monotone d d' f f' :
  0 <= d <= d' -> 0 <= f' <= f -> 0 < d + f -> 0 < d' + f' -> utilization d f <= utilization d' f'.
Proof.
  intros. unfold utilization. apply Z.div_le_lower_bound; [lia|].
  pose proof (div_bounds (d * (100 * 10 ^ 18)) (d + f) ltac:(lia)).
  set (q := _ / _) in *. assert (0 <= q) by (unfold q; nonneg).
  assert (d * (d' + f') <= d' * (d + f)) by nia.
  apply Z.mul_le_mono_pos_l with (d + f); [lia|]. nia.
Qed.

(** What the contract computes, when no product overflows. *)
Lemma getInterestRate_slope debt floating :
  0 <= debt < 2 ^ 128 -> 0 <= floating < 2 ^ 128 -> 0 < debt + floating ->
  getInterestRate m debt floating = Ok (slope (utilization debt floating) / YEAR).
Proof.
  intros Hd Hf Hpos. pose proof (utilization_bounds debt floating ltac:(lia) ltac:(lia) Hpos) as Hu.
  pose proof (slope_bounds (utilization debt floating) ltac:(lia)) as Hs.
  destruct Hm as (?&?&?&?). unfold getInterestRate.
  replace ((debt =? 0) && (floating =? 0)) with false by (symmetry; apply andb_false_iff; lia).
  rewrite (sm_add_fits debt), (sm_mul_fits debt) by (unfold UINT256; lia). cbn [mbind result_bind].
  rewrite (sm_div_fits (debt * (100 * 10 ^ 18))) by lia. cbn [mbind result_bind].
  fold (utilization debt floating). set (u := utilization _ _) in *. unfold slope in *.
  destruct (Z.ltb_spec u (CEIL_SLOPE_1 m)).
  { rewrite (sm_mul_fits u) by (unfold UINT256; nia). cbn [mbind result_bind].
    rewrite sm_div_fits by lia. done. }
  destruct (Z.ltb_spec u (CEIL_SLOPE_2 m)); [done|].
  destruct (Z.ltb_spec u (CEIL_SLOPE_3 m)); [|done].
  rewrite !sm_sub_fits by lia. cbn [mbind result_bind].
  rewrite sm_mul_fits by (unfold UINT256; nia). cbn [mbind result_bind].
  rewrite sm_div_fits by lia. cbn [mbind result_bind].
  rewrite Z.mod_small by (unfold UINT256; lia). done.
Qed.

Lemma rate_monotone d d' f f' :
  0 <= d -> d <= d' < 2 ^ 128 -> 0 <= f' -> f' <= f < 2 ^ 128 ->
  exists r r', getInterestRate m d f = Ok r /\ getInterestRate m d' f' = Ok r' /\
    0 <= r <= r' /\ r' <= MAX_INTEREST_SLOPE_3 m / YEAR.
Proof.
  intros Hd0 Hd Hf0 Hf. assert (0 < YEAR) as Hy by done.
  assert (forall a b, 0 <= a < 2 ^ 128 -> 0 <= b < 2 ^ 128 -> exists r, getInterestRate m a b = Ok r /\
    0 <= r <= MAX_INTEREST_SLOPE_3 m / YEAR /\ (a = 0 -> r = 0)) as Hrate.
  { intros a b Ha Hb. destruct (decide (a + b = 0)) as [Hz|Hnz].
    - assert (a = 0 /\ b = 0) as [-> ->] by lia. exists 0. repeat split; try done.
      destruct Hm as (?&?&?&?). nonneg.
    - rewrite getInterestRate_slope by lia. eexists; split; [done|].
      pose proof (utilization_bounds a b ltac:(lia) ltac:(lia) ltac:(lia)).
      pose proof (slope_bounds (utilization a b) ltac:(lia)). split.
      + split; [nonneg|apply Z.div_le_mono; lia].
      + intros ->. unfold utilization, slope. cbn [Z.mul]. rewrite Zdiv_0_l.
        destruct Hm as (?&?&?&?). rewrite (proj2 (Z.ltb_lt _ _)) by lia. done. }
  destruct (Hrate d f) as (r & Hr & Hb & Hz); [lia..|].
  destruct (Hrate d' f') as (r' & Hr' & Hb' & Hz'); [lia..|].
  exists r, r'. repeat split; try (done || lia).
  destruct (decide (d = 0)) as [H0|H0]; [rewrite Hz by done; lia|].
  rewrite getInterestRate_slope in Hr, Hr' by lia. injection Hr as <-. injection Hr' as <-.
  apply Z.div_le_mono; [lia|]. apply slope_monotone.
  pose proof (utilization_bounds d f ltac:(lia) ltac:(lia) ltac:(lia)).
  split; [lia|]. apply utilization_monotone; lia.
Qed.
End Rate.

(** C34: each of the three interest models returns a rate for every debt and floating
    balance below 2^128, at most its last slope per year, and the rate rises with the debt
    and falls with the floating balance: borrowing never becomes cheaper as a vault is used
    more, over the steps between the slopes included. *)
Theorem interest_monotone m d d' f f' :
  m ∈ [TripleSlopeModel; HighInterestTripleSlopeModel; LowInterestTripleSlopeModel] ->
  0 <= d -> d <= d' < 2 ^ 128 -> 0 <= f' -> f' <= f < 2 ^ 128 ->
  exists r r', getInterestRate m d f = Ok r /\ getInterestRate m d' f' = Ok r' /\
    0 <= r <= r' /\ r' <= MAX_INTEREST_SLOPE_3 m / YEAR.
Proof.
  intros Hin. apply rate_monotone. destruct models_rising as (?&?&?). set_solver.
Qed.
