(* ===== verification/Timelock.v ===== *)
(** * Timelock.sol

    The contract that owns the protocol: an administrator queues a transaction,
    waits at least the delay, and executes it within the grace period.  This
    file models the contract's own state; the external call that
    [executeTransaction] makes between [execute_begin] and [execute_end] is
    composed in Chain.v. *)

From S2P Require Import Prelude Buffers MerkleTree BalanceTree Evm.
From Stdlib Require Import Strings.Byte.

Definition GRACE_PERIOD : Z := 14 * 86400.
Definition MINIMUM_DELAY : Z := 86400.
Definition MAXIMUM_DELAY : Z := 30 * 86400.

(** The arguments of queue, cancel and execute. *)
Record Tx := {
  target : address;
  value : Z;
  signature : string;
  data : Buffer;
  eta : Z
}.

(** Emitted events, with the timestamp of their block. *)
Inductive TimelockEvent :=
| NewAdmin (now : Z) (newAdmin : address)
| NewPendingAdmin (now : Z) (newPendingAdmin : address)
| NewDelay (now : Z) (newDelay : Z)
| QueueTransaction (now : Z) (tx : Tx)
| CancelTransaction (now : Z) (tx : Tx)
| ExecuteTransaction (now : Z) (tx : Tx).

Record Timelock `{OpenZeppelin} := {
  admin : address;
  pendingAdmin : address;
  delay : Z;
  admin_initialized : bool;
  queuedTransactions : gset Buffer;
  guard : Guard;
  events : list TimelockEvent    (* latest first *)
}.

Section Contract.
Context `{AbiCoder} `{!OpenZeppelin}.

Definition txTypes : list AbiType := [TAddress; TUint 256; TString; TBytes; TUint 256].

Definition txValues (t : Tx) : list AbiValue :=
  [VAddress (target t); VUint (value t); VString (signature t); VBytes (data t); VUint (eta t)].

(** [keccak256(abi.encode(target, value, signature, data, eta))] *)
Definition txHash (t : Tx) : Buffer := keccak256 (abi_encode txTypes (txValues t)).

Definition new_Timelock (admin_ : address) (delay_ : Z) : result Timelock :=
  require (MINIMUM_DELAY <=? delay_)%Z
    "Timelock::constructor: Delay must exceed minimum delay." ;;
  require (delay_ <=? MAXIMUM_DELAY)%Z
    "Timelock::constructor: Delay must not exceed maximum delay." ;;
  Ok {| admin := admin_; pendingAdmin := zero_address; delay := delay_;
        admin_initialized := false; queuedTransactions := ∅; guard := guard_new; events := [] |}.

Definition setDelay (m : Msg) (s : Timelock) (delay_ : Z) : result Timelock :=
  require (bool_decide (sender m = self m)) "Timelock::setDelay: Call must come from Timelock." ;;
  require (MINIMUM_DELAY <=? delay_)%Z
    "Timelock::setDelay: Delay must exceed minimum delay." ;;
  require (delay_ <=? MAXIMUM_DELAY)%Z
    "Timelock::setDelay: Delay must not exceed maximum delay." ;;
  Ok {| admin := admin s; pendingAdmin := pendingAdmin s; delay := delay_;
        admin_initialized := admin_initialized s; queuedTransactions := queuedTransactions s;
        guard := guard s; events := NewDelay (timestamp (block m)) delay_ :: events s |}.

Definition acceptAdmin (m : Msg) (s : Timelock) : result Timelock :=
  require (bool_decide (sender m = pendingAdmin s))
    "Timelock::acceptAdmin: Call must come from pendingAdmin." ;;
  Ok {| admin := sender m; pendingAdmin := zero_address; delay := delay s;
        admin_initialized := admin_initialized s; queuedTransactions := queuedTransactions s;
        guard := guard s; events := NewAdmin (timestamp (block m)) (sender m) :: events s |}.

Definition setPendingAdmin (m : Msg) (s : Timelock) (pendingAdmin_ : address) : result Timelock :=
  (if admin_initialized s then
     require (bool_decide (sender m = self m))
       "Timelock::setPendingAdmin: Call must come from Timelock."
   else
     require (bool_decide (sender m = admin s))
       "Timelock::setPendingAdmin: First call must come from admin.") ;;
  Ok {| admin := admin s; pendingAdmin := pendingAdmin_; delay := delay s;
        admin_initialized := true; queuedTransactions := queuedTransactions s;
        guard := guard s;
        events := NewPendingAdmin (timestamp (block m)) pendingAdmin_ :: events s |}.

(** The queue with [h] added or removed, and one more event. *)
Definition set_queue (s : Timelock) (q : gset Buffer) (g : Guard) (es : list TimelockEvent) :
    Timelock :=
  {| admin := admin s; pendingAdmin := pendingAdmin s; delay := delay s;
     admin_initialized := admin_initialized s; queuedTransactions := q; guard := g;
     events := es ++ events s |}.

Definition queueTransaction (m : Msg) (s : Timelock) (t : Tx) : result Timelock :=
  require (bool_decide (sender m = admin s))
    "Timelock::queueTransaction: Call must come from admin." ;;
  earliest ← sm_add (timestamp (block m)) (delay s);
  require (earliest <=? eta t)%Z
    "Timelock::queueTransaction: Estimated execution block must satisfy delay." ;;
  Ok (set_queue s ({[ txHash t ]} ∪ queuedTransactions s) (guard s)
        [QueueTransaction (timestamp (block m)) t]).

Definition cancelTransaction (m : Msg) (s : Timelock) (t : Tx) : result Timelock :=
  require (bool_decide (sender m = admin s))
    "Timelock::cancelTransaction: Call must come from admin." ;;
  Ok (set_queue s (queuedTransactions s ∖ {[ txHash t ]}) (guard s)
        [CancelTransaction (timestamp (block m)) t]).

(** [executeTransaction] up to the external call. *)
Definition execute_begin (m : Msg) (s : Timelock) (t : Tx) : result Timelock :=
  g ← guard_enter (guard s);
  require (bool_decide (sender m = admin s))
    "Timelock::executeTransaction: Call must come from admin." ;;
  require (bool_decide (txHash t ∈ queuedTransactions s))
    "Timelock::executeTransaction: Transaction hasn't been queued." ;;
  require (eta t <=? timestamp (block m))%Z
    "Timelock::executeTransaction: Transaction hasn't surpassed time lock." ;;
  stale ← sm_add (eta t) GRACE_PERIOD;
  require (timestamp (block m) <=? stale)%Z
    "Timelock::executeTransaction: Transaction is stale." ;;
  Ok (set_queue s (queuedTransactions s ∖ {[ txHash t ]}) g []).

(** The calldata of the external call. *)
Definition callData (t : Tx) : Buffer :=
  if bool_decide (signature t = EmptyString) then data t else selector (signature t) ++ data t.

(** A silent revert is reported by [_getRevertMsg] as such. *)
Definition getRevertMsg (msg : string) : string :=
  if bool_decide (msg = EmptyString) then "Transaction reverted silently" else msg.

(** [executeTransaction] after the external call has succeeded. *)
Definition execute_end (m : Msg) (s : Timelock) (t : Tx) : Timelock :=
  set_queue s (queuedTransactions s) (guard_leave (guard s))
    [ExecuteTransaction (timestamp (block m)) t].

(** ** The contract as a transition system *)

(** The contract between two of its internal transitions: the time of the current
    block and the transaction whose external call is running, if any. *)
Record TlState := { now : Z; contract : Timelock; inflight : option Tx }.

Definition tx_ok (t : Tx) : Prop := have_types (txValues t) txTypes.

(** The internal transitions.  A block only ends when no external call is running;
    a call that reverts takes its transitions back, so it is no step. *)
Inductive tl_step : TlState -> TlState -> Prop :=
| step_block t t' s : (t <= t')%Z -> uint256 t' ->
    tl_step {| now := t; contract := s; inflight := None |}
            {| now := t'; contract := s; inflight := None |}
| step_setDelay m s d s' f : setDelay m s d = Ok s' ->
    tl_step {| now := timestamp (block m); contract := s; inflight := f |}
            {| now := timestamp (block m); contract := s'; inflight := f |}
| step_acceptAdmin m s s' f : acceptAdmin m s = Ok s' ->
    tl_step {| now := timestamp (block m); contract := s; inflight := f |}
            {| now := timestamp (block m); contract := s'; inflight := f |}
| step_setPendingAdmin m s p s' f : setPendingAdmin m s p = Ok s' ->
    tl_step {| now := timestamp (block m); contract := s; inflight := f |}
            {| now := timestamp (block m); contract := s'; inflight := f |}
| step_queue m s tx s' f : tx_ok tx -> queueTransaction m s tx = Ok s' ->
    tl_step {| now := timestamp (block m); contract := s; inflight := f |}
            {| now := timestamp (block m); contract := s'; inflight := f |}
| step_cancel m s tx s' f : tx_ok tx -> cancelTransaction m s tx = Ok s' ->
    tl_step {| now := timestamp (block m); contract := s; inflight := f |}
            {| now := timestamp (block m); contract := s'; inflight := f |}
| step_begin m s tx s' f : tx_ok tx -> execute_begin m s tx = Ok s' ->
    tl_step {| now := timestamp (block m); contract := s; inflight := f |}
            {| now := timestamp (block m); contract := s'; inflight := Some tx |}
| step_end m s tx :
    tl_step {| now := timestamp (block m); contract := s; inflight := Some tx |}
            {| now := timestamp (block m); contract := execute_end m s tx; inflight := None |}.

Inductive tl_reachable : TlState -> Prop :=
| reach_new a d s t : uint256 t -> new_Timelock a d = Ok s ->
    tl_reachable {| now := t; contract := s; inflight := None |}
| reach_step st st' : tl_reachable st -> tl_step st st' -> tl_reachable st'.
End Contract.
