(* ===== verification/TimelockTheory.v ===== *)
(** * Safety of the timelock

    Rule induction over the reachable states of Timelock.v: what is executed was
    queued at least the minimum delay before, is executed within the grace
    period, and at most once per queuing. *)

From S2P Require Import Prelude Buffers MerkleTree BalanceTree Evm Timelock.

(** The state after an administrative operation that has succeeded. *)
Ltac open_operation :=
  try match goal with
  | E : setDelay _ _ _ = _ |- _ => unfold setDelay in E
  | E : acceptAdmin _ _ = _ |- _ => unfold acceptAdmin in E
  | E : setPendingAdmin _ _ _ = _ |- _ => unfold setPendingAdmin in E
  | E : queueTransaction _ _ _ = _ |- _ => unfold queueTransaction in E
  | E : cancelTransaction _ _ _ = _ |- _ => unfold cancelTransaction in E
  end.

Section Theory.
Context `{AbiCoder} `{!OpenZeppelin}.

Definition executes (h : Buffer) (e : TimelockEvent) : bool :=
  match e with ExecuteTransaction _ tx => bool_decide (txHash tx = h) | _ => false end.

Definition queues (h : Buffer) (e : TimelockEvent) : bool :=
  match e with QueueTransaction _ tx => bool_decide (txHash tx = h) | _ => false end.

Fixpoint count (f : TimelockEvent -> bool) (es : list TimelockEvent) : nat :=
  match es with
  | [] => 0
  | e :: es => (if f e then 1 else 0) + count f es
  end.

(** [tx] may run at time [t]: its time has come, it is not stale, and its hash
    was queued at least [MINIMUM_DELAY] before the time it was queued for. *)
Definition matured (es : list TimelockEvent) (t : Z) (tx : Tx) : Prop :=
  tx_ok tx /\ (eta tx <= t <= eta tx + GRACE_PERIOD)%Z /\
  exists t0 tx', QueueTransaction t0 tx' ∈ es /\ tx_ok tx' /\ txHash tx' = txHash tx /\
    (t0 + MINIMUM_DELAY <= eta tx')%Z.

Definition flying (f : option Tx) (h : Buffer) : nat :=
  match f with
  | Some tx => if decide (txHash tx = h) then 1 else 0
  | None => 0
  end.

Record tl_inv (st : TlState) : Prop := {
  inv_now : uint256 (now st);
  inv_delay : (MINIMUM_DELAY <= delay (contract st) <= MAXIMUM_DELAY)%Z;
  inv_queued : forall h, h ∈ queuedTransactions (contract st) ->
    exists t0 tx, QueueTransaction t0 tx ∈ events (contract st) /\ tx_ok tx /\ txHash tx = h /\
      (t0 + MINIMUM_DELAY <= eta tx)%Z;
  inv_flight : forall tx, inflight st = Some tx -> matured (events (contract st)) (now st) tx;
  inv_executed : forall t tx, ExecuteTransaction t tx ∈ events (contract st) ->
    matured (events (contract st)) t tx;
  inv_count : forall h, count (executes h) (events (contract st)) + flying (inflight st) h
      + (if decide (h ∈ queuedTransactions (contract st)) then 1 else 0)
    <= count (queues h) (events (contract st));
  inv_guard : is_ok (guard_enter (guard (contract st))) = bool_decide (inflight st = None);
  inv_leave : inflight st <> None -> is_ok (guard_enter (guard_leave (guard (contract st)))) = true
}.

Lemma matured_mono es es' t tx : es ⊆ es' -> matured es t tx -> matured es' t tx.
Proof. intros Hs (Hok & Ht & t0 & tx' & Hq & Hr). split; [done|split; [done|]]. exists t0, tx'. split; [by apply Hs|done]. Qed.

Lemma tx_ok_eta tx : tx_ok tx -> uint256 (eta tx).
Proof.
  intros Hok. unfold tx_ok, txValues, txTypes in Hok.
  do 4 (inversion Hok as [|? ? ? ? _ Hok']; subst; clear Hok; rename Hok' into Hok).
  inversion Hok as [|? ? ? ? He _]; subst. inversion He; subst. done.
Qed.

(** An event that is neither a queuing nor an execution. *)
Definition quiet (e : TimelockEvent) : bool :=
  match e with QueueTransaction _ _ | ExecuteTransaction _ _ => false | _ => true end.

(** Any change that keeps the guard, removes queue entries at most and logs quietly. *)
Lemma inv_quiet t s s' f es :
  tl_inv {| now := t; contract := s; inflight := f |} ->
  guard s' = guard s -> events s' = es ++ events s -> forallb quiet es = true ->
  queuedTransactions s' ⊆ queuedTransactions s ->
  (MINIMUM_DELAY <= delay s' <= MAXIMUM_DELAY)%Z ->
  tl_inv {| now := t; contract := s'; inflight := f |}.
Proof.
  intros [I1 I2 I3 I4 I5 I6 I7 I8] Hg He Hq Hsub Hd. cbn in *.
  assert (events s ⊆ events s') as Hinc by (rewrite He; intros e ?; apply elem_of_app; auto).
  assert (forall f, (forall e, quiet e = true -> f e = false) ->
            count f (events s') = count f (events s)) as Hcount.
  { intros g Hgq. rewrite He. clear -Hq Hgq. induction es as [|e es IH]; [done|].
    cbn in *. apply andb_true_iff in Hq as [Hq ?]. rewrite (Hgq e Hq). auto. }
  constructor; cbn; [done|done| | | | |by rewrite Hg|by rewrite Hg].
  - intros h Hh%Hsub. destruct (I3 h Hh) as (t0 & tx & ? & ?). exists t0, tx. auto.
  - intros tx Hf. eapply matured_mono; eauto.
  - intros t' tx Hin. eapply matured_mono; [done|]. apply I5. rewrite He in Hin.
    apply elem_of_app in Hin as [Hin|]; [|done]. apply list_elem_of_In in Hin.
    rewrite forallb_forall in Hq. apply Hq in Hin. done.
  - intros h. rewrite !Hcount by (intros []; done). specialize (I6 h).
    do 2 case_decide; try lia; exfalso; set_solver.
Qed.

Lemma inv_setDelay m s d s' f :
  tl_inv {| now := timestamp (block m); contract := s; inflight := f |} ->
  setDelay m s d = Ok s' ->
  tl_inv {| now := timestamp (block m); contract := s'; inflight := f |}.
Proof.
  intros I Hs. unfold setDelay in Hs. inv_result. subst. to_props.
  by eapply (inv_quiet _ _ _ _ [_] I).
Qed.

Lemma inv_acceptAdmin m s s' f :
  tl_inv {| now := timestamp (block m); contract := s; inflight := f |} ->
  acceptAdmin m s = Ok s' ->
  tl_inv {| now := timestamp (block m); contract := s'; inflight := f |}.
Proof.
  intros I Hs. unfold acceptAdmin in Hs. inv_result. subst.
  eapply (inv_quiet _ _ _ _ [_] I); try done. apply I.
Qed.

Lemma inv_setPendingAdmin m s p s' f :
  tl_inv {| now := timestamp (block m); contract := s; inflight := f |} ->
  setPendingAdmin m s p = Ok s' ->
  tl_inv {| now := timestamp (block m); contract := s'; inflight := f |}.
Proof.
  intros I Hs. unfold setPendingAdmin in Hs. inv_result. subst.
  eapply (inv_quiet _ _ _ _ [_] I); try done. apply I.
Qed.

Lemma inv_cancel m s tx s' f :
  tl_inv {| now := timestamp (block m); contract := s; inflight := f |} ->
  cancelTransaction m s tx = Ok s' ->
  tl_inv {| now := timestamp (block m); contract := s'; inflight := f |}.
Proof.
  intros I Hs. unfold cancelTransaction in Hs. inv_result. subst.
  eapply (inv_quiet _ _ _ _ [_] I); try done; [cbn; set_solver|apply I].
Qed.

Lemma delay_uint256 d : (MINIMUM_DELAY <= d <= MAXIMUM_DELAY)%Z -> uint256 d.
Proof.
  unfold uint256, MINIMUM_DELAY, MAXIMUM_DELAY. intros Hd. split; [lia|].
  apply Z.le_lt_trans with (30 * 86400)%Z; [lia|done].
Qed.

Lemma queueTransaction_inv m s tx s' :
  uint256 (timestamp (block m)) -> uint256 (delay s) -> queueTransaction m s tx = Ok s' ->
  sender m = admin s /\ (timestamp (block m) + delay s <= eta tx)%Z /\
  s' = set_queue s ({[ txHash tx ]} ∪ queuedTransactions s) (guard s)
         [QueueTransaction (timestamp (block m)) tx].
Proof.
  unfold queueTransaction. intros Ht Hd Hs. inv_result. to_props. subst s'.
  match goal with E : sm_add _ _ = _ |- _ => apply sm_add_Ok in E as [-> _]; [|done..] end.
  done.
Qed.

Lemma inv_queue m s tx s' f :
  tl_inv {| now := timestamp (block m); contract := s; inflight := f |} -> tx_ok tx ->
  queueTransaction m s tx = Ok s' ->
  tl_inv {| now := timestamp (block m); contract := s'; inflight := f |}.
Proof.
  intros [I1 I2 I3 I4 I5 I6 I7 I8] Hok Hs. cbn in *.
  apply queueTransaction_inv in Hs as (_ & Heta & ->); [|done|by apply delay_uint256].
  constructor; cbn; [done|done| | | | |done|done].
  - intros h [->%elem_of_singleton|Hh]%elem_of_union.
    + exists (timestamp (block m)), tx. split_and!; [by left|done|done|lia].
    + destruct (I3 h Hh) as (t0 & tx' & ? & ?). exists t0, tx'. split; [by right|done].
  - intros tx' Hf. eapply matured_mono; [|by apply I4]. by intros ??; right.
  - intros t' tx' [?|Hin]%elem_of_cons; [done|].
    eapply matured_mono; [|by apply I5]. by intros ??; right.
  - intros h. specialize (I6 h). cbn. destruct (decide (txHash tx = h)) as [Hh|Hh].
    + rewrite bool_decide_eq_true_2 by done. do 2 case_decide; lia.
    + rewrite bool_decide_eq_false_2 by done. do 2 case_decide; try lia; exfalso; set_solver.
Qed.

Lemma execute_begin_inv m s tx s' :
  tx_ok tx -> execute_begin m s tx = Ok s' ->
  sender m = admin s /\ txHash tx ∈ queuedTransactions s /\
  (eta tx <= timestamp (block m) <= eta tx + GRACE_PERIOD)%Z /\
  exists g, guard_enter (guard s) = Ok g /\
    s' = set_queue s (queuedTransactions s ∖ {[ txHash tx ]}) g [].
Proof.
  unfold execute_begin. intros Hok%tx_ok_eta Hs. inv_result. to_props. subst s'.
  match goal with E : sm_add _ _ = _ |- _ => apply sm_add_Ok in E as [-> _]; [|done..] end.
  split_and!; [done..|]. by eexists.
Qed.

(** The conditions under which a queued transaction starts. *)
Definition ready (m : Msg) (s : Timelock) (tx : Tx) : Prop :=
  sender m = admin s /\ txHash tx ∈ queuedTransactions s /\
  (eta tx <= timestamp (block m) <= eta tx + GRACE_PERIOD)%Z /\
  (eta tx + GRACE_PERIOD < UINT256)%Z /\ is_ok (guard_enter (guard s)) = true.

Lemma execute_begin_ready m s tx :
  tx_ok tx -> ready m s tx -> exists g, guard_enter (guard s) = Ok g /\
    execute_begin m s tx = Ok (set_queue s (queuedTransactions s ∖ {[ txHash tx ]}) g []).
Proof.
  intros Hok%tx_ok_eta (Hadm & Hq & Ht & Hmax & Hg). unfold execute_begin.
  destruct (guard_enter (guard s)) as [g|] eqn:E; [|done]. exists g. split; [done|]. cbn.
  rewrite !bool_decide_eq_true_2 by done. cbn.
  rewrite (proj2 (Z.leb_le _ _)) by lia. cbn. rewrite sm_add_small by done. cbn.
  by rewrite (proj2 (Z.leb_le _ _)) by lia.
Qed.

Lemma inv_begin m s tx s' f :
  tl_inv {| now := timestamp (block m); contract := s; inflight := f |} -> tx_ok tx ->
  execute_begin m s tx = Ok s' ->
  tl_inv {| now := timestamp (block m); contract := s'; inflight := Some tx |}.
Proof.
  intros [I1 I2 I3 I4 I5 I6 I7 I8] Hok Hs. cbn in *.
  apply execute_begin_inv in Hs as (_ & Hin & Heta & g & Hg & ->); [|done].
  destruct f as [tx'|]; [by rewrite Hg in I7|].
  constructor; cbn; [done|done| | |done| | |].
  - intros h Hh. apply I3. set_solver.
  - intros tx' [= <-]. split; [done|split; [done|]]. by apply I3.
  - intros h. specialize (I6 h). cbn in I6. do 3 case_decide; try lia; exfalso; set_solver.
  - by apply guard_entered in Hg.
  - intros _. by apply guard_left in Hg.
Qed.

Lemma inv_end m s tx :
  tl_inv {| now := timestamp (block m); contract := s; inflight := Some tx |} ->
  tl_inv {| now := timestamp (block m); contract := execute_end m s tx; inflight := None |}.
Proof.
  intros [I1 I2 I3 I4 I5 I6 I7 I8]. cbn in *.
  assert (events s ⊆ ExecuteTransaction (timestamp (block m)) tx :: events s) as Hinc
    by (intros ??; by right).
  constructor; cbn; [done|done| |done| | |by apply I8|done].
  - intros h Hh. destruct (I3 h Hh) as (t0 & tx' & ? & ?). exists t0, tx'. split; [by right|done].
  - intros t' tx' [[= -> ->]|Hin]%elem_of_cons; (eapply matured_mono; [done|]); auto.
  - intros h. specialize (I6 h). cbn in *. destruct (decide (txHash tx = h)).
    + rewrite bool_decide_eq_true_2 by done. lia.
    + rewrite bool_decide_eq_false_2 by done. lia.
Qed.
Lemma tl_step_inv st st' : tl_inv st -> tl_step st st' -> tl_inv st'.
Proof.
  intros I Hstep. destruct Hstep.
  - destruct I as [I1 I2 I3 I4 I5 I6 I7 I8]. by constructor.
  - by eapply inv_setDelay.
  - by eapply inv_acceptAdmin.
  - by eapply inv_setPendingAdmin.
  - by eapply inv_queue.
  - by eapply inv_cancel.
  - by eapply inv_begin.
  - by eapply inv_end.
Qed.

Lemma tl_reachable_inv st : tl_reachable st -> tl_inv st.
Proof.
  induction 1 as [a d s t Ht Hs|st st' _ IH Hstep]; [|by eapply tl_step_inv].
  unfold new_Timelock in Hs. inv_result. to_props. subst.
  constructor; cbn; try done; try (by intros; set_solver).
  apply guard_new_ok.
Qed.

Lemma txHash_eq tx tx' :
  tx_ok tx -> tx_ok tx' -> txHash tx = txHash tx' ->
  tx = tx' \/ collision (abi_encode txTypes (txValues tx)) (abi_encode txTypes (txValues tx')).
Proof.
  intros Hok Hok' E.
  destruct (decide (abi_encode txTypes (txValues tx) = abi_encode txTypes (txValues tx'))) as [Heq|Hne].
  - left. apply abi_encode_inj in Heq; [|done..]. destruct tx, tx'. unfold txValues in Heq. cbn in Heq.
    by simplify_eq.
  - right. by split.
Qed.

(** The guard tells whether an external call is running. *)
Definition consistent (s : Timelock) (f : option Tx) : Prop :=
  is_ok (guard_enter (guard s)) = bool_decide (f = None) /\
  (f <> None -> is_ok (guard_enter (guard_leave (guard s))) = true).

Lemma tl_step_consistent st st' :
  tl_step st st' -> consistent (contract st) (inflight st) ->
  consistent (contract st') (inflight st').
Proof.
  intros Hstep Hc. destruct Hstep as [| | | | | |m s tx s' f Hok Hb|m s tx]; cbn in *; try done.
  all: open_operation; inv_result; subst; try done.
  - apply execute_begin_inv in Hb as (_ & _ & _ & g & Hg & ->); [|done]. split; cbn.
    + by apply guard_entered in Hg.
    + intros _. by apply guard_left in Hg.
  - split; cbn; [by apply Hc|done].
Qed.

Lemma tl_steps_consistent st st' :
  rtc tl_step st st' -> consistent (contract st) (inflight st) ->
  consistent (contract st') (inflight st').
Proof. induction 1; [done|]. intros Hc. eauto using tl_step_consistent. Qed.

Lemma tl_reachable_steps st st' : tl_reachable st -> rtc tl_step st st' -> tl_reachable st'.
Proof. intros Hr Hs. induction Hs; [done|]. eauto using reach_step. Qed.

(** A queuing of the transaction at least the minimum delay before [t1], or a collision. *)
Definition delayed (s : Timelock) (tx : Tx) (t1 : Z) : Prop :=
  (exists t0, QueueTransaction t0 tx ∈ events s /\ (t0 + MINIMUM_DELAY <= t1)%Z) \/
  (exists t0 tx', QueueTransaction t0 tx' ∈ events s /\
     collision (abi_encode txTypes (txValues tx)) (abi_encode txTypes (txValues tx'))).

Lemma executed_delayed st t1 tx :
  tl_inv st -> ExecuteTransaction t1 tx ∈ events (contract st) ->
  (eta tx <= t1 <= eta tx + GRACE_PERIOD)%Z /\ delayed (contract st) tx t1.
Proof.
  intros I Hex.
  destruct (inv_executed _ I _ _ Hex) as (Hok & Heta & t0 & tx' & Hq & Hok' & Hh & Hmin).
  split; [done|]. destruct (txHash_eq tx tx') as [->|Hc]; [done..| |].
  - left. exists t0. split; [done|lia].
  - right. by exists t0, tx'.
Qed.

(** C15: the timelock delays everything.  In every reachable state, what is queued was put
    there by a [queueTransaction] at least the minimum delay, one day, before the time it was
    queued for.  And what was executed was executed no earlier than the time it was queued for
    and no later than the end of the grace period, and had been queued, under its hash, at
    least the minimum delay before that time: the very same transaction, or one whose
    encoding has the same keccak256 hash, a collision. *)
Theorem timelock_delays st :
  tl_reachable st ->
  (forall h, h ∈ queuedTransactions (contract st) -> exists t0 tx,
     QueueTransaction t0 tx ∈ events (contract st) /\ txHash tx = h /\
     (t0 + MINIMUM_DELAY <= eta tx)%Z) /\
  (forall t1 tx, ExecuteTransaction t1 tx ∈ events (contract st) ->
     (eta tx <= t1 <= eta tx + GRACE_PERIOD)%Z /\
     exists t0 tx', QueueTransaction t0 tx' ∈ events (contract st) /\
       (t0 + MINIMUM_DELAY <= eta tx')%Z /\
       (tx' = tx \/ collision (abi_encode txTypes (txValues tx)) (abi_encode txTypes (txValues tx')))).
Proof.
  intros I%tl_reachable_inv. split.
  - intros h (t0 & tx & Hq & _ & Hh & Hd)%(inv_queued _ I). by exists t0, tx.
  - intros t1 tx Hex. destruct (inv_executed _ I _ _ Hex) as (Hok & Heta & t0 & tx' & Hq & Hok' & Hh & Hmin).
    split; [done|]. exists t0, tx'. split; [done|]. split; [done|].
    destruct (txHash_eq tx tx') as [->|Hc]; auto.
Qed.

(** C31: no replay.  A transaction is executed at most as many times as it was queued,
    counted by hash, and one whose hash is neither queued nor running is not
    executable: [executeTransaction] reverts. *)
Theorem timelock_no_replay st tx :
  tl_reachable st ->
  count (executes (txHash tx)) (events (contract st)) <=
    count (queues (txHash tx)) (events (contract st)) /\
  (count (executes (txHash tx)) (events (contract st)) =
     count (queues (txHash tx)) (events (contract st)) ->
   forall m, is_ok (execute_begin m (contract st) tx) = false).
Proof.
  intros I%tl_reachable_inv. pose proof (inv_count _ I (txHash tx)) as Hc. split; [lia|].
  intros E m. rewrite E in Hc. case_decide as Hin; [lia|].
  unfold execute_begin. destruct (guard_enter _); cbn; [|done].
  destruct (bool_decide (sender m = _)); cbn; [|done].
  by rewrite bool_decide_eq_false_2.
Qed.
End Theory.
