(* ===== verification/HuskyToken.v ===== *)
(** * HuskyToken.sol

    The governance token: capped minting, transfers, the tokens locked until a range of
    blocks releases them, delegation of votes, by signature too, and the checkpoints from
    which votes of the past are read.  HuskyVotes.v and HuskyLocks.v state its
    guarantees. *)

From S2P Require Import Prelude Buffers MerkleTree BalanceTree Evm.

Definition CAP : Z := 100000000 * 10 ^ 18.
Definition MANUAL_MINT_LIMIT : Z := 17000000 * 10 ^ 18.

Record Checkpoint := { fromBlock : Z; votes : Z }.

Record HuskyToken `{OpenZeppelin} := {
  husky_erc20 : Erc20;
  husky_owner : address;
  totalLock : Z;
  startReleaseBlock : Z;
  endReleaseBlock : Z;
  manualMinted : Z;
  locks : gmap address Z;
  lastUnlockBlock : gmap address Z;
  delegates : gmap address address;
  checkpoints : gmap (address * Z) Checkpoint;
  numCheckpoints : gmap address Z;
  nonces : gmap address Z
}.

Section Contract.
Context `{OpenZeppelin}.

Definition with_erc20 (s : HuskyToken) (t : Erc20) : HuskyToken :=
  {| husky_erc20 := t; husky_owner := husky_owner s; totalLock := totalLock s;
     startReleaseBlock := startReleaseBlock s; endReleaseBlock := endReleaseBlock s;
     manualMinted := manualMinted s; locks := locks s; lastUnlockBlock := lastUnlockBlock s;
     delegates := delegates s; checkpoints := checkpoints s; numCheckpoints := numCheckpoints s;
     nonces := nonces s |}.

Definition with_checkpoints (s : HuskyToken) cps ns : HuskyToken :=
  {| husky_erc20 := husky_erc20 s; husky_owner := husky_owner s; totalLock := totalLock s;
     startReleaseBlock := startReleaseBlock s; endReleaseBlock := endReleaseBlock s;
     manualMinted := manualMinted s; locks := locks s; lastUnlockBlock := lastUnlockBlock s;
     delegates := delegates s; checkpoints := cps; numCheckpoints := ns;
     nonces := nonces s |}.

Definition with_minted (s : HuskyToken) (m : Z) : HuskyToken :=
  {| husky_erc20 := husky_erc20 s; husky_owner := husky_owner s; totalLock := totalLock s;
     startReleaseBlock := startReleaseBlock s; endReleaseBlock := endReleaseBlock s;
     manualMinted := m; locks := locks s; lastUnlockBlock := lastUnlockBlock s;
     delegates := delegates s; checkpoints := checkpoints s; numCheckpoints := numCheckpoints s;
     nonces := nonces s |}.

Definition with_husky_owner (s : HuskyToken) (o : address) : HuskyToken :=
  {| husky_erc20 := husky_erc20 s; husky_owner := o; totalLock := totalLock s;
     startReleaseBlock := startReleaseBlock s; endReleaseBlock := endReleaseBlock s;
     manualMinted := manualMinted s; locks := locks s; lastUnlockBlock := lastUnlockBlock s;
     delegates := delegates s; checkpoints := checkpoints s; numCheckpoints := numCheckpoints s;
     nonces := nonces s |}.

Definition with_locks (s : HuskyToken) (l last : gmap address Z) (total : Z) : HuskyToken :=
  {| husky_erc20 := husky_erc20 s; husky_owner := husky_owner s; totalLock := total;
     startReleaseBlock := startReleaseBlock s; endReleaseBlock := endReleaseBlock s;
     manualMinted := manualMinted s; locks := l; lastUnlockBlock := last;
     delegates := delegates s; checkpoints := checkpoints s; numCheckpoints := numCheckpoints s;
     nonces := nonces s |}.

Definition with_delegates (s : HuskyToken) (d : gmap address address) : HuskyToken :=
  {| husky_erc20 := husky_erc20 s; husky_owner := husky_owner s; totalLock := totalLock s;
     startReleaseBlock := startReleaseBlock s; endReleaseBlock := endReleaseBlock s;
     manualMinted := manualMinted s; locks := locks s; lastUnlockBlock := lastUnlockBlock s;
     delegates := d; checkpoints := checkpoints s; numCheckpoints := numCheckpoints s;
     nonces := nonces s |}.

Definition with_nonces (s : HuskyToken) (n : gmap address Z) : HuskyToken :=
  {| husky_erc20 := husky_erc20 s; husky_owner := husky_owner s; totalLock := totalLock s;
     startReleaseBlock := startReleaseBlock s; endReleaseBlock := endReleaseBlock s;
     manualMinted := manualMinted s; locks := locks s; lastUnlockBlock := lastUnlockBlock s;
     delegates := delegates s; checkpoints := checkpoints s; numCheckpoints := numCheckpoints s;
     nonces := n |}.

Definition lock_of (s : HuskyToken) (a : address) : Z := default 0%Z (locks s !! a).
Definition last_unlock (s : HuskyToken) (a : address) : Z := default 0%Z (lastUnlockBlock s !! a).

Definition safe32 (n : Z) (errorMessage : string) : result Z :=
  require (n <? 2 ^ 32)%Z errorMessage ;; Ok n.

Definition numCheckpoints_at (s : HuskyToken) (a : address) : Z := default 0%Z (numCheckpoints s !! a).

(** The votes of the latest checkpoint, or none. *)
Definition currentVotes (s : HuskyToken) (a : address) : Z :=
  let n := numCheckpoints_at s a in
  if (0 <? n)%Z then default 0%Z (votes <$> checkpoints s !! (a, n - 1)%Z) else 0%Z.

Definition writeCheckpoint (m : Msg) (s : HuskyToken) (delegatee : address)
    (nCheckpoints newVotes : Z) : result HuskyToken :=
  blockNumber ← safe32 (number (block m)) "HUSKY::_writeCheckpoint: block number exceeds 32 bits";
  let last := (delegatee, nCheckpoints - 1)%Z in
  if (0 <? nCheckpoints)%Z && bool_decide (fromBlock <$> checkpoints s !! last = Some blockNumber)
  then Ok (with_checkpoints s
             (<[ last := {| fromBlock := blockNumber; votes := newVotes |} ]> (checkpoints s))
             (numCheckpoints s))
  else Ok (with_checkpoints s
             (<[ (delegatee, nCheckpoints) := {| fromBlock := blockNumber; votes := newVotes |} ]>
                (checkpoints s))
             (<[ delegatee := ((nCheckpoints + 1) mod 2 ^ 32)%Z ]> (numCheckpoints s))).

Definition moveDelegates (m : Msg) (s : HuskyToken) (srcRep dstRep : address) (amount : Z) :
    result HuskyToken :=
  if bool_decide (srcRep <> dstRep) && (0 <? amount)%Z then
    s ← (if bool_decide (srcRep <> zero_address) then
           srcRepNew ← sm_sub (currentVotes s srcRep) amount SUB_OVERFLOW;
           writeCheckpoint m s srcRep (numCheckpoints_at s srcRep) srcRepNew
         else Ok s);
    if bool_decide (dstRep <> zero_address) then
      dstRepNew ← sm_add (currentVotes s dstRep) amount;
      writeCheckpoint m s dstRep (numCheckpoints_at s dstRep) dstRepNew
    else Ok s
  else Ok s.

Definition delegates_at (s : HuskyToken) (a : address) : address :=
  default zero_address (delegates s !! a).

Definition mint (m : Msg) (s : HuskyToken) (_to : address) (_amount : Z) : result HuskyToken :=
  onlyOwner (husky_owner s) m ;;
  supply ← sm_add (erc20_totalSupply (husky_erc20 s)) _amount;
  require (supply <=? CAP)%Z "cap exceeded" ;;
  t ← erc20_mint (husky_erc20 s) _to _amount;
  moveDelegates m (with_erc20 s t) zero_address (delegates_at s _to) _amount.

Definition manualMint (m : Msg) (s : HuskyToken) (_to : address) (_amount : Z) :
    result HuskyToken :=
  onlyOwner (husky_owner s) m ;;
  minted ← sm_add (manualMinted s) _amount;
  require (minted <=? MANUAL_MINT_LIMIT)%Z "mint limit exceeded" ;;
  mint m (with_minted s minted) _to _amount.

Definition lock (m : Msg) (s : HuskyToken) (_account : address) (_amount : Z) :
    result HuskyToken :=
  onlyOwner (husky_owner s) m ;;
  require (bool_decide (_account <> zero_address)) "no lock to address(0)" ;;
  require (_amount <=? erc20_balanceOf (husky_erc20 s) _account)%Z "no lock over balance" ;;
  t ← erc20_transfer (husky_erc20 s) _account (self m) _amount;
  l ← sm_add (lock_of s _account) _amount;
  total ← sm_add (totalLock s) _amount;
  Ok (with_locks (with_erc20 s t) (<[ _account := l ]> (locks s))
        (if (last_unlock s _account <? startReleaseBlock s)%Z
         then <[ _account := startReleaseBlock s ]> (lastUnlockBlock s)
         else lastUnlockBlock s) total).

(** *** Functions of the token's holders *)

(** The entries [transfer] and [transferFrom]; [_approve] is OpenZeppelin's. *)
Definition husky_transfer (m : Msg) (h : HuskyToken) (recipient : address) (v : Z) : result HuskyToken :=
  t ← erc20_transfer (husky_erc20 h) (sender m) recipient v;
  moveDelegates m (with_erc20 h t) (delegates_at h (sender m)) (delegates_at h recipient) v.

Definition husky_transferFrom (m : Msg) (h : HuskyToken) (from recipient : address) (v : Z) :
    result HuskyToken :=
  t ← erc20_transfer (husky_erc20 h) from recipient v;
  left ← sm_sub (erc20_allowance t from (sender m)) v "ERC20: transfer amount exceeds allowance";
  t ← erc20_approve t from (sender m) left;
  moveDelegates m (with_erc20 h t) (delegates_at h from) (delegates_at h recipient) v.

Definition burn (m : Msg) (s : HuskyToken) (_account : address) (_amount : Z) : result HuskyToken :=
  onlyOwner (husky_owner s) m ;;
  t ← erc20_burn (husky_erc20 s) _account _amount; Ok (with_erc20 s t).

Definition lockToOwner (m : Msg) (s : HuskyToken) (_account : address) (_amount : Z) :
    result HuskyToken :=
  onlyOwner (husky_owner s) m ;;
  require (bool_decide (_account <> zero_address)) "no lock to address(0)" ;;
  require (_amount <=? erc20_balanceOf (husky_erc20 s) _account)%Z "no lock over balance" ;;
  t ← erc20_transfer (husky_erc20 s) _account (husky_owner s) _amount;
  Ok (with_erc20 s t).

(** *** Locked tokens *)

Definition canUnlockAmount (m : Msg) (s : HuskyToken) (_account : address) : result Z :=
  if (number (block m) <? startReleaseBlock s)%Z then Ok 0%Z
  else if (endReleaseBlock s <=? number (block m))%Z then Ok (lock_of s _account)
  else
    releasedBlock ← sm_sub (number (block m)) (last_unlock s _account) SUB_OVERFLOW;
    blockLeft ← sm_sub (endReleaseBlock s) (last_unlock s _account) SUB_OVERFLOW;
    x ← sm_mul (lock_of s _account) releasedBlock;
    sm_div x blockLeft.

Definition unlock (m : Msg) (s : HuskyToken) : result HuskyToken :=
  require (0 <? lock_of s (sender m))%Z "no locked HUSKYs" ;;
  amount ← canUnlockAmount m s (sender m);
  t ← erc20_transfer (husky_erc20 s) (self m) (sender m) amount;
  l ← sm_sub (lock_of s (sender m)) amount SUB_OVERFLOW;
  total ← sm_sub (totalLock s) amount SUB_OVERFLOW;
  Ok (with_locks (with_erc20 s t) (<[ sender m := l ]> (locks s))
        (<[ sender m := number (block m) ]> (lastUnlockBlock s)) total).

(** The later of the dates counts; the votes do not move along. *)
Definition transferAll (m : Msg) (s : HuskyToken) (_to : address) : result HuskyToken :=
  require (bool_decide (sender m <> _to)) "no self-transferAll" ;;
  l ← sm_add (lock_of s _to) (lock_of s (sender m));
  let last := Z.max (Z.max (last_unlock s _to) (startReleaseBlock s)) (last_unlock s (sender m)) in
  t ← erc20_transfer (husky_erc20 s) (sender m) _to (erc20_balanceOf (husky_erc20 s) (sender m));
  Ok (with_locks (with_erc20 s t) (<[ sender m := 0%Z ]> (<[ _to := l ]> (locks s)))
        (<[ sender m := 0%Z ]> (<[ _to := last ]> (lastUnlockBlock s))) (totalLock s)).

(** *** Delegation *)

Definition delegate_from (m : Msg) (s : HuskyToken) (delegator delegatee : address) : result HuskyToken :=
  let currentDelegate := delegates_at s delegator in
  let delegatorBalance := erc20_balanceOf (husky_erc20 s) delegator in
  let s := with_delegates s (<[ delegator := delegatee ]> (delegates s)) in
  moveDelegates m s currentDelegate delegatee delegatorBalance.

Definition delegate (m : Msg) (s : HuskyToken) (delegatee : address) : result HuskyToken :=
  delegate_from m s (sender m) delegatee.

(** *** Votes of the past *)

Definition checkpoint_at (s : HuskyToken) (a : address) (i : Z) : Checkpoint :=
  default {| fromBlock := 0; votes := 0 |} (checkpoints s !! (a, i)).

(** The binary search; [None] when the fuel is out. *)
Fixpoint prior_loop (fuel : nat) (cps : Z -> Checkpoint) (blockNumber lower upper : Z) : option Z :=
  match fuel with
  | 0 => None
  | S fuel =>
      if (lower <? upper)%Z then
        let center := ((upper - (upper - lower) / 2) mod 2 ^ 32)%Z in
        let cp := cps center in
        if (fromBlock cp =? blockNumber)%Z then Some (votes cp)
        else if (fromBlock cp <? blockNumber)%Z then prior_loop fuel cps blockNumber center upper
        else prior_loop fuel cps blockNumber lower ((center - 1) mod 2 ^ 32)%Z
      else Some (votes (cps lower))
  end.

(** The range has 32 bits and every step halves it. *)
Definition PRIOR_FUEL : nat := 33.

Definition getPriorVotes (m : Msg) (s : HuskyToken) (account : address) (blockNumber : Z) : result Z :=
  require (blockNumber <? number (block m))%Z "HUSKY::getPriorVotes: not yet determined" ;;
  let nCheckpoints := numCheckpoints_at s account in
  let cps := checkpoint_at s account in
  if (nCheckpoints =? 0)%Z then Ok 0%Z
  else if (fromBlock (cps (nCheckpoints - 1)) <=? blockNumber)%Z then Ok (votes (cps (nCheckpoints - 1)%Z))
  else if (blockNumber <? fromBlock (cps 0))%Z then Ok 0%Z
  else of_option (prior_loop PRIOR_FUEL cps blockNumber 0 (nCheckpoints - 1)) "out of fuel".

(** The constructor mints 250k tokens to the deployer, who owns the token. *)
Definition new_HuskyToken (m : Msg) (_startReleaseBlock _endReleaseBlock : Z) : result HuskyToken :=
  require (_startReleaseBlock <? _endReleaseBlock)%Z "endReleaseBlock < startReleaseBlock" ;;
  manualMint m
    {| husky_erc20 := erc20_new; husky_owner := sender m; totalLock := 0;
       startReleaseBlock := _startReleaseBlock; endReleaseBlock := _endReleaseBlock;
       manualMinted := 0; locks := ∅; lastUnlockBlock := ∅; delegates := ∅;
       checkpoints := ∅; numCheckpoints := ∅; nonces := ∅ |}
    (sender m) (250000 * 10 ^ 18)%Z.

(** The constructor succeeds, and the deployer holds the premint. *)
Lemma new_HuskyToken_Ok m start end_ :
  sender m <> zero_address -> (start < end_)%Z ->
  exists h, new_HuskyToken m start end_ = Ok h /\ husky_owner h = sender m /\
    erc20_balanceOf (husky_erc20 h) (sender m) = (250000 * 10 ^ 18)%Z.
Proof.
  intros Hm Hlt. set (v := (250000 * 10 ^ 18)%Z).
  destruct (erc20_mint erc20_new (sender m) v) as [t|] eqn:Ht.
  2: { pose proof (erc20_mint_ok erc20_new (sender m) v Hm) as Hok. rewrite Ht in Hok.
       rewrite erc20_new_supply in Hok. by discriminate Hok. }
  pose proof (erc20_mint_spec _ _ _ _ Ht) as (_ & Hb & _). rewrite erc20_new_balance in Hb.
  change (0 + v)%Z with v in Hb.
  eexists. split.
  - unfold new_HuskyToken. fold v. rewrite (proj2 (Z.ltb_lt _ _)) by done.
    cbn [require mbind result_bind]. unfold manualMint. cbn [husky_owner manualMinted].
    rewrite onlyOwner_owner by done. cbn [mbind result_bind].
    change (sm_add 0 v) with (Ok v). cbn [mbind result_bind].
    change (require (v <=? MANUAL_MINT_LIMIT)%Z "mint limit exceeded") with (Ok tt).
    cbn [mbind result_bind]. unfold mint. cbn [husky_owner with_minted husky_erc20].
    rewrite onlyOwner_owner by done. cbn [mbind result_bind].
    rewrite erc20_new_supply. change (sm_add 0 v) with (Ok v). cbn [mbind result_bind].
    change (require (v <=? CAP)%Z "cap exceeded") with (Ok tt). cbn [mbind result_bind].
    rewrite Ht. cbn [mbind result_bind]. unfold moveDelegates, delegates_at. cbn [delegates with_erc20 with_minted].
    rewrite lookup_empty. cbn [default]. rewrite bool_decide_eq_false_2 by auto. reflexivity.
  - by split.
Qed.
End Contract.

(** ** Delegation by signature *)

(** The recovery of a signer, the EVM's precompiled contract, and the id of the chain. *)
Class Signatures := {
  ecrecover : Buffer -> Z -> Buffer -> Buffer -> address;
  chainid : Z
}.

Section Signed.
Context `{Ethers} `{!OpenZeppelin} `{!Signatures}.

Definition DOMAIN_TYPEHASH : Buffer :=
  keccak256 (string_bytes "EIP712Domain(string name,uint256 chainId,address verifyingContract)").
Definition DELEGATION_TYPEHASH : Buffer :=
  keccak256 (string_bytes "Delegation(address delegatee,uint256 nonce,uint256 expiry)").

(** [abi.encode] puts an address into a word of 32 bytes. *)
Definition address_word (a : address) : result Buffer :=
  b ← of_option (addressBytes a) EmptyString; Ok (replicate 12 Byte.x00 ++ b).

Definition digest_of (m : Msg) (delegatee : address) (nonce expiry : Z) : result Buffer :=
  this ← address_word (self m);
  to ← address_word delegatee;
  let domainSeparator :=
    keccak256 (DOMAIN_TYPEHASH ++ keccak256 (string_bytes "HuskiToken") ++ be_bytes 32 chainid ++ this) in
  let structHash := keccak256 (DELEGATION_TYPEHASH ++ to ++ be_bytes 32 nonce ++ be_bytes 32 expiry) in
  Ok (keccak256 ([Byte.x19; Byte.x01] ++ domainSeparator ++ structHash)).

Definition delegateBySig (m : Msg) (s : HuskyToken) (delegatee : address) (nonce expiry v : Z)
    (r sig : Buffer) : result HuskyToken :=
  digest ← digest_of m delegatee nonce expiry;
  let signatory := ecrecover digest v r sig in
  require (bool_decide (signatory <> zero_address)) "HUSKY::delegateBySig: invalid signature" ;;
  let current := default 0%Z (nonces s !! signatory) in
  let s := with_nonces s (<[ signatory := ((current + 1) mod UINT256)%Z ]> (nonces s)) in
  require (nonce =? current)%Z "HUSKY::delegateBySig: invalid nonce" ;;
  require (timestamp (block m) <=? expiry)%Z "HUSKY::delegateBySig: signature expired" ;;
  delegate_from m s signatory delegatee.

(** ** The calls the token takes *)

Inductive TokenCall :=
| Transfer (recipient : address) (amount : Z)
| TransferFrom (from recipient : address) (amount : Z)
| Approve (spender : address) (amount : Z)
| Mint (to : address) (amount : Z)
| ManualMint (to : address) (amount : Z)
| Burn (account : address) (amount : Z)
| Lock (account : address) (amount : Z)
| Unlock
| TransferAll (to : address)
| LockToOwner (account : address) (amount : Z)
| Delegate (delegatee : address)
| DelegateBySig (delegatee : address) (nonce expiry v : Z) (r s : Buffer).

Definition token_call (m : Msg) (s : HuskyToken) (c : TokenCall) : result HuskyToken :=
  match c with
  | Transfer recipient amount => husky_transfer m s recipient amount
  | TransferFrom from recipient amount => husky_transferFrom m s from recipient amount
  | Approve spender amount =>
      t ← erc20_approve (husky_erc20 s) (sender m) spender amount; Ok (with_erc20 s t)
  | Mint to amount => mint m s to amount
  | ManualMint to amount => manualMint m s to amount
  | Burn account amount => burn m s account amount
  | Lock account amount => lock m s account amount
  | Unlock => unlock m s
  | TransferAll to => transferAll m s to
  | LockToOwner account amount => lockToOwner m s account amount
  | Delegate delegatee => delegate m s delegatee
  | DelegateBySig delegatee nonce expiry v r sg => delegateBySig m s delegatee nonce expiry v r sg
  end.
End Signed.
