(* ===== verification/Shield.v ===== *)
(** * Shield.sol

    The contract that owns FairLaunch between FairLaunch and the timelock: its storage, its
    constructor and the bookkeeping of what it mints.  Its functions forward to FairLaunch by
    an external call, so they are in Chain.v. *)

From S2P Require Import Prelude Buffers MerkleTree BalanceTree Evm.

Record Shield := {
  sh_owner : address;
  fairLaunchV1 : address;
  mintLimit : Z;
  mintCount : Z
}.

(** The constructor hands the contract to [_owner] at once. *)
Definition new_Shield (m : Msg) (_owner _fairLaunchV1 : address) : result Shield :=
  o ← transferOwnership (sender m) m _owner;
  Ok {| sh_owner := o; fairLaunchV1 := _fairLaunchV1; mintLimit := 8000000 * 10 ^ 18;
        mintCount := 250000 * 10 ^ 18 |}.

Definition with_sh_owner (s : Shield) (o : address) : Shield :=
  {| sh_owner := o; fairLaunchV1 := fairLaunchV1 s; mintLimit := mintLimit s;
     mintCount := mintCount s |}.

Definition with_mintCount (s : Shield) (n : Z) : Shield :=
  {| sh_owner := sh_owner s; fairLaunchV1 := fairLaunchV1 s; mintLimit := mintLimit s;
     mintCount := n |}.

(** The check of [mintWarchest], before the call. *)
Definition mint_allowed (s : Shield) (_amount : Z) : result unit :=
  n ← sm_add (mintCount s) _amount;
  require (n <=? mintLimit s)%Z "Shield::mintWarchest: mint exceeded mintLimit".
