(* ===== verification/Offering.v ===== *)
(** * The public offering

    PublicOfferingConfig.sol, the account of what has been raised, and PublicOffering.sol, a
    sale against one token or the native currency.  The deployment runs three offerings on
    one configuration; the record [Sale] holds them with the balances they move.  The price
    feeds of Chainlink are an interface. *)

From S2P Require Import Prelude Buffers MerkleTree BalanceTree Evm.
From Stdlib Require Import Strings.Byte.

Local Open Scope Z_scope.

(** ** PublicOfferingConfig.sol *)

Record PublicOfferingConfig := {
  poc_owner : address;
  fundingGoal : Z;
  minInvestment : Z;
  maxInvestment : Z;
  raisedAmount : Z;
  invested : gmap address bool;
  allows : gmap address bool
}.

Definition new_PublicOfferingConfig (m : Msg) : PublicOfferingConfig :=
  {| poc_owner := sender m; fundingGoal := 5000000 * 10 ^ 18; minInvestment := 1000 * 10 ^ 18;
     maxInvestment := 50000 * 10 ^ 18; raisedAmount := 0; invested := ∅; allows := ∅ |}.

(** The owner and the limits, with new values. *)
Definition with_limits (c : PublicOfferingConfig) (owner : address) (lo hi : Z) : PublicOfferingConfig :=
  {| poc_owner := owner; fundingGoal := fundingGoal c; minInvestment := lo; maxInvestment := hi;
     raisedAmount := raisedAmount c; invested := invested c; allows := allows c |}.

Definition with_raised (c : PublicOfferingConfig) (n : Z) : PublicOfferingConfig :=
  {| poc_owner := poc_owner c; fundingGoal := fundingGoal c; minInvestment := minInvestment c;
     maxInvestment := maxInvestment c; raisedAmount := n; invested := invested c; allows := allows c |}.

Definition with_invested (c : PublicOfferingConfig) (i : gmap address bool) : PublicOfferingConfig :=
  {| poc_owner := poc_owner c; fundingGoal := fundingGoal c; minInvestment := minInvestment c;
     maxInvestment := maxInvestment c; raisedAmount := raisedAmount c; invested := i; allows := allows c |}.

Definition with_allows (c : PublicOfferingConfig) (a : gmap address bool) : PublicOfferingConfig :=
  {| poc_owner := poc_owner c; fundingGoal := fundingGoal c; minInvestment := minInvestment c;
     maxInvestment := maxInvestment c; raisedAmount := raisedAmount c; invested := invested c; allows := a |}.

Definition with_poc_owner (c : PublicOfferingConfig) (o : address) : PublicOfferingConfig :=
  with_limits c o (minInvestment c) (maxInvestment c).

(** The modifier [allow]. *)
Definition allow (m : Msg) (c : PublicOfferingConfig) : result unit :=
  require (default false (allows c !! sender m)) "PublicOfferingConfig::allow:Permission denied".

Definition addRaisedAmount (m : Msg) (c : PublicOfferingConfig) (amount : Z) : result PublicOfferingConfig :=
  allow m c ;;
  n ← sm_add (raisedAmount c) amount;
  require (n <? fundingGoal c) "PublicOfferingConfig::addRaisedAmount:The investment amount exceeds the total remaining investable amount" ;;
  Ok (with_raised c n).

Definition addInvestor (m : Msg) (c : PublicOfferingConfig) (investor : address) : result PublicOfferingConfig :=
  allow m c ;; Ok (with_invested c (<[ investor := true ]> (invested c))).

Definition getInvestorStatus (c : PublicOfferingConfig) (investor : address) : bool :=
  default false (invested c !! investor).

Definition setPublicOffering (m : Msg) (c : PublicOfferingConfig) (publicOffering : address) (set : bool) :
    result PublicOfferingConfig :=
  onlyOwner (poc_owner c) m ;; Ok (with_allows c (<[ publicOffering := set ]> (allows c))).

Definition setMinInvestment (m : Msg) (c : PublicOfferingConfig) (amount : Z) : result PublicOfferingConfig :=
  onlyOwner (poc_owner c) m ;; Ok (with_limits c (poc_owner c) amount (maxInvestment c)).

Definition setMaxInvestment (m : Msg) (c : PublicOfferingConfig) (amount : Z) : result PublicOfferingConfig :=
  onlyOwner (poc_owner c) m ;; Ok (with_limits c (poc_owner c) (minInvestment c) amount).

(** ** PublicOffering.sol *)

Record Investor := { investor : address; inviterCode : Buffer; inv_amount : Z }.

Record PublicOffering `{OpenZeppelin} := {
  po_owner : address;
  priceFeed : address;
  po_config : address;
  investorBalanceOf : gmap address Z;
  numberOfInvitations : gmap Buffer Z;
  publicOfferingClosed : bool;
  po_token : address;
  investors : list Investor;
  po_guard : Guard
}.

Section Offering.
Context `{OpenZeppelin}.

Definition new_PublicOffering (m : Msg) (_config _token _aggregatorV3Interface : address) : PublicOffering :=
  {| po_owner := sender m; priceFeed := _aggregatorV3Interface; po_config := _config;
     investorBalanceOf := ∅; numberOfInvitations := ∅; publicOfferingClosed := false;
     po_token := _token; investors := []; po_guard := guard_new |}.

Definition with_state (o : PublicOffering) (owner : address) (closed : bool) (g : Guard) : PublicOffering :=
  {| po_owner := owner; priceFeed := priceFeed o; po_config := po_config o;
     investorBalanceOf := investorBalanceOf o; numberOfInvitations := numberOfInvitations o;
     publicOfferingClosed := closed; po_token := po_token o; investors := investors o; po_guard := g |}.

Definition with_po_owner (o : PublicOffering) (a : address) : PublicOffering :=
  with_state o a (publicOfferingClosed o) (po_guard o).

Definition with_po_guard (o : PublicOffering) (g : Guard) : PublicOffering :=
  with_state o (po_owner o) (publicOfferingClosed o) g.

Definition setPublicOfferingState (m : Msg) (o : PublicOffering) (set : bool) : result PublicOffering :=
  onlyOwner (po_owner o) m ;; Ok (with_state o (po_owner o) set (po_guard o)).

Definition invitations (o : PublicOffering) (code : Buffer) : Z := default 0 (numberOfInvitations o !! code).

(** [investors.push(x)], [numberOfInvitations[code]++] and [investorBalanceOf[a] = amount]. *)
Definition push_investor (o : PublicOffering) (x : Investor) : PublicOffering :=
  {| po_owner := po_owner o; priceFeed := priceFeed o; po_config := po_config o;
     investorBalanceOf := investorBalanceOf o; numberOfInvitations := numberOfInvitations o;
     publicOfferingClosed := publicOfferingClosed o; po_token := po_token o;
     investors := investors o ++ [x]; po_guard := po_guard o |}.

Definition count_investor (o : PublicOffering) (x : Investor) : PublicOffering :=
  {| po_owner := po_owner o; priceFeed := priceFeed o; po_config := po_config o;
     investorBalanceOf := <[ investor x := inv_amount x ]> (investorBalanceOf o);
     numberOfInvitations := <[ inviterCode x := (invitations o (inviterCode x) + 1) mod UINT256 ]>
       (numberOfInvitations o);
     publicOfferingClosed := publicOfferingClosed o; po_token := po_token o;
     investors := investors o; po_guard := po_guard o |}.
End Offering.

(** ** Chainlink's AggregatorV3Interface *)

Record RoundData := {
  rd_roundId : Z;
  rd_answer : Z;             (* int256 *)
  rd_startedAt : Z;
  rd_updatedAt : Z;
  rd_answeredInRound : Z
}.

(** The rounds that the feed at an address reports in a block; a round without data reverts. *)
Class Aggregators := {
  feed_latestRoundData : Block -> address -> result RoundData;
  feed_getRoundData : Block -> address -> Z -> result RoundData;
  feed_answer : forall b a r d, feed_getRoundData b a r = Ok d ->
    - 2 ^ 255 <= rd_answer d < 2 ^ 255
}.

(** ** The sale *)

Record Sale `{OpenZeppelin} := {
  cfg : PublicOfferingConfig;
  cfg_address : address;
  offerings : gmap address PublicOffering;
  sale_tokens : gmap address Erc20;
  sale_native : gmap address Z
}.

Section Sale.
Context `{OpenZeppelin} `{Ethers} `{!Aggregators}.

Definition with_cfg (s : Sale) (c : PublicOfferingConfig) : Sale :=
  {| cfg := c; cfg_address := cfg_address s; offerings := offerings s;
     sale_tokens := sale_tokens s; sale_native := sale_native s |}.

Definition with_offering (s : Sale) (a : address) (o : PublicOffering) : Sale :=
  {| cfg := cfg s; cfg_address := cfg_address s; offerings := <[ a := o ]> (offerings s);
     sale_tokens := sale_tokens s; sale_native := sale_native s |}.

Definition with_balances (s : Sale) (t : gmap address Erc20) (n : gmap address Z) : Sale :=
  {| cfg := cfg s; cfg_address := cfg_address s; offerings := offerings s;
     sale_tokens := t; sale_native := n |}.

Definition offering (s : Sale) (a : address) : result PublicOffering :=
  of_option (offerings s !! a) EmptyString.

Definition native_of (s : Sale) (a : address) : Z := default 0 (sale_native s !! a).

(** Native currency moved by a call. *)
Definition pay (s : Sale) (from to : address) (v : Z) : result Sale :=
  require (v <=? native_of s from) EmptyString ;;
  let n := <[ from := native_of s from - v ]> (sale_native s) in
  Ok (with_balances s (sale_tokens s) (<[ to := default 0 (n !! to) + v ]> n)).

(** [IERC20.transferFrom] of OpenZeppelin's token. *)
Definition erc20_transferFrom (t : Erc20) (spender from to : address) (v : Z) : result Erc20 :=
  t ← erc20_transfer t from to v;
  left ← sm_sub (erc20_allowance t from spender) v "ERC20: transfer amount exceeds allowance";
  erc20_approve t from spender left.

(** SafeToken.sol: a low-level call, which succeeds on an address without code. *)
Definition safe_token (s : Sale) (tok : address) (op : Erc20 -> result Erc20) (message : string) : result Sale :=
  match sale_tokens s !! tok with
  | None => Ok s
  | Some t =>
      match op t with
      | Ok t => Ok (with_balances s (<[ tok := t ]> (sale_tokens s)) (sale_native s))
      | Err _ => Err message
      end
  end.

Definition safeTransferFrom (s : Sale) (me tok from to : address) (v : Z) : result Sale :=
  safe_token s tok (fun t => erc20_transferFrom t me from to v) "!safeTransferFrom".

Definition safeTransfer (s : Sale) (me tok to : address) (v : Z) : result Sale :=
  safe_token s tok (fun t => erc20_transfer t me to v) "!safeTransfer".

(** The calls of an offering to its configuration. *)
Definition on_cfg (m : Msg) (s : Sale) (o : PublicOffering)
    (op : Msg -> PublicOfferingConfig -> result PublicOfferingConfig) : result Sale :=
  require (bool_decide (po_config o = cfg_address s)) EmptyString ;;
  c ← op {| sender := self m; self := po_config o; block := block m |} (cfg s);
  Ok (with_cfg s c).

Definition HOUR : Z := 3600.

(** The price of a round, positive and at most an hour older than the latest. *)
Definition getRoundData (m : Msg) (o : PublicOffering) (_roundID : Z) : result RoundData :=
  round ← feed_getRoundData (block m) (priceFeed o) _roundID;
  latest ← feed_latestRoundData (block m) (priceFeed o);
  age ← sm_sub (rd_updatedAt latest) (rd_updatedAt round) SUB_OVERFLOW;
  require (age <? HOUR) "PublicOffering::getRoundData:more than an hour" ;;
  require (0 <? rd_answer round) "PublicOffering::getRoundData:price is negative" ;;
  Ok round.

Definition tokenToUSD (m : Msg) (o : PublicOffering) (_value _roundID : Z) : result Z :=
  round ← getRoundData m o _roundID;
  x ← sm_mul (rd_answer round) _value; sm_div x (10 ^ 8).

(** [nonReentrant] on the offering [self m]. *)
Definition sale_guard (m : Msg) (s : Sale) (body : Sale -> result Sale) : result Sale :=
  o ← offering s (self m);
  g ← guard_enter (po_guard o);
  s ← body (with_offering s (self m) (with_po_guard o g));
  o ← offering s (self m);
  Ok (with_offering s (self m) (with_po_guard o (guard_leave (po_guard o)))).

(** What [deposit] requires before the value moves. *)
Definition deposit_checks (m : Msg) (s : Sale) (o : PublicOffering) (amount : Z) : result unit :=
  require (negb (publicOfferingClosed o)) "PublicOffering::deposit:Public offering closed" ;;
  require (negb (getInvestorStatus (cfg s) (sender m))) "PublicOffering::deposit:User has invested" ;;
  remaining ← sm_sub (fundingGoal (cfg s)) (raisedAmount (cfg s)) SUB_OVERFLOW;
  require (amount <=? remaining) "PublicOffering::deposit:The investment amount exceeds the total remaining investable amount" ;;
  require (amount <=? maxInvestment (cfg s)) "PublicOffering::deposit:The investment amount is greater than the maxInvestment" ;;
  require (minInvestment (cfg s) <=? amount) "PublicOffering::deposit:The investment amount is less than minInvestment".

(** The value of the investment: native currency that came with the call, or the token. *)
Definition collect (m : Msg) (s : Sale) (o : PublicOffering) (msg_value _value : Z) : result Sale :=
  if negb (msg_value =? 0) then
    require (_value =? msg_value) "PublicOffering::deposit:value != msg.value" ;; Ok s
  else
    require (bool_decide (po_token o <> zero_address)) "PublicOffering::deposit:token == address(0)" ;;
    safeTransferFrom s (self m) (po_token o) (sender m) (self m) _value.

(** [deposit{value: msg_value}(_value, _roundID, _inviterCode)] *)
Definition deposit (m : Msg) (s : Sale) (msg_value _value _roundID : Z) (_inviterCode : Buffer) : result Sale :=
  s ← pay s (sender m) (self m) msg_value;
  sale_guard m s (fun s =>
    o ← offering s (self m);
    require (bool_decide (po_config o = cfg_address s)) EmptyString ;;
    amount ← tokenToUSD m o _value _roundID;
    deposit_checks m s o amount ;;
    s ← collect m s o msg_value _value;
    o ← offering s (self m);
    let x := {| investor := sender m; inviterCode := _inviterCode; inv_amount := amount |} in
    let s := with_offering s (self m) (push_investor o x) in
    s ← on_cfg m s o (fun m c => addInvestor m c (investor x));
    s ← on_cfg m s o (fun m c => addRaisedAmount m c amount);
    o ← offering s (self m);
    Ok (with_offering s (self m) (count_investor o x))).

(** The owner takes the proceeds. *)
Definition withdraw (m : Msg) (s : Sale) (amount : Z) : result Sale :=
  o ← offering s (self m);
  onlyOwner (po_owner o) m ;;
  if bool_decide (po_token o = zero_address) then
    match pay s (self m) (sender m) amount with
    | Ok s => Ok s
    | Err _ => Err "PublicOffering::withdraw:Failed to send Ether"
    end
  else safeTransfer s (self m) (po_token o) (sender m) amount.

Definition emergencyWithdraw (m : Msg) (s : Sale) : result Sale :=
  o ← offering s (self m);
  onlyOwner (po_owner o) m ;;
  if bool_decide (po_token o = zero_address) then
    match pay s (self m) (sender m) (native_of s (self m)) with
    | Ok s => Ok s
    | Err _ => Err "PublicOffering::emergencyWithdraw:Failed to send Ether"
    end
  else
    t ← of_option (sale_tokens s !! po_token o) EmptyString;
    safeTransfer s (self m) (po_token o) (sender m) (erc20_balanceOf t (self m)).

(** [bytes4(keccak256(abi.encodePacked(account)))] *)
Definition getCode (account : address) : Buffer :=
  take 4 (keccak256 (default [] (addressBytes account))).

(** The loop of [getInvitees] over an array of [size] elements: a write past its end reverts. *)
Fixpoint invitees_loop (code : Buffer) (size : Z) (acc : list Investor) (l : list Investor) : result (list Investor) :=
  match l with
  | [] => Ok acc
  | x :: l =>
      if bool_decide (code = inviterCode x) then
        require (Z.of_nat (length acc) <? size) EmptyString ;;
        invitees_loop code size (acc ++ [x]) l
      else invitees_loop code size acc l
  end.

Definition no_investor : Investor :=
  {| investor := zero_address; inviterCode := replicate 4 Byte.x00; inv_amount := 0 |}.

(** The array keeps its size: elements that were not written are zero. *)
Definition getInvitees (o : PublicOffering) (account : address) : result (list Investor) :=
  let code := getCode account in
  let size := invitations o code in
  l ← invitees_loop code size [] (investors o);
  Ok (l ++ replicate (Z.to_nat size - length l) no_investor).
End Sale.
