(* ===== verification/OfferingTheory.v ===== *)
(** * The public offering keeps its books

    What a deposit does; the account of the configuration against the investors of all
    offerings; the invitees of an account; native currency sent to an offering of a token. *)

From S2P Require Import Prelude Buffers MerkleTree BalanceTree Evm Uint Sums Offering.

Local Open Scope Z_scope.

Section Theory.
Context `{OpenZeppelin} `{Ethers} `{!Aggregators}.

(** ** Prices *)

Lemma tokenToUSD_Ok m o value round amount :
  uint256 value -> tokenToUSD m o value round = Ok amount -> exists r latest,
    feed_getRoundData (block m) (priceFeed o) round = Ok r /\
    feed_latestRoundData (block m) (priceFeed o) = Ok latest /\
    0 <= rd_updatedAt latest - rd_updatedAt r < HOUR /\ 0 < rd_answer r /\
    amount = rd_answer r * value / 10 ^ 8 /\ uint256 amount.
Proof.
  intros Hv Hr. unfold tokenToUSD, getRoundData in Hr. apply bind_Ok in Hr as (r & Hr0 & Hr).
  apply bind_Ok in Hr0 as (r' & Hround & Hr0). apply bind_Ok in Hr0 as (latest & Hl & Hr0).
  apply bind_Ok in Hr0 as (age & [-> Hage]%sm_sub_Ok & Hr0). inv_result. subst. to_props.
  pose proof (feed_answer _ _ _ _ Hround) as Hans.
  assert (uint256 (rd_answer r)) as Ha.
  { unfold uint256, UINT256. change (2 ^ 255) with 57896044618658097711785492504343953926634992332820282019728792003956564819968 in Hans. lia. }
  match goal with A : sm_mul _ _ = Ok _ |- _ => apply sm_mul_Ok in A as [-> Hx]; [|done..] end.
  match goal with A : sm_div _ _ = Ok _ |- _ => apply sm_div_Ok in A as [-> _] end.
  exists r, latest. split_and!; try done; try lia. unfold uint256 in *. split.
  - apply Z.div_pos; lia.
  - apply Z.div_lt_upper_bound; lia.
Qed.

(** ** What a deposit does *)

(** The value that a deposit takes from the sender: native currency, or the token. *)
Definition collected (m : Msg) (s : Sale) (o : PublicOffering) (v value : Z) (s' : Sale) : Prop :=
  (v <> 0 /\ value = v /\ sale_tokens s' = sale_tokens s) \/
  (v = 0 /\ po_token o <> zero_address /\
   match sale_tokens s !! po_token o with
   | None => sale_tokens s' = sale_tokens s
   | Some t => exists t', erc20_transferFrom t (self m) (sender m) (self m) value = Ok t' /\
       sale_tokens s' = <[ po_token o := t' ]> (sale_tokens s)
   end).

(** The native balances after a payment. *)
Definition paid (s : Sale) (from to : address) (v : Z) : gmap address Z :=
  let n := <[ from := native_of s from - v ]> (sale_native s) in <[ to := default 0 (n !! to) + v ]> n.

Record deposited (m : Msg) (s : Sale) (v value round : Z) (code : Buffer) (s' : Sale)
    (o : PublicOffering) (amount : Z) : Prop := {
  dp_offering : offerings s !! self m = Some o;
  dp_price : tokenToUSD m o value round = Ok amount;
  dp_open : publicOfferingClosed o = false;
  dp_first : getInvestorStatus (cfg s) (sender m) = false;
  dp_max : amount <= maxInvestment (cfg s);
  dp_min : minInvestment (cfg s) <= amount;
  dp_raised : sm_add (raisedAmount (cfg s)) amount = Ok (raisedAmount (cfg s'));
  dp_goal : raisedAmount (cfg s') < fundingGoal (cfg s);
  dp_cfg : cfg s' = with_raised (with_invested (cfg s) (<[ sender m := true ]> (invested (cfg s))))
                      (raisedAmount (cfg s'));
  dp_address : cfg_address s' = cfg_address s;
  dp_native : sale_native s' = paid s (sender m) (self m) v;
  dp_paid : v <= native_of s (sender m);
  dp_collected : collected m s o v value s';
  dp_record : exists g, guard_enter (po_guard o) = Ok g /\
    let x := {| investor := sender m; inviterCode := code; inv_amount := amount |} in
    offerings s' = <[ self m := with_po_guard (count_investor (push_investor o x) x) (guard_leave g) ]> (offerings s)
}.

Lemma pay_Ok s from to v s' : pay s from to v = Ok s' ->
  v <= native_of s from /\ s' = with_balances s (sale_tokens s) (paid s from to v).
Proof. unfold pay. intros Hr. inv_result. to_props. by subst. Qed.

Lemma collect_Ok m s o v value s' :
  collect m s o v value = Ok s' -> collected m s o v value s' /\
  s' = with_balances s (sale_tokens s') (sale_native s).
Proof.
  unfold collect, collected, safeTransferFrom, safe_token. intros Hr.
  destruct (Z.eqb_spec v 0) as [->|Hv]; cbn [negb] in Hr; inv_result; to_props.
  - destruct (sale_tokens s !! po_token o) as [t|].
    + destruct (erc20_transferFrom _ _ _ _ _) as [t'|] eqn:Et; inv_result. subst. split; [|done].
      right. split_and!; [done..|]. by exists t'.
    + inv_result. subst. split; [by right|]. by destruct s'.
  - subst. split; [by left|]. by destruct s'.
Qed.

Lemma addInvestor_Ok m c a c' : addInvestor m c a = Ok c' -> c' = with_invested c (<[ a := true ]> (invested c)).
Proof. unfold addInvestor. intros Hr. inv_result. by subst. Qed.

Lemma addRaisedAmount_Ok m c v c' :
  addRaisedAmount m c v = Ok c' ->
  sm_add (raisedAmount c) v = Ok (raisedAmount c') /\ raisedAmount c' < fundingGoal c /\
  c' = with_raised c (raisedAmount c').
Proof. unfold addRaisedAmount. intros Hr. inv_result. to_props. by subst. Qed.

Lemma deposit_checks_Ok m s o amount u :
  deposit_checks m s o amount = Ok u ->
  publicOfferingClosed o = false /\ getInvestorStatus (cfg s) (sender m) = false /\
  amount <= maxInvestment (cfg s) /\ minInvestment (cfg s) <= amount.
Proof.
  unfold deposit_checks. intros Hr. inv_result. to_props.
  repeat match goal with A : negb _ = true |- _ => apply negb_true_iff in A end. done.
Qed.

Lemma deposit_Ok m s v value round code s' :
  deposit m s v value round code = Ok s' -> exists o amount, deposited m s v value round code s' o amount.
Proof.
  intros Hr. unfold deposit in Hr. apply bind_Ok in Hr as (s1 & [Hle ->]%pay_Ok & Hr).
  set (s1 := with_balances s _ _) in Hr. unfold sale_guard in Hr.
  apply bind_Ok in Hr as (o & Ho%of_option_Ok & Hr). apply bind_Ok in Hr as (g & Hg & Hr).
  apply bind_Ok in Hr as (s9 & Hb & Hr). apply bind_Ok in Hr as (o9 & Ho9%of_option_Ok & Hr). injection Hr as <-.
  apply bind_Ok in Hb as (o1 & Ho1%of_option_Ok & Hb). cbn in Ho1. rewrite lookup_insert_eq in Ho1.
  injection Ho1 as <-. apply bind_Ok in Hb as (_ & _ & Hb).
  apply bind_Ok in Hb as (amount & Hamt & Hb).
  apply bind_Ok in Hb as (u & (Hopen & Hfirst & Hmax & Hmin)%deposit_checks_Ok & Hb).
  apply bind_Ok in Hb as (s2 & [Hcol Es2]%collect_Ok & Hb).
  rewrite Es2 in Hb. apply bind_Ok in Hb as (o2 & Ho2%of_option_Ok & Hb). cbn in Ho2.
  rewrite lookup_insert_eq in Ho2. injection Ho2 as <-. cbv zeta in Hb.
  unfold on_cfg in Hb. cbn [cfg with_cfg with_offering with_balances cfg_address po_config investor] in Hb.
  apply bind_Ok in Hb as (s3 & Hs3 & Hb). apply bind_Ok in Hs3 as (_ & _ & Hs3).
  apply bind_Ok in Hs3 as (c1 & ->%addInvestor_Ok & Hs3). injection Hs3 as <-.
  apply bind_Ok in Hb as (s4 & Hs4 & Hb). apply bind_Ok in Hs4 as (_ & _ & Hs4).
  apply bind_Ok in Hs4 as (c2 & (Hadd & Hgoal & Ec2)%addRaisedAmount_Ok & Hs4). injection Hs4 as <-.
  apply bind_Ok in Hb as (o3 & Ho3%of_option_Ok & Hb). cbn in Ho3. rewrite lookup_insert_eq in Ho3.
  injection Ho3 as <-. injection Hb as <-. cbn in Ho9. rewrite lookup_insert_eq in Ho9. injection Ho9 as <-.
  exists o, amount. split; try done.
  exists g. split; [done|]. cbn. by rewrite !insert_insert_eq.
Qed.

(** ** The books *)

Definition raised_by (o : PublicOffering) : Z := foldr Z.add 0 (inv_amount <$> investors o).

Definition no_offering : PublicOffering :=
  new_PublicOffering {| sender := zero_address; self := zero_address; block := {| number := 0; timestamp := 0 |} |}
    zero_address zero_address zero_address.

Abbreviation raised_in s := (map_sum raised_by (offerings s)).

(** The investors who gave a code. *)
Definition invited (code : Buffer) (l : list Investor) : list Investor := filter (fun x => code = inviterCode x) l.

Record offering_ok (c : PublicOfferingConfig) (o : PublicOffering) : Prop := {
  oo_amounts : forall x, x ∈ investors o -> 0 <= inv_amount x;
  oo_flag : forall x, x ∈ investors o -> invested c !! investor x = Some true;
  oo_once : NoDup (investor <$> investors o);
  oo_balance : forall x, x ∈ investors o -> investorBalanceOf o !! investor x = Some (inv_amount x);
  oo_codes : forall code, invitations o code = Z.of_nat (length (invited code (investors o))) mod UINT256
}.

Record sale_ok (s : Sale) : Prop := {
  so_goal : raisedAmount (cfg s) < fundingGoal (cfg s) /\ fundingGoal (cfg s) = 5000000 * 10 ^ 18;
  so_sum : raisedAmount (cfg s) = raised_in s;
  so_each : forall a o, offerings s !! a = Some o -> offering_ok (cfg s) o;
  so_apart : forall a b o p x y, offerings s !! a = Some o -> offerings s !! b = Some p ->
    x ∈ investors o -> y ∈ investors p -> investor x = investor y -> a = b
}.

(** What the owner and the users do; the balances of others move as they like, those of the
    offerings only grow by it. *)
Inductive sale_step : Sale -> Sale -> Prop :=
| step_deposit m s v value round code s' : uint256 v -> uint256 value -> offerings s !! sender m = None ->
    deposit m s v value round code = Ok s' -> sale_step s s'
| step_withdraw m s v s' : uint256 v -> offerings s !! sender m = None -> withdraw m s v = Ok s' -> sale_step s s'
| step_emergency m s s' : offerings s !! sender m = None -> emergencyWithdraw m s = Ok s' -> sale_step s s'
| step_state m s o set o' : offering s (self m) = Ok o -> setPublicOfferingState m o set = Ok o' ->
    sale_step s (with_offering s (self m) o')
| step_allow m s a set c : is_Some (offerings s !! a) -> setPublicOffering m (cfg s) a set = Ok c ->
    sale_step s (with_cfg s c)
| step_min m s v c : uint256 v -> setMinInvestment m (cfg s) v = Ok c -> sale_step s (with_cfg s c)
| step_max m s v c : uint256 v -> setMaxInvestment m (cfg s) v = Ok c -> sale_step s (with_cfg s c)
| step_cfg_owner s a : sale_step s (with_cfg s (with_poc_owner (cfg s) a))
| step_offering_owner s a o who : offerings s !! a = Some o -> sale_step s (with_offering s a (with_po_owner o who))
| step_open m s tok feed : offerings s !! self m = None ->
    sale_step s (with_offering s (self m) (new_PublicOffering m (cfg_address s) tok feed))
| step_world s t n :
    (forall a, is_Some (offerings s !! a) -> native_of s a <= default 0 (n !! a)) ->
    sale_step s (with_balances s t n).

Inductive sale_reachable : Sale -> Prop :=
| reach_new m s : cfg s = new_PublicOfferingConfig m -> offerings s = ∅ -> sale_reachable s
| reach_step s s' : sale_reachable s -> sale_step s s' -> sale_reachable s'.

Lemma raised_zero : raised_by no_offering = 0.
Proof. done. Qed.

Lemma sale_ok_cfg s c :
  raisedAmount c = raisedAmount (cfg s) -> fundingGoal c = fundingGoal (cfg s) -> invested c = invested (cfg s) ->
  sale_ok s -> sale_ok (with_cfg s c).
Proof.
  intros E1 E2 E3 [Hgo Hsum Heach Hap]. split; cbn; rewrite ?E1, ?E2; try done.
  intros a o Ho. destruct (Heach a o Ho) as []. split; try done. by rewrite E3.
Qed.

(** An offering whose records are those of another in its place. *)
Lemma sale_ok_offering s a o o' :
  offerings s !! a = Some o -> investors o' = investors o -> investorBalanceOf o' = investorBalanceOf o ->
  numberOfInvitations o' = numberOfInvitations o -> sale_ok s -> sale_ok (with_offering s a o').
Proof.
  intros Ho E1 E2 E3 [Hgo Hsum Heach Hap]. split; cbn; [done| | |].
  - rewrite (map_sum_insert no_offering) by apply raised_zero. unfold at_. rewrite Ho. cbn.
    unfold raised_by at 2 3. rewrite E1. rewrite Hsum. lia.
  - intros b p Hp. destruct (decide (b = a)) as [->|Hb].
    + rewrite lookup_insert_eq in Hp. injection Hp as <-. destruct (Heach a o Ho). unfold invitations in *.
      split; rewrite ?E1, ?E2; try done. intros code. unfold invitations. by rewrite E3.
    + rewrite lookup_insert_ne in Hp by done. by eapply Heach.
  - intros b c p q x y Hp Hq Hx Hy E.
    assert (forall b p x, <[ a := o' ]> (offerings s) !! b = Some p -> x ∈ investors p ->
      exists p', offerings s !! b = Some p' /\ x ∈ investors p') as Hold.
    { intros b' p' x' Hb' Hx'. destruct (decide (b' = a)) as [->|Hne].
      - rewrite lookup_insert_eq in Hb'. injection Hb' as <-. exists o. by rewrite <-E1.
      - rewrite lookup_insert_ne in Hb' by done. by exists p'. }
    destruct (Hold _ _ _ Hp Hx) as (p' & Hp' & Hx'), (Hold _ _ _ Hq Hy) as (q' & Hq' & Hy').
    by eapply Hap.
Qed.

Lemma invited_snoc code l x :
  invited code (l ++ [x]) = invited code l ++ (if decide (code = inviterCode x) then [x] else []).
Proof. unfold invited. rewrite filter_app. by case_decide; [rewrite filter_cons_True|rewrite filter_cons_False]. Qed.

Lemma raised_push o x : foldr Z.add 0 (inv_amount <$> (investors o ++ [x])) = raised_by o + inv_amount x.
Proof.
  unfold raised_by. induction (investors o) as [|y l IH]; cbn; [lia|]. rewrite IH. lia.
Qed.

Lemma raised_in_nonneg s : (forall a o, offerings s !! a = Some o -> offering_ok (cfg s) o) -> 0 <= raised_in s.
Proof.
  intros Ho. apply (map_sum_nonneg no_offering). intros a. unfold at_.
  destruct (offerings s !! a) as [o|] eqn:E; [|done]. cbn. apply sum_list_Z_nonneg.
  intros z (x & -> & Hx)%list_elem_of_fmap. by eapply (oo_amounts _ _ (Ho _ _ E)).
Qed.
Lemma deposit_sale_ok m s v value round code s' :
  uint256 value -> deposit m s v value round code = Ok s' -> sale_ok s -> sale_ok s'.
Proof.
  intros Hv (o & amount & [])%deposit_Ok [Hgo Hsum Heach Hap].
  apply tokenToUSD_Ok in dp_price0 as (_ & _ & _ & _ & _ & _ & _ & Hamt); [|done].
  destruct dp_record0 as (g & Hg & Hrec). cbv zeta in Hrec.
  set (x := {| investor := sender m; inviterCode := code; inv_amount := amount |}) in *.
  set (o' := with_po_guard (count_investor (push_investor o x) x) (guard_leave g)) in *.
  pose proof (raised_in_nonneg s Heach) as Hnn. destruct Hgo as [Hgo Egoal].
  assert (fundingGoal (cfg s) < UINT256) as Hgu by (by rewrite Egoal).
  apply sm_add_Ok in dp_raised0 as [Hraised Hru]; [|unfold uint256 in *; lia|done].
  assert (forall a p y, offerings s !! a = Some p -> y ∈ investors p -> investor y <> sender m) as Hnew.
  { intros a p y Hp Hy E. pose proof (oo_flag _ _ (Heach _ _ Hp) y Hy) as Hf. rewrite E in Hf.
    unfold getInvestorStatus in dp_first0. by rewrite Hf in dp_first0. }
  assert (investors o' = investors o ++ [x]) as Einv by done.
  split.
  - rewrite dp_cfg0. done.
  - rewrite Hrec, (map_sum_insert no_offering) by apply raised_zero. unfold at_. rewrite dp_offering0. cbn [default from_option id].
    replace (raised_by o') with (raised_by o + amount) by (unfold raised_by at 2; rewrite Einv, raised_push; done).
    lia.
  - intros a p Hp. rewrite Hrec in Hp. rewrite dp_cfg0. destruct (decide (a = self m)) as [->|Hne].
    + rewrite lookup_insert_eq in Hp. injection Hp as <-. destruct (Heach _ _ dp_offering0) as [Ha Hf Ho Hb Hc].
      split; rewrite ?Einv.
      * intros y [Hy| ->%list_elem_of_singleton]%elem_of_app; [by apply Ha|]. apply Hamt.
      * intros y [Hy| ->%list_elem_of_singleton]%elem_of_app; cbn; [|by rewrite lookup_insert_eq].
        rewrite lookup_insert_ne; [by apply Hf|]. intros E. by eapply Hnew.
      * rewrite fmap_app. apply NoDup_app. split; [done|]. split; [|apply NoDup_singleton].
        intros a (y & -> & Hy)%list_elem_of_fmap E%list_elem_of_singleton. by eapply Hnew.
      * intros y [Hy| ->%list_elem_of_singleton]%elem_of_app; cbn; [|by rewrite lookup_insert_eq].
        rewrite lookup_insert_ne; [by apply Hb|]. intros E. by eapply Hnew.
      * intros c. rewrite invited_snoc, length_app. unfold invitations, o'. cbn -[Z.of_nat UINT256].
        destruct (decide (c = code)) as [->|Hne].
        -- rewrite lookup_insert_eq. cbn -[Z.of_nat UINT256].
           unfold invitations in *. cbn -[Z.of_nat UINT256]. rewrite Hc, Zplus_mod_idemp_l. f_equal. lia.
        -- rewrite lookup_insert_ne by done. rewrite Nat.add_0_r. apply Hc.
    + rewrite lookup_insert_ne in Hp by done. destruct (Heach _ _ Hp) as [Ha Hf Ho Hb Hc]. split; try done.
      intros y Hy. cbn. rewrite lookup_insert_ne; [by apply Hf|]. intros E. by eapply Hnew.
  - intros a b p q y z Hp Hq Hy Hz E. rewrite Hrec in Hp, Hq.
    assert (forall b p y, <[ self m := o' ]> (offerings s) !! b = Some p -> y ∈ investors p ->
      (b = self m /\ y = x) \/ exists p', offerings s !! b = Some p' /\ y ∈ investors p') as Hold.
    { intros b' p' y' Hb' Hy'. destruct (decide (b' = self m)) as [->|Hne].
      - rewrite lookup_insert_eq in Hb'. injection Hb' as <-.
        rewrite Einv in Hy'. apply elem_of_app in Hy' as [Hy'| ->%list_elem_of_singleton]; [right; by exists o|by left].
      - rewrite lookup_insert_ne in Hb' by done. right. by exists p'. }
    destruct (Hold _ _ _ Hp Hy) as [[-> ->]|(p' & Hp' & Hy')], (Hold _ _ _ Hq Hz) as [[-> ->]|(q' & Hq' & Hz')].
    + done.
    + exfalso. by eapply Hnew.
    + exfalso. by eapply Hnew.
    + by eapply Hap.
Qed.

Lemma safe_token_ok s tok op msg s' :
  safe_token s tok op msg = Ok s' -> exists t, s' = with_balances s t (sale_native s).
Proof.
  unfold safe_token. destruct (sale_tokens s !! tok) as [t|].
  - destruct (op t); [|done]. intros [= <-]. by eexists.
  - intros [= <-]. exists (sale_tokens s). by destruct s.
Qed.

(** Taking the proceeds moves balances only: native currency out of an offering of it. *)
Lemma proceeds_Ok m s s' :
  (exists v, withdraw m s v = Ok s') \/ emergencyWithdraw m s = Ok s' -> exists o,
  offerings s !! self m = Some o /\ po_owner o = sender m /\
  ((po_token o = zero_address /\ exists v, s' = with_balances s (sale_tokens s) (paid s (self m) (sender m) v)) \/
   (po_token o <> zero_address /\ exists t, s' = with_balances s t (sale_native s))).
Proof.
  intros [[v Hr]|Hr]; [unfold withdraw in Hr|unfold emergencyWithdraw in Hr];
    apply bind_Ok in Hr as (o & Ho%of_option_Ok & Hr); apply bind_Ok in Hr as (u & Hu%onlyOwner_Ok & Hr);
    exists o; (split; [done|split; [done|]]); case_bool_decide as Ht.
  1,3: left; split; [done|]; destruct (pay _ _ _ _) as [s1|] eqn:E; [|done];
    apply pay_Ok in E as [_ ->]; injection Hr as <-; by eexists.
  1: right; split; [done|]; by eapply safe_token_ok.
  apply bind_Ok in Hr as (t & _ & Hr). right. split; [done|]. by eapply safe_token_ok.
Qed.

Lemma sale_ok_balances s t n : sale_ok s -> sale_ok (with_balances s t n).
Proof. intros []. by split. Qed.

Lemma proceeds_sale_ok m s s' :
  (exists v, withdraw m s v = Ok s') \/ emergencyWithdraw m s = Ok s' -> sale_ok s -> sale_ok s'.
Proof.
  intros (o & _ & _ & [(_ & v & ->)|(_ & t & ->)])%proceeds_Ok; apply sale_ok_balances.
Qed.

Lemma sale_step_ok s s' : sale_step s s' -> sale_ok s -> sale_ok s'.
Proof.
  intros Hstep Hok. destruct Hstep as [m s v value round code s' Hv Hval Hs Hr|m s v s' Hv Hs Hr|m s s' Hs Hr
    |m s o set o' Ho Hr|m s a set c Ha Hr|m s v c Hv Hr|m s v c Hv Hr|s a|s a o who Ho|m s tok feed Hnone|s t n Hn].
  - by eapply deposit_sale_ok.
  - eapply proceeds_sale_ok; [left; by eexists|done].
  - eapply proceeds_sale_ok; [by right|done].
  - unfold setPublicOfferingState in Hr. apply of_option_Ok in Ho. inv_result. subst. by eapply sale_ok_offering.
  - unfold setPublicOffering in Hr. inv_result. subst. by apply sale_ok_cfg.
  - unfold setMinInvestment in Hr. inv_result. subst. by apply sale_ok_cfg.
  - unfold setMaxInvestment in Hr. inv_result. subst. by apply sale_ok_cfg.
  - by apply sale_ok_cfg.
  - by eapply sale_ok_offering.
  - destruct Hok as [Hgo Hsum Heach Hap]. split; cbn; [done| | |].
    + rewrite (map_sum_insert no_offering) by apply raised_zero. unfold at_. rewrite Hnone.
      change (raised_by (default no_offering None)) with 0.
      change (raised_by (new_PublicOffering m (cfg_address s) tok feed)) with 0. lia.
    + intros a p Hp. destruct (decide (a = self m)) as [->|Hne].
      * rewrite lookup_insert_eq in Hp. injection Hp as <-. split; cbn; try (by intros x ?%elem_of_nil).
        -- constructor.
        -- intros code. unfold invitations. cbn. by rewrite lookup_empty.
      * rewrite lookup_insert_ne in Hp by done. by eapply Heach.
    + intros a b p q x y Hp Hq Hx Hy E.
      assert (forall b p x, <[ self m := new_PublicOffering m (cfg_address s) tok feed ]> (offerings s) !! b = Some p ->
        x ∈ investors p -> offerings s !! b = Some p) as Hold.
      { intros b' p' x' Hb' Hx'. destruct (decide (b' = self m)) as [->|Hne].
        - rewrite lookup_insert_eq in Hb'. injection Hb' as <-. by apply elem_of_nil in Hx'.
        - by rewrite lookup_insert_ne in Hb'. }
      eapply Hap; [by eapply Hold|by eapply Hold|done..].
  - by apply sale_ok_balances.
Qed.

Lemma sale_reachable_ok s : sale_reachable s -> sale_ok s.
Proof.
  induction 1 as [m s Hc Ho|s s' _ IH Hstep]; [|by eapply sale_step_ok].
  split; rewrite ?Hc, ?Ho; try done.
Qed.

(** C18: the offerings keep their books.  In every state that the offerings of one
    configuration reach -- deposits by anyone, the owner's settings, offerings opened, closed,
    allowed and emptied -- what the configuration says was raised is the sum of all
    investments of all offerings, always below the goal of five million; every investment is
    on record under its investor; and no one has invested twice, in one offering or in two. *)
Theorem offering_books s :
  sale_reachable s ->
  raisedAmount (cfg s) = raised_in s /\ 0 <= raisedAmount (cfg s) < 5000000 * 10 ^ 18 /\
  (forall a o x, offerings s !! a = Some o -> x ∈ investors o ->
     0 <= inv_amount x /\ investorBalanceOf o !! investor x = Some (inv_amount x)) /\
  (forall a b o p i j x y, offerings s !! a = Some o -> offerings s !! b = Some p ->
     investors o !! i = Some x -> investors p !! j = Some y -> investor x = investor y -> a = b /\ i = j).
Proof.
  intros [[Hgo Egoal] Hsum Heach Hap]%sale_reachable_ok. pose proof (raised_in_nonneg s Heach) as Hnn.
  split; [done|]. split; [rewrite Egoal in Hgo; lia|]. split.
  - intros a o x Ho Hx. destruct (Heach _ _ Ho) as []. auto.
  - intros a b o p i j x y Ho Hp Hx Hy E.
    assert (a = b) as <- by (eapply Hap; [exact Ho|exact Hp|by eapply list_elem_of_lookup_2..|exact E]).
    split; [done|]. rewrite Ho in Hp. injection Hp as <-.
    eapply (NoDup_lookup (investor <$> investors o)); [apply (oo_once _ _ (Heach _ _ Ho))|by rewrite list_lookup_fmap, Hx|].
    by rewrite list_lookup_fmap, Hy, E.
Qed.

Lemma invitees_loop_Ok code size acc l :
  Z.of_nat (length acc + length (invited code l)) <= size ->
  invitees_loop code size acc l = Ok (acc ++ invited code l).
Proof.
  revert acc. induction l as [|x l IH]; intros acc Hs; cbn [invitees_loop]; [by rewrite app_nil_r|].
  unfold invited in *. destruct (decide (code = inviterCode x)) as [E|E].
  - rewrite bool_decide_eq_true_2 by done. rewrite filter_cons_True in Hs |- * by done. cbn in Hs.
    replace (Z.of_nat (length acc) <? size) with true by (symmetry; apply Z.ltb_lt; lia).
    cbn. rewrite IH by (rewrite length_app; cbn; lia). by rewrite <-app_assoc.
  - rewrite bool_decide_eq_false_2 by done. rewrite filter_cons_False in Hs |- * by done. by apply IH.
Qed.

(** C29: the list of invitees is exact.  In every reachable state, [getInvitees] never runs
    past the array it allocates and leaves none of its elements unwritten: it returns the
    investors who gave the account's code, all of them, in the order they invested. *)
Theorem invitees_exact s a o account :
  sale_reachable s -> offerings s !! a = Some o -> Z.of_nat (length (investors o)) < UINT256 ->
  getInvitees o account = Ok (filter (fun x => getCode account = inviterCode x) (investors o)).
Proof.
  intros [_ _ Heach _]%sale_reachable_ok Ho Hlen. unfold getInvitees.
  pose proof (oo_codes _ _ (Heach _ _ Ho) (getCode account)) as Hc.
  assert (length (invited (getCode account) (investors o)) <= length (investors o))%nat as Hle
    by apply length_filter.
  rewrite Z.mod_small in Hc by lia. rewrite Hc.
  rewrite invitees_loop_Ok by (cbn; lia). cbn [mbind result_bind app].
  rewrite Nat2Z.id, Nat.sub_diag. cbn. by rewrite app_nil_r.
Qed.

(** ** Native currency in an offering of a token *)

Lemma paid_other s from to v a : a <> from -> a <> to -> default 0 (paid s from to v !! a) = native_of s a.
Proof. intros Hf Ht. unfold paid. by rewrite !lookup_insert_ne. Qed.

Lemma paid_to s from to v : from <> to -> default 0 (paid s from to v !! to) = native_of s to + v.
Proof. intros Hf. unfold paid. rewrite lookup_insert_eq. cbn. by rewrite lookup_insert_ne. Qed.

(** An offering of a token never sends native currency. *)
Lemma native_kept s s' a o :
  sale_step s s' -> offerings s !! a = Some o -> po_token o <> zero_address -> exists o',
  offerings s' !! a = Some o' /\ po_token o' = po_token o /\ native_of s a <= native_of s' a.
Proof.
  intros Hstep Ho Ht.
  assert (forall s' m o1 o1', offerings s !! self m = Some o1 -> po_token o1' = po_token o1 ->
    offerings s' = <[ self m := o1' ]> (offerings s) -> exists o', offerings s' !! a = Some o' /\ po_token o' = po_token o) as Hput.
  { intros s1 m o1 o1' Ho1 Et ->. destruct (decide (a = self m)) as [->|Hne].
    - rewrite Ho in Ho1. injection Ho1 as <-. exists o1'. by rewrite lookup_insert_eq.
    - exists o. by rewrite lookup_insert_ne. }
  assert (forall m s', (exists v, withdraw m s v = Ok s') \/ emergencyWithdraw m s = Ok s' ->
    offerings s !! sender m = None -> exists o', offerings s' !! a = Some o' /\ po_token o' = po_token o /\
    native_of s a <= native_of s' a) as Hpro.
  { intros m s1 (o1 & Ho1 & _ & [(Hz & v & ->)|(_ & t & ->)])%proceeds_Ok Hs; exists o; (split; [done|split; [done|]]).
    - unfold native_of at 2. cbn. rewrite paid_other; [done| |congruence].
      intros ->. rewrite Ho in Ho1. injection Ho1 as <-. done.
    - done. }
  destruct Hstep as [m s v value round code s' Hv Hval Hs Hr|m s v s' Hv Hs Hr|m s s' Hs Hr
    |m s o1 set o' Ho1 Hr|m s b set c Ha Hr|m s v c Hv Hr|m s v c Hv Hr|s b|s b o1 who Ho1|m s tok feed Hnone|s t n Hn].
  - apply deposit_Ok in Hr as (o1 & amount & []). destruct dp_record0 as (g & _ & Hrec).
    cbv zeta in Hrec. edestruct (Hput s' m o1) as (o' & Ho' & Et); [exact dp_offering0| |exact Hrec|]; [done|]. exists o'. split; [done|split; [done|]].
    unfold native_of at 2. rewrite dp_native0. destruct (decide (a = self m)) as [->|Hne].
    + rewrite paid_to by congruence. unfold uint256 in Hv. lia.
    + rewrite paid_other by congruence. done.
  - eapply Hpro; [left; by eexists|done].
  - eapply Hpro; [by right|done].
  - unfold setPublicOfferingState in Hr. apply of_option_Ok in Ho1. inv_result. subst.
    edestruct (Hput (with_offering s (self m) (with_state o1 (po_owner o1) set (po_guard o1))) m o1)
      as (o' & Ho' & Et); [exact Ho1| |reflexivity|]; [done|]. by exists o'.
  - exists o. done.
  - exists o. done.
  - exists o. done.
  - exists o. done.
  - edestruct (Hput (with_offering s b (with_po_owner o1 who))
      {| sender := b; self := b; block := {| number := 0; timestamp := 0 |} |} o1)
      as (o' & Ho' & Et); [exact Ho1| |reflexivity|]; [done|]. by exists o'.
  - exists o. split; [|done]. cbn. rewrite lookup_insert_ne; [done|]. intros E. by rewrite E, Ho in Hnone.
  - exists o. split; [done|split; [done|]]. apply Hn. by exists o.
Qed.

Lemma native_kept_steps s s' a o :
  rtc sale_step s s' -> offerings s !! a = Some o -> po_token o <> zero_address -> native_of s a <= native_of s' a.
Proof.
  intros Hrun. revert o. induction Hrun as [s|s s1 s' Hstep _ IH]; intros o Ho Ht; [done|].
  destruct (native_kept _ _ _ _ Hstep Ho Ht) as (o1 & Ho1 & E & Hle).
  specialize (IH o1 Ho1 ltac:(congruence)). lia.
Qed.

(** C24: native currency sent to an offering of a token is lost.  [deposit] accepts it whatever
    the offering sells for: the sender is credited as if it were the token, at the token's
    price, and no token moves; and in no continuation, whoever calls and the owner's
    [withdraw] and [emergencyWithdraw] included, does it leave the offering again. *)
Theorem native_deposit_trapped m s o v value round code s' s'' :
  offerings s !! self m = Some o -> po_token o <> zero_address -> sender m <> self m ->
  uint256 value -> v <> 0 -> deposit m s v value round code = Ok s' -> rtc sale_step s' s'' ->
  value = v /\ sale_tokens s' = sale_tokens s /\
  (exists r o', feed_getRoundData (block m) (priceFeed o) round = Ok r /\
     offerings s' !! self m = Some o' /\
     investorBalanceOf o' !! sender m = Some (rd_answer r * v / 10 ^ 8)) /\
  native_of s (self m) + v <= native_of s'' (self m).
Proof.
  intros Ho Ht Hne Hval Hv (o1 & amount & [])%deposit_Ok Hrun.
  rewrite Ho in dp_offering0. injection dp_offering0 as <-.
  destruct dp_collected0 as [(_ & -> & Etok)|(-> & _)]; [|done]. split; [done|]. split; [done|].
  apply tokenToUSD_Ok in dp_price0 as (r & _ & Hr & _ & _ & _ & -> & _); [|done].
  destruct dp_record0 as (g & _ & Hrec). cbv zeta in Hrec. set (o' := with_po_guard _ _) in Hrec.
  assert (offerings s' !! self m = Some o') as Ho' by (by rewrite Hrec, lookup_insert_eq).
  split.
  - exists r, o'. split; [done|]. split; [done|]. cbn. by rewrite lookup_insert_eq.
  - etrans; [|by eapply (native_kept_steps _ _ _ o')]. unfold native_of at 2.
    rewrite dp_native0, paid_to by done. done.
Qed.
End Theory.
