(* ===== verification/HuskyVotes.v ===== *)
(** * The votes of the past

    HuskyToken.sol keeps a list of checkpoints per delegate and answers queries about past
    blocks by a binary search in it.  The list stays ordered and never wraps around, what a
    past block says never changes, and the search finds it.  What votes there are is another
    matter: [transferAll] leaves them behind. *)

From S2P Require Import Prelude Buffers MerkleTree BalanceTree Evm HuskyToken.

Open Scope Z_scope.

Section Votes.
Context `{Ethers} `{!OpenZeppelin} `{!Signatures}.
Implicit Types (s : HuskyToken) (a : address).

(** ** The lists of checkpoints *)

(** Up to block [blk]: consecutive indices, increasing blocks of 32 bits. *)
Record votes_ok (blk : Z) s : Prop := {
  vo_count : forall a, 0 <= numCheckpoints_at s a;
  vo_present : forall a i, 0 <= i < numCheckpoints_at s a -> is_Some (checkpoints s !! (a, i));
  vo_range : forall a i, 0 <= i < numCheckpoints_at s a ->
    i < fromBlock (checkpoint_at s a i) <= blk /\ fromBlock (checkpoint_at s a i) < 2 ^ 32;
  vo_increasing : forall a i j, 0 <= i < j -> j < numCheckpoints_at s a ->
    fromBlock (checkpoint_at s a i) < fromBlock (checkpoint_at s a j)
}.

(** [v] is what the checkpoints say of the end of block [n]: the first [k] are not later. *)
Definition asof s a (n v : Z) : Prop :=
  exists k, 0 <= k <= numCheckpoints_at s a /\
    (forall i, 0 <= i < k -> fromBlock (checkpoint_at s a i) <= n) /\
    (forall i, k <= i < numCheckpoints_at s a -> n < fromBlock (checkpoint_at s a i)) /\
    v = if k =? 0 then 0 else votes (checkpoint_at s a (k - 1)).

Lemma asof_unique s a n v w : asof s a n v -> asof s a n w -> v = w.
Proof.
  intros (k & Hk & Hle & Hgt & ->) (j & Hj & Hle' & Hgt' & ->).
  assert (k = j) as ->; [|done].
  destruct (Z.lt_trichotomy k j) as [Hlt|[?|Hlt]]; [|done|].
  - specialize (Hle' k ltac:(lia)). specialize (Hgt k ltac:(lia)). lia.
  - specialize (Hle j ltac:(lia)). specialize (Hgt' j ltac:(lia)). lia.
Qed.

Lemma currentVotes_at s a :
  currentVotes s a = if 0 <? numCheckpoints_at s a
                     then votes (checkpoint_at s a (numCheckpoints_at s a - 1)) else 0.
Proof.
  unfold currentVotes, checkpoint_at. destruct (0 <? _); [|done]. by destruct (checkpoints s !! _).
Qed.

Lemma asof_current blk s a n : votes_ok blk s -> blk <= n -> asof s a n (currentVotes s a).
Proof.
  intros Hs Hn. pose proof (vo_count _ _ Hs a). exists (numCheckpoints_at s a).
  split; [lia|]. split; [intros i Hi; pose proof (vo_range _ _ Hs a i Hi); lia|]. split; [lia|].
  rewrite currentVotes_at. destruct (Z.ltb_spec 0 (numCheckpoints_at s a)), (Z.eqb_spec (numCheckpoints_at s a) 0);
    [lia|done|done|lia].
Qed.

Lemma votes_ok_mono blk blk' s : blk <= blk' -> votes_ok blk s -> votes_ok blk' s.
Proof. intros Hb []. split; [done..| |done]. intros a i Hi. specialize (vo_range0 a i Hi). lia. Qed.

(** The count has room: no list reaches the last block number of 32 bits. *)
Lemma count_bound blk s a : votes_ok blk s -> numCheckpoints_at s a < 2 ^ 32.
Proof.
  intros Hs. destruct (decide (numCheckpoints_at s a <= 0)); [lia|].
  pose proof (vo_range _ _ Hs a (numCheckpoints_at s a - 1) ltac:(lia)). lia.
Qed.

(** ** What a call does to the lists *)

(** In block [N] the lists stay in order, and what they say of earlier blocks stays. *)
Definition advance (N : Z) s s' : Prop :=
  forall blk, blk <= N -> votes_ok blk s ->
    votes_ok N s' /\ forall n a v, n < N -> asof s a n v -> asof s' a n v.

#[export] Instance advance_preorder N : PreOrder (advance N).
Proof.
  split.
  - intros s blk Hb Hs. split; [by apply (votes_ok_mono blk)|done].
  - intros s1 s2 s3 H12 H23 blk Hb Hs. destruct (H12 blk Hb Hs) as [Hs2 Ha].
    destruct (H23 N ltac:(lia) Hs2) as [Hs3 Ha']. split; [done|]. intros n a v Hn Hv. by apply Ha', Ha.
Qed.

(** The lists are one part of the storage. *)
Lemma advance_same N s s' :
  checkpoints s' = checkpoints s -> numCheckpoints s' = numCheckpoints s -> advance N s s'.
Proof.
  intros Ec En blk Hb Hs. destruct (votes_ok_mono _ _ _ Hb Hs).
  unfold asof, numCheckpoints_at, checkpoint_at in *. rewrite Ec, En in *. split; [|done].
  split; unfold numCheckpoints_at, checkpoint_at; by rewrite ?Ec, ?En.
Qed.

Lemma checkpoint_at_insert s a i cps ns c j b :
  checkpoint_at (with_checkpoints s (<[ (a, i) := c ]> cps) ns) b j
  = if decide (b = a /\ j = i) then c else checkpoint_at (with_checkpoints s cps ns) b j.
Proof.
  unfold checkpoint_at. cbn. destruct (decide (b = a /\ j = i)) as [[-> ->]|Hne]; [by rewrite lookup_insert_eq|].
  rewrite lookup_insert_ne; [done|]. intros [= -> ->]. by apply Hne.
Qed.

Lemma safe32_Ok n msg z : safe32 n msg = Ok z -> z = n /\ n < 2 ^ 32.
Proof.
  unfold safe32. intros Hr. apply bind_Ok in Hr as ([] & Hb%require_Ok & [= <-]). to_props. done.
Qed.

Lemma rewrite_last N s a v :
  let l := (a, numCheckpoints_at s a - 1) in
  0 < numCheckpoints_at s a -> fromBlock <$> checkpoints s !! l = Some N ->
  advance N s (with_checkpoints s (<[ l := {| fromBlock := N; votes := v |} ]> (checkpoints s)) (numCheckpoints s)).
Proof.
  intros l Hpos Hl blk Hb Hs. set (s' := with_checkpoints _ _ _). set (n := numCheckpoints_at s a) in *.
  assert (forall b j, fromBlock (checkpoint_at s' b j) = fromBlock (checkpoint_at s b j)) as Ef.
  { intros b j. unfold s', l. rewrite checkpoint_at_insert. case_decide as Hd; [|done].
    destruct Hd as [-> ->]. unfold checkpoint_at. unfold l in Hl. cbn.
    destruct (checkpoints s !! (a, n - 1)); cbn in *; [congruence|done]. }
  split.
  - destruct (votes_ok_mono _ _ _ Hb Hs). split; [done| |intros b i; rewrite Ef; auto|intros b i j; rewrite !Ef; auto].
    intros b i Hi. cbn. destruct (decide (l = (b, i))) as [<-|Hne]; [rewrite lookup_insert_eq; eauto|].
    rewrite lookup_insert_ne by done. auto.
  - intros m b w Hm (k & Hk & Hle & Hgt & ->). exists k. split; [done|].
    split; [intros i Hi; rewrite Ef; auto|]. split; [intros i Hi; rewrite Ef; auto|].
    destruct (Z.eqb_spec k 0); [done|]. unfold s', l. rewrite checkpoint_at_insert.
    case_decide as Hd; [|done]. destruct Hd as [-> Hd]. exfalso.
    specialize (Hle (k - 1) ltac:(lia)). rewrite Hd in Hle. unfold checkpoint_at in Hle. unfold l in Hl.
    destruct (checkpoints s !! (a, n - 1)); cbn in *; [simplify_eq; lia|done].
Qed.

(** A new checkpoint is later than the others, and there is room for it. *)
Lemma append_room blk N s a :
  votes_ok blk s -> blk <= N -> 0 < N ->
  (0 < numCheckpoints_at s a ->
    fromBlock <$> checkpoints s !! (a, numCheckpoints_at s a - 1) <> Some N) ->
  numCheckpoints_at s a + 1 <= N /\
  forall i, 0 <= i < numCheckpoints_at s a -> fromBlock (checkpoint_at s a i) < N.
Proof.
  intros Hs Hb HN Hl. set (n := numCheckpoints_at s a) in *.
  assert (forall i, 0 <= i < n -> fromBlock (checkpoint_at s a i) < N) as Hlt.
  { intros i Hi. destruct (decide (i = n - 1)) as [->|].
    - destruct (vo_present _ _ Hs a (n - 1) ltac:(lia)) as [c Hc].
      pose proof (vo_range _ _ Hs a (n - 1) ltac:(lia)) as Hr. specialize (Hl ltac:(lia)).
      unfold checkpoint_at in *. rewrite Hc in *. cbn in *. assert (fromBlock c <> N) by congruence. lia.
    - pose proof (vo_increasing _ _ Hs a i (n - 1) ltac:(lia) ltac:(lia)).
      pose proof (vo_range _ _ Hs a (n - 1) ltac:(lia)). lia. }
  split; [|done]. destruct (decide (n <= 0)); [lia|].
  pose proof (vo_range _ _ Hs a (n - 1) ltac:(lia)). specialize (Hlt (n - 1) ltac:(lia)). lia.
Qed.

Lemma append_last N s a v :
  0 < N < 2 ^ 32 ->
  (0 < numCheckpoints_at s a ->
    fromBlock <$> checkpoints s !! (a, numCheckpoints_at s a - 1) <> Some N) ->
  advance N s (with_checkpoints s
    (<[ (a, numCheckpoints_at s a) := {| fromBlock := N; votes := v |} ]> (checkpoints s))
    (<[ a := (numCheckpoints_at s a + 1) mod 2 ^ 32 ]> (numCheckpoints s))).
Proof.
  intros HN Hl blk Hb Hs. set (s' := with_checkpoints _ _ _). set (n := numCheckpoints_at s a) in *.
  assert (0 <= n) as Hn by apply (vo_count _ _ Hs).
  destruct (append_room blk N s a Hs Hb ltac:(lia) Hl) as [HnN Hlt]. fold n in HnN, Hlt.
  assert (forall b, numCheckpoints_at s' b = if decide (b = a) then n + 1 else numCheckpoints_at s b) as En.
  { intros b. unfold numCheckpoints_at at 1, s'. cbn -[Z.pow]. case_decide as Hd; [subst b; rewrite lookup_insert_eq|by rewrite lookup_insert_ne].
    cbn -[Z.pow]. apply Z.mod_small. lia. }
  assert (forall b i, checkpoint_at s' b i
            = if decide (b = a /\ i = n) then {| fromBlock := N; votes := v |} else checkpoint_at s b i) as Ec.
  { intros b i. unfold s'. by rewrite checkpoint_at_insert. }
  split; [split|].
  - intros b. rewrite En. case_decide; [lia|apply Hs].
  - intros b i. rewrite En. intros Hi. unfold s'. cbn.
    destruct (decide ((a, n) = (b, i))) as [<-|Hne]; [rewrite lookup_insert_eq; eauto|].
    rewrite lookup_insert_ne by done. apply Hs. case_decide as Hd; [|done]. subst b.
    assert (i <> n) by congruence. fold n. lia.
  - intros b i. rewrite En, Ec. intros Hi. destruct (decide (b = a /\ i = n)) as [[-> ->]|Hd]; [cbn; lia|].
    assert (0 <= i < numCheckpoints_at s b) as Hi'.
    { destruct (decide (b = a)) as [->|]; [fold n; assert (i <> n) by tauto; lia|done]. }
    pose proof (vo_range _ _ Hs b i Hi'). lia.
  - intros b i j Hij. rewrite En, !Ec. intros Hj.
    destruct (decide (b = a)) as [->|Hne].
    + rewrite (decide_False (P := a = a /\ i = n)) by lia.
      case_decide as Hd; [cbn; apply Hlt; lia|]. apply (vo_increasing _ _ Hs); [done|]. fold n.
      assert (j <> n) by tauto. lia.
    + rewrite !decide_False by tauto. by apply (vo_increasing _ _ Hs).
  - intros k b w Hk (q & Hq & Hle & Hgt & ->). exists q. rewrite En.
    assert (b = a -> q <= n) as Hqn by (intros ->; fold n in Hq; lia).
    split; [destruct (decide (b = a)) as [Hd|]; [specialize (Hqn Hd); lia|done]|]. split; [|split].
    + intros i Hi. rewrite Ec.
      destruct (decide (b = a /\ i = n)) as [[-> ->]|]; [specialize (Hqn eq_refl); lia|auto].
    + intros i Hi. rewrite Ec. destruct (decide (b = a /\ i = n)) as [|Hd]; [cbn; lia|]. apply Hgt.
      destruct (decide (b = a)) as [->|]; [fold n; assert (i <> n) by tauto; lia|lia].
    + destruct (Z.eqb_spec q 0); [done|]. rewrite Ec, decide_False; [done|].
      intros [-> ?]. specialize (Hqn eq_refl). lia.
Qed.

Lemma writeCheckpoint_advance m s a v s' :
  0 < number (block m) -> writeCheckpoint m s a (numCheckpoints_at s a) v = Ok s' ->
  advance (number (block m)) s s' /\ husky_erc20 s' = husky_erc20 s /\ delegates s' = delegates s.
Proof.
  intros Hpos Hr. unfold writeCheckpoint in Hr. apply bind_Ok in Hr as (N & [-> HN]%safe32_Ok & Hr).
  destruct (_ && _) eqn:Hlast; injection Hr as <-; (split; [|done]).
  - apply andb_true_iff in Hlast as [Hn%Z.ltb_lt Hlast%bool_decide_eq_true]. by apply rewrite_last.
  - apply append_last; [done|]. intros Hn%Z.ltb_lt Hb. rewrite Hn in Hlast. cbn [andb] in Hlast.
    by apply bool_decide_eq_false in Hlast.
Qed.

(** Moving votes writes the list of each of the two delegates at most once. *)
Lemma moveDelegates_advance m s src dst v s' :
  0 < number (block m) -> moveDelegates m s src dst v = Ok s' ->
  advance (number (block m)) s s' /\ husky_erc20 s' = husky_erc20 s /\ delegates s' = delegates s.
Proof.
  intros Hpos Hr. unfold moveDelegates in Hr. destruct (_ && _); [|injection Hr as <-; done].
  apply bind_Ok in Hr as (s1 & Hsrc & Hdst).
  assert (advance (number (block m)) s s1 /\ husky_erc20 s1 = husky_erc20 s /\ delegates s1 = delegates s)
    as (Ha & Et & Ed).
  { clear Hdst. case_match; inv_result; [by eapply writeCheckpoint_advance|by subst]. }
  clear Hsrc. case_match; inv_result; [|by subst].
  match goal with Hw : writeCheckpoint _ _ _ _ _ = Ok _ |- _ =>
    apply writeCheckpoint_advance in Hw as (Ha' & Et' & Ed'); [|done] end.
  split; [by etrans|]. by rewrite Et', Ed'.
Qed.

(** ** Histories *)

(** [x.2] is the number of the last block; a transaction is never in block 0. *)
Definition token_step (x y : HuskyToken * Z) : Prop :=
  exists m c, x.2 <= number (block m) /\ 0 < number (block m) /\ y.2 = number (block m) /\
    token_call m x.1 c = Ok y.1.

(** A step in a block after [n]. *)
Definition later (n : Z) (x y : HuskyToken * Z) : Prop := token_step x y /\ n < y.2.

Ltac by_parts := first [by apply advance_same | eapply moveDelegates_advance; eassumption].

Lemma token_call_advance m s c s' :
  0 < number (block m) -> token_call m s c = Ok s' -> advance (number (block m)) s s'.
Proof.
  intros Hpos Hr.
  assert (forall s1, checkpoints s1 = checkpoints s -> numCheckpoints s1 = numCheckpoints s ->
    forall src dst v, moveDelegates m s1 src dst v = Ok s' -> advance (number (block m)) s s') as Hmove.
  { intros s1 Ec En src dst v [Ha _]%moveDelegates_advance; [|done]. etrans; [|exact Ha].
    by apply advance_same. }
  assert (forall s1 to v, checkpoints s1 = checkpoints s -> numCheckpoints s1 = numCheckpoints s ->
    mint m s1 to v = Ok s' -> advance (number (block m)) s s') as Hmint.
  { intros s1 to v Ec En Hm. unfold mint in Hm. inv_result. by eapply Hmove; [..|eassumption]. }
  destruct c; cbn [token_call] in Hr.
  all: unfold husky_transfer, husky_transferFrom, manualMint, burn, lock, unlock, transferAll, lockToOwner,
    delegate, delegateBySig, delegate_from in Hr; inv_result.
  all: try (subst; by apply advance_same).
  all: first [eapply Hmint; [..|eassumption]; done | eapply Hmove; [..|eassumption]; done].
Qed.

Lemma history_advance n x y :
  rtc (later n) x y -> votes_ok x.2 x.1 ->
  votes_ok y.2 y.1 /\ forall a v, asof x.1 a n v -> asof y.1 a n v.
Proof.
  induction 1 as [x|x y z [(m & c & Hb & Hpos & Ey & Hc) Hn] _ IH]; [done|]. intros Hx.
  destruct (token_call_advance _ _ _ _ Hpos Hc x.2 Hb Hx) as [Hy Ha]. rewrite <-Ey in *.
  destruct (IH Hy) as [Hz Ha']. split; [done|]. intros a v Hv. apply Ha'. by apply Ha.
Qed.

Lemma history_votes x y : rtc token_step x y -> votes_ok x.2 x.1 -> votes_ok y.2 y.1.
Proof.
  induction 1 as [x|x y z (m & c & Hb & Hpos & Ey & Hc) _ IH]; [done|]. intros Hx.
  apply IH. rewrite Ey. by eapply token_call_advance.
Qed.

(** ** The search *)

Lemma prior_loop_finds blk s a n fuel lower upper :
  votes_ok blk s -> 0 <= lower <= upper -> upper < numCheckpoints_at s a ->
  fromBlock (checkpoint_at s a lower) <= n ->
  (forall i, upper < i < numCheckpoints_at s a -> n < fromBlock (checkpoint_at s a i)) ->
  upper - lower < 2 ^ Z.of_nat fuel ->
  exists v, prior_loop (S fuel) (checkpoint_at s a) n lower upper = Some v /\ asof s a n v.
Proof.
  intros Hs. pose proof (count_bound _ _ a Hs) as Hc. pose proof (vo_increasing _ _ Hs a) as Hinc.
  assert (forall i, 0 <= i < numCheckpoints_at s a -> fromBlock (checkpoint_at s a i) <= n ->
    (forall j, i < j < numCheckpoints_at s a -> n < fromBlock (checkpoint_at s a j)) ->
    asof s a n (votes (checkpoint_at s a i))) as Hfound.
  { intros i Hi Hle Hgt. exists (i + 1). split; [lia|].
    split; [|split; [intros j Hj; apply Hgt; lia|rewrite (proj2 (Z.eqb_neq _ _)) by lia; do 2 f_equal; lia]].
    intros j Hj. destruct (decide (j = i)) as [->|]; [done|]. specialize (Hinc j i ltac:(lia) ltac:(lia)). lia. }
  revert lower upper. induction fuel as [|fuel IH]; intros lower upper Hlu Hu Hlow Hhigh Hsize;
    rewrite ?Nat2Z.inj_succ, ?Z.pow_succ_r in Hsize by lia; cbn [prior_loop].
  - cbn in Hsize. rewrite (proj2 (Z.ltb_ge _ _)) by lia. eexists; split; [done|].
    apply Hfound; [lia|done|]. intros j Hj. apply Hhigh. lia.
  - destruct (Z.ltb_spec lower upper) as [Hlt|Hge].
    2: { eexists; split; [done|]. apply Hfound; [lia|done|]. intros j Hj. apply Hhigh. lia. }
    set (half := (upper - lower) / 2).
    assert (2 * half <= upper - lower < 2 * half + 2) as Hhalf.
    { pose proof (Z.div_mod (upper - lower) 2). pose proof (Z.mod_pos_bound (upper - lower) 2). lia. }
    rewrite !(Z.mod_small (upper - half)) by lia. set (center := upper - half).
    rewrite !(Z.mod_small (center - 1)) by lia. cbv zeta.
    destruct (Z.eqb_spec (fromBlock (checkpoint_at s a center)) n) as [Heq|Hne].
    + eexists; split; [done|]. apply Hfound; [lia|lia|]. intros j Hj.
      specialize (Hinc center j ltac:(lia) ltac:(lia)). lia.
    + destruct (Z.ltb_spec (fromBlock (checkpoint_at s a center)) n).
      * apply IH; try done; lia.
      * apply IH; try done; try lia. intros j Hj. destruct (decide (j = center)) as [->|]; [lia|].
        specialize (Hinc center j ltac:(lia) ltac:(lia)). lia.
Qed.

(** The query answers, and with what the checkpoints say of the block. *)
Lemma getPriorVotes_asof blk m s a n v :
  votes_ok blk s -> n < number (block m) -> asof s a n v -> getPriorVotes m s a n = Ok v.
Proof.
  intros Hs Hn Hv. cut (exists w, getPriorVotes m s a n = Ok w /\ asof s a n w).
  { intros (w & -> & Hw). f_equal. by eapply asof_unique. }
  unfold getPriorVotes. rewrite (proj2 (Z.ltb_lt _ _) Hn). cbn [require mbind result_bind].
  pose proof (vo_count _ _ Hs a). pose proof (count_bound _ _ a Hs).
  assert (forall i, 0 < i < numCheckpoints_at s a ->
    fromBlock (checkpoint_at s a 0) < fromBlock (checkpoint_at s a i)) as Hfirst.
  { intros i Hi. apply (vo_increasing _ _ Hs); lia. }
  destruct (Z.eqb_spec (numCheckpoints_at s a) 0) as [E|Hne].
  { exists 0. split; [done|]. exists 0. repeat split; try lia; intros; lia. }
  destruct (Z.leb_spec (fromBlock (checkpoint_at s a (numCheckpoints_at s a - 1))) n) as [Hle|Hgt].
  { eexists; split; [done|]. exists (numCheckpoints_at s a). split; [lia|]. split; [|split; [lia|]].
    - intros i Hi. destruct (decide (i = numCheckpoints_at s a - 1)) as [->|]; [done|].
      pose proof (vo_increasing _ _ Hs a i (numCheckpoints_at s a - 1) ltac:(lia) ltac:(lia)). lia.
    - by rewrite (proj2 (Z.eqb_neq _ _)) by lia. }
  destruct (Z.ltb_spec n (fromBlock (checkpoint_at s a 0))) as [Hlt|Hge].
  { exists 0. split; [done|]. exists 0. split; [lia|]. split; [lia|]. split; [|done].
    intros i Hi. destruct (decide (i = 0)) as [->|]; [done|]. specialize (Hfirst i ltac:(lia)). lia. }
  destruct (prior_loop_finds blk s a n 32 0 (numCheckpoints_at s a - 1)) as (w & Hw & Ha);
    [done|lia|lia|done|intros; lia|cbn -[Z.pow] in *; lia|].
  exists w. unfold PRIOR_FUEL. by rewrite Hw.
Qed.

(** ** A token's history *)

Lemma new_HuskyToken_votes m st en s :
  new_HuskyToken m st en = Ok s -> votes_ok (number (block m)) s.
Proof.
  intros Hr. unfold new_HuskyToken, manualMint, mint, moveDelegates, delegates_at in Hr.
  inv_result. cbn in *. rewrite lookup_empty in *. cbn in *.
  rewrite (bool_decide_eq_false_2 (zero_address <> zero_address)) in * by auto. cbn [andb] in *.
  inv_result. subst.
  split; unfold numCheckpoints_at; cbn; intros; rewrite ?lookup_empty in *; cbn in *; lia.
Qed.

(** C23: votes of the past are final and the search finds them: once a block is over, and
    through every later history of calls, [getPriorVotes] answers for that block with the
    votes the account had at its end.  It always answers, within 33 steps of the search,
    and the lists of checkpoints never wrap around. *)
Theorem past_votes_are_final m0 st en s0 s b n s' b' m a :
  new_HuskyToken m0 st en = Ok s0 -> rtc token_step (s0, number (block m0)) (s, b) -> b <= n ->
  rtc (later n) (s, b) (s', b') -> n < number (block m) ->
  getPriorVotes m s' a n = Ok (currentVotes s a).
Proof.
  intros Hnew%new_HuskyToken_votes Hpast Hn Hlater Hm.
  assert (votes_ok b s) as Hs.
  { by apply (history_votes (s0, number (block m0)) (s, b)). }
  destruct (history_advance n (s, b) (s', b') Hlater Hs) as [Hs' Ha].
  eapply getPriorVotes_asof; [exact Hs'|done|]. apply Ha. by eapply asof_current.
Qed.

(** ** Votes that are left behind *)

Lemma writeCheckpoint_current blk m s a v s' b :
  votes_ok blk s -> blk <= number (block m) -> 0 < number (block m) ->
  writeCheckpoint m s a (numCheckpoints_at s a) v = Ok s' ->
  currentVotes s' b = if decide (b = a) then v else currentVotes s b.
Proof.
  intros Hs Hblk Hpos Hw. pose proof (vo_count _ _ Hs a) as Hn.
  unfold writeCheckpoint in Hw. apply bind_Ok in Hw as (N & [-> HN]%safe32_Ok & Hw).
  rewrite !currentVotes_at. set (n := numCheckpoints_at s a) in *.
  destruct (_ && _) eqn:Hlast; injection Hw as <-; rewrite checkpoint_at_insert.
  - apply andb_true_iff in Hlast as [Hlast _]. change (numCheckpoints_at (with_checkpoints _ _ _) b)
      with (numCheckpoints_at s b). destruct (decide (b = a)) as [->|]; [|by rewrite decide_False by tauto].
    fold n. by rewrite Hlast, decide_True.
  - destruct (append_room blk (number (block m)) s a Hs Hblk Hpos) as [Hroom _].
    { intros Hn'%Z.ltb_lt Hb. fold n in Hn', Hb. rewrite Hn' in Hlast. cbn [andb] in Hlast.
      by apply bool_decide_eq_false in Hlast. }
    fold n in Hroom. rewrite (Z.mod_small (n + 1)) by lia.
    unfold numCheckpoints_at. cbn [with_checkpoints numCheckpoints].
    destruct (decide (b = a)) as [->|]; [|rewrite lookup_insert_ne by done; by rewrite decide_False by tauto].
    rewrite lookup_insert_eq. cbn [default from_option id]. rewrite (proj2 (Z.ltb_lt 0 (n + 1))) by lia.
    by rewrite decide_True by (split; [done|lia]).
Qed.

(** Votes of a holder without a delegate are new votes of the delegate chosen. *)
Lemma moveDelegates_new blk m s rep v s' b :
  votes_ok blk s -> blk <= number (block m) -> 0 < number (block m) ->
  rep <> zero_address -> 0 < v < UINT256 -> uint256 (currentVotes s rep) ->
  moveDelegates m s zero_address rep v = Ok s' ->
  currentVotes s' b = if decide (b = rep) then currentVotes s rep + v else currentVotes s b.
Proof.
  intros Hs Hblk Hpos Hrep Hv Hcur Hr. unfold moveDelegates in Hr.
  rewrite (bool_decide_eq_true_2 (zero_address <> rep)), (proj2 (Z.ltb_lt 0 v)),
    (bool_decide_eq_false_2 (zero_address <> zero_address)), (bool_decide_eq_true_2 (rep <> zero_address))
    in Hr by (congruence || lia || auto).
  cbn [andb mbind result_bind] in Hr. apply bind_Ok in Hr as (new & Hnew & Hw).
  apply sm_add_Ok in Hnew as [-> _]; [|done|unfold uint256; lia].
  by eapply writeCheckpoint_current.
Qed.

(** [transferAll] moves the tokens of a holder but not the votes: the delegate of the old
    holder keeps them, and once the new holder delegates, the same tokens count twice. *)
Theorem transferAll_duplicates_votes blk m m' s to rep s1 s2 :
  votes_ok blk s -> blk <= number (block m') -> 0 < number (block m') ->
  transferAll m s to = Ok s1 -> sender m' = to -> delegate m' s1 rep = Ok s2 ->
  delegates_at s to = zero_address -> rep <> zero_address -> rep <> delegates_at s (sender m) ->
  uint256 (currentVotes s rep) -> let got := erc20_balanceOf (husky_erc20 s1) to in 0 < got < UINT256 ->
  currentVotes s2 (delegates_at s (sender m)) = currentVotes s (delegates_at s (sender m)) /\
  currentVotes s2 rep = currentVotes s rep + got /\
  got = erc20_balanceOf (husky_erc20 s) to + erc20_balanceOf (husky_erc20 s) (sender m).
Proof.
  intros Hs Hblk Hpos Ht Hto Hd Hz Hrep Hne Hcur got Hgot.
  unfold transferAll in Ht. inv_result. to_props.
  match goal with Hx : erc20_transfer _ _ _ _ = Ok _ |- _ =>
    apply erc20_transfer_spec in Hx as (_ & _ & Hbal) end.
  unfold delegate, delegate_from in Hd. cbv zeta in Hd. rewrite Hto in Hd.
  replace (delegates_at s1 to) with zero_address in Hd by (subst s1; done).
  assert (forall b, currentVotes s2 b
    = if decide (b = rep) then currentVotes s rep + got else currentVotes s b) as Hvotes.
  { intros b. assert (forall c, currentVotes (with_delegates s1 (<[ to := rep ]> (delegates s1))) c
      = currentVotes s c) as E by (intros c; subst s1; done).
    rewrite <-!E. eapply (moveDelegates_new blk m' _ rep); try done; [|by rewrite E].
    subst s1. by destruct Hs. }
  rewrite !Hvotes, decide_False, decide_True by done. split; [done|]. split; [done|].
  unfold got. subst s1. cbn. rewrite Hbal, decide_False, decide_True by congruence. lia.
Qed.
End Votes.
