(* ===== verification/HuskyLocks.v ===== *)
(** * The locked tokens

    HuskyToken.sol keeps locked tokens on its own account until a range of blocks releases
    them.  Through any history of calls it holds what it owes, and whoever has locked tokens
    can always take out what is released, after the last block all of it. *)

From S2P Require Import Prelude Buffers MerkleTree BalanceTree Evm Uint Sums HuskyToken HuskyVotes.

Open Scope Z_scope.

Section Locks.
Context `{Ethers} `{!OpenZeppelin} `{!Signatures}.
Context (this : address).      (* of the token *)
Implicit Types (s : HuskyToken) (a : address).

Definition own s : Z := erc20_balanceOf (husky_erc20 s) this.

(** Up to block [blk]: the token owes the sum of the locks and holds at least that, no one
    may spend from its account, and no date of release is in the future.  Balances are
    unsigned. *)
Record locks_ok (blk : Z) s : Prop := {
  lk_sum : totalLock s = map_sum (fun z => z) (locks s);
  lk_nonneg : forall a, 0 <= lock_of s a;
  lk_backed : totalLock s <= own s;
  lk_uint : totalLock s < UINT256;
  lk_closed : forall a, erc20_allowance (husky_erc20 s) this a = 0;
  lk_last : forall a, 0 <= last_unlock s a <= Z.max (startReleaseBlock s) blk;
  lk_range : 0 <= startReleaseBlock s < endReleaseBlock s;
  lk_balances : forall a, 0 <= erc20_balanceOf (husky_erc20 s) a
}.

(** ** The storage that counts *)

(** The ledger of locks is the same, and the token's account and allowances are as safe. *)
Record keeps_locks s s' : Prop := {
  kl_locks : locks s' = locks s;
  kl_total : totalLock s' = totalLock s;
  kl_last : lastUnlockBlock s' = lastUnlockBlock s;
  kl_start : startReleaseBlock s' = startReleaseBlock s;
  kl_end : endReleaseBlock s' = endReleaseBlock s;
  kl_own : own s <= own s';
  kl_allow : (forall a, erc20_allowance (husky_erc20 s) this a = 0) ->
             forall a, erc20_allowance (husky_erc20 s') this a = 0;
  kl_balances : (forall a, 0 <= erc20_balanceOf (husky_erc20 s) a) ->
                forall a, 0 <= erc20_balanceOf (husky_erc20 s') a
}.

#[export] Instance keeps_locks_preorder : PreOrder keeps_locks.
Proof.
  split; [by split|]. intros s1 s2 s3 [] []. split; first [congruence | lia | auto].
Qed.

Lemma locks_ok_mono blk blk' s : blk <= blk' -> locks_ok blk s -> locks_ok blk' s.
Proof. intros Hb []. split; try done. intros a. specialize (lk_last0 a). lia. Qed.

Lemma locks_ok_keeps blk s s' : keeps_locks s s' -> locks_ok blk s -> locks_ok blk s'.
Proof.
  intros [] []. unfold lock_of, last_unlock in *.
  split; unfold lock_of, last_unlock; rewrite ?kl_locks0, ?kl_total0, ?kl_last0, ?kl_start0, ?kl_end0;
    first [done | lia | auto].
Qed.

Lemma writeCheckpoint_keeps m s a n v s' : writeCheckpoint m s a n v = Ok s' -> keeps_locks s s'.
Proof. unfold writeCheckpoint. intros Hr. inv_result. case_match; inv_result; by subst. Qed.

Lemma moveDelegates_keeps m s src dst v s' : moveDelegates m s src dst v = Ok s' -> keeps_locks s s'.
Proof.
  unfold moveDelegates. intros Hr. destruct (_ && _); [|injection Hr as <-; done].
  apply bind_Ok in Hr as (s1 & Hsrc & Hdst). etrans.
  - clear Hdst. case_match; inv_result; [by eapply writeCheckpoint_keeps|by subst].
  - clear Hsrc. case_match; inv_result; [by eapply writeCheckpoint_keeps|by subst].
Qed.

(** A change of the ERC-20 part. *)
Lemma with_erc20_keeps s t :
  own s <= erc20_balanceOf t this ->
  (forall a, erc20_allowance t this a = erc20_allowance (husky_erc20 s) this a) ->
  ((forall a, 0 <= erc20_balanceOf (husky_erc20 s) a) -> forall a, 0 <= erc20_balanceOf t a) ->
  keeps_locks s (with_erc20 s t).
Proof. intros Hb Ha Hn. split; try done. intros Hz a. cbn. by rewrite Ha. Qed.

Lemma transfer_nonneg t from to v t' :
  erc20_transfer t from to v = Ok t' -> 0 <= v ->
  (forall a, 0 <= erc20_balanceOf t a) -> forall a, 0 <= erc20_balanceOf t' a.
Proof.
  intros (Hle & _ & Hb)%erc20_transfer_spec Hv Hn a. rewrite Hb. specialize (Hn a).
  repeat case_decide; subst; lia.
Qed.

Lemma transfer_own s from to v t :
  erc20_transfer (husky_erc20 s) from to v = Ok t -> from <> this -> 0 <= v ->
  erc20_balanceOf t this = own s + (if decide (this = to) then v else 0).
Proof.
  intros (_ & _ & Hb)%erc20_transfer_spec Hf Hv. rewrite Hb, decide_False by congruence.
  unfold own. lia.
Qed.

Lemma transfer_keeps s from to v t :
  erc20_transfer (husky_erc20 s) from to v = Ok t -> from <> this -> 0 <= v ->
  keeps_locks s (with_erc20 s t).
Proof.
  intros Ht Hf Hv. apply with_erc20_keeps;
    [|intros a; by eapply erc20_transfer_allowance|by eapply transfer_nonneg].
  rewrite (transfer_own s from to v t Ht Hf Hv). case_decide; lia.
Qed.

Lemma approve_keeps s owner spender v t :
  erc20_approve (husky_erc20 s) owner spender v = Ok t -> owner <> this -> keeps_locks s (with_erc20 s t).
Proof.
  intros [Hb Ha]%erc20_approve_inv Ho. apply with_erc20_keeps; [unfold own; by rewrite Hb|..].
  - intros a. rewrite Ha, decide_False; [done|]. intros [-> _]. done.
  - intros Hn a. by rewrite Hb.
Qed.

(** ** The calls *)

(** The calls the token takes: not from itself, and not, by its owner, on its own account. *)
Record holder_call (m : Msg) (c : TokenCall) : Prop := {
  hc_self : self m = this;
  hc_sender : sender m <> this;
  hc_typed : match c with
             | Transfer _ v | TransferFrom _ _ v | Mint _ v | ManualMint _ v | Burn _ v | Lock _ v
             | LockToOwner _ v => uint256 v
             | _ => True
             end;
  hc_account : match c with Burn a _ | Lock a _ | LockToOwner a _ => a <> this | _ => True end
}.

Lemma mint_keeps m s to v s' : 0 <= v -> mint m s to v = Ok s' -> keeps_locks s s'.
Proof.
  intros Hv Hr. unfold mint in Hr. inv_result. etrans; [|by eapply moveDelegates_keeps].
  match goal with Hm : erc20_mint _ _ _ = Ok _ |- _ =>
    pose proof (fun a o => erc20_mint_allowance _ _ _ _ a o Hm) as Ha;
    apply erc20_mint_spec in Hm as (_ & Hb & Hne) end.
  apply with_erc20_keeps; [|done|].
  - unfold own. destruct (decide (this = to)) as [<-|Hto]; [lia|]. rewrite Hne by done. lia.
  - intros Hn a. specialize (Hn a). destruct (decide (a = to)) as [->|]; [lia|]. by rewrite Hne.
Qed.

Lemma transferFrom_keeps m s from to v s' :
  sender m <> this -> 0 <= v -> (forall a, erc20_allowance (husky_erc20 s) this a = 0) ->
  husky_transferFrom m s from to v = Ok s' -> keeps_locks s s'.
Proof.
  intros Hm Hv Hz Hr. unfold husky_transferFrom in Hr. inv_result.
  etrans; [|by eapply moveDelegates_keeps].
  match goal with Ht : erc20_transfer _ _ _ _ = Ok ?t1, Hs : sm_sub _ _ _ = Ok ?l,
    Ha : erc20_approve _ _ _ _ = Ok ?t2 |- _ =>
    apply sm_sub_Ok in Hs as [-> Hle]; rewrite (erc20_transfer_allowance _ _ _ _ _ _ _ Ht) in *;
    pose proof (fun o => erc20_transfer_allowance _ _ _ _ _ this o Ht) as Ht';
    destruct (decide (from = this)) as [->|Hf];
    [|transitivity (with_erc20 s t1); [by eapply transfer_keeps|];
      change (with_erc20 s t2) with (with_erc20 (with_erc20 s t1) t2); by eapply approve_keeps];
    rewrite Hz in *; assert (v = 0) as -> by lia;
    apply erc20_transfer_spec in Ht as (_ & _ & Hb); apply erc20_approve_inv in Ha as [Hb' Hal]
  end.
  apply with_erc20_keeps.
  - unfold own. rewrite Hb', Hb. repeat case_decide; lia.
  - intros a. rewrite Hal, Ht', !Hz. by case_decide.
  - intros Hn a. specialize (Hn a). rewrite Hb', Hb. repeat case_decide; lia.
Qed.

(** Most calls leave the ledger of locks alone. *)
Lemma keeps_call blk m s c s' :
  locks_ok blk s -> holder_call m c -> token_call m s c = Ok s' ->
  match c with Lock _ _ | Unlock | TransferAll _ => True | _ => keeps_locks s s' end.
Proof.
  intros Hs [Hself Hm Ht Ha] Hr. pose proof UINT256_pos. destruct c; try exact I; cbn in Hr, Ht, Ha.
  - destruct Ht. unfold husky_transfer in Hr. inv_result.
    etrans; [by eapply transfer_keeps|by eapply moveDelegates_keeps].
  - destruct Ht. apply (transferFrom_keeps m s from recipient amount); [done|lia|apply Hs|done].
  - inv_result. subst. by eapply approve_keeps.
  - destruct Ht. by eapply mint_keeps.
  - destruct Ht. unfold manualMint in Hr. inv_result.
    match goal with Hx : mint _ _ _ _ = Ok _ |- _ => apply mint_keeps in Hx; [|done]; by destruct Hx end.
  - destruct Ht. unfold burn in Hr. inv_result. subst.
    match goal with Hb : erc20_burn _ _ _ = Ok _ |- _ =>
      pose proof (fun a o => erc20_burn_allowance _ _ _ _ a o Hb) as Hal;
      apply erc20_burn_spec in Hb as (Hle & _ & Hb' & Hne) end.
    apply with_erc20_keeps; [unfold own; by rewrite Hne by congruence|done|].
    intros Hn a. specialize (Hn a). destruct (decide (a = account)) as [->|]; [lia|]. by rewrite Hne.
  - destruct Ht. unfold lockToOwner in Hr. inv_result. subst. by eapply transfer_keeps.
  - unfold delegate, delegate_from in Hr. apply moveDelegates_keeps in Hr. by destruct Hr.
  - unfold delegateBySig, delegate_from in Hr. inv_result.
    match goal with Hx : moveDelegates _ _ _ _ _ = Ok _ |- _ => apply moveDelegates_keeps in Hx; by destruct Hx end.
Qed.

(** Writing the ledger: the locks of one account and the total by the same difference. *)
Lemma locks_write N s t a l last total :
  locks_ok N s -> 0 <= l -> total = totalLock s - lock_of s a + l -> total < UINT256 ->
  total <= erc20_balanceOf t this ->
  (forall o, erc20_allowance t this o = erc20_allowance (husky_erc20 s) this o) ->
  (forall b, 0 <= erc20_balanceOf t b) ->
  (forall b, 0 <= default 0 (last !! b) <= Z.max (startReleaseBlock s) N) ->
  locks_ok N (with_locks (with_erc20 s t) (<[ a := l ]> (locks s)) last total).
Proof.
  intros [] Hl -> Hu Hb Ha Hn Hlast. split; cbn; try done.
  - rewrite (map_sum_insert 0) by done. rewrite <-lk_sum0. done.
  - intros b. unfold lock_of. cbn. destruct (decide (b = a)) as [->|]; [by rewrite lookup_insert_eq|].
    rewrite lookup_insert_ne by done. apply lk_nonneg0.
  - intros o. by rewrite Ha.
Qed.

Lemma lock_le N s a : locks_ok N s -> 0 <= lock_of s a <= totalLock s.
Proof.
  intros Hs. split; [apply Hs|]. rewrite (lk_sum _ _ Hs).
  apply (map_sum_le 0 (fun z => z)); [done|]. exact (lk_nonneg _ _ Hs).
Qed.

Lemma lock_locks m s a v s' :
  locks_ok (number (block m)) s -> self m = this -> a <> this -> uint256 v -> lock m s a v = Ok s' ->
  locks_ok (number (block m)) s'.
Proof.
  intros Hs Hself Ha Hv Hr. pose proof (lock_le _ _ a Hs). pose proof (lk_uint _ _ Hs). destruct Hv.
  unfold lock in Hr. inv_result. to_props. inv_uint. rewrite Hself in *.
  match goal with Ht : erc20_transfer _ _ _ _ = Ok _ |- _ =>
    pose proof (fun o => erc20_transfer_allowance _ _ _ _ _ this o Ht) as Hal;
    pose proof (transfer_nonneg _ _ _ _ _ Ht ltac:(done) (lk_balances _ _ Hs)) as Hnn;
    apply transfer_own in Ht as Hown; [|done|done] end.
  rewrite decide_True in Hown by done. pose proof (lk_backed _ _ Hs). subst s'.
  eapply locks_write; try done; try lia.
  intros b. pose proof (lk_last _ _ Hs b) as Hlast. unfold last_unlock in *.
  case_match; [|done]. destruct (decide (b = a)) as [->|]; [rewrite lookup_insert_eq; cbn|by rewrite lookup_insert_ne].
  pose proof (lk_range _ _ Hs). lia.
Qed.

(** What can be taken out is part of what is locked. *)
Lemma canUnlock_bounds m s a x :
  locks_ok (number (block m)) s -> canUnlockAmount m s a = Ok x ->
  0 <= x <= lock_of s a /\ (endReleaseBlock s <= number (block m) -> x = lock_of s a).
Proof.
  intros Hs Hr. pose proof (lk_nonneg _ _ Hs a) as Hl. pose proof (lk_range _ _ Hs) as Hrange.
  unfold canUnlockAmount in Hr.
  destruct (Z.ltb_spec (number (block m)) (startReleaseBlock s)); [injection Hr as <-; lia|].
  destruct (Z.leb_spec (endReleaseBlock s) (number (block m))); [injection Hr as <-; lia|].
  inv_result. inv_uint. split; [|lia]. split; [nonneg|].
  apply Z.div_le_upper_bound; [lia|]. nia.
Qed.

Lemma canUnlock_total m s a :
  locks_ok (number (block m)) s -> lock_of s a * endReleaseBlock s < UINT256 ->
  exists x, canUnlockAmount m s a = Ok x.
Proof.
  intros Hs Hfit. pose proof (lk_nonneg _ _ Hs a). pose proof (lk_range _ _ Hs). pose proof (lk_last _ _ Hs a).
  unfold canUnlockAmount.
  destruct (Z.ltb_spec (number (block m)) (startReleaseBlock s)); [eauto|].
  destruct (Z.leb_spec (endReleaseBlock s) (number (block m))); [eauto|].
  rewrite sm_sub_fits by lia. cbn [mbind result_bind]. rewrite sm_sub_fits by lia. cbn [mbind result_bind].
  rewrite sm_mul_fits; [|lia|lia|nia]. cbn [mbind result_bind]. rewrite sm_div_fits by lia. eauto.
Qed.

Lemma unlock_locks m s s' :
  locks_ok (number (block m)) s -> self m = this -> sender m <> this -> 0 <= number (block m) ->
  unlock m s = Ok s' -> locks_ok (number (block m)) s'.
Proof.
  intros Hs Hself Hm HN Hr. pose proof (lock_le _ _ (sender m) Hs). pose proof (lk_uint _ _ Hs).
  unfold unlock in Hr. inv_result. to_props. rewrite Hself in *.
  repeat match goal with Hx : sm_sub _ _ _ = Ok _ |- _ => apply sm_sub_Ok in Hx as [-> ?] end.
  match goal with Hx : canUnlockAmount _ _ _ = Ok _ |- _ => apply canUnlock_bounds in Hx as [Hx _]; [|done] end.
  match goal with Ht : erc20_transfer _ _ _ _ = Ok _ |- _ =>
    pose proof (fun o => erc20_transfer_allowance _ _ _ _ _ this o Ht) as Hal;
    pose proof (transfer_nonneg _ _ _ _ _ Ht ltac:(lia) (lk_balances _ _ Hs)) as Hnn;
    apply erc20_transfer_spec in Ht as (_ & _ & Hown); specialize (Hown this) end.
  rewrite decide_True, decide_False in Hown by congruence. pose proof (lk_backed _ _ Hs). unfold own in *.
  subst s'. eapply locks_write; try done; try lia.
  intros b. pose proof (lk_last _ _ Hs b) as Hlast. unfold last_unlock in *.
  destruct (decide (b = sender m)) as [->|]; [rewrite lookup_insert_eq; cbn [from_option id]; lia|by rewrite lookup_insert_ne].
Qed.

Lemma transferAll_locks m s to s' :
  locks_ok (number (block m)) s -> sender m <> this -> transferAll m s to = Ok s' ->
  locks_ok (number (block m)) s'.
Proof.
  intros Hs Hm Hr. pose proof (lock_le _ _ (sender m) Hs). pose proof (lock_le _ _ to Hs).
  pose proof (lk_uint _ _ Hs). unfold transferAll in Hr. inv_result. to_props. inv_uint.
  set (v := erc20_balanceOf (husky_erc20 s) (sender m)) in *.
  assert (0 <= v) as Hv by apply (lk_balances _ _ Hs).
  match goal with Ht : erc20_transfer _ _ _ _ = Ok ?t |- _ =>
    pose proof (fun o => erc20_transfer_allowance _ _ _ _ _ this o Ht) as Hal;
    pose proof (transfer_nonneg _ _ _ _ _ Ht Hv (lk_balances _ _ Hs)) as Hnn;
    apply transfer_own in Ht as Hown; [|done|done] end.
  destruct Hs. subst s'. split; cbn; try done.
  - rewrite !(map_sum_insert 0) by done. unfold at_. rewrite lookup_insert_ne by congruence.
    unfold lock_of in *. rewrite <-lk_sum0. cbn. lia.
  - intros a. unfold lock_of at 1. cbn. destruct (decide (a = sender m)) as [->|]; [by rewrite lookup_insert_eq|].
    rewrite lookup_insert_ne by done. destruct (decide (a = to)) as [->|]; [rewrite lookup_insert_eq; cbn [from_option id]; lia|].
    rewrite lookup_insert_ne by done. apply lk_nonneg0.
  - unfold own at 1. cbn. rewrite Hown. case_decide; lia.
  - intros a. by rewrite Hal.
  - intros a. unfold last_unlock in *. cbn [with_locks lastUnlockBlock].
    destruct (decide (a = sender m)) as [->|]; [rewrite lookup_insert_eq; cbn [from_option id]; lia|].
    rewrite lookup_insert_ne by done. pose proof (lk_last0 (sender m)). pose proof (lk_last0 to).
    destruct (decide (a = to)) as [->|]; [rewrite lookup_insert_eq; cbn [from_option id]; lia|].
    rewrite lookup_insert_ne by done. apply lk_last0.
Qed.

(** ** Histories *)

Definition holder_step (x y : HuskyToken * Z) : Prop :=
  exists m c, holder_call m c /\ x.2 <= number (block m) /\ 0 <= number (block m) /\
    y.2 = number (block m) /\ token_call m x.1 c = Ok y.1.

Lemma holder_call_locks m c s s' :
  holder_call m c -> 0 <= number (block m) -> locks_ok (number (block m)) s -> token_call m s c = Ok s' ->
  locks_ok (number (block m)) s'.
Proof.
  intros Hc HN Hs Hr. pose proof (keeps_call _ _ _ _ _ Hs Hc Hr) as Hk. destruct Hc as [Hself Hm Ht Ha].
  destruct c; try (by eapply locks_ok_keeps).
  - by eapply lock_locks.
  - by eapply unlock_locks.
  - by eapply transferAll_locks.
Qed.

(** C25: locked tokens are safe and come out.  From a token that owes what it holds, through
    any history of calls, what it owes stays the sum of the locks and covered by its own
    account; and whoever has locked tokens can call [unlock] in any later block: the call
    does not revert, pays a part of the lock to its holder, and from the last block of the
    release on the whole lock. *)
Theorem locks_are_released s b s' b' :
  locks_ok b s -> rtc holder_step (s, b) (s', b') ->
  totalLock s' = map_sum (fun z => z) (locks s') /\ totalLock s' <= own s' /\
  forall m, self m = this -> this <> zero_address -> sender m <> this -> sender m <> zero_address ->
    b' <= number (block m) -> 0 < lock_of s' (sender m) ->
    lock_of s' (sender m) * endReleaseBlock s' < UINT256 ->
    exists s'' amount, unlock m s' = Ok s'' /\ 0 <= amount <= lock_of s' (sender m) /\
      lock_of s'' (sender m) = lock_of s' (sender m) - amount /\
      erc20_balanceOf (husky_erc20 s'') (sender m) = erc20_balanceOf (husky_erc20 s') (sender m) + amount /\
      (endReleaseBlock s' <= number (block m) -> amount = lock_of s' (sender m)).
Proof.
  intros Hs Hsteps. assert (locks_ok b' s') as Hs'.
  { change (locks_ok (s', b').2 (s', b').1). change (locks_ok (s, b).2 (s, b).1) in Hs.
    revert Hs. induction Hsteps as [x|x y z (m & c & Hc & Hb & HN & Ey & Hr) _ IH]; [done|]. intros Hx.
    apply IH. rewrite Ey. eapply holder_call_locks; [done|done|by apply (locks_ok_mono x.2)|done]. }
  split; [apply Hs'|]. split; [apply Hs'|]. intros m Hself Hz Hm Hmz Hb Hl Hfit.
  apply (locks_ok_mono _ (number (block m))) in Hs'; [|done].
  destruct (canUnlock_total m s' (sender m) Hs' Hfit) as [x Hx].
  destruct (canUnlock_bounds m s' (sender m) x Hs' Hx) as [Hxb Hall].
  pose proof (lock_le _ _ (sender m) Hs'). pose proof (lk_backed _ _ Hs').
  pose proof (erc20_transfer_ok (husky_erc20 s') this (sender m) x Hz Hmz) as Hok. unfold own in *.
  specialize (Hok ltac:(lia)). destruct (erc20_transfer _ _ _ _) as [t|] eqn:Ht; [|done].
  unfold unlock. rewrite (proj2 (Z.ltb_lt _ _) Hl). cbn [require mbind result_bind].
  rewrite Hx. cbn [mbind result_bind]. rewrite Hself, Ht. cbn [mbind result_bind].
  rewrite !sm_sub_fits by lia. cbn [mbind result_bind]. eexists _, x. split; [done|].
  split; [done|]. split; [unfold lock_of at 1; cbn; by rewrite lookup_insert_eq|]. split; [|done].
  apply erc20_transfer_spec in Ht as (_ & _ & Hbal). cbn. rewrite Hbal, decide_False, decide_True by congruence.
  lia.
Qed.
(** ** The start of the release can be passed by *)

(** [unlock] called before the release starts pays nothing but sets the date from which the
    release counts: the holder is then released linearly from that earlier block on, and
    gets more at every block of the range than one who waited. *)
Theorem early_unlock_moves_schedule m m' s s' :
  locks_ok (number (block m)) s -> 0 <= number (block m) < startReleaseBlock s ->
  last_unlock s (sender m) = startReleaseBlock s -> unlock m s = Ok s' ->
  startReleaseBlock s <= number (block m') < endReleaseBlock s ->
  lock_of s (sender m) * endReleaseBlock s < UINT256 ->
  let l := lock_of s (sender m) in let n := number (block m) in let n' := number (block m') in
  let start := startReleaseBlock s in let end_ := endReleaseBlock s in
  lock_of s' (sender m) = l /\
  canUnlockAmount m' s (sender m) = Ok (l * (n' - start) / (end_ - start)) /\
  canUnlockAmount m' s' (sender m) = Ok (l * (n' - n) / (end_ - n)) /\
  l * (n' - start) / (end_ - start) <= l * (n' - n) / (end_ - n).
Proof.
  intros Hs Hn Hlast Hr Hn' Hfit l n n' start end_. pose proof (lk_nonneg _ _ Hs (sender m)) as Hl.
  pose proof (lk_range _ _ Hs) as Hrange.
  assert (s' = with_locks (with_erc20 s (husky_erc20 s')) (<[ sender m := l ]> (locks s))
                 (<[ sender m := n ]> (lastUnlockBlock s)) (totalLock s)) as ->.
  { unfold unlock, canUnlockAmount in Hr. rewrite (proj2 (Z.ltb_lt (number (block m)) _)) in Hr by lia.
    inv_result. to_props. rewrite !sm_sub_fits in * by (pose proof (lock_le _ _ (sender m) Hs); lia).
    inv_result. subst. cbn. unfold l, n. do 2 f_equal; lia. }
  assert (forall x, lock_of x (sender m) = l -> startReleaseBlock x = start -> endReleaseBlock x = end_ ->
    0 <= last_unlock x (sender m) <= start ->
    canUnlockAmount m' x (sender m)
      = Ok (l * (n' - last_unlock x (sender m)) / (end_ - last_unlock x (sender m)))) as Hcan.
  { intros x El Es Ee Hx. unfold canUnlockAmount. rewrite Es, Ee, El.
    rewrite (proj2 (Z.ltb_ge _ _)), (proj2 (Z.leb_gt _ _)) by lia.
    rewrite sm_sub_fits by lia. cbn [mbind result_bind]. rewrite sm_sub_fits by lia. cbn [mbind result_bind].
    rewrite sm_mul_fits by nia. cbn [mbind result_bind]. by rewrite sm_div_fits by lia. }
  split; [unfold lock_of at 1; cbn; by rewrite lookup_insert_eq|].
  split; [rewrite Hcan by (done || lia); by rewrite Hlast|]. split.
  - rewrite Hcan; try done; unfold last_unlock, lock_of; cbn; rewrite lookup_insert_eq; cbn; [done..|lia].
  - apply Z.div_le_lower_bound; [lia|].
    pose proof (Z.mul_div_le (l * (n' - start)) (end_ - start) ltac:(lia)).
    assert (0 <= l * (n' - start) / (end_ - start)) by (apply Z.div_pos; nia).
    set (q := l * (n' - start) / (end_ - start)) in *.
    assert (q <= l) by (apply Z.div_le_upper_bound; nia). nia.
Qed.
End Locks.
