(* ===== verification/FairLaunch.v ===== *)
(** * FairLaunch.sol

    The reward distributor, as its owner operates it: bonus parameters, adding
    and re-weighting pools, and the accumulator update of every pool.  The
    staking functions of users (deposit, withdraw, harvest) are in Staking.v. *)

From S2P Require Import Prelude Buffers MerkleTree BalanceTree Evm.

Record PoolInfo := {
  pool_symbol : string;
  stakeToken : address;
  allocPoint : Z;
  lastRewardBlock : Z;
  accHuskyPerShare : Z;
  accHuskyPerShareTilBonusEnd : Z
}.

Record FairLaunch := {
  fl_owner : address;
  husky : address;
  devaddr : address;
  huskyPerBlock : Z;
  bonusMultiplier : Z;
  bonusEndBlock : Z;
  bonusLockUpBps : Z;
  lastMultiplier : Z;
  poolInfo : list PoolInfo;
  totalAllocPoint : Z;
  startBlock : Z;
  badgeRelayer : address;
  fl_badgePoints : address;
  fl_complexOracle : address
}.

Definition new_FairLaunch (m : Msg) (_husky _devaddr : address)
    (_huskyPerBlock _startBlock _bonusLockupBps _bonusEndBlock : Z) : FairLaunch :=
  {| fl_owner := sender m; husky := _husky; devaddr := _devaddr; huskyPerBlock := _huskyPerBlock;
     bonusMultiplier := 0; bonusEndBlock := _bonusEndBlock; bonusLockUpBps := _bonusLockupBps;
     lastMultiplier := 0; poolInfo := []; totalAllocPoint := 0; startBlock := _startBlock;
     badgeRelayer := zero_address; fl_badgePoints := zero_address;
     fl_complexOracle := zero_address |}.

Definition with_fl_owner (f : FairLaunch) (o : address) : FairLaunch :=
  {| fl_owner := o; husky := husky f; devaddr := devaddr f; huskyPerBlock := huskyPerBlock f;
     bonusMultiplier := bonusMultiplier f; bonusEndBlock := bonusEndBlock f;
     bonusLockUpBps := bonusLockUpBps f; lastMultiplier := lastMultiplier f;
     poolInfo := poolInfo f; totalAllocPoint := totalAllocPoint f; startBlock := startBlock f;
     badgeRelayer := badgeRelayer f; fl_badgePoints := fl_badgePoints f;
     fl_complexOracle := fl_complexOracle f |}.

Definition with_pools (f : FairLaunch) (ps : list PoolInfo) (total lastMul : Z) : FairLaunch :=
  {| fl_owner := fl_owner f; husky := husky f; devaddr := devaddr f;
     huskyPerBlock := huskyPerBlock f; bonusMultiplier := bonusMultiplier f;
     bonusEndBlock := bonusEndBlock f; bonusLockUpBps := bonusLockUpBps f;
     lastMultiplier := lastMul; poolInfo := ps; totalAllocPoint := total;
     startBlock := startBlock f; badgeRelayer := badgeRelayer f;
     fl_badgePoints := fl_badgePoints f; fl_complexOracle := fl_complexOracle f |}.

(** The developer's address and the reward per block, with new values. *)
Definition with_rewards (f : FairLaunch) (dev : address) (perBlock : Z) : FairLaunch :=
  {| fl_owner := fl_owner f; husky := husky f; devaddr := dev; huskyPerBlock := perBlock;
     bonusMultiplier := bonusMultiplier f; bonusEndBlock := bonusEndBlock f;
     bonusLockUpBps := bonusLockUpBps f; lastMultiplier := lastMultiplier f;
     poolInfo := poolInfo f; totalAllocPoint := totalAllocPoint f; startBlock := startBlock f;
     badgeRelayer := badgeRelayer f; fl_badgePoints := fl_badgePoints f;
     fl_complexOracle := fl_complexOracle f |}.

Definition with_badges (f : FairLaunch) (relayer points oracle : address) : FairLaunch :=
  {| fl_owner := fl_owner f; husky := husky f; devaddr := devaddr f;
     huskyPerBlock := huskyPerBlock f; bonusMultiplier := bonusMultiplier f;
     bonusEndBlock := bonusEndBlock f; bonusLockUpBps := bonusLockUpBps f;
     lastMultiplier := lastMultiplier f; poolInfo := poolInfo f;
     totalAllocPoint := totalAllocPoint f; startBlock := startBlock f;
     badgeRelayer := relayer; fl_badgePoints := points; fl_complexOracle := oracle |}.

Definition setDev (m : Msg) (f : FairLaunch) (_devaddr : address) : result FairLaunch :=
  require (bool_decide (sender m = devaddr f)) "dev: wut?" ;;
  Ok (with_rewards f _devaddr (huskyPerBlock f)).

Definition setHuskyPerBlock (m : Msg) (f : FairLaunch) (_huskyPerBlock : Z) : result FairLaunch :=
  onlyOwner (fl_owner f) m ;; Ok (with_rewards f (devaddr f) _huskyPerBlock).

Definition setBadgeRelayer (m : Msg) (f : FairLaunch) (_relayer : address) : result FairLaunch :=
  onlyOwner (fl_owner f) m ;;
  Ok (with_badges f _relayer (fl_badgePoints f) (fl_complexOracle f)).

Definition setBadgePoints (m : Msg) (f : FairLaunch) (_badgePoints _complexOracle : address) :
    result FairLaunch :=
  onlyOwner (fl_owner f) m ;; Ok (with_badges f (badgeRelayer f) _badgePoints _complexOracle).

Definition setBonus (m : Msg) (f : FairLaunch) (_bonusMultiplier _bonusEndBlock _bonusLockUpBps : Z) :
    result FairLaunch :=
  onlyOwner (fl_owner f) m ;;
  require (number (block m) <? _bonusEndBlock)%Z "setBonus: bad bonusEndBlock" ;;
  require (1 <? _bonusMultiplier)%Z "setBonus: bad bonusMultiplier" ;;
  Ok {| fl_owner := fl_owner f; husky := husky f; devaddr := devaddr f;
        huskyPerBlock := huskyPerBlock f; bonusMultiplier := _bonusMultiplier;
        bonusEndBlock := _bonusEndBlock; bonusLockUpBps := _bonusLockUpBps;
        lastMultiplier := lastMultiplier f; poolInfo := poolInfo f;
        totalAllocPoint := totalAllocPoint f; startBlock := startBlock f;
        badgeRelayer := badgeRelayer f; fl_badgePoints := fl_badgePoints f;
        fl_complexOracle := fl_complexOracle f |}.

Definition isDuplicatedPool (f : FairLaunch) (_stakeToken : address) : bool :=
  existsb (fun p => bool_decide (stakeToken p = _stakeToken)) (poolInfo f).

Definition poolLength (f : FairLaunch) : Z := Z.of_nat (length (poolInfo f)).

Definition getMultiplier (f : FairLaunch) (_lastRewardBlock _currentBlock : Z) : result Z :=
  if (_currentBlock <=? bonusEndBlock f)%Z then
    d ← sm_sub _currentBlock _lastRewardBlock SUB_OVERFLOW; sm_mul d (bonusMultiplier f)
  else if (bonusEndBlock f <=? _lastRewardBlock)%Z then
    sm_sub _currentBlock _lastRewardBlock SUB_OVERFLOW
  else
    d ← sm_sub (bonusEndBlock f) _lastRewardBlock SUB_OVERFLOW;
    bonus ← sm_mul d (bonusMultiplier f);
    rest ← sm_sub _currentBlock (bonusEndBlock f) SUB_OVERFLOW;
    sm_add bonus rest.

(** [a.mul(b).mul(c).div(d)] *)
Definition mul_mul_div (a b c d : Z) : result Z :=
  x ← sm_mul a b; y ← sm_mul x c; sm_div y d.

(** [a.mul(b).div(c)] *)
Definition mul_div (a b c : Z) : result Z := x ← sm_mul a b; sm_div x c.

(** What FairLaunch calls in the rest of the chain [W]: the balances of stake tokens
    and the reward token.  Chain.v gives the instance. *)
Class Tokens (W : Type) := {
  (** [IERC20(token).balanceOf(holder)] *)
  token_balanceOf : W -> address -> address -> result Z;
  (** [husky.mint(_to, _amount)] and [husky.lock(_account, _amount)] *)
  token_mint : Msg -> W -> address -> Z -> result W;
  token_lock : Msg -> W -> address -> Z -> result W;
  (** [husky.manualMint(_to, _amount)] *)
  token_manualMint : Msg -> W -> address -> Z -> result W
}.

Section Update.
Context {W : Type} `{Tokens W}.

(** The calls of FairLaunch to the reward token. *)
Definition to_husky (m : Msg) (f : FairLaunch) : Msg :=
  {| sender := self m; self := husky f; block := block m |}.

(** [updatePool] of one pool: the pool, the token and the multiplier afterwards. *)
Definition updatePool1 (m : Msg) (f : FairLaunch) (h : W) (pool : PoolInfo) :
    result (PoolInfo * W * Z) :=
  let n := number (block m) in
  let touched acc til := {| pool_symbol := pool_symbol pool; stakeToken := stakeToken pool;
                            allocPoint := allocPoint pool; lastRewardBlock := n;
                            accHuskyPerShare := acc; accHuskyPerShareTilBonusEnd := til |} in
  if (n <=? lastRewardBlock pool)%Z then Ok (pool, h, lastMultiplier f) else
  lpSupply ← token_balanceOf h (stakeToken pool) (self m);
  if (lpSupply =? 0)%Z then
    Ok (touched (accHuskyPerShare pool) (accHuskyPerShareTilBonusEnd pool), h, lastMultiplier f)
  else
    multiplier ← getMultiplier f (lastRewardBlock pool) n;
    huskyReward ← mul_mul_div multiplier (huskyPerBlock f) (allocPoint pool) (totalAllocPoint f);
    devReward ← sm_div huskyReward 10;
    h ← token_mint (to_husky m f) h (devaddr f) devReward;
    h ← token_mint (to_husky m f) h (self m) huskyReward;
    perShare ← mul_div huskyReward (10 ^ 12) lpSupply;
    acc ← sm_add (accHuskyPerShare pool) perShare;
    '(h, til) ← (if (n <=? bonusEndBlock f)%Z then
                   locked ← mul_div huskyReward (bonusLockUpBps f) 100000;
                   h ← token_lock (to_husky m f) h (devaddr f) locked;
                   Ok (h, acc)
                 else Ok (h, accHuskyPerShareTilBonusEnd pool));
    '(h, til) ← (if (bonusEndBlock f <? n)%Z && (lastRewardBlock pool <? bonusEndBlock f)%Z then
                   d ← sm_sub (bonusEndBlock f) (lastRewardBlock pool) SUB_OVERFLOW;
                   d ← sm_mul d (bonusMultiplier f);
                   portion ← mul_mul_div d (huskyPerBlock f) (allocPoint pool) (totalAllocPoint f);
                   locked ← mul_div portion (bonusLockUpBps f) 100000;
                   h ← token_lock (to_husky m f) h (devaddr f) locked;
                   bonusShare ← mul_div portion (10 ^ 12) lpSupply;
                   til ← sm_add til bonusShare;
                   Ok (h, til)
                 else Ok (h, til));
    Ok (touched acc til, h, multiplier).

Definition updatePool (m : Msg) (fh : FairLaunch * W) (_pid : nat) :
    result (FairLaunch * W) :=
  let '(f, h) := fh in
  pool ← of_option (poolInfo f !! _pid) EmptyString;
  '(pool, h, mul) ← updatePool1 m f h pool;
  Ok (with_pools f (<[ _pid := pool ]> (poolInfo f)) (totalAllocPoint f) mul, h).

Definition massUpdatePools (m : Msg) (fh : FairLaunch * W) :
    result (FairLaunch * W) :=
  foldM (updatePool m) fh (seq 0 (length (poolInfo fh.1))).

Definition addPool (m : Msg) (fh : FairLaunch * W) (_symbol : string) (_allocPoint : Z)
    (_stakeToken : address) (_withUpdate : bool) : result (FairLaunch * W) :=
  onlyOwner (fl_owner fh.1) m ;;
  '(f, h) ← (if _withUpdate then massUpdatePools m fh else Ok fh);
  require (bool_decide (_stakeToken <> zero_address)) "add: not stakeToken addr" ;;
  require (negb (isDuplicatedPool f _stakeToken)) "add: stakeToken dup" ;;
  let last := if (startBlock f <? number (block m))%Z then number (block m) else startBlock f in
  total ← sm_add (totalAllocPoint f) _allocPoint;
  let p := {| pool_symbol := _symbol; stakeToken := _stakeToken; allocPoint := _allocPoint;
              lastRewardBlock := last; accHuskyPerShare := 0;
              accHuskyPerShareTilBonusEnd := 0 |} in
  Ok (with_pools f (poolInfo f ++ [p]) total (lastMultiplier f), h).

Definition setPool (m : Msg) (fh : FairLaunch * W) (_pid : nat) (_allocPoint : Z) :
    result (FairLaunch * W) :=
  onlyOwner (fl_owner fh.1) m ;;
  '(f, h) ← massUpdatePools m fh;
  pool ← of_option (poolInfo f !! _pid) EmptyString;
  less ← sm_sub (totalAllocPoint f) (allocPoint pool) SUB_OVERFLOW;
  total ← sm_add less _allocPoint;
  let p := {| pool_symbol := pool_symbol pool; stakeToken := stakeToken pool;
              allocPoint := _allocPoint; lastRewardBlock := lastRewardBlock pool;
              accHuskyPerShare := accHuskyPerShare pool;
              accHuskyPerShareTilBonusEnd := accHuskyPerShareTilBonusEnd pool |} in
  Ok (with_pools f (<[ _pid := p ]> (poolInfo f)) total (lastMultiplier f), h).

Definition fl_manualMint (m : Msg) (fh : FairLaunch * W) (_to : address) (_amount : Z) :
    result (FairLaunch * W) :=
  onlyOwner (fl_owner fh.1) m ;;
  h ← token_manualMint (to_husky m fh.1) fh.2 _to _amount;
  Ok (fh.1, h).

(** ** What the pool functions do to the rest of the chain

    They only mint and lock: any preorder closed under these calls is kept. *)
Section Preserves.
Variable R : W -> W -> Prop.
Hypothesis R_refl : forall w, R w w.
Hypothesis R_trans : forall w1 w2 w3, R w1 w2 -> R w2 w3 -> R w1 w3.

Definition R_calls (b : Block) : Prop :=
  (forall m w a v w', block m = b -> token_mint m w a v = Ok w' -> R w w') /\
  (forall m w a v w', block m = b -> token_lock m w a v = Ok w' -> R w w') /\
  (forall m w a v w', block m = b -> token_manualMint m w a v = Ok w' -> R w w').

Lemma updatePool1_preserves m f w p p' w' mul :
  R_calls (block m) -> updatePool1 m f w p = Ok (p', w', mul) -> R w w'.
Proof.
  intros (Hmint & Hlock & _). unfold updatePool1. destruct (_ <=? _)%Z; [by intros [= _ <- _]|].
  intros Hr. apply bind_Ok in Hr as (lp & _ & Hr).
  destruct (lp =? 0)%Z; [by injection Hr as _ <- _|].
  do 7 (apply bind_Ok in Hr as (? & ? & Hr)).
  apply bind_Ok in Hr as ([w1 til1] & Hw1 & Hr). apply bind_Ok in Hr as ([w2 til2] & Hw2 & Hr).
  injection Hr as _ <- _.
  match goal with
  | A : token_mint _ w _ _ = Ok ?wa, B : token_mint _ ?wa _ _ = Ok ?wb |- _ =>
      apply R_trans with wb; [apply R_trans with wa;
        [eapply Hmint; [|exact A]; done|eapply Hmint; [|exact B]; done]|];
      apply R_trans with w1
  end.
  - destruct (_ <=? _)%Z; inv_result; subst; [eapply Hlock; [|eassumption]; done|done].
  - destruct (_ && _); inv_result; subst; [eapply Hlock; [|eassumption]; done|done].
Qed.

Lemma massUpdatePools_preserves m f w f' w' :
  R_calls (block m) -> massUpdatePools m (f, w) = Ok (f', w') -> R w w'.
Proof.
  intros Hc Hr. unfold massUpdatePools in Hr.
  refine (foldM_invariant (fun fw => R w fw.2) _ _ _ _ _ _ Hr); [done|].
  intros [g v] pid [g' v'] _ Hv Hs. cbn in *. inv_result.
  destruct x0 as [[p'' w''] mul]. injection H2 as <- <-.
  eapply R_trans; [done|]. by eapply updatePool1_preserves.
Qed.

Lemma addPool_preserves m f w sym alloc tok upd f' w' :
  R_calls (block m) -> addPool m (f, w) sym alloc tok upd = Ok (f', w') -> R w w'.
Proof.
  intros Hc Hr. unfold addPool in Hr. apply bind_Ok in Hr as (_ & _ & Hr).
  apply bind_Ok in Hr as ([g v] & Hg & Hr). inv_result. subst.
  destruct upd; [by eapply massUpdatePools_preserves|by simplify_eq].
Qed.

Lemma setPool_preserves m f w pid alloc f' w' :
  R_calls (block m) -> setPool m (f, w) pid alloc = Ok (f', w') -> R w w'.
Proof.
  intros Hc Hr. unfold setPool in Hr. apply bind_Ok in Hr as (_ & _ & Hr).
  apply bind_Ok in Hr as ([g v] & Hg & Hr). inv_result. subst.
  by eapply massUpdatePools_preserves.
Qed.

Lemma fl_manualMint_preserves m f w to v f' w' :
  R_calls (block m) -> fl_manualMint m (f, w) to v = Ok (f', w') -> R w w'.
Proof.
  intros (_ & _ & Hmint) Hr. unfold fl_manualMint in Hr. inv_result. subst.
  by eapply Hmint; [|eassumption].
Qed.
End Preserves.
End Update.
