(* ===== verification/FairLaunchTheory.v ===== *)
(** * Invariants of FairLaunch's pools

    The total allocation is the sum of the pools' allocations and no token has two
    pools, whatever the owner does; and with nothing staked, updating all pools only
    moves their last reward block, so adding a pool succeeds. *)

From S2P Require Import Prelude Buffers MerkleTree BalanceTree Evm FairLaunch.

(** A pool brought up to block [n] while nothing is staked in it. *)
Definition touch (n : Z) (p : PoolInfo) : PoolInfo :=
  if (n <=? lastRewardBlock p)%Z then p else
  {| pool_symbol := pool_symbol p; stakeToken := stakeToken p; allocPoint := allocPoint p;
     lastRewardBlock := n; accHuskyPerShare := accHuskyPerShare p;
     accHuskyPerShareTilBonusEnd := accHuskyPerShareTilBonusEnd p |}.

Lemma touch_stakeToken n p : stakeToken (touch n p) = stakeToken p.
Proof. unfold touch. by destruct (_ <=? _)%Z. Qed.

(** The pool that [addPool] appends. *)
Definition new_pool (f : FairLaunch) (n : Z) (sym : string) (alloc : Z) (tok : address) : PoolInfo :=
  {| pool_symbol := sym; stakeToken := tok; allocPoint := alloc;
     lastRewardBlock := if (startBlock f <? n)%Z then n else startBlock f;
     accHuskyPerShare := 0; accHuskyPerShareTilBonusEnd := 0 |}.

Definition alloc_sum (ps : list PoolInfo) : Z := foldr Z.add 0%Z (allocPoint <$> ps).

Lemma alloc_sum_cons p ps : alloc_sum (p :: ps) = (allocPoint p + alloc_sum ps)%Z.
Proof. done. Qed.

Lemma alloc_sum_app ps qs : alloc_sum (ps ++ qs) = (alloc_sum ps + alloc_sum qs)%Z.
Proof.
  induction ps as [|p ps IH]; [done|]. rewrite <-app_comm_cons, !alloc_sum_cons. lia.
Qed.

Lemma alloc_sum_insert ps i p q :
  ps !! i = Some p -> alloc_sum (<[ i := q ]> ps) = (alloc_sum ps - allocPoint p + allocPoint q)%Z.
Proof.
  revert i. induction ps as [|r ps IH]; intros [|i] Hi; [done..| |]; cbn in Hi.
  - injection Hi as ->. cbn [insert list_insert]. rewrite !alloc_sum_cons. lia.
  - change (<[ S i := q ]> (r :: ps)) with (r :: <[ i := q ]> ps).
    rewrite !alloc_sum_cons, (IH i Hi). lia.
Qed.

Record pool_inv (f : FairLaunch) : Prop := {
  inv_total : totalAllocPoint f = alloc_sum (poolInfo f);
  inv_tokens : NoDup (stakeToken <$> poolInfo f);
  inv_nonzero : zero_address ∉ stakeToken <$> poolInfo f
}.

Section Idle.
Context {W : Type} `{Tokens W}.

Definition idle (self : address) (h : W) (ps : list PoolInfo) : Prop :=
  forall p, p ∈ ps -> token_balanceOf h (stakeToken p) self = Ok 0%Z.

Lemma updatePool1_idle m f h p :
  token_balanceOf h (stakeToken p) (self m) = Ok 0%Z ->
  updatePool1 m f h p = Ok (touch (number (block m)) p, h, lastMultiplier f).
Proof.
  intros Hb. unfold updatePool1, touch. destruct (_ <=? _)%Z; [done|]. by rewrite Hb.
Qed.

Lemma with_pools_twice f ps t l qs u k :
  with_pools (with_pools f ps t l) qs u k = with_pools f qs u k.
Proof. done. Qed.

Lemma updatePools_idle m f h before ps :
  idle (self m) h ps ->
  foldM (updatePool m) (with_pools f (before ++ ps) (totalAllocPoint f) (lastMultiplier f), h)
    (seq (length before) (length ps))
  = Ok (with_pools f (before ++ (touch (number (block m)) <$> ps)) (totalAllocPoint f)
          (lastMultiplier f), h).
Proof.
  revert before. induction ps as [|p ps IH]; intros before Hi; [done|].
  cbn [length seq foldM]. cbn [updatePool poolInfo with_pools].
  rewrite lookup_app_r, Nat.sub_diag by done. cbn [lookup list_lookup of_option mbind result_bind].
  rewrite updatePool1_idle by (apply Hi; by left). cbn [mbind result_bind].
  rewrite insert_app_r_alt, Nat.sub_diag by done. cbn [insert list_insert].
  rewrite with_pools_twice. cbn [totalAllocPoint lastMultiplier with_pools].
  change (touch (number (block m)) p :: ps) with ([touch (number (block m)) p] ++ ps).
  rewrite (app_assoc before). replace (S (length before)) with
    (length (before ++ [touch (number (block m)) p])) by (rewrite length_app; cbn; lia).
  rewrite IH; [by rewrite <-app_assoc|]. intros q Hq. apply Hi. by right.
Qed.

Lemma massUpdatePools_idle m f h :
  idle (self m) h (poolInfo f) ->
  massUpdatePools m (f, h)
  = Ok (with_pools f (touch (number (block m)) <$> poolInfo f) (totalAllocPoint f)
          (lastMultiplier f), h).
Proof.
  intros Hi. pose proof (updatePools_idle m f h [] (poolInfo f) Hi) as E. cbn [app length] in E.
  unfold massUpdatePools. cbn [fst]. rewrite <-E. by destruct f.
Qed.

(** Adding a pool for a token that has none. *)
Lemma addPool_idle m f h sym alloc tok :
  fl_owner f = sender m -> idle (self m) h (poolInfo f) -> tok <> zero_address ->
  tok ∉ stakeToken <$> poolInfo f -> uint256 (totalAllocPoint f) -> uint256 alloc ->
  (totalAllocPoint f + alloc < UINT256)%Z ->
  addPool m (f, h) sym alloc tok true
  = Ok (with_pools f ((touch (number (block m)) <$> poolInfo f)
                        ++ [new_pool f (number (block m)) sym alloc tok])
          (totalAllocPoint f + alloc) (lastMultiplier f), h).
Proof.
  intros Hown Hi Hz Hnew Ht Ha Hlt. unfold addPool. cbn [fst]. rewrite onlyOwner_owner by done.
  cbn [mbind result_bind]. rewrite massUpdatePools_idle by done. cbn [mbind result_bind].
  rewrite bool_decide_eq_true_2 by done. cbn [require mbind result_bind].
  assert (isDuplicatedPool (with_pools f (touch (number (block m)) <$> poolInfo f)
    (totalAllocPoint f) (lastMultiplier f)) tok = false) as ->.
  { apply not_true_iff_false. unfold isDuplicatedPool. rewrite existsb_exists.
    intros (p & Hp & E%bool_decide_eq_true). apply Hnew. cbn in Hp.
    apply list_elem_of_In, list_elem_of_fmap in Hp as (q & -> & Hq).
    rewrite touch_stakeToken in E. subst. by apply list_elem_of_fmap_2. }
  cbn [negb require mbind result_bind]. cbn [totalAllocPoint with_pools].
  rewrite sm_add_small by done. done.
Qed.
End Idle.

(** ** The owner's operations keep the invariant *)

Section Reachable.
Context {W : Type} `{Tokens W}.

(** The state of the contract and of the rest of the chain. *)
Inductive fl_step : FairLaunch * W -> FairLaunch * W -> Prop :=
| step_addPool m f h sym alloc tok upd fh' : uint256 alloc ->
    addPool m (f, h) sym alloc tok upd = Ok fh' -> fl_step (f, h) fh'
| step_setPool m f h pid alloc fh' : uint256 alloc ->
    setPool m (f, h) pid alloc = Ok fh' -> fl_step (f, h) fh'
| step_massUpdatePools m f h fh' : massUpdatePools m (f, h) = Ok fh' -> fl_step (f, h) fh'
| step_updatePool m f h pid fh' : updatePool m (f, h) pid = Ok fh' -> fl_step (f, h) fh'
| step_setBonus m f h mult end_ lock f' : setBonus m f mult end_ lock = Ok f' ->
    fl_step (f, h) (f', h)
| step_setDev m f h dev f' : setDev m f dev = Ok f' -> fl_step (f, h) (f', h)
| step_setHuskyPerBlock m f h perBlock f' : setHuskyPerBlock m f perBlock = Ok f' ->
    fl_step (f, h) (f', h)
| step_setBadgeRelayer m f h relayer f' : setBadgeRelayer m f relayer = Ok f' ->
    fl_step (f, h) (f', h)
| step_setBadgePoints m f h points oracle f' : setBadgePoints m f points oracle = Ok f' ->
    fl_step (f, h) (f', h)
| step_manualMint m f h to amount fh' : fl_manualMint m (f, h) to amount = Ok fh' ->
    fl_step (f, h) fh'
| step_owner f h o : fl_step (f, h) (with_fl_owner f o, h)
| step_chain f h h' : fl_step (f, h) (f, h').

Inductive fl_reachable : FairLaunch * W -> Prop :=
| fl_reach_new m husky dev perBlock start lock end_ h :
    fl_reachable (new_FairLaunch m husky dev perBlock start lock end_, h)
| fl_reach_step fh fh' : fl_reachable fh -> fl_step fh fh' -> fl_reachable fh'.

(** What an update keeps of each pool. *)
Definition pool_key (p : PoolInfo) : address * Z := (stakeToken p, allocPoint p).

Definition keys (f : FairLaunch) : list (address * Z) := pool_key <$> poolInfo f.

Record key_inv (f : FairLaunch) : Prop := {
  ki_inv : pool_inv f;
  ki_range : forall p, p ∈ poolInfo f -> (0 <= allocPoint p)%Z;
  ki_total : uint256 (totalAllocPoint f)
}.

Lemma key_inv_ext f f' :
  keys f' = keys f -> totalAllocPoint f' = totalAllocPoint f -> key_inv f -> key_inv f'.
Proof.
  intros Hk Ht [[I1 I2 I3] I4 I5]. unfold keys in Hk.
  assert (stakeToken <$> poolInfo f' = stakeToken <$> poolInfo f) as Htok.
  { apply (f_equal (fmap fst)) in Hk. by rewrite <-!list_fmap_compose in Hk. }
  assert (allocPoint <$> poolInfo f' = allocPoint <$> poolInfo f) as Hal.
  { apply (f_equal (fmap snd)) in Hk. by rewrite <-!list_fmap_compose in Hk. }
  constructor; [constructor| |by rewrite Ht].
  - rewrite Ht, I1. unfold alloc_sum. by rewrite Hal.
  - by rewrite Htok.
  - by rewrite Htok.
  - intros p Hp. apply (list_elem_of_fmap_2 allocPoint) in Hp. rewrite Hal in Hp.
    apply list_elem_of_fmap in Hp as (q & -> & Hq). auto.
Qed.

Lemma updatePool1_key m f h p p' h' mul :
  updatePool1 m f h p = Ok (p', h', mul) -> pool_key p' = pool_key p.
Proof.
  unfold updatePool1. destruct (_ <=? _)%Z; [by intros [= <- _ _]|]. intros Hr.
  apply bind_Ok in Hr as (lp & _ & Hr). destruct (lp =? 0)%Z; [by injection Hr as <- _ _|].
  do 7 (apply bind_Ok in Hr as (? & _ & Hr)).
  apply bind_Ok in Hr as ([w1 til1] & _ & Hr). apply bind_Ok in Hr as ([w2 til2] & _ & Hr).
  by injection Hr as <- _ _.
Qed.

Lemma updatePool_key m f h pid f' h' :
  updatePool m (f, h) pid = Ok (f', h') ->
  keys f' = keys f /\ totalAllocPoint f' = totalAllocPoint f /\ fl_owner f' = fl_owner f.
Proof.
  intros Hr. cbn in Hr. apply bind_Ok in Hr as (p & Hp%of_option_Ok & Hr).
  apply bind_Ok in Hr as ([[p' h1] mul] & Hu & Hr). injection Hr as <- _.
  split; [|done]. unfold keys. cbn. rewrite list_fmap_insert.
  apply list_insert_id. rewrite list_lookup_fmap, Hp. cbn. f_equal.
  symmetry. by eapply updatePool1_key.
Qed.

Lemma massUpdatePools_key m f h f' h' :
  massUpdatePools m (f, h) = Ok (f', h') ->
  keys f' = keys f /\ totalAllocPoint f' = totalAllocPoint f /\ fl_owner f' = fl_owner f.
Proof.
  intros Hr. unfold massUpdatePools in Hr.
  refine (foldM_invariant (fun fh => keys fh.1 = keys f /\ totalAllocPoint fh.1 = totalAllocPoint f /\
    fl_owner fh.1 = fl_owner f) _ _ _ _ _ _ Hr); [done|].
  intros [g v] pid [g' v'] _ (E1 & E2 & E3) Hs. apply updatePool_key in Hs as (? & ? & ?).
  cbn in *. split_and!; congruence.
Qed.

Lemma pool_alloc_le ps p : p ∈ ps -> (forall q, q ∈ ps -> (0 <= allocPoint q)%Z) ->
  (allocPoint p <= alloc_sum ps)%Z.
Proof.
  intros Hp Hpos. induction ps as [|q ps IH]; [by apply elem_of_nil in Hp|].
  rewrite alloc_sum_cons. pose proof (Hpos q ltac:(by left)).
  assert (0 <= alloc_sum ps)%Z.
  { apply sum_list_Z_nonneg. intros z (r & -> & Hr)%list_elem_of_fmap. apply Hpos. by right. }
  apply elem_of_cons in Hp as [->|Hp]; [lia|].
  specialize (IH Hp (fun r Hr => Hpos r (list_elem_of_further _ _ _ Hr))). lia.
Qed.

Lemma addPool_key_inv m f h sym alloc tok upd f' h' :
  uint256 alloc -> key_inv f -> addPool m (f, h) sym alloc tok upd = Ok (f', h') -> key_inv f'.
Proof.
  intros Ha I Hr. unfold addPool in Hr. apply bind_Ok in Hr as (_ & _ & Hr).
  apply bind_Ok in Hr as ([g v] & Hg & Hr).
  assert (key_inv g) as [[I1 I2 I3] I4 I5].
  { destruct upd; [|by injection Hg as <- _].
    apply massUpdatePools_key in Hg as (E1 & E2 & _). by eapply key_inv_ext. }
  apply bind_Ok in Hr as (_ & Hz%require_Ok & Hr). apply bind_Ok in Hr as (_ & Hd%require_Ok & Hr).
  apply bind_Ok in Hr as (total & Ht & Hr). injection Hr as <- _.
  apply sm_add_Ok in Ht as [-> Ht]; [|done..]. to_props. apply negb_true_iff in Hd.
  constructor; [constructor| |done]; cbn [totalAllocPoint poolInfo with_pools].
  - rewrite alloc_sum_app, alloc_sum_cons, I1. change (alloc_sum []) with 0%Z. cbn [allocPoint]. lia.
  - rewrite fmap_app. apply NoDup_app. split; [done|]. split; [|apply NoDup_singleton].
    intros a Hin ->%list_elem_of_singleton. apply not_true_iff_false in Hd. apply Hd.
    unfold isDuplicatedPool. apply existsb_exists. apply list_elem_of_fmap in Hin as (p & E & Hp).
    exists p. split; [by apply list_elem_of_In|]. by apply bool_decide_eq_true.
  - rewrite fmap_app. intros [?|E%list_elem_of_singleton]%elem_of_app; [done|]. by apply Hz.
  - intros p [Hp| ->%list_elem_of_singleton]%elem_of_app; [by apply I4|]. apply Ha.
Qed.

Lemma setPool_key_inv m f h pid alloc f' h' :
  uint256 alloc -> key_inv f -> setPool m (f, h) pid alloc = Ok (f', h') -> key_inv f'.
Proof.
  intros Ha I Hr. unfold setPool in Hr. apply bind_Ok in Hr as (_ & _ & Hr).
  apply bind_Ok in Hr as ([g v] & Hg & Hr).
  apply massUpdatePools_key in Hg as (E1 & E2 & _).
  pose proof (key_inv_ext _ _ E1 E2 I) as [[I1 I2 I3] I4 I5].
  apply bind_Ok in Hr as (p & Hp%of_option_Ok & Hr). apply bind_Ok in Hr as (less & Hl & Hr).
  apply bind_Ok in Hr as (total & Ht & Hr). injection Hr as <- _.
  apply sm_sub_Ok in Hl as [-> Hle]. pose proof (list_elem_of_lookup_2 _ _ _ Hp) as Hin.
  pose proof (I4 p Hin) as Hp0. apply sm_add_Ok in Ht as [-> Ht]; [|unfold uint256 in *; lia|done].
  set (q := {| pool_symbol := _ |}).
  assert (stakeToken <$> <[ pid := q ]> (poolInfo g) = stakeToken <$> poolInfo g) as Htok.
  { rewrite list_fmap_insert. apply list_insert_id. by rewrite list_lookup_fmap, Hp. }
  constructor; [constructor| |done]; cbn [totalAllocPoint poolInfo with_pools]; rewrite ?Htok; try done.
  - rewrite (alloc_sum_insert _ _ p) by done. cbn [allocPoint q]. rewrite I1. lia.
  - intros r Hr%list_elem_of_lookup. destruct Hr as [i Hi].
    apply list_lookup_insert_Some in Hi as [(<- & <- & _)|(_ & Hi)]; [apply Ha|].
    apply I4. by eapply list_elem_of_lookup_2.
Qed.

Lemma fl_reachable_key_inv fh : fl_reachable fh -> key_inv fh.1.
Proof.
  induction 1 as [|fh fh' _ IH Hs]; [constructor; [constructor| |]|].
  - done.
  - constructor.
  - by intros ?%elem_of_nil.
  - by intros p ?%elem_of_nil.
  - done.
  - destruct Hs as [m f h sym alloc tok upd [f' h'] Ha Hr|m f h pid alloc [f' h'] Ha Hr
      |m f h [f' h'] Hr|m f h pid [f' h'] Hr|m f h mult end_ lock f' Hr|m f h dev f' Hr
      |m f h perBlock f' Hr|m f h relayer f' Hr|m f h points oracle f' Hr|m f h to amount [f' h'] Hr
      |f h o|f h h']; cbn [fst] in *.
    + by eapply addPool_key_inv.
    + by eapply setPool_key_inv.
    + apply massUpdatePools_key in Hr as (? & ? & _). by eapply key_inv_ext.
    + apply (updatePool_key m f h pid) in Hr as (? & ? & _). by eapply key_inv_ext.
    + unfold setBonus in Hr. inv_result. subst. by apply (key_inv_ext f).
    + unfold setDev in Hr. inv_result. subst. by apply (key_inv_ext f).
    + unfold setHuskyPerBlock in Hr. inv_result. subst. by apply (key_inv_ext f).
    + unfold setBadgeRelayer in Hr. inv_result. subst. by apply (key_inv_ext f).
    + unfold setBadgePoints in Hr. inv_result. subst. by apply (key_inv_ext f).
    + unfold fl_manualMint in Hr. inv_result. by subst.
    + by apply (key_inv_ext f).
    + done.
Qed.

(** C38: FairLaunch's bookkeeping.  In every state its owner's operations and the pool
    updates reach, whatever the tokens do in between, the total allocation is the sum of
    the pools' allocations and a 256-bit number, every pool's share is at most the whole,
    and no token, and not the zero address, has two pools. *)
Theorem fairlaunch_allocations f h :
  fl_reachable (f, h) ->
  totalAllocPoint f = alloc_sum (poolInfo f) /\ uint256 (totalAllocPoint f) /\
  (forall p, p ∈ poolInfo f -> (0 <= allocPoint p <= totalAllocPoint f)%Z) /\
  NoDup (stakeToken <$> poolInfo f) /\ zero_address ∉ stakeToken <$> poolInfo f.
Proof.
  intros [[I1 I2 I3] I4 I5]%fl_reachable_key_inv. cbn [fst] in *. split_and!; try done; try apply I5.
  intros p Hp. split; [by apply I4|]. rewrite I1. by apply pool_alloc_le.
Qed.

(** Re-weighting a pool never underflows.  In a reachable state, once the pools are
    updated, the owner's setPool succeeds on every existing pool exactly when the new
    total fits in 256 bits, and then moves the total by the difference. *)
Theorem setPool_succeeds m f h g v pid p alloc :
  fl_reachable (f, h) -> fl_owner f = sender m -> uint256 alloc ->
  massUpdatePools m (f, h) = Ok (g, v) -> poolInfo g !! pid = Some p ->
  match setPool m (f, h) pid alloc with
  | Ok (f', v') => v' = v /\ uint256 (totalAllocPoint f - allocPoint p + alloc) /\
                   totalAllocPoint f' = (totalAllocPoint f - allocPoint p + alloc)%Z
  | Err e => ~ uint256 (totalAllocPoint f - allocPoint p + alloc)
  end.
Proof.
  intros I%fl_reachable_key_inv Hown Ha Hm Hp. unfold setPool. cbn [fst].
  rewrite onlyOwner_owner by done. cbn [mbind result_bind]. rewrite Hm. cbn [mbind result_bind].
  rewrite Hp. cbn [of_option mbind result_bind].
  apply massUpdatePools_key in Hm as (E1 & E2 & _).
  pose proof (key_inv_ext _ _ E1 E2 I) as [[I1 I2 I3] I4 I5].
  pose proof (list_elem_of_lookup_2 _ _ _ Hp) as Hin.
  pose proof (pool_alloc_le _ _ Hin I4) as Hle. pose proof (I4 p Hin) as Hp0. rewrite <-I1 in Hle.
  rewrite E2 in *.
  assert (sm_sub (totalAllocPoint f) (allocPoint p) SUB_OVERFLOW
    = Ok (totalAllocPoint f - allocPoint p)%Z) as -> by by apply sm_sub_Ok.
  cbn [mbind result_bind].
  assert (uint256 (totalAllocPoint f - allocPoint p)) as Hd by (unfold uint256 in *; lia).
  destruct (sm_add _ _) as [t|e] eqn:Et; cbn [mbind result_bind].
  - apply sm_add_Ok in Et as [-> Hu]; [|done..]. done.
  - intros Hu. rewrite (sm_add_small _ _ Hd Ha) in Et; [done|]. apply Hu.
Qed.
End Reachable.
