(* ===== verification/Lending.v ===== *)
(** * The lending contracts, as their owner configures them

    BasicVaultConfig.sol, DebtToken.sol, WNativeRelayer.sol, WorkerConfig.sol,
    SimplePriceOracle.sol and the configuration part of Vault.sol.  The functions
    that move user funds are in Bank.v, Farm.v and Staking.v. *)

From S2P Require Import Prelude Buffers MerkleTree BalanceTree Evm.

(** [for (idx = 0; idx < addrs.length; idx++) m[addrs[idx]] = v] *)
Definition set_all {V} (m : gmap address V) (addrs : list address) (v : V) : gmap address V :=
  foldl (fun m a => <[ a := v ]> m) m addrs.

Lemma set_all_lookup {V} (m : gmap address V) addrs v a :
  set_all m addrs v !! a = if decide (a ∈ addrs) then Some v else m !! a.
Proof.
  unfold set_all. revert m. induction addrs as [|b addrs IH]; intros m; cbn [foldl].
  - by case_decide; set_solver.
  - rewrite IH. repeat case_decide; try set_solver.
    + destruct (decide (a = b)) as [->|]; [by rewrite lookup_insert_eq|set_solver].
    + rewrite lookup_insert_ne; [done|set_solver].
Qed.

(** ** BasicVaultConfig.sol *)

Record BasicVaultConfig := {
  bvc_owner : address;
  minDebtSize : Z;
  getReservePoolBps : Z;
  getCloseBps : Z;
  getKillBps : Z;
  bvc_workers : gmap address address;
  interestModel : address;
  wrappedNative : address;
  wNativeRelayer : address;
  fairLaunch : address;
  maxKillBps : Z
}.

Definition setParams (m : Msg) (c : BasicVaultConfig)
    (_minDebtSize _reservePoolBps _closeBps _killBps : Z)
    (_interestModel _wrappedNative _wNativeRelayer _fairLaunch : address) :
    result BasicVaultConfig :=
  onlyOwner (bvc_owner c) m ;;
  require (_killBps <=? maxKillBps c)%Z
    "BasicVaultConfig::setParams: kill bps exceeded max kill bps" ;;
  Ok {| bvc_owner := bvc_owner c; minDebtSize := _minDebtSize;
        getReservePoolBps := _reservePoolBps; getCloseBps := _closeBps; getKillBps := _killBps;
        bvc_workers := bvc_workers c; interestModel := _interestModel;
        wrappedNative := _wrappedNative; wNativeRelayer := _wNativeRelayer;
        fairLaunch := _fairLaunch; maxKillBps := maxKillBps c |}.

Definition BasicVaultConfig_initialize (m : Msg)
    (_minDebtSize _reservePoolBps _closeBps _killBps : Z)
    (_interestModel _wrappedNative _wNativeRelayer _fairLaunch : address) :
    result BasicVaultConfig :=
  setParams m
    {| bvc_owner := sender m; minDebtSize := 0; getReservePoolBps := 0; getCloseBps := 0;
       getKillBps := 0; bvc_workers := ∅; interestModel := zero_address;
       wrappedNative := zero_address; wNativeRelayer := zero_address;
       fairLaunch := zero_address; maxKillBps := 500 |}
    _minDebtSize _reservePoolBps _closeBps _killBps
    _interestModel _wrappedNative _wNativeRelayer _fairLaunch.

Definition with_bvc_workers (c : BasicVaultConfig) (ws : gmap address address) : BasicVaultConfig :=
  {| bvc_owner := bvc_owner c; minDebtSize := minDebtSize c;
     getReservePoolBps := getReservePoolBps c; getCloseBps := getCloseBps c;
     getKillBps := getKillBps c; bvc_workers := ws; interestModel := interestModel c;
     wrappedNative := wrappedNative c; wNativeRelayer := wNativeRelayer c;
     fairLaunch := fairLaunch c; maxKillBps := maxKillBps c |}.

Definition setWorkers (m : Msg) (c : BasicVaultConfig) (addrs configs : list address) :
    result BasicVaultConfig :=
  onlyOwner (bvc_owner c) m ;;
  require (bool_decide (length addrs = length configs)) "BasicVaultConfig::setWorkers: bad length" ;;
  Ok (with_bvc_workers c
        (foldl (fun w ac => <[ ac.1 := ac.2 ]> w) (bvc_workers c) (zip addrs configs))).

Definition isWorker (c : BasicVaultConfig) (worker : address) : bool :=
  bool_decide (default zero_address (bvc_workers c !! worker) <> zero_address).

(** ** WorkerConfig.sol *)

Record Config := { acceptDebt : bool; workFactor : Z; killFactor : Z; maxPriceDiff : Z }.

Record WorkerConfig := {
  wc_owner : address;
  oracle : address;
  wc_workers : gmap address Config
}.

Definition WorkerConfig_initialize (m : Msg) (_oracle : address) : WorkerConfig :=
  {| wc_owner := sender m; oracle := _oracle; wc_workers := ∅ |}.

Definition setOracle (m : Msg) (c : WorkerConfig) (_oracle : address) : result WorkerConfig :=
  onlyOwner (wc_owner c) m ;;
  Ok {| wc_owner := wc_owner c; oracle := _oracle; wc_workers := wc_workers c |}.

Definition with_wc_workers (c : WorkerConfig) (ws : gmap address Config) : WorkerConfig :=
  {| wc_owner := wc_owner c; oracle := oracle c; wc_workers := ws |}.

Definition setConfigs (m : Msg) (c : WorkerConfig) (addrs : list address) (configs : list Config) :
    result WorkerConfig :=
  onlyOwner (wc_owner c) m ;;
  require (bool_decide (length configs = length addrs)) "WorkConfig::setConfigs: bad len" ;;
  Ok (with_wc_workers c
        (foldl (fun w ac => <[ ac.1 := ac.2 ]> w) (wc_workers c) (zip addrs configs))).

(** ** DebtToken.sol *)

Record DebtToken `{OpenZeppelin} := {
  dt_owner : address;
  dt_erc20 : Erc20;
  dt_name : string;
  dt_symbol : string;
  timelock : address;
  okHolders : gmap address bool
}.

(** ** WNativeRelayer.sol *)

Record WNativeRelayer := {
  wnr_owner : address;
  wnative : address;
  okCallers : gmap address bool
}.

Definition new_WNativeRelayer (m : Msg) (_wnative : address) : WNativeRelayer :=
  {| wnr_owner := sender m; wnative := _wnative; okCallers := ∅ |}.

Definition setCallerOk (m : Msg) (r : WNativeRelayer) (whitelistedCallers : list address)
    (isOk : bool) : result WNativeRelayer :=
  onlyOwner (wnr_owner r) m ;;
  Ok {| wnr_owner := wnr_owner r; wnative := wnative r;
        okCallers := set_all (okCallers r) whitelistedCallers isOk |}.

(** ** SimplePriceOracle.sol *)

Record PriceData := { price : Z; lastUpdate : Z }.

Record SimplePriceOracle := {
  spo_owner : address;
  feeder : address;
  store : gmap (address * address) PriceData
}.

Definition SimplePriceOracle_initialize (m : Msg) (_feeder : address) : SimplePriceOracle :=
  {| spo_owner := sender m; feeder := _feeder; store := ∅ |}.

Definition setFeeder (m : Msg) (o : SimplePriceOracle) (_feeder : address) :
    result SimplePriceOracle :=
  onlyOwner (spo_owner o) m ;;
  Ok {| spo_owner := spo_owner o; feeder := _feeder; store := store o |}.

(** The casts [uint192(price)] and [uint64(now)] truncate. *)
Definition setPrices (m : Msg) (o : SimplePriceOracle) (token0s token1s : list address)
    (prices : list Z) : result SimplePriceOracle :=
  require (bool_decide (sender m = feeder o)) "SimplePriceOracle::onlyFeeder: only feeder" ;;
  require (bool_decide (length token1s = length token0s))
    "SimplePriceOracle::setPrices: bad token1s length" ;;
  require (bool_decide (length prices = length token0s))
    "SimplePriceOracle::setPrices: bad prices length" ;;
  Ok {| spo_owner := spo_owner o; feeder := feeder o;
        store := foldl (fun st tp =>
          <[ (tp.1.1, tp.1.2) := {| price := (tp.2 mod 2 ^ 192)%Z;
                                    lastUpdate := (timestamp (block m) mod 2 ^ 64)%Z |} ]> st)
          (store o) (zip (zip token0s token1s) prices) |}.

Definition getPrice (o : SimplePriceOracle) (token0 token1 : address) : result (Z * Z) :=
  let d := default {| price := 0; lastUpdate := 0 |} (store o !! (token0, token1)) in
  require (negb (price d =? 0)%Z && negb (lastUpdate d =? 0)%Z)
    "SimplePriceOracle::getPrice: bad price data" ;;
  Ok (price d, lastUpdate d).

(** ** Vault.sol: initialisation and the owner's functions *)

Record Vault `{OpenZeppelin} := {
  v_owner : address;
  v_erc20 : Erc20;
  v_name : string;
  v_symbol : string;
  v_decimals : Z;
  token : address;
  debtToken : address;
  config : address;
  nextPositionID : Z;
  fairLaunchPoolId : Z;
  lastAccrueTime : Z
}.

Section Tokens.
Context `{OpenZeppelin}.

Definition DebtToken_initialize (m : Msg) (_name _symbol : string) (_timelock : address) :
    DebtToken :=
  {| dt_owner := sender m; dt_erc20 := erc20_new; dt_name := _name; dt_symbol := _symbol;
     timelock := _timelock; okHolders := ∅ |}.

Definition setOkHolders (m : Msg) (d : DebtToken) (_okHolders : list address) (_isOk : bool) :
    result DebtToken :=
  onlyOwner (dt_owner d) m ;;
  Ok {| dt_owner := dt_owner d; dt_erc20 := dt_erc20 d; dt_name := dt_name d;
        dt_symbol := dt_symbol d; timelock := timelock d;
        okHolders := set_all (okHolders d) _okHolders _isOk |}.

Definition with_dt_erc20 (d : DebtToken) (t : Erc20) : DebtToken :=
  {| dt_owner := dt_owner d; dt_erc20 := t; dt_name := dt_name d; dt_symbol := dt_symbol d;
     timelock := timelock d; okHolders := okHolders d |}.

Definition with_dt_owner (d : DebtToken) (o : address) : DebtToken :=
  {| dt_owner := o; dt_erc20 := dt_erc20 d; dt_name := dt_name d; dt_symbol := dt_symbol d;
     timelock := timelock d; okHolders := okHolders d |}.

(** The fields [initialize] sets; the call it makes to the debt token is in Chain.v. *)
Definition new_Vault (m : Msg) (_config _token : address) (_name _symbol : string)
    (_decimals : Z) (_debtToken : address) : Vault :=
  {| v_owner := sender m; v_erc20 := erc20_new; v_name := _name; v_symbol := _symbol;
     v_decimals := _decimals; token := _token; debtToken := _debtToken; config := _config;
     nextPositionID := 1; fairLaunchPoolId := MAX_UINT256;
     lastAccrueTime := timestamp (block m) |}.

Definition with_fairLaunchPoolId (v : Vault) (d : address) (pid : Z) : Vault :=
  {| v_owner := v_owner v; v_erc20 := v_erc20 v; v_name := v_name v; v_symbol := v_symbol v;
     v_decimals := v_decimals v; token := token v; debtToken := d; config := config v;
     nextPositionID := nextPositionID v; fairLaunchPoolId := pid;
     lastAccrueTime := lastAccrueTime v |}.

Definition updateConfig (m : Msg) (v : Vault) (_config : address) : result Vault :=
  onlyOwner (v_owner v) m ;;
  Ok {| v_owner := v_owner v; v_erc20 := v_erc20 v; v_name := v_name v; v_symbol := v_symbol v;
        v_decimals := v_decimals v; token := token v; debtToken := debtToken v;
        config := _config; nextPositionID := nextPositionID v;
        fairLaunchPoolId := fairLaunchPoolId v; lastAccrueTime := lastAccrueTime v |}.
End Tokens.
