(* ===== verification/Badges.v ===== *)
(** * Badges and badge points

    ComplexPriceOracle.sol, the prices that turn a stake into points; BadgePoints.sol, the
    points with their invitations; BadgeNFT.sol, the badges with their grades.  The ERC-721
    of OpenZeppelin is an interface.  BadgeRelayer.v joins them to FairLaunch. *)

From S2P Require Import Prelude Buffers MerkleTree BalanceTree Evm Lending.

Local Open Scope Z_scope.

(** ** ComplexPriceOracle.sol *)

Record ComplexPriceOracle := {
  cpo_owner : address;
  cpo_feeder : address;
  cpo_store : gmap address PriceData
}.

Definition ComplexPriceOracle_initialize (m : Msg) (_feeder : address) : ComplexPriceOracle :=
  {| cpo_owner := sender m; cpo_feeder := _feeder; cpo_store := ∅ |}.

Definition cpo_setFeeder (m : Msg) (o : ComplexPriceOracle) (_feeder : address) : result ComplexPriceOracle :=
  onlyOwner (cpo_owner o) m ;;
  Ok {| cpo_owner := cpo_owner o; cpo_feeder := _feeder; cpo_store := cpo_store o |}.

(** The casts [uint192(price)] and [uint64(now)] truncate. *)
Definition cpo_setPrices (m : Msg) (o : ComplexPriceOracle) (tokens : list address) (prices : list Z) :
    result ComplexPriceOracle :=
  require (bool_decide (sender m = cpo_feeder o)) "ComplexPriceOracle::onlyFeeder: only feeder" ;;
  require (bool_decide (length prices = length tokens)) "ComplexPriceOracle::setPrices: bad prices length" ;;
  Ok {| cpo_owner := cpo_owner o; cpo_feeder := cpo_feeder o;
        cpo_store := foldl (fun st tp =>
          <[ tp.1 := {| price := tp.2 mod 2 ^ 192; lastUpdate := timestamp (block m) mod 2 ^ 64 |} ]> st)
          (cpo_store o) (zip tokens prices) |}.

Definition cpo_getPrice (o : ComplexPriceOracle) (token0 : address) : result (Z * Z) :=
  let d := default {| price := 0; lastUpdate := 0 |} (cpo_store o !! token0) in
  require (negb (price d =? 0) && negb (lastUpdate d =? 0)) "ComplexPriceOracle::getPrice: bad price data" ;;
  Ok (price d, lastUpdate d).

(** ** BadgePoints.sol *)

Record InviteInfo := { inviteCode : Z; deleted : bool }.

Record BadgePoints `{OpenZeppelin} := {
  bp_owner : address;
  bp_erc20 : Erc20;
  bp_allocPoint : Z;
  bp_operators : gmap address bool;
  inviteCodes : gmap address InviteInfo;
  inviteCodesOwner : gmap Z address;
  relationShips : gmap address address
}.

(** The modifier [onlyOperator] of both contracts. *)
Definition onlyOperators (operators : gmap address bool) (m : Msg) : result unit :=
  require (default false (operators !! sender m)) "BadgePoints::onlyOperator: not operator".

Section Points.
Context `{OpenZeppelin}.

Definition new_BadgePoints (m : Msg) : BadgePoints :=
  {| bp_owner := sender m; bp_erc20 := erc20_new; bp_allocPoint := 0; bp_operators := ∅;
     inviteCodes := ∅; inviteCodesOwner := ∅; relationShips := ∅ |}.

Definition with_bp_erc20 (p : BadgePoints) (t : Erc20) : BadgePoints :=
  {| bp_owner := bp_owner p; bp_erc20 := t; bp_allocPoint := bp_allocPoint p; bp_operators := bp_operators p;
     inviteCodes := inviteCodes p; inviteCodesOwner := inviteCodesOwner p; relationShips := relationShips p |}.

Definition with_invites (p : BadgePoints) (codes : gmap address InviteInfo) (owners : gmap Z address)
    (rel : gmap address address) : BadgePoints :=
  {| bp_owner := bp_owner p; bp_erc20 := bp_erc20 p; bp_allocPoint := bp_allocPoint p;
     bp_operators := bp_operators p; inviteCodes := codes; inviteCodesOwner := owners; relationShips := rel |}.

Definition with_bp_settings (p : BadgePoints) (operators : gmap address bool) (alloc : Z) : BadgePoints :=
  {| bp_owner := bp_owner p; bp_erc20 := bp_erc20 p; bp_allocPoint := alloc; bp_operators := operators;
     inviteCodes := inviteCodes p; inviteCodesOwner := inviteCodesOwner p; relationShips := relationShips p |}.

Definition invite_of (p : BadgePoints) (a : address) : InviteInfo :=
  default {| inviteCode := 0; deleted := false |} (inviteCodes p !! a).

Definition code_owner (p : BadgePoints) (code : Z) : address := default zero_address (inviteCodesOwner p !! code).

Definition inviter (p : BadgePoints) (a : address) : address := default zero_address (relationShips p !! a).

(** [inviteCodes[a].deleted = true] *)
Definition delete_invite (p : BadgePoints) (a : address) : BadgePoints :=
  with_invites p (<[ a := {| inviteCode := inviteCode (invite_of p a); deleted := true |} ]> (inviteCodes p))
    (inviteCodesOwner p) (relationShips p).

Definition makeInviteRelation (m : Msg) (p : BadgePoints) (_to : address) (_userCode _inviteCode : Z) :
    result BadgePoints :=
  onlyOperators (bp_operators p) m ;;
  require (bool_decide (_to <> zero_address)) "BadgePoints: mint to the zero address" ;;
  require (10000 <? _userCode) "BadgePoints: UserCode must be greater than 10000" ;;
  require (bool_decide (code_owner p _userCode = zero_address)) "BadgePoints: UserCode had maked" ;;
  require (negb (deleted (invite_of p _to))) "BadgePoints: One per person" ;;
  let owners := <[ _userCode := _to ]> (inviteCodesOwner p) in
  Ok (with_invites p (<[ _to := {| inviteCode := _userCode; deleted := false |} ]> (inviteCodes p)) owners
        (<[ _to := default zero_address (owners !! _inviteCode) ]> (relationShips p))).

Definition BadgePoints_transfer (m : Msg) (p : BadgePoints) (recipient : address) (v : Z) : result BadgePoints :=
  onlyOperators (bp_operators p) m ;;
  t ← erc20_transfer (bp_erc20 p) (sender m) recipient v;
  Ok (delete_invite (with_bp_erc20 p t) (sender m)).

(** No allowance is asked for. *)
Definition BadgePoints_transferFrom (m : Msg) (p : BadgePoints) (from recipient : address) (v : Z) :
    result BadgePoints :=
  onlyOperators (bp_operators p) m ;;
  t ← erc20_transfer (bp_erc20 p) from recipient v;
  Ok (delete_invite (with_bp_erc20 p t) from).

Definition BadgePoints_mint (m : Msg) (p : BadgePoints) (account : address) (v : Z) : result BadgePoints :=
  onlyOperators (bp_operators p) m ;;
  p ← (if deleted (invite_of p account) then Ok p
       else t ← erc20_mint (bp_erc20 p) account v; Ok (with_bp_erc20 p t));
  if bool_decide (inviter p account = zero_address) then Ok p
  else if deleted (invite_of p (inviter p account)) then Ok p
  else
    x ← sm_mul (bp_allocPoint p) v;
    reward ← sm_div x 100;
    t ← erc20_mint (bp_erc20 p) (inviter p account) reward;
    Ok (with_bp_erc20 p t).

Definition deleteInvite (m : Msg) (p : BadgePoints) (account : address) : result BadgePoints :=
  onlyOperators (bp_operators p) m ;; Ok (delete_invite p account).

Definition BadgePoints_burn (m : Msg) (p : BadgePoints) (account : address) (v : Z) : result BadgePoints :=
  onlyOperators (bp_operators p) m ;;
  t ← erc20_burn (bp_erc20 p) account v; Ok (delete_invite (with_bp_erc20 p t) account).

Definition setOperatorOk (m : Msg) (p : BadgePoints) (operators : list address) (isOk : bool) : result BadgePoints :=
  onlyOwner (bp_owner p) m ;;
  Ok (with_bp_settings p (set_all (bp_operators p) operators isOk) (bp_allocPoint p)).

Definition setAllocPoint (m : Msg) (p : BadgePoints) (_allocPoint : Z) : result BadgePoints :=
  onlyOwner (bp_owner p) m ;; Ok (with_bp_settings p (bp_operators p) _allocPoint).

Definition isInvited (p : BadgePoints) (account : address) : bool := deleted (invite_of p account).
End Points.

(** ** The ERC-721 of OpenZeppelin *)

(** Who owns which token.  [_mint] reverts for a token that exists, [_transfer] unless it is
    the owner's, both for the zero address; [_burn] and [_setTokenURI] for one that does not
    exist; [balanceOf] for the zero address. *)
Class ERC721 := {
  Erc721 : Type;
  erc721_new : Erc721;
  erc721_owner : Erc721 -> Z -> option address;
  erc721_balanceOf : Erc721 -> address -> result Z;
  erc721_mint : Erc721 -> address -> Z -> result Erc721;
  erc721_transfer : Erc721 -> address -> address -> Z -> result Erc721;
  (** [_safeTransfer] asks a receiving contract, too *)
  erc721_safeTransfer : Erc721 -> address -> address -> Z -> Buffer -> result Erc721;
  erc721_burn : Erc721 -> Z -> result Erc721;
  erc721_setTokenURI : Erc721 -> Z -> string -> result Erc721;
  erc721_new_owner : forall id, erc721_owner erc721_new id = None;
  erc721_balance_spec : forall t a n, erc721_balanceOf t a = Ok n ->
    n = 0 <-> (forall id, erc721_owner t id <> Some a);
  erc721_balance_ok : forall t a, a <> zero_address -> is_ok (erc721_balanceOf t a) = true;
  erc721_mint_spec : forall t a id t', erc721_mint t a id = Ok t' ->
    erc721_owner t id = None /\
    forall i, erc721_owner t' i = if decide (i = id) then Some a else erc721_owner t i;
  erc721_mint_ok : forall t a id, a <> zero_address -> erc721_owner t id = None ->
    is_ok (erc721_mint t a id) = true;
  erc721_transfer_spec : forall t from to id t', erc721_transfer t from to id = Ok t' ->
    erc721_owner t id = Some from /\
    forall i, erc721_owner t' i = if decide (i = id) then Some to else erc721_owner t i;
  erc721_transfer_ok : forall t from to id, to <> zero_address -> erc721_owner t id = Some from ->
    is_ok (erc721_transfer t from to id) = true;
  erc721_safeTransfer_spec : forall t from to id d t', erc721_safeTransfer t from to id d = Ok t' ->
    erc721_owner t id = Some from /\
    forall i, erc721_owner t' i = if decide (i = id) then Some to else erc721_owner t i;
  erc721_burn_spec : forall t id t', erc721_burn t id = Ok t' ->
    is_Some (erc721_owner t id) /\
    forall i, erc721_owner t' i = if decide (i = id) then None else erc721_owner t i;
  erc721_burn_ok : forall t id, is_Some (erc721_owner t id) -> is_ok (erc721_burn t id) = true;
  erc721_uri_spec : forall t id u t', erc721_setTokenURI t id u = Ok t' ->
    forall i, erc721_owner t' i = erc721_owner t i;
  erc721_uri_ok : forall t id u, is_Some (erc721_owner t id) -> is_ok (erc721_setTokenURI t id u) = true
}.

(** ** BadgeNFT.sol *)

(** An array: reading and writing outside it reverts. *)
Definition elem (l : list Z) (i : Z) : result Z :=
  if 0 <=? i then of_option (l !! Z.to_nat i) EmptyString else Err EmptyString.

Definition set_elem (l : list Z) (i v : Z) : result (list Z) :=
  elem l i ;; Ok (<[ Z.to_nat i := v ]> l).

Definition GRADE_CEILING : nat := 15.

(** The fields [badgePoints] and [husky] of the contract are never written. *)
Record BadgeNFT `{ERC721} := {
  nft_owner : address;
  nft_erc721 : Erc721;
  GRADE_LIMIT : Z;
  gradeNeedPoints : list Z;
  gradeLockHuskys : list Z;
  gradeLimitAmount : list Z;
  gradeAmount : list Z;
  tokensGrade : gmap Z Z;
  nft_operators : gmap address bool
}.

Section Nft.
Context `{ERC721}.

Definition new_BadgeNFT (m : Msg) : BadgeNFT :=
  let zeros := replicate GRADE_CEILING 0 in
  {| nft_owner := sender m; nft_erc721 := erc721_new; GRADE_LIMIT := 5; gradeNeedPoints := zeros;
     gradeLockHuskys := zeros; gradeLimitAmount := zeros; gradeAmount := zeros; tokensGrade := ∅;
     nft_operators := ∅ |}.

Definition with_erc721 (n : BadgeNFT) (t : Erc721) : BadgeNFT :=
  {| nft_owner := nft_owner n; nft_erc721 := t; GRADE_LIMIT := GRADE_LIMIT n;
     gradeNeedPoints := gradeNeedPoints n; gradeLockHuskys := gradeLockHuskys n;
     gradeLimitAmount := gradeLimitAmount n; gradeAmount := gradeAmount n; tokensGrade := tokensGrade n;
     nft_operators := nft_operators n |}.

Definition with_grades (n : BadgeNFT) (amounts : list Z) (grades : gmap Z Z) : BadgeNFT :=
  {| nft_owner := nft_owner n; nft_erc721 := nft_erc721 n; GRADE_LIMIT := GRADE_LIMIT n;
     gradeNeedPoints := gradeNeedPoints n; gradeLockHuskys := gradeLockHuskys n;
     gradeLimitAmount := gradeLimitAmount n; gradeAmount := amounts; tokensGrade := grades;
     nft_operators := nft_operators n |}.

Definition with_grade_info (n : BadgeNFT) (limit : Z) (points huskys amounts : list Z) : BadgeNFT :=
  {| nft_owner := nft_owner n; nft_erc721 := nft_erc721 n; GRADE_LIMIT := limit;
     gradeNeedPoints := points; gradeLockHuskys := huskys; gradeLimitAmount := amounts;
     gradeAmount := gradeAmount n; tokensGrade := tokensGrade n; nft_operators := nft_operators n |}.

Definition with_nft_operators (n : BadgeNFT) (o : gmap address bool) : BadgeNFT :=
  {| nft_owner := nft_owner n; nft_erc721 := nft_erc721 n; GRADE_LIMIT := GRADE_LIMIT n;
     gradeNeedPoints := gradeNeedPoints n; gradeLockHuskys := gradeLockHuskys n;
     gradeLimitAmount := gradeLimitAmount n; gradeAmount := gradeAmount n; tokensGrade := tokensGrade n;
     nft_operators := o |}.

Definition grade_of (n : BadgeNFT) (tokenId : Z) : Z := default 0 (tokensGrade n !! tokenId).

(** [gradeAmount[g] = gradeAmount[g] + d], unchecked *)
Definition count_grade (amounts : list Z) (g d : Z) : result (list Z) :=
  x ← elem amounts g; set_elem amounts g ((x + d) mod UINT256).

Definition BadgeNFT_transferFrom (m : Msg) (n : BadgeNFT) (from to : address) (tokenId : Z) : result BadgeNFT :=
  onlyOperators (nft_operators n) m ;;
  t ← erc721_transfer (nft_erc721 n) from to tokenId; Ok (with_erc721 n t).

(** Both overloads: the one without data passes none. *)
Definition BadgeNFT_safeTransferFrom (m : Msg) (n : BadgeNFT) (from to : address) (tokenId : Z)
    (_data : Buffer) : result BadgeNFT :=
  onlyOperators (nft_operators n) m ;;
  t ← erc721_safeTransfer (nft_erc721 n) from to tokenId _data; Ok (with_erc721 n t).

Definition BadgeNFT_burn (m : Msg) (n : BadgeNFT) (from : address) (tokenId : Z) : result BadgeNFT :=
  onlyOperators (nft_operators n) m ;;
  owner ← of_option (erc721_owner (nft_erc721 n) tokenId) "ERC721: owner query for nonexistent token";
  require (bool_decide (owner = from)) "ERC721: transfer of token that is not own" ;;
  t ← erc721_burn (nft_erc721 n) tokenId;
  amounts ← count_grade (gradeAmount n) (grade_of n tokenId) (-1);
  Ok (with_grades (with_erc721 n t) amounts (<[ tokenId := 0 ]> (tokensGrade n))).

Definition mintTo (m : Msg) (n : BadgeNFT) (to : address) (tokenId grade : Z) : result BadgeNFT :=
  onlyOperators (nft_operators n) m ;;
  amount ← elem (gradeAmount n) grade;
  limit ← elem (gradeLimitAmount n) grade;
  balance ← erc721_balanceOf (nft_erc721 n) to;
  require (balance =? 0) "ERC721: One per person" ;;
  require (amount <? limit) "upgrade: over AMOUNT LIMIT" ;;
  t ← erc721_mint (nft_erc721 n) to tokenId;
  amounts ← count_grade (gradeAmount n) grade 1;
  Ok (with_grades (with_erc721 n t) amounts (<[ tokenId := grade ]> (tokensGrade n))).

(** The token need not exist. *)
Definition upgrade (m : Msg) (n : BadgeNFT) (tokenId _newGrade : Z) : result BadgeNFT :=
  onlyOperators (nft_operators n) m ;;
  let grade := grade_of n tokenId in
  require (grade <? GRADE_LIMIT n) "upgrade: over GRADE LIMIT" ;;
  amount ← elem (gradeAmount n) _newGrade;
  limit ← elem (gradeLimitAmount n) _newGrade;
  require (amount <? limit) "upgrade: over AMOUNT LIMIT" ;;
  amounts ← count_grade (gradeAmount n) grade (-1);
  amounts ← count_grade amounts _newGrade 1;
  Ok (with_grades n amounts (<[ tokenId := _newGrade ]> (tokensGrade n))).

Definition setTokenURI (m : Msg) (n : BadgeNFT) (tokenId : Z) (tokenURI : string) : result BadgeNFT :=
  onlyOperators (nft_operators n) m ;;
  t ← erc721_setTokenURI (nft_erc721 n) tokenId tokenURI; Ok (with_erc721 n t).

Definition setOperatorsOk (m : Msg) (n : BadgeNFT) (operators : list address) (isOk : bool) : result BadgeNFT :=
  onlyOwner (nft_owner n) m ;; Ok (with_nft_operators n (set_all (nft_operators n) operators isOk)).

(** One round of the loop: a grade's points, lock and limit. *)
Definition set_grade (ids points huskys amounts : list Z) (n : BadgeNFT) (idx : nat) : result BadgeNFT :=
  id ← of_option (ids !! idx) EmptyString;
  x ← of_option (points !! idx) EmptyString;
  need ← set_elem (gradeNeedPoints n) id x;
  y ← of_option (huskys !! idx) EmptyString;
  locked ← set_elem (gradeLockHuskys n) id y;
  z ← of_option (amounts !! idx) EmptyString;
  limit ← set_elem (gradeLimitAmount n) id z;
  Ok (with_grade_info n (GRADE_LIMIT n) need locked limit).

Definition setGradeInfo (m : Msg) (n : BadgeNFT) (ids points huskys amounts : list Z) : result BadgeNFT :=
  onlyOwner (nft_owner n) m ;;
  let len := Z.of_nat (length ids) in
  let limit := if GRADE_LIMIT n <? len then len else GRADE_LIMIT n in
  foldM (set_grade ids points huskys amounts)
    (with_grade_info n limit (gradeNeedPoints n) (gradeLockHuskys n) (gradeLimitAmount n))
    (seq 0 (length ids)).
End Nft.
