(* ===== verification/Staking.v ===== *)
(** * Staking and rewards

    FairLaunch.sol as its users run it -- deposit, withdraw, harvest, emergencyWithdraw --
    with the debt tokens that are staked (DebtToken.sol) and the reward token of
    HuskyToken.v.  The owner's functions and [updatePool] are those of
    FairLaunch.v.  The contracts are one record, a call to any other token reverts: the
    pools that the deployment adds stake debt tokens.  A harvest mints badge points when the
    badge contracts of Badges.v are set; their relayer is in BadgeRelayer.v. *)

From S2P Require Import Prelude Buffers MerkleTree BalanceTree Evm Uint HuskyToken FairLaunch Lending Badges.

Open Scope Z_scope.

(** ** FairLaunch.sol: storage of the users *)

Record UserInfo := {
  amount : Z;
  rewardDebt : Z;
  bonusDebt : Z;
  fundedBy : address;
  lastClaimBlock : Z
}.

Definition no_user : UserInfo :=
  {| amount := 0; rewardDebt := 0; bonusDebt := 0; fundedBy := zero_address; lastClaimBlock := 0 |}.

Record Stakes `{OpenZeppelin} := {
  debts : gmap address DebtToken;
  husky_token : HuskyToken;
  fair_launch : FairLaunch;
  fair_address : address;
  userInfo : gmap Z (gmap address UserInfo);
  points_at : gmap address BadgePoints;
  prices_at : gmap address ComplexPriceOracle;
  fair_guard : Guard
}.

Section Storage.
Context `{OpenZeppelin}.

Definition with_debts (s : Stakes) (d : gmap address DebtToken) : Stakes :=
  {| debts := d; husky_token := husky_token s; fair_launch := fair_launch s;
     fair_address := fair_address s; userInfo := userInfo s;
     points_at := points_at s; prices_at := prices_at s; fair_guard := fair_guard s |}.

Definition with_husky (s : Stakes) (h : HuskyToken) : Stakes :=
  {| debts := debts s; husky_token := h; fair_launch := fair_launch s;
     fair_address := fair_address s; userInfo := userInfo s;
     points_at := points_at s; prices_at := prices_at s; fair_guard := fair_guard s |}.

Definition with_fair (s : Stakes) (f : FairLaunch) : Stakes :=
  {| debts := debts s; husky_token := husky_token s; fair_launch := f;
     fair_address := fair_address s; userInfo := userInfo s;
     points_at := points_at s; prices_at := prices_at s; fair_guard := fair_guard s |}.

Definition pool_users (s : Stakes) (pid : Z) : gmap address UserInfo := default ∅ (userInfo s !! pid).

Definition with_user (s : Stakes) (pid : Z) (a : address) (u : UserInfo) : Stakes :=
  {| debts := debts s; husky_token := husky_token s; fair_launch := fair_launch s;
     fair_address := fair_address s; userInfo := <[ pid := <[ a := u ]> (pool_users s pid) ]> (userInfo s);
     points_at := points_at s; prices_at := prices_at s; fair_guard := fair_guard s |}.

Definition with_fair_guard (s : Stakes) (g : Guard) : Stakes :=
  {| debts := debts s; husky_token := husky_token s; fair_launch := fair_launch s;
     fair_address := fair_address s; userInfo := userInfo s;
     points_at := points_at s; prices_at := prices_at s; fair_guard := g |}.

Definition with_points (s : Stakes) (p : gmap address BadgePoints) : Stakes :=
  {| debts := debts s; husky_token := husky_token s; fair_launch := fair_launch s;
     fair_address := fair_address s; userInfo := userInfo s;
     points_at := p; prices_at := prices_at s; fair_guard := fair_guard s |}.

Definition user (s : Stakes) (pid : Z) (a : address) : UserInfo := default no_user (pool_users s pid !! a).

(** ** DebtToken.sol *)

Definition holder_ok (d : DebtToken) (a : address) (msg : string) : result unit :=
  require (default false (okHolders d !! a)) msg.

Definition DebtToken_mint (m : Msg) (d : DebtToken) (to : address) (v : Z) : result DebtToken :=
  onlyOwner (dt_owner d) m ;;
  holder_ok d to "debtToken::mint: unapproved holder" ;;
  t ← erc20_mint (dt_erc20 d) to v; Ok (with_dt_erc20 d t).

Definition DebtToken_burn (m : Msg) (d : DebtToken) (from : address) (v : Z) : result DebtToken :=
  onlyOwner (dt_owner d) m ;;
  holder_ok d from "debtToken::burn: unapproved holder" ;;
  t ← erc20_burn (dt_erc20 d) from v; Ok (with_dt_erc20 d t).

Definition DebtToken_transfer (m : Msg) (d : DebtToken) (to : address) (v : Z) : result DebtToken :=
  holder_ok d (sender m) "debtToken::transfer: unapproved holder on msg.sender" ;;
  holder_ok d to "debtToken::transfer: unapproved holder on to" ;;
  t ← erc20_transfer (dt_erc20 d) (sender m) to v; Ok (with_dt_erc20 d t).

Definition DebtToken_transferFrom (m : Msg) (d : DebtToken) (from to : address) (v : Z) : result DebtToken :=
  holder_ok d from "debtToken::transferFrom: unapproved holder in from" ;;
  holder_ok d to "debtToken::transferFrom: unapproved holder in to" ;;
  t ← erc20_transfer (dt_erc20 d) from to v;
  left ← sm_sub (erc20_allowance t from (sender m)) v "BEP20: transfer amount exceeds allowance";
  t ← erc20_approve t from (sender m) left;
  Ok (with_dt_erc20 d t).

(** ** Calls of FairLaunch to its tokens *)

Definition debt_at (s : Stakes) (a : address) : result DebtToken := of_option (debts s !! a) EmptyString.

Definition on_debt (s : Stakes) (a : address) (op : DebtToken -> result DebtToken) : result Stakes :=
  d ← debt_at s a; d ← op d; Ok (with_debts s (<[ a := d ]> (debts s))).

Definition on_husky (s : Stakes) (op : HuskyToken -> result HuskyToken) : result Stakes :=
  h ← op (husky_token s); Ok (with_husky s h).

#[export] Instance stakes_tokens : Tokens Stakes := {
  token_balanceOf s tok holder := d ← debt_at s tok; Ok (erc20_balanceOf (dt_erc20 d) holder);
  token_mint m s to v := on_husky s (fun h => mint m h to v);
  token_lock m s a v := on_husky s (fun h => lock m h a v);
  token_manualMint m s to v := on_husky s (fun h => manualMint m h to v)
}.

Definition call_from (m : Msg) (to : address) : Msg := {| sender := self m; self := to; block := block m |}.

(** ** Users of FairLaunch *)

Definition pool_at (s : Stakes) (pid : Z) : result PoolInfo :=
  if 0 <=? pid then of_option (poolInfo (fair_launch s) !! Z.to_nat pid) EmptyString else Err EmptyString.

Definition update_pool (m : Msg) (s : Stakes) (pid : Z) : result Stakes :=
  '(f, s) ← updatePool m (fair_launch s, s) (Z.to_nat pid); Ok (with_fair s f).

Definition safeHuskyTransfer (m : Msg) (s : Stakes) (to : address) (v : Z) : result Stakes :=
  let huskyBal := erc20_balanceOf (husky_erc20 (husky_token s)) (self m) in
  on_husky s (fun h => husky_transfer (call_from m (husky (fair_launch s))) h to (if huskyBal <? v then huskyBal else v)).

(** [a.mul(b).div(1e12)] *)
Definition per_share (a acc : Z) : result Z := mul_div a acc (10 ^ 12).

Definition on_points (s : Stakes) (a : address) (op : BadgePoints -> result BadgePoints) : result Stakes :=
  p ← of_option (points_at s !! a) EmptyString; p ← op p; Ok (with_points s (<[ a := p ]> (points_at s))).

(** The points of a harvest: the value of the stake, times the blocks of the last update. *)
Definition harvest_points (m : Msg) (s : Stakes) (_to tok : address) (staked : Z) : result Stakes :=
  let f := fair_launch s in
  if bool_decide (fl_complexOracle f <> zero_address) && bool_decide (fl_badgePoints f <> zero_address) then
    o ← of_option (prices_at s !! fl_complexOracle f) EmptyString;
    '(price, _) ← cpo_getPrice o tok;
    x ← sm_mul staked price;
    y ← sm_mul x (lastMultiplier f);
    v ← sm_div y (10 ^ 18);
    on_points s (fl_badgePoints f) (fun p => BadgePoints_mint (call_from m (fl_badgePoints f)) p _to v)
  else Ok s.

Definition harvest_for (m : Msg) (s : Stakes) (_to : address) (pid : Z) : result Stakes :=
  pool ← pool_at s pid;
  let u := user s pid _to in
  require (0 <? amount u) "nothing to harvest" ;;
  x ← per_share (amount u) (accHuskyPerShare pool);
  pending ← sm_sub x (rewardDebt u) SUB_OVERFLOW;
  require (pending <=? erc20_balanceOf (husky_erc20 (husky_token s)) (self m)) "wtf not enough husky" ;;
  y ← per_share (amount u) (accHuskyPerShareTilBonusEnd pool);
  bonus ← sm_sub y (bonusDebt u) SUB_OVERFLOW;
  s ← safeHuskyTransfer m s _to pending;
  locked ← mul_div bonus (bonusLockUpBps (fair_launch s)) 10000;
  s ← on_husky s (fun h => lock (call_from m (husky (fair_launch s))) h _to locked);
  harvest_points m s _to (stakeToken pool) (amount u).

(** The debts of a user whose stake is [v]. *)
Definition settle (u : UserInfo) (pool : PoolInfo) (v : Z) (funder : address) : result UserInfo :=
  rd ← per_share v (accHuskyPerShare pool);
  bd ← per_share v (accHuskyPerShareTilBonusEnd pool);
  Ok {| amount := v; rewardDebt := rd; bonusDebt := bd; fundedBy := funder; lastClaimBlock := lastClaimBlock u |}.

Definition staking_guard (s : Stakes) (body : Stakes -> result Stakes) : result Stakes :=
  g ← guard_enter (fair_guard s);
  s ← body (with_fair_guard s g);
  Ok (with_fair_guard s (guard_leave (fair_guard s))).

Definition deposit (m : Msg) (s : Stakes) (_for : address) (_pid _amount : Z) : result Stakes :=
  staking_guard s (fun s =>
    pool ← pool_at s _pid;
    let u := user s _pid _for in
    (if bool_decide (fundedBy u <> zero_address)
     then require (bool_decide (fundedBy u = sender m)) "bad sof" else Ok tt) ;;
    require (bool_decide (stakeToken pool <> zero_address)) "deposit: not accept deposit" ;;
    s ← update_pool m s _pid;
    s ← (if 0 <? amount u then harvest_for m s _for _pid else Ok s);
    let funder := if bool_decide (fundedBy u = zero_address) then sender m else fundedBy u in
    s ← on_debt s (stakeToken pool) (fun d =>
          DebtToken_transferFrom (call_from m (stakeToken pool)) d (sender m) (self m) _amount);
    v ← sm_add (amount u) _amount;
    pool ← pool_at s _pid;
    u ← settle u pool v funder;
    Ok (with_user s _pid _for u)).

Definition withdraw_for (m : Msg) (s : Stakes) (_for : address) (_pid _amount : Z) : result Stakes :=
  pool ← pool_at s _pid;
  let u := user s _pid _for in
  require (bool_decide (fundedBy u = sender m)) "only funder" ;;
  require (_amount <=? amount u) "withdraw: not good" ;;
  s ← update_pool m s _pid;
  s ← harvest_for m s _for _pid;
  v ← sm_sub (amount u) _amount SUB_OVERFLOW;
  pool ← pool_at s _pid;
  u ← settle u pool v (if v =? 0 then zero_address else fundedBy u);
  let s := with_user s _pid _for u in
  if bool_decide (stakeToken pool <> zero_address) then
    on_debt s (stakeToken pool) (fun d =>
      DebtToken_transfer (call_from m (stakeToken pool)) d (sender m) _amount)
  else Ok s.

Definition withdraw (m : Msg) (s : Stakes) (_for : address) (_pid _amount : Z) : result Stakes :=
  staking_guard s (fun s => withdraw_for m s _for _pid _amount).

Definition withdrawAll (m : Msg) (s : Stakes) (_for : address) (_pid : Z) : result Stakes :=
  staking_guard s (fun s => withdraw_for m s _for _pid (amount (user s _pid _for))).

Definition harvest (m : Msg) (s : Stakes) (_pid : Z) : result Stakes :=
  staking_guard s (fun s =>
    _ ← pool_at s _pid;
    s ← update_pool m s _pid;
    s ← harvest_for m s (sender m) _pid;
    pool ← pool_at s _pid;
    let u := user s _pid (sender m) in
    u ← settle u pool (amount u) (fundedBy u);
    Ok (with_user s _pid (sender m) u)).

(** The bonus debt is left as it was. *)
Definition emergencyWithdraw (m : Msg) (s : Stakes) (_pid : Z) : result Stakes :=
  staking_guard s (fun s =>
    pool ← pool_at s _pid;
    let u := user s _pid (sender m) in
    require (bool_decide (fundedBy u = sender m)) "only funder" ;;
    s ← on_debt s (stakeToken pool) (fun d =>
          DebtToken_transfer (call_from m (stakeToken pool)) d (sender m) (amount u));
    Ok (with_user s _pid (sender m)
          {| amount := 0; rewardDebt := 0; bonusDebt := bonusDebt u; fundedBy := zero_address;
             lastClaimBlock := lastClaimBlock u |})).

(** The accumulator of a pool as [updatePool] would leave it. *)
Definition pending_acc (m : Msg) (f : FairLaunch) (pool : PoolInfo) (lpSupply : Z) : result Z :=
  if (lastRewardBlock pool <? number (block m)) && negb (lpSupply =? 0) then
    multiplier ← getMultiplier f (lastRewardBlock pool) (number (block m));
    huskyReward ← mul_mul_div multiplier (huskyPerBlock f) (allocPoint pool) (totalAllocPoint f);
    perShare ← mul_div huskyReward (10 ^ 12) lpSupply;
    sm_add (accHuskyPerShare pool) perShare
  else Ok (accHuskyPerShare pool).

(** The view of what a harvest would pay. *)
Definition pendingHusky (m : Msg) (s : Stakes) (_pid : Z) (_user : address) : result Z :=
  pool ← pool_at s _pid;
  let u := user s _pid _user in
  lpSupply ← token_balanceOf s (stakeToken pool) (self m);
  acc ← pending_acc m (fair_launch s) pool lpSupply;
  x ← per_share (amount u) acc;
  sm_sub x (rewardDebt u) SUB_OVERFLOW.

(** ** The functions for the badge relayer *)

(** FairLaunch.lockToOwner *)
Definition lockToFair (m : Msg) (s : Stakes) (_account : address) (_amount : Z) : result Stakes :=
  require (bool_decide (sender m = badgeRelayer (fair_launch s))) "badgeRelayer: wut?" ;;
  on_husky s (fun h => lockToOwner (call_from m (husky (fair_launch s))) h _account _amount).

Definition unlockFromOwner (m : Msg) (s : Stakes) (_account : address) (_amount : Z) : result Stakes :=
  require (bool_decide (sender m = badgeRelayer (fair_launch s))) "badgeRelayer: wut?" ;;
  returnHusky ← sm_div _amount 10;
  s ← safeHuskyTransfer m s (devaddr (fair_launch s)) returnHusky;
  rest ← sm_sub _amount returnHusky SUB_OVERFLOW;
  safeHuskyTransfer m s _account rest.

(** The calls of users. *)
Inductive StakingCall :=
| StakeDeposit (_for : address) (_pid _amount : Z)
| StakeWithdraw (_for : address) (_pid _amount : Z)
| StakeWithdrawAll (_for : address) (_pid : Z)
| StakeHarvest (_pid : Z)
| StakeEmergency (_pid : Z).

Definition staking_call (m : Msg) (s : Stakes) (c : StakingCall) : result Stakes :=
  match c with
  | StakeDeposit for_ pid v => deposit m s for_ pid v
  | StakeWithdraw for_ pid v => withdraw m s for_ pid v
  | StakeWithdrawAll for_ pid => withdrawAll m s for_ pid
  | StakeHarvest pid => harvest m s pid
  | StakeEmergency pid => emergencyWithdraw m s pid
  end.
End Storage.
