(* ===== verification/StakingTheory.v ===== *)
(** * Stakes are backed

    In every state that FairLaunch reaches through its users, whatever pays the rewards, each
    pool holds at least the sum of its users' stakes; so who funded a stake of their own can
    always take it out, and who funded one of another can once its rewards can be paid. *)

From S2P Require Import Prelude Buffers MerkleTree BalanceTree Evm Uint Sums HuskyToken FairLaunch FairLaunchTheory.
From S2P Require Import Lending Staking.

Open Scope Z_scope.

Section Theory.
Context `{OpenZeppelin}.

(** ** What paying rewards leaves *)

Record rewarded (s s' : Stakes) : Prop := {
  rd_debts : debts s' = debts s;
  rd_users : userInfo s' = userInfo s;
  rd_address : fair_address s' = fair_address s;
  rd_guard : fair_guard s' = fair_guard s;
  rd_keys : keys (fair_launch s') = keys (fair_launch s)
}.

#[export] Instance rewarded_preorder : PreOrder rewarded.
Proof. split; [by split|]. intros s1 s2 s3 [] []. split; congruence. Qed.

Lemma on_husky_rewarded s op s' : on_husky s op = Ok s' -> rewarded s s' /\ fair_launch s' = fair_launch s.
Proof. unfold on_husky. intros Hr. inv_result. by subst. Qed.

Lemma update_pool_rewarded m s pid s' : update_pool m s pid = Ok s' -> rewarded s s'.
Proof.
  unfold update_pool. intros Hr. apply bind_Ok in Hr as ([f s1] & Hu & Hr). injection Hr as <-.
  pose proof (updatePool_key _ _ _ _ _ _ Hu) as (Ek & _).
  assert (rewarded s s1) as [].
  { cbn in Hu. apply bind_Ok in Hu as (p & _ & Hu). apply bind_Ok in Hu as ([[p' s2] mul] & Hu & E).
    injection E as _ <-. refine (updatePool1_preserves rewarded _ _ _ _ _ _ _ _ _ _ Hu).
    - intros. reflexivity.
    - intros. by etrans.
    - split_and!; intros ????? _ Hr; by apply (on_husky_rewarded _ _ _ Hr). }
  by split.
Qed.

Lemma harvest_points_rewarded m s to tok v s' : harvest_points m s to tok v = Ok s' -> rewarded s s'.
Proof.
  unfold harvest_points, on_points. intros Hr. destruct (_ && _); [|by injection Hr as <-].
  apply bind_Ok in Hr as (o & _ & Hr). apply bind_Ok in Hr as ([p t] & _ & Hr). inv_result. by subst.
Qed.

Lemma harvest_for_rewarded m s to pid s' : harvest_for m s to pid = Ok s' -> rewarded s s'.
Proof.
  unfold harvest_for, safeHuskyTransfer. intros Hr. apply bind_Ok in Hr as (p & _ & Hr). cbv zeta in Hr.
  do 6 (apply bind_Ok in Hr as (? & _ & Hr)).
  apply bind_Ok in Hr as (s1 & [Hs1 _]%on_husky_rewarded & Hr). apply bind_Ok in Hr as (l & _ & Hr).
  apply bind_Ok in Hr as (s2 & [Hs2 _]%on_husky_rewarded & Hr). apply harvest_points_rewarded in Hr.
  etrans; [exact Hs1|]. by etrans.
Qed.

Lemma rewarded_pool s s' pid p : rewarded s s' -> pool_at s pid = Ok p ->
  exists p', pool_at s' pid = Ok p' /\ stakeToken p' = stakeToken p.
Proof.
  intros Hs Hp. unfold pool_at in *. destruct (0 <=? pid); [|done]. apply of_option_Ok in Hp.
  assert (keys (fair_launch s') !! Z.to_nat pid = Some (pool_key p)) as Hk.
  { rewrite (rd_keys _ _ Hs). unfold keys. by rewrite list_lookup_fmap, Hp. }
  unfold keys in Hk. rewrite list_lookup_fmap in Hk. destruct (poolInfo (fair_launch s') !! Z.to_nat pid) as [p'|]; [|done].
  exists p'. split; [done|]. unfold pool_key in Hk. cbn in Hk. congruence.
Qed.

Lemma pool_at_inv s pid p : pool_at s pid = Ok p -> 0 <= pid /\ poolInfo (fair_launch s) !! Z.to_nat pid = Some p.
Proof.
  unfold pool_at. destruct (Z.leb_spec 0 pid); [|done]. by intros ?%of_option_Ok.
Qed.

(** ** The invariant *)

(** The stakes of a pool. *)
Definition staked_in (s : Stakes) (pid : Z) : Z := map_sum amount (pool_users s pid).

Record stakes_ok (s : Stakes) : Prop := {
  so_distinct : NoDup (stakeToken <$> poolInfo (fair_launch s));
  so_amounts : forall pid a, 0 <= amount (user s pid a);
  so_backed : forall pid p d, pool_at s pid = Ok p -> debts s !! stakeToken p = Some d ->
    staked_in s pid <= erc20_balanceOf (dt_erc20 d) (fair_address s);
  so_guard : is_ok (guard_enter (fair_guard s)) = true
}.

(** The books, the guard apart. *)
Record books_ok (s : Stakes) : Prop := {
  bo_distinct : NoDup (stakeToken <$> poolInfo (fair_launch s));
  bo_amounts : forall pid a, 0 <= amount (user s pid a);
  bo_backed : forall pid p d, pool_at s pid = Ok p -> debts s !! stakeToken p = Some d ->
    staked_in s pid <= erc20_balanceOf (dt_erc20 d) (fair_address s)
}.

Lemma stake_le s pid a : (forall pid a, 0 <= amount (user s pid a)) -> amount (user s pid a) <= staked_in s pid.
Proof. intros Ha. unfold user, staked_in. apply (map_sum_le no_user); [done|]. intros k. apply Ha. Qed.

Lemma user_with s pid a u pid' a' :
  user (with_user s pid a u) pid' a' = if decide (pid' = pid /\ a' = a) then u else user s pid' a'.
Proof.
  unfold user, pool_users. cbn. destruct (decide (pid' = pid)) as [->|Hp].
  - rewrite lookup_insert_eq. cbn. destruct (decide (a' = a)) as [->|Ha].
    + rewrite decide_True, lookup_insert_eq by done. done.
    + rewrite decide_False, lookup_insert_ne by naive_solver. done.
  - rewrite decide_False, lookup_insert_ne by naive_solver. done.
Qed.

Lemma staked_with s pid a u pid' :
  staked_in (with_user s pid a u) pid'
  = staked_in s pid' + (if decide (pid' = pid) then amount u - amount (user s pid a) else 0).
Proof.
  unfold staked_in, pool_users at 1. cbn. destruct (decide (pid' = pid)) as [->|Hp].
  - rewrite lookup_insert_eq. cbn. rewrite (map_sum_insert no_user) by done. unfold at_, user. lia.
  - rewrite lookup_insert_ne by done. unfold pool_users. lia.
Qed.

Lemma rewarded_ok s s' : rewarded s s' -> books_ok s -> books_ok s'.
Proof.
  intros Hs [H1 H2 H3].
  assert (stakeToken <$> poolInfo (fair_launch s') = stakeToken <$> poolInfo (fair_launch s)) as Et.
  { pose proof (f_equal (fmap fst) (rd_keys _ _ Hs)) as E. unfold keys in E. by rewrite <-!list_fmap_compose in E. }
  pose proof (rd_users _ _ Hs) as Eu. split.
  - by rewrite Et.
  - intros pid a. unfold user, pool_users. rewrite Eu. apply H2.
  - intros pid p d Hp Hd. assert (rewarded s' s) as Hs' by (destruct Hs; by split).
    destruct (rewarded_pool _ _ _ _ Hs' Hp) as (p' & Hp' & E). rewrite <-E in Hd.
    rewrite (rd_debts _ _ Hs) in Hd. unfold staked_in, pool_users. rewrite Eu, (rd_address _ _ Hs).
    by eapply H3.
Qed.

(** A stake and the pool's balance move by the same amount. *)
Lemma books_move s pid p d d' a u :
  books_ok s -> pool_at s pid = Ok p -> debts s !! stakeToken p = Some d -> 0 <= amount u ->
  erc20_balanceOf (dt_erc20 d') (fair_address s)
    = erc20_balanceOf (dt_erc20 d) (fair_address s) + (amount u - amount (user s pid a)) ->
  books_ok (with_user (with_debts s (<[ stakeToken p := d' ]> (debts s))) pid a u).
Proof.
  intros [H1 H2 H3] Hp Hd Hu Hbal. split; [done| |].
  - intros pid' a'. rewrite user_with. case_decide; [done|apply H2].
  - intros pid' p' d'' Hp' Hd''. rewrite staked_with. cbn in Hd''.
    change (staked_in (with_debts s _) pid') with (staked_in s pid').
    change (user (with_debts s _) pid a) with (user s pid a).
    change (fair_address (with_user _ _ _ _)) with (fair_address s).
    change (pool_at s pid' = Ok p') in Hp'. destruct (decide (pid' = pid)) as [->|Hne].
    + rewrite Hp in Hp'. injection Hp' as <-. rewrite lookup_insert_eq in Hd''. injection Hd'' as <-.
      pose proof (H3 _ _ _ Hp Hd). lia.
    + rewrite lookup_insert_ne in Hd''; [pose proof (H3 _ _ _ Hp' Hd''); lia|].
      intros E. apply Hne. apply pool_at_inv in Hp as [Hz Hp], Hp' as [Hz' Hp'].
      apply (f_equal (fmap stakeToken)) in Hp, Hp'. rewrite <-list_lookup_fmap in Hp, Hp'.
      cbn in Hp, Hp'. rewrite <-E in Hp'. pose proof (NoDup_lookup _ _ _ _ H1 Hp Hp'). lia.
Qed.

(** ** The calls *)

(** A call of a user: neither FairLaunch itself nor the zero address. *)
Record user_call (m : Msg) (s : Stakes) : Prop := {
  uc_self : self m = fair_address s;
  uc_fair : fair_address s <> zero_address;
  uc_sender : sender m <> fair_address s;
  uc_nonzero : sender m <> zero_address
}.

Lemma transfer_out m d to v d' me :
  sender m = me -> to <> me -> DebtToken_transfer m d to v = Ok d' ->
  erc20_balanceOf (dt_erc20 d') me = erc20_balanceOf (dt_erc20 d) me - v.
Proof.
  unfold DebtToken_transfer. intros <- Hto Hr. inv_result. subst. cbn.
  match goal with A : erc20_transfer _ _ _ _ = _ |- _ => apply erc20_transfer_spec in A as (_ & _ & ->) end.
  rewrite decide_True, decide_False by auto. lia.
Qed.

Lemma transfer_in m d from v d' me :
  sender m = me -> me <> zero_address -> from <> me -> from <> zero_address ->
  DebtToken_transferFrom m d from me v = Ok d' ->
  erc20_balanceOf (dt_erc20 d') me = erc20_balanceOf (dt_erc20 d) me + v.
Proof.
  unfold DebtToken_transferFrom. intros Hs Hme Hfrom Hnz Hr. inv_result. subst d'. cbn. rewrite Hs in *.
  match goal with A : erc20_approve ?t ?o ?sp ?v = Ok ?t' |- _ =>
    destruct (erc20_approve_spec t o sp v) as (t2 & Ht2 & Hbal & _); [done..|];
    rewrite A in Ht2; injection Ht2 as <-; rewrite Hbal end.
  match goal with A : erc20_transfer _ _ _ _ = _ |- _ => apply erc20_transfer_spec in A as (_ & _ & ->) end.
  rewrite decide_False, decide_True by auto. lia.
Qed.

Lemma settle_Ok u p v a u' : settle u p v a = Ok u' -> amount u' = v /\ fundedBy u' = a.
Proof. unfold settle. intros Hr. inv_result. by subst. Qed.

Lemma withdraw_for_ok m s for_ pid v s' :
  user_call m s -> books_ok s -> 0 <= v -> withdraw_for m s for_ pid v = Ok s' ->
  books_ok s' /\ fair_address s' = fair_address s /\ fair_guard s' = fair_guard s.
Proof.
  intros [Hself Hfair Hsend Hnz] Hs Hv Hr. unfold withdraw_for in Hr.
  apply bind_Ok in Hr as (p & Hp & Hr). cbv zeta in Hr. apply bind_Ok in Hr as (u1 & _ & Hr).
  apply bind_Ok in Hr as (u2 & Hle%require_Ok & Hr). to_props.
  apply bind_Ok in Hr as (s1 & Hs1%update_pool_rewarded & Hr).
  apply bind_Ok in Hr as (s2 & Hs2%harvest_for_rewarded & Hr).
  assert (rewarded s s2) as Hrew by by etrans.
  apply bind_Ok in Hr as (left & Hleft%sm_sub_Ok & Hr). destruct Hleft as [-> _].
  apply bind_Ok in Hr as (p2 & Hp2 & Hr). apply bind_Ok in Hr as (u & [Eu _]%settle_Ok & Hr).
  destruct (rewarded_pool _ _ _ _ Hrew Hp) as (p2' & Hp2' & Etok). rewrite Hp2 in Hp2'. injection Hp2' as <-.
  apply (rewarded_ok _ _ Hrew) in Hs. rewrite <-(rd_address _ _ Hrew) in *. rewrite <-(rd_guard _ _ Hrew).
  assert (user s2 pid for_ = user s pid for_) as Eus by (unfold user, pool_users; by rewrite (rd_users _ _ Hrew)).
  rewrite <-Eus in *. clear Hp Etok.
  destruct (bool_decide (stakeToken p2 <> zero_address)).
  - unfold on_debt, debt_at in Hr. cbn in Hr. apply bind_Ok in Hr as (d & Hd%of_option_Ok & Hr).
    apply bind_Ok in Hr as (d' & Hd' & Hr). injection Hr as <-.
    apply (transfer_out _ _ _ _ _ (fair_address s2)) in Hd'; [|done..].
    split; [|done].
    change (books_ok (with_user (with_debts s2 (<[ stakeToken p2 := d' ]> (debts s2))) pid for_ u)).
    eapply books_move; [done..|lia|]. rewrite Hd', Eu. lia.
  - injection Hr as <-. split; [|done]. destruct Hs as [H1 H2 H3]. split; [done| |].
    + intros pid' a'. rewrite user_with. case_decide; [lia|apply H2].
    + intros pid' p' d' Hp' Hd'. rewrite staked_with. specialize (H3 pid' p' d' Hp' Hd').
      cbn. case_decide; subst; lia.
Qed.

Lemma staking_guard_ok s body s' :
  stakes_ok s -> staking_guard s body = Ok s' ->
  (forall g s1, books_ok (with_fair_guard s g) -> body (with_fair_guard s g) = Ok s1 ->
    books_ok s1 /\ fair_address s1 = fair_address s /\ fair_guard s1 = g) ->
  stakes_ok s' /\ fair_address s' = fair_address s.
Proof.
  intros [H1 H2 H3 H4] Hr Hbody. unfold staking_guard in Hr. apply bind_Ok in Hr as (g & Hg & Hr).
  apply bind_Ok in Hr as (s1 & Hrun & Hr). injection Hr as <-.
  destruct (Hbody g s1) as ([B1 B2 B3] & Ea & Eg); [by split|done|].
  split; [|done]. split; [done..|]. cbn. rewrite Eg. by eapply guard_left.
Qed.

(** The amounts are machine integers. *)
Definition typed_staking (c : StakingCall) : Prop :=
  match c with
  | StakeDeposit _ pid v | StakeWithdraw _ pid v => uint256 pid /\ uint256 v
  | StakeWithdrawAll _ pid | StakeHarvest pid | StakeEmergency pid => uint256 pid
  end.

Lemma deposit_ok m s for_ pid v s' :
  user_call m s -> stakes_ok s -> 0 <= v < UINT256 -> deposit m s for_ pid v = Ok s' ->
  stakes_ok s' /\ fair_address s' = fair_address s.
Proof.
  intros [Hself Hfair Hsend Hnz] Hs Hv Hr. eapply staking_guard_ok; [done|exact Hr|]. clear Hr s'.
  intros g s1 Hb Hr. set (s0 := with_fair_guard s g) in *.
  apply bind_Ok in Hr as (p & Hp & Hr). cbv zeta in Hr. apply bind_Ok in Hr as (u1 & _ & Hr).
  apply bind_Ok in Hr as (u2 & _ & Hr). apply bind_Ok in Hr as (s2 & Hs2%update_pool_rewarded & Hr).
  apply bind_Ok in Hr as (s3 & Hs3 & Hr). assert (rewarded s2 s3) as Hrew3.
  { destruct (0 <? _); [by eapply harvest_for_rewarded|by injection Hs3 as <-]. }
  assert (rewarded s0 s3) as Hrew by by etrans.
  apply bind_Ok in Hr as (s4 & Hs4 & Hr). unfold on_debt, debt_at in Hs4.
  apply bind_Ok in Hs4 as (d & Hd%of_option_Ok & Hs4). apply bind_Ok in Hs4 as (d' & Hd' & Hs4). injection Hs4 as <-.
  apply bind_Ok in Hr as (v' & Hv' & Hr). apply bind_Ok in Hr as (p2 & _ & Hr).
  apply bind_Ok in Hr as (u & [Eu _]%settle_Ok & Hr). injection Hr as <-.
  pose proof (bo_amounts _ Hb pid for_) as Ha. apply sm_add_inv in Hv' as [-> _]; [|done|done].
  destruct (rewarded_pool _ _ _ _ Hrew Hp) as (p3 & Hp3 & Etok). rewrite <-Etok in *.
  apply (rewarded_ok _ _ Hrew) in Hb.
  split; [|split; [apply (rd_address _ _ Hrew)|apply (rd_guard _ _ Hrew)]].
  assert (fair_address s3 = fair_address s) as Ea by apply (rd_address _ _ Hrew).
  replace (self m) with (fair_address s3) in Hd' by congruence.
  apply transfer_in in Hd'; [|cbn; congruence..].
  assert (user s3 pid for_ = user s0 pid for_) as Eus by (unfold user, pool_users; by rewrite (rd_users _ _ Hrew)).
  eapply books_move; [done..|lia|]. rewrite Hd', Eu, Eus. lia.
Qed.

Lemma harvest_ok m s pid s' :
  stakes_ok s -> harvest m s pid = Ok s' -> stakes_ok s' /\ fair_address s' = fair_address s.
Proof.
  intros Hs Hr. eapply staking_guard_ok; [done|exact Hr|]. clear Hr s'.
  intros g s1 Hb Hr. set (s0 := with_fair_guard s g) in *. apply bind_Ok in Hr as (p & _ & Hr).
  apply bind_Ok in Hr as (s2 & Hs2%update_pool_rewarded & Hr).
  apply bind_Ok in Hr as (s3 & Hs3%harvest_for_rewarded & Hr). assert (rewarded s0 s3) as Hrew by by etrans.
  apply bind_Ok in Hr as (p2 & _ & Hr). apply bind_Ok in Hr as (u & [Eu _]%settle_Ok & Hr). injection Hr as <-.
  apply (rewarded_ok _ _ Hrew) in Hb as [H1 H2 H3].
  split; [|split; [apply (rd_address _ _ Hrew)|apply (rd_guard _ _ Hrew)]].
  split; [done| |].
  - intros pid' a'. rewrite user_with. case_decide; [rewrite Eu|]; apply H2.
  - intros pid' p' d' Hp' Hd'. rewrite staked_with, Eu. specialize (H3 pid' p' d' Hp' Hd').
    cbn. case_decide; lia.
Qed.

Lemma emergencyWithdraw_ok m s pid s' :
  user_call m s -> stakes_ok s -> emergencyWithdraw m s pid = Ok s' ->
  stakes_ok s' /\ fair_address s' = fair_address s.
Proof.
  intros [Hself Hfair Hsend Hnz] Hs Hr. eapply staking_guard_ok; [done|exact Hr|]. clear Hr s'.
  intros g s1 Hb Hr. set (s0 := with_fair_guard s g) in *. apply bind_Ok in Hr as (p & Hp & Hr). cbv zeta in Hr.
  apply bind_Ok in Hr as (u1 & _ & Hr). apply bind_Ok in Hr as (s2 & Hs2 & Hr). injection Hr as <-.
  unfold on_debt, debt_at in Hs2. apply bind_Ok in Hs2 as (d & Hd%of_option_Ok & Hs2).
  apply bind_Ok in Hs2 as (d' & Hd' & Hs2). injection Hs2 as <-.
  apply (transfer_out _ _ _ _ _ (fair_address s)) in Hd'; [|done..]. split; [|done].
  apply (books_move s0 pid p d d' (sender m)); [done..|cbn; lia|]. cbn in *. lia.
Qed.

Lemma staking_call_ok m s c s' :
  user_call m s -> stakes_ok s -> typed_staking c -> staking_call m s c = Ok s' ->
  stakes_ok s' /\ fair_address s' = fair_address s.
Proof.
  intros Hm Hs Hc Hr. destruct c as [f pid v|f pid v|f pid|pid|pid]; cbn in *.
  - by eapply deposit_ok; [..|apply Hc|].
  - eapply staking_guard_ok; [done|exact Hr|]. intros g s1 Hb Hr1.
    eapply withdraw_for_ok in Hr1 as (? & ? & ?); [|by destruct Hm|done|apply Hc]. done.
  - eapply staking_guard_ok; [done|exact Hr|]. intros g s1 Hb Hr1.
    eapply withdraw_for_ok in Hr1 as (? & ? & ?); [|by destruct Hm|done|apply Hb]. done.
  - by eapply harvest_ok.
  - by eapply emergencyWithdraw_ok.
Qed.

(** ** Histories *)

(** A user's call, or the vault minting debt tokens or burning those of an account that is
    not FairLaunch. *)
Inductive staking_step : Stakes -> Stakes -> Prop :=
| stake_user m s c s' : user_call m s -> typed_staking c -> staking_call m s c = Ok s' -> staking_step s s'
| stake_mint m s tok to v s' : 0 <= v -> on_debt s tok (fun d => DebtToken_mint m d to v) = Ok s' -> staking_step s s'
| stake_burn m s tok from v s' : from <> fair_address s ->
    on_debt s tok (fun d => DebtToken_burn m d from v) = Ok s' -> staking_step s s'.

Lemma on_debt_ok s tok op s' :
  stakes_ok s -> on_debt s tok op = Ok s' ->
  (forall d d', op d = Ok d' -> erc20_balanceOf (dt_erc20 d) (fair_address s)
                                <= erc20_balanceOf (dt_erc20 d') (fair_address s)) -> stakes_ok s'.
Proof.
  intros [H1 H2 H3 H4] Hr Hop. unfold on_debt, debt_at in Hr. inv_result. subst s'. split; [done..| |done].
  intros pid p d' Hp Hd'. cbn in Hd'. change (staked_in s pid <= erc20_balanceOf (dt_erc20 d') (fair_address s)).
  change (pool_at s pid = Ok p) in Hp. destruct (decide (stakeToken p = tok)) as [E|E].
  - rewrite E, lookup_insert_eq in Hd'. injection Hd' as <-. etrans; [eapply H3; [done|by rewrite E]|]. by eapply Hop.
  - rewrite lookup_insert_ne in Hd' by done. by eapply H3.
Qed.

Lemma staking_step_ok s s' : staking_step s s' -> stakes_ok s -> stakes_ok s'.
Proof.
  intros [m s0 c s1 Hm Hc Hr|m s0 tok to v s1 Hv Hr|m s0 tok from v s1 Hf Hr] Hs.
  - by eapply staking_call_ok.
  - eapply on_debt_ok; [done..|]. intros d d' Hd. unfold DebtToken_mint in Hd. inv_result. subst d'. cbn.
    match goal with A : erc20_mint _ _ _ = _ |- _ => apply erc20_mint_spec in A as (_ & Hto & Hne) end.
    destruct (decide (fair_address s0 = to)) as [->|E]; [lia|]. rewrite Hne by done. lia.
  - eapply on_debt_ok; [done..|]. intros d d' Hd. unfold DebtToken_burn in Hd. inv_result. subst d'. cbn.
    match goal with A : erc20_burn _ _ _ = _ |- _ => apply erc20_burn_spec in A as (_ & _ & _ & Hne) end.
    rewrite Hne by auto. lia.
Qed.

(** ** Taking a stake out *)

(** [v] of the stake of [_for] has been paid to the caller, out of FairLaunch's tokens. *)
Record stake_paid (m : Msg) (s s' : Stakes) (_for : address) (pid : Z) (p : PoolInfo) (d : DebtToken)
    (v : Z) : Prop := {
  paid_tokens : exists d', debts s' = <[ stakeToken p := d' ]> (debts s) /\
    forall a, erc20_balanceOf (dt_erc20 d') a
      = erc20_balanceOf (dt_erc20 d) a - (if decide (a = self m) then v else 0)
        + (if decide (a = sender m) then v else 0);
  paid_stake : amount (user s' pid _for) = amount (user s pid _for) - v;
  paid_others : forall pid' a, ~ (pid' = pid /\ a = _for) -> user s' pid' a = user s pid' a
}.

(** A withdrawal up to its transfer: the pool is updated, the rewards are paid and the
    stake is written down. *)
Definition rewards_of (m : Msg) (_for : address) (pid v : Z) (s : Stakes) : result Stakes :=
  let u := user s pid _for in
  s ← update_pool m s pid;
  s ← harvest_for m s _for pid;
  pool ← pool_at s pid;
  u ← settle u pool (amount u - v) (if amount u - v =? 0 then zero_address else fundedBy u);
  Ok (with_user s pid _for u).

Lemma transfer_pays m d to v t :
  DebtToken_transfer m d to v = Ok t -> forall a, erc20_balanceOf (dt_erc20 t) a
    = erc20_balanceOf (dt_erc20 d) a - (if decide (a = sender m) then v else 0) + (if decide (a = to) then v else 0).
Proof.
  unfold DebtToken_transfer. intros Hr a. inv_result. subst. cbn.
  match goal with A : erc20_transfer _ _ _ _ = _ |- _ => by apply erc20_transfer_spec in A as (_ & _ & ->) end.
Qed.

(** The token lets approved holders move what they have. *)
Lemma transfer_allowed m d to v :
  sender m <> zero_address -> to <> zero_address -> 0 <= v <= erc20_balanceOf (dt_erc20 d) (sender m) ->
  okHolders d !! sender m = Some true -> okHolders d !! to = Some true ->
  exists t, DebtToken_transfer m d to v = Ok t.
Proof.
  intros Hs Ht Hv Hok1 Hok2. pose proof (erc20_transfer_ok (dt_erc20 d) (sender m) to v Hs Ht Hv) as Htr.
  unfold DebtToken_transfer, holder_ok. rewrite Hok1, Hok2. cbn.
  destruct (erc20_transfer _ _ _ _); [by eexists|done].
Qed.

(** Who may withdraw: the funder of the stake, the token approving both sides. *)
Record funder_call (m : Msg) (s : Stakes) (_for : address) (pid : Z) (p : PoolInfo) (d : DebtToken) : Prop := {
  fc_user : user_call m s;
  fc_pool : pool_at s pid = Ok p;
  fc_token : debts s !! stakeToken p = Some d;
  fc_funder : fundedBy (user s pid _for) = sender m;
  fc_fair : okHolders d !! fair_address s = Some true;
  fc_sender : okHolders d !! sender m = Some true
}.

(** The withdrawal once the rewards are paid. *)
Lemma withdraw_for_pays m s _for pid p d v :
  funder_call m s _for pid p d -> stakeToken p <> zero_address ->
  0 <= v <= amount (user s pid _for) ->
  v <= erc20_balanceOf (dt_erc20 d) (fair_address s) ->
  match rewards_of m _for pid v s with
  | Ok _ => exists s', withdraw_for m s _for pid v = Ok s' /\ stake_paid m s s' _for pid p d v
  | Err _ => is_ok (withdraw_for m s _for pid v) = false
  end.
Proof.
  intros [[Hself Hfair Hsend Hnz] Hp Hd Hown Hok1 Hok2] Htok Hv Hbal. unfold rewards_of, withdraw_for. rewrite Hp. cbn [mbind result_bind].
  rewrite (bool_decide_eq_true_2 _ Hown), (proj2 (Z.leb_le _ _)) by lia. cbn [require mbind result_bind].
  destruct (update_pool m s pid) as [s1|] eqn:E1; cbn [mbind result_bind]; [|done].
  destruct (harvest_for m s1 _for pid) as [s2|] eqn:E2; cbn [mbind result_bind]; [|done].
  apply update_pool_rewarded in E1. apply harvest_for_rewarded in E2.
  assert (rewarded s s2) as Hrew by by etrans.
  unfold sm_sub. rewrite (proj2 (Z.leb_le _ _)) by lia. cbn [require mbind result_bind].
  destruct (rewarded_pool _ _ _ _ Hrew Hp) as (p2 & Hp2 & Etok). rewrite Hp2. cbn [mbind result_bind].
  destruct (settle _ _ _ _) as [u|] eqn:Eu; cbn [mbind result_bind]; [|done]. apply settle_Ok in Eu as [Eu _].
  rewrite (bool_decide_eq_true_2 (stakeToken p2 <> zero_address)) by congruence.
  unfold on_debt, debt_at. cbn [debts with_user]. rewrite (rd_debts _ _ Hrew), Etok, Hd. cbn [of_option mbind result_bind].
  destruct (transfer_allowed (call_from m (stakeToken p)) d (sender m) v) as [d' Hd']; cbn; rewrite ?Hself; [done..|lia|done|done|].
  rewrite Hd'. cbn [mbind result_bind]. eexists. split; [done|].
  assert (forall pid' a, user s2 pid' a = user s pid' a) as Eus
    by (intros; unfold user, pool_users; by rewrite (rd_users _ _ Hrew)).
  split.
  - exists d'. split; [done|]. exact (transfer_pays _ _ _ _ _ Hd').
  - change (user (with_debts ?s _)) with (user s). rewrite user_with, decide_True by done. exact Eu.
  - intros pid' a Hne. change (user (with_debts ?s _)) with (user s). by rewrite user_with, decide_False.
Qed.

Lemma emergencyWithdraw_pays m s pid p d :
  is_ok (guard_enter (fair_guard s)) = true -> funder_call m s (sender m) pid p d ->
  0 <= amount (user s pid (sender m)) <= erc20_balanceOf (dt_erc20 d) (fair_address s) ->
  exists s', emergencyWithdraw m s pid = Ok s' /\
    stake_paid m s s' (sender m) pid p d (amount (user s pid (sender m))).
Proof.
  intros Hg [[Hself Hfair Hsend Hnz] Hp Hd Hown Hok1 Hok2] Hv. unfold emergencyWithdraw, staking_guard.
  destruct (guard_enter (fair_guard s)) as [g|]; [cbn [mbind result_bind]|done].
  change (pool_at (with_fair_guard s g) pid) with (pool_at s pid). rewrite Hp. cbn [mbind result_bind].
  change (user (with_fair_guard s g) pid (sender m)) with (user s pid (sender m)). cbv zeta.
  rewrite (bool_decide_eq_true_2 _ Hown). cbn [require mbind result_bind].
  unfold on_debt, debt_at. cbn [debts with_fair_guard]. rewrite Hd. cbn [of_option mbind result_bind].
  destruct (transfer_allowed (call_from m (stakeToken p)) d (sender m) (amount (user s pid (sender m)))) as [d' Hd'];
    cbn; rewrite ?Hself; [done..|].
  rewrite Hd'. cbn [mbind result_bind]. eexists. split; [done|]. split.
  - exists d'. split; [done|]. exact (transfer_pays _ _ _ _ _ Hd').
  - change (user (with_fair_guard ?s _)) with (user s). rewrite user_with, decide_True by done. cbn. lia.
  - intros pid' a Hne. change (user (with_fair_guard ?s _)) with (user s). by rewrite user_with, decide_False.
Qed.

End Theory.
