(* ===== verification/Pending.v ===== *)
(** * What the frontend shows is what a harvest pays

    The view [pendingHusky] of FairLaunch.sol against [harvest], by the balances and locks of
    HUSKI that the functions of the token leave. *)

From S2P Require Import Prelude Buffers MerkleTree BalanceTree Evm Uint HuskyToken FairLaunch FairLaunchTheory Lending Badges Staking StakingTheory.

Local Open Scope Z_scope.

Section Pending.
Context `{OpenZeppelin}.

(** ** Balances and locks of HUSKI *)

Lemma writeCheckpoint_erc20 m h a n v h' : writeCheckpoint m h a n v = Ok h' -> husky_erc20 h' = husky_erc20 h.
Proof. unfold writeCheckpoint. intros Hr. inv_result. case_match; inv_result; by subst. Qed.

Lemma moveDelegates_erc20 m h src dst v h' : moveDelegates m h src dst v = Ok h' -> husky_erc20 h' = husky_erc20 h.
Proof.
  unfold moveDelegates. intros Hr. destruct (_ && _); [|by injection Hr as <-].
  apply bind_Ok in Hr as (h1 & Hsrc & Hdst). transitivity (husky_erc20 h1).
  - clear Hsrc. case_match; inv_result; [by eapply writeCheckpoint_erc20|by subst].
  - clear Hdst. case_match; inv_result; [by eapply writeCheckpoint_erc20|by subst].
Qed.

Lemma husky_transfer_erc20 m h to v h' : husky_transfer m h to v = Ok h' ->
  v <= erc20_balanceOf (husky_erc20 h) (sender m) /\
  forall b, erc20_balanceOf (husky_erc20 h') b = erc20_balanceOf (husky_erc20 h) b
    - (if decide (b = sender m) then v else 0) + (if decide (b = to) then v else 0).
Proof.
  unfold husky_transfer. intros Hr. apply bind_Ok in Hr as (t & (Hle & _ & Ht)%erc20_transfer_spec & Hr).
  apply moveDelegates_erc20 in Hr as ->. by split.
Qed.

(** What the token knows of an account: its balance and its lock. *)
Definition holding (h : HuskyToken) (a : address) : Z * Z := (erc20_balanceOf (husky_erc20 h) a, lock_of h a).

Lemma writeCheckpoint_locks m h a n v h' : writeCheckpoint m h a n v = Ok h' -> locks h' = locks h.
Proof. unfold writeCheckpoint. intros Hr. inv_result. case_match; inv_result; by subst. Qed.

Lemma moveDelegates_locks m h src dst v h' : moveDelegates m h src dst v = Ok h' -> locks h' = locks h.
Proof.
  unfold moveDelegates. intros Hr. destruct (_ && _); [|by injection Hr as <-].
  apply bind_Ok in Hr as (h1 & Hsrc & Hdst). transitivity (locks h1).
  - clear Hsrc. case_match; inv_result; [by eapply writeCheckpoint_locks|by subst].
  - clear Hdst. case_match; inv_result; [by eapply writeCheckpoint_locks|by subst].
Qed.

Lemma mint_other m h to v h' a : mint m h to v = Ok h' -> a <> to -> holding h' a = holding h a.
Proof.
  unfold mint. intros Hr Ha. inv_result.
  match goal with A : erc20_mint _ _ _ = _, B : moveDelegates _ _ _ _ _ = _ |- _ =>
    apply erc20_mint_spec in A as (_ & _ & Hne); unfold holding, lock_of;
    rewrite (moveDelegates_erc20 _ _ _ _ _ _ B), (moveDelegates_locks _ _ _ _ _ _ B) end.
  cbn. by rewrite Hne.
Qed.

Lemma lock_holding m h to v h' a : lock m h to v = Ok h' -> a <> self m ->
  holding h' a = if decide (a = to) then (erc20_balanceOf (husky_erc20 h) a - v, lock_of h' a) else holding h a.
Proof.
  unfold lock. intros Hr Ha. inv_result. subst h'.
  match goal with A : erc20_transfer _ _ _ _ = _ |- _ => apply erc20_transfer_spec in A as (_ & _ & Hb) end.
  unfold holding, lock_of. cbn. rewrite Hb, (decide_False (P := a = self m)) by done. destruct (decide (a = to)) as [E|E].
  - f_equal. lia.
  - rewrite lookup_insert_ne by done. f_equal. lia.
Qed.

Lemma lock_sum m h to v h' : lock m h to v = Ok h' -> sm_add (lock_of h to) v = Ok (lock_of h' to).
Proof. unfold lock. intros Hr. inv_result. subst h'. unfold lock_of at 2. cbn. by rewrite lookup_insert_eq. Qed.

(** ** The update of a pool, as its users see it *)

Definition seen (s s' : Stakes) (a : address) : Prop :=
  debts s' = debts s /\ holding (husky_token s') a = holding (husky_token s) a.

Lemma on_husky_seen s op s' a : on_husky s op = Ok s' ->
  (forall h, op (husky_token s) = Ok h -> holding h a = holding (husky_token s) a) -> seen s s' a.
Proof. unfold on_husky. intros Hr Hop. inv_result. subst. split; [done|]. by apply Hop. Qed.

Lemma seen_refl s a : seen s s a.
Proof. by split. Qed.

Lemma seen_trans s1 s2 s3 a : seen s1 s2 a -> seen s2 s3 a -> seen s1 s3 a.
Proof. intros [] []. split; congruence. Qed.

Lemma seen_mint m s to v s' a :
  token_mint m s to v = Ok s' -> a <> to -> seen s s' a.
Proof. intros Hr Ha. eapply on_husky_seen; [exact Hr|]. intros h Hh. exact (mint_other _ _ _ _ _ _ Hh Ha). Qed.

Lemma seen_lock m s to v s' a :
  token_lock m s to v = Ok s' -> a <> to -> a <> self m -> seen s s' a.
Proof.
  intros Hr Ha Hm. eapply on_husky_seen; [exact Hr|]. intros h Hh.
  by rewrite (lock_holding _ _ _ _ _ a Hh Hm), decide_False.
Qed.

(** The new accumulator is the one the view computes; an account that is not involved in
    the minting keeps what it has. *)
Lemma updatePool1_seen m f s p p' s' mul a lp :
  updatePool1 m f s p = Ok (p', s', mul) -> a ∉ [devaddr f; self m; husky f] ->
  token_balanceOf s (stakeToken p) (self m) = Ok lp ->
  pending_acc m f p lp = Ok (accHuskyPerShare p') /\ seen s s' a /\ number (block m) <= lastRewardBlock p'.
Proof.
  rewrite !not_elem_of_cons. intros Hr (Hdev & Hself & Hhusky & _) Hlp. unfold updatePool1 in Hr. unfold pending_acc.
  destruct (Z.leb_spec (number (block m)) (lastRewardBlock p)) as [Hle|Hlt].
  { injection Hr as <- <- _. rewrite (proj2 (Z.ltb_ge _ _) Hle). split; [done|split; [apply seen_refl|cbn; lia]]. }
  rewrite (proj2 (Z.ltb_lt _ _) Hlt), Hlp in *. cbn [mbind result_bind] in Hr. destruct (lp =? 0).
  { injection Hr as <- <- _. split; [done|split; [apply seen_refl|cbn; lia]]. }
  cbn [negb andb]. apply bind_Ok in Hr as (mu & -> & Hr). cbn [mbind result_bind].
  apply bind_Ok in Hr as (rew & -> & Hr). cbn [mbind result_bind].
  apply bind_Ok in Hr as (dev & _ & Hr). apply bind_Ok in Hr as (s1 & Hs1 & Hr). apply bind_Ok in Hr as (s2 & Hs2 & Hr).
  apply bind_Ok in Hr as (per & -> & Hr). cbn [mbind result_bind].
  apply bind_Ok in Hr as (acc & -> & Hr).
  apply bind_Ok in Hr as ([s3 til3] & Hs3 & Hr). apply bind_Ok in Hr as ([s4 til4] & Hs4 & Hr). injection Hr as <- <- _.
  split; [done|]. split; [|cbn; lia]. apply (seen_trans _ s1), (seen_trans _ s2), (seen_trans _ s3).
  - by eapply seen_mint.
  - by eapply seen_mint.
  - destruct (_ <=? _); [|injection Hs3 as <- _; apply seen_refl]. apply bind_Ok in Hs3 as (l & _ & Hs3).
    apply bind_Ok in Hs3 as (s5 & Hs5 & Hs3). injection Hs3 as <- _. by eapply seen_lock.
  - destruct (_ && _); [|injection Hs4 as <- _; apply seen_refl]. do 4 (apply bind_Ok in Hs4 as (? & _ & Hs4)).
    apply bind_Ok in Hs4 as (s5 & Hs5 & Hs4). do 2 (apply bind_Ok in Hs4 as (? & _ & Hs4)). injection Hs4 as <- _.
    by eapply seen_lock.
Qed.

Lemma update_pool_seen m s pid p s' a lp :
  pool_at s pid = Ok p -> update_pool m s pid = Ok s' ->
  a ∉ [devaddr (fair_launch s); self m; husky (fair_launch s)] ->
  token_balanceOf s (stakeToken p) (self m) = Ok lp -> exists p',
  pool_at s' pid = Ok p' /\ stakeToken p' = stakeToken p /\
  pending_acc m (fair_launch s) p lp = Ok (accHuskyPerShare p') /\ seen s s' a /\
  number (block m) <= lastRewardBlock p' /\
  userInfo s' = userInfo s /\ husky (fair_launch s') = husky (fair_launch s) /\
  bonusLockUpBps (fair_launch s') = bonusLockUpBps (fair_launch s).
Proof.
  intros [Hpid Hp]%pool_at_inv Hr Ha Hlp. pose proof (update_pool_rewarded _ _ _ _ Hr) as Hrew.
  unfold update_pool in Hr. apply bind_Ok in Hr as ([f s1] & Hu & Hr). injection Hr as <-.
  cbn [updatePool] in Hu. rewrite Hp in Hu. cbn [of_option mbind result_bind] in Hu.
  apply bind_Ok in Hu as ([[p' s2] mul] & Hu & E). injection E as <- <-.
  destruct (updatePool1_seen _ _ _ _ _ _ _ _ _ Hu Ha Hlp) as (Hacc & Hseen & Hlast).
  exists p'. split.
  { unfold pool_at. cbn. rewrite (proj2 (Z.leb_le _ _) Hpid). rewrite list_lookup_insert_eq by by eapply lookup_lt_Some.
    done. }
  split; [by apply updatePool1_key in Hu as [= ->]|]. do 3 (split; [done|]).
  split; [exact (rd_users _ _ Hrew)|done].
Qed.

(** ** The harvest *)

Lemma harvest_points_leaves m s to tok v s' : harvest_points m s to tok v = Ok s' ->
  exists p, s' = with_points s p.
Proof.
  unfold harvest_points, on_points. intros Hr. destruct (_ && _).
  - apply bind_Ok in Hr as (o & _ & Hr). apply bind_Ok in Hr as ([p t] & _ & Hr). inv_result. subst. by eexists.
  - injection Hr as <-. exists (points_at s). by destruct s.
Qed.

Lemma safeHuskyTransfer_holding m s to v s' :
  safeHuskyTransfer m s to v = Ok s' -> to <> self m -> v <= erc20_balanceOf (husky_erc20 (husky_token s)) (self m) ->
  exists h, s' = with_husky s h /\
    holding h to = (erc20_balanceOf (husky_erc20 (husky_token s)) to + v, lock_of (husky_token s) to).
Proof.
  unfold safeHuskyTransfer, on_husky. intros Hr Hto Hv. cbv zeta in Hr. rewrite (proj2 (Z.ltb_ge _ _) Hv) in Hr.
  apply bind_Ok in Hr as (h & Hh & Hr). injection Hr as <-. exists h. split; [done|].
  pose proof (husky_transfer_erc20 _ _ _ _ _ Hh) as [_ Hb]. unfold husky_transfer in Hh.
  apply bind_Ok in Hh as (t & _ & Hh%moveDelegates_locks). unfold holding, lock_of. rewrite Hb, Hh. cbn [sender call_from].
  rewrite decide_False, decide_True by done. f_equal. lia.
Qed.

Lemma harvest_for_holding m s to pid p s' :
  harvest_for m s to pid = Ok s' -> pool_at s pid = Ok p -> to <> self m -> to <> husky (fair_launch s) ->
  exists x locked h q, per_share (amount (user s pid to)) (accHuskyPerShare p) = Ok x /\
    rewardDebt (user s pid to) <= x /\ s' = with_points (with_husky s h) q /\
    erc20_balanceOf (husky_erc20 h) to
      = erc20_balanceOf (husky_erc20 (husky_token s)) to + (x - rewardDebt (user s pid to)) - locked /\
    sm_add (lock_of (husky_token s) to) locked = Ok (lock_of h to).
Proof.
  unfold harvest_for. intros Hr Hp Hself Hhusky. rewrite Hp in Hr. cbn [mbind result_bind] in Hr. cbv zeta in Hr.
  apply bind_Ok in Hr as (_ & _ & Hr). apply bind_Ok in Hr as (x & Hx & Hr).
  apply bind_Ok in Hr as (pend & [-> Hle]%sm_sub_Ok & Hr). apply bind_Ok in Hr as (_ & Hbal%require_Ok & Hr). to_props.
  do 2 (apply bind_Ok in Hr as (? & _ & Hr)).
  apply bind_Ok in Hr as (s1 & (h1 & -> & Hh1)%safeHuskyTransfer_holding & Hr); [|done..].
  apply bind_Ok in Hr as (locked & _ & Hr). apply bind_Ok in Hr as (s2 & Hs2 & Hr).
  unfold on_husky in Hs2. apply bind_Ok in Hs2 as (h & Hh & Hs2). injection Hs2 as <-.
  apply harvest_points_leaves in Hr as (q & ->). injection Hh1 as Hb1 Hl1.
  pose proof (lock_sum _ _ _ _ _ Hh) as Hsum. pose proof (lock_holding _ _ _ _ _ to Hh Hhusky) as Hb.
  rewrite decide_True in Hb by done. injection Hb as Hb. cbn [husky_token with_husky] in Hb, Hsum.
  exists x, locked, h, q. split; [done|]. split; [done|]. split; [done|]. rewrite <-Hl1. split; [lia|done].
Qed.

(** C35: what [pendingHusky] shows is what [harvest] pays.  In the block in which the view
    answers, a successful harvest of the user pays that many HUSKI, of which it locks the
    part of the bonus at once, and the view answers zero from then on. *)
Theorem pending_is_harvested m s pid v s' :
  pendingHusky m s pid (sender m) = Ok v -> harvest m s pid = Ok s' ->
  sender m ∉ [devaddr (fair_launch s); self m; husky (fair_launch s)] ->
  (exists locked,
    erc20_balanceOf (husky_erc20 (husky_token s')) (sender m)
      = erc20_balanceOf (husky_erc20 (husky_token s)) (sender m) + v - locked /\
    sm_add (lock_of (husky_token s) (sender m)) locked = Ok (lock_of (husky_token s') (sender m))) /\
  pendingHusky m s' pid (sender m) = Ok 0.
Proof.
  intros Hv Hr Ha. unfold pendingHusky in Hv. apply bind_Ok in Hv as (p & Hp & Hv). cbv zeta in Hv.
  apply bind_Ok in Hv as (lp & Hlp & Hv). apply bind_Ok in Hv as (acc & Hacc & Hv).
  apply bind_Ok in Hv as (x & Hx & [-> Hle]%sm_sub_Ok).
  unfold harvest, staking_guard in Hr. apply bind_Ok in Hr as (g & _ & Hr). apply bind_Ok in Hr as (s9 & Hb & Hr).
  injection Hr as <-. set (s0 := with_fair_guard s g) in Hb. apply bind_Ok in Hb as (p0 & _ & Hb).
  apply bind_Ok in Hb as (s1 & Hs1 & Hb).
  destruct (update_pool_seen m s0 pid p s1 (sender m) lp Hp Hs1 Ha Hlp)
    as (p1 & Hp1 & Etok & Hacc1 & [Ed Eh] & Hlast & Eu & Ehusky & _).
  change (pending_acc m (fair_launch s0) p lp) with (pending_acc m (fair_launch s) p lp) in Hacc1.
  rewrite Hacc in Hacc1. injection Hacc1 as ->. apply bind_Ok in Hb as (s2 & Hs2 & Hb).
  rewrite !not_elem_of_cons in Ha. destruct Ha as (_ & Hself & Hhusky & _).
  assert (user s1 pid (sender m) = user s pid (sender m)) as Eus by (unfold user, pool_users; by rewrite Eu).
  destruct (harvest_for_holding _ _ _ _ _ _ Hs2 Hp1 Hself) as (x' & locked & h & q & Hx' & _ & -> & Hbal & Hlock).
  { rewrite Ehusky. exact Hhusky. }
  rewrite Eus, Hx in Hx'. injection Hx' as <-. rewrite Eus in Hbal. injection Eh as Ebal Elock.
  apply bind_Ok in Hb as (p2 & Hp2 & Hb). change (pool_at s1 pid = Ok p2) in Hp2. rewrite Hp1 in Hp2. injection Hp2 as <-.
  apply bind_Ok in Hb as (u & Hu & Hb). injection Hb as <-. split.
  - exists locked. cbn. rewrite Ebal, Elock in *. split; [exact Hbal|exact Hlock].
  - unfold pendingHusky. change (pool_at (with_fair_guard _ _) pid) with (pool_at s1 pid). rewrite Hp1.
    cbn [mbind result_bind]. change (user (with_fair_guard ?t _) pid (sender m)) with (user t pid (sender m)).
    rewrite user_with, decide_True by done.
    assert (token_balanceOf s1 (stakeToken p1) (self m) = Ok lp) as Hlp1.
    { rewrite Etok, <-Hlp. cbn. unfold debt_at. by rewrite Ed. }
    change (token_balanceOf (with_fair_guard _ _) (stakeToken p1) (self m)) with (token_balanceOf s1 (stakeToken p1) (self m)).
    rewrite Hlp1. cbn [mbind result_bind]. unfold pending_acc. rewrite (proj2 (Z.ltb_ge _ _) Hlast). cbn [andb mbind result_bind].
    change (user (with_points (with_husky s1 h) q) pid (sender m)) with (user s1 pid (sender m)) in Hu. rewrite Eus in Hu.
    unfold settle in Hu. rewrite Hx in Hu. cbn [mbind result_bind] in Hu. apply bind_Ok in Hu as (bd & _ & Hu).
    injection Hu as <-. cbn [amount rewardDebt]. rewrite Hx. cbn [mbind result_bind]. rewrite sm_sub_fits by lia.
    f_equal. lia.
Qed.
End Pending.
