(* ===== verification/BadgeTheory.v ===== *)
(** * The grades of the badges

    The counts that BadgeNFT keeps for each grade against the badges that exist. *)

From S2P Require Import Prelude Buffers MerkleTree BalanceTree Evm Uint Lending Badges.

Local Open Scope Z_scope.

(** ** Arrays *)

Lemma elem_Ok l i v : elem l i = Ok v <-> 0 <= i /\ l !! Z.to_nat i = Some v.
Proof.
  unfold elem. destruct (Z.leb_spec 0 i); rewrite ?of_option_Ok; [naive_solver|]. split; [done|intros []; lia].
Qed.

Lemma set_elem_Ok l i v l' : set_elem l i v = Ok l' -> (exists x, elem l i = Ok x) /\ l' = <[ Z.to_nat i := v ]> l.
Proof. unfold set_elem. intros Hr. inv_result. subst. by eauto. Qed.

Lemma elem_insert l i x v j :
  elem l i = Ok x -> elem (<[ Z.to_nat i := v ]> l) j = if decide (j = i) then Ok v else elem l j.
Proof.
  intros [Hi Hx]%elem_Ok. unfold elem. destruct (decide (j = i)) as [->|Hne].
  - destruct (Z.leb_spec 0 i); [|lia]. by rewrite list_lookup_insert_eq by by eapply lookup_lt_Some.
  - destruct (Z.leb_spec 0 j); [|done]. rewrite list_lookup_insert_ne by lia. done.
Qed.

Lemma count_grade_Ok l g d l' :
  count_grade l g d = Ok l' -> exists x, elem l g = Ok x /\ l' = <[ Z.to_nat g := (x + d) mod UINT256 ]> l.
Proof.
  unfold count_grade. intros Hr. apply bind_Ok in Hr as (x & Hx & [_ ->]%set_elem_Ok). by exists x.
Qed.

Lemma uint256_mod x : uint256 (x mod UINT256).
Proof. by apply Z.mod_pos_bound. Qed.

Lemma uint256_insert l i x : Forall uint256 l -> uint256 x -> Forall uint256 (<[ i := x ]> l).
Proof. intros Hl Hx. by apply Forall_insert. Qed.

(** ** The grades of the badges *)

Section Nft.
Context `{ERC721}.
Implicit Types (n : BadgeNFT) (ids : gset Z).

(** The badges of one grade. *)
Definition of_grade n ids (g : Z) : gset Z := filter (fun id => grade_of n id = g) ids.

Record nft_ok n ids : Prop := {
  no_ids : forall id, id ∈ ids <-> is_Some (erc721_owner (nft_erc721 n) id);
  no_grades : forall id, id ∈ ids -> 0 <= grade_of n id < 15;
  no_burned : forall id, id ∉ ids -> grade_of n id = 0;
  no_counts : forall g, 0 <= g < 15 -> elem (gradeAmount n) g = Ok (Z.of_nat (size (of_grade n ids g)));
  no_amount : length (gradeAmount n) = 15%nat /\ Forall uint256 (gradeAmount n);
  no_need : length (gradeNeedPoints n) = 15%nat /\ Forall uint256 (gradeNeedPoints n);
  no_lock : length (gradeLockHuskys n) = 15%nat /\ Forall uint256 (gradeLockHuskys n);
  no_limit : length (gradeLimitAmount n) = 15%nat /\ Forall uint256 (gradeLimitAmount n)
}.

(** Taking one badge apart from the rest. *)
Lemma size_of_grade n ids id g :
  id ∉ ids ->
  size (of_grade n ({[ id ]} ∪ ids) g) = ((if decide (grade_of n id = g) then 1 else 0) + size (of_grade n ids g))%nat.
Proof.
  intros Hid. unfold of_grade. case_decide as Hg.
  - replace (filter _ ({[ id ]} ∪ ids)) with ({[ id ]} ∪ filter (fun id => grade_of n id = g) ids).
    + rewrite size_union; [by rewrite size_singleton|set_solver].
    + apply set_eq. set_solver.
  - rewrite Nat.add_0_l. f_equal. apply set_eq. set_solver.
Qed.

Lemma of_grade_ext n n' ids g :
  (forall id, id ∈ ids -> grade_of n' id = grade_of n id) -> of_grade n' ids g = of_grade n ids g.
Proof. intros He. unfold of_grade. apply set_eq. intros id. rewrite !elem_of_filter. naive_solver. Qed.

Lemma grade_of_insert n amounts id g i :
  grade_of (with_grades n amounts (<[ id := g ]> (tokensGrade n))) i = if decide (i = id) then g else grade_of n i.
Proof.
  unfold grade_of. cbn. destruct (decide (i = id)) as [->|Hne]; [by rewrite lookup_insert_eq|].
  by rewrite lookup_insert_ne.
Qed.

Lemma elem_range n ids g x : nft_ok n ids -> elem (gradeAmount n) g = Ok x -> 0 <= g < 15.
Proof.
  intros Hok [Hg Hx]%elem_Ok. apply lookup_lt_Some in Hx. rewrite (proj1 (no_amount _ _ Hok)) in Hx. lia.
Qed.

(** The counts of the grades, when [rest] is what stays of the badges. *)
Lemma count_rest n ids id rest g :
  nft_ok n ids -> ids = {[ id ]} ∪ rest -> id ∉ rest -> 0 <= g < 15 ->
  elem (gradeAmount n) g = Ok (Z.of_nat (size (of_grade n rest g)) + (if decide (grade_of n id = g) then 1 else 0)).
Proof.
  intros Hok -> Hid Hg. rewrite (no_counts _ _ Hok g Hg), size_of_grade by done. f_equal. case_decide; lia.
Qed.

Lemma elem_uint256 l g x : Forall uint256 l -> elem l g = Ok x -> uint256 x.
Proof. intros Hl [_ Hx]%elem_Ok. by eapply Forall_lookup_1. Qed.

(** A count goes up by one below a limit, and down by one for a badge that exists. *)
Lemma mod_small x d : uint256 (x + d) -> (x + d) mod UINT256 = x + d.
Proof. intros Hx. apply Z.mod_small, Hx. Qed.

Lemma nft_ok_erc721 n ids t :
  nft_ok n ids -> (forall id, is_Some (erc721_owner t id) <-> is_Some (erc721_owner (nft_erc721 n) id)) ->
  nft_ok (with_erc721 n t) ids.
Proof. intros [] Ht. split; try done. intros id. rewrite no_ids0. symmetry. apply Ht. Qed.

Lemma mintTo_ok m n ids to id grade n' :
  nft_ok n ids -> mintTo m n to id grade = Ok n' ->
  nft_ok n' ({[ id ]} ∪ ids) /\ gradeLockHuskys n' = gradeLockHuskys n /\
  exists x, elem (gradeAmount n) grade = Ok x /\ gradeAmount n' = <[ Z.to_nat grade := x + 1 ]> (gradeAmount n).
Proof.
  intros Hok Hr. unfold mintTo in Hr. apply bind_Ok in Hr as (_ & _ & Hr).
  apply bind_Ok in Hr as (x & Hx & Hr). apply bind_Ok in Hr as (limit & Hlimit & Hr).
  apply bind_Ok in Hr as (balance & _ & Hr). apply bind_Ok in Hr as (_ & _ & Hr).
  apply bind_Ok in Hr as (_ & Hlt%require_Ok & Hr). to_props.
  apply bind_Ok in Hr as (t & [Hnew Hown]%erc721_mint_spec & Hr).
  apply bind_Ok in Hr as (amounts & (x' & Hx' & ->)%count_grade_Ok & Hr). injection Hr as <-.
  rewrite Hx in Hx'. injection Hx' as <-.
  assert (id ∉ ids) as Hid by (rewrite (no_ids _ _ Hok), Hnew; by intros []).
  pose proof (elem_range _ _ _ _ Hok Hx) as Hrange.
  pose proof (elem_uint256 _ _ _ (proj2 (no_amount _ _ Hok)) Hx) as Hux.
  pose proof (elem_uint256 _ _ _ (proj2 (no_limit _ _ Hok)) Hlimit) as Hul.
  assert (uint256 (x + 1)) as Hu by (unfold uint256 in *; lia). rewrite (mod_small _ _ Hu).
  split; [|split; [done|by exists x]].
  assert (forall i, i ∈ ids -> i <> id) as Hne by (intros i Hi ->; done).
  set (n' := with_grades _ _ _).
  assert (forall i, grade_of n' i = if decide (i = id) then grade else grade_of n i) as Hgr
    by (intros i; apply (grade_of_insert (with_erc721 n t))).
  destruct Hok. split; try done.
  - intros i. cbn. rewrite Hown, elem_of_union, elem_of_singleton, no_ids0. case_decide; naive_solver.
  - intros i [->%elem_of_singleton|Hi]%elem_of_union; rewrite Hgr; case_decide; try done; auto.
  - intros i Hi. rewrite Hgr, decide_False by set_solver. apply no_burned0. set_solver.
  - intros g Hg. change (gradeAmount n') with (<[ Z.to_nat grade := x + 1 ]> (gradeAmount n)).
    rewrite (elem_insert _ _ _ _ _ Hx), size_of_grade by done.
    rewrite Hgr, (decide_True (P := id = id)) by done. rewrite (of_grade_ext n).
    + destruct (decide (g = grade)) as [->|Hg'].
      * rewrite no_counts0 in Hx by done. injection Hx as <-. rewrite decide_True by done. f_equal. lia.
      * rewrite decide_False by done. by rewrite no_counts0.
    + intros i Hi. rewrite Hgr, decide_False; [done|auto].
  - destruct no_amount0. change (gradeAmount n') with (<[ Z.to_nat grade := x + 1 ]> (gradeAmount n)).
    split; [by rewrite length_insert|by apply uint256_insert].
Qed.

Lemma split_id n ids id : nft_ok n ids -> is_Some (erc721_owner (nft_erc721 n) id) ->
  ids = {[ id ]} ∪ (ids ∖ {[ id ]}) /\ id ∉ ids ∖ {[ id ]}.
Proof.
  intros Hok Hid%(no_ids _ _ Hok). split; [|set_solver]. apply union_difference_L. set_solver.
Qed.

Lemma burn_ok m n ids from id n' :
  nft_ok n ids -> BadgeNFT_burn m n from id = Ok n' ->
  nft_ok n' (ids ∖ {[ id ]}) /\ gradeLockHuskys n' = gradeLockHuskys n /\
  exists x, elem (gradeAmount n) (grade_of n id) = Ok x /\ 1 <= x /\
    gradeAmount n' = <[ Z.to_nat (grade_of n id) := x - 1 ]> (gradeAmount n).
Proof.
  intros Hok Hr. unfold BadgeNFT_burn in Hr. apply bind_Ok in Hr as (_ & _ & Hr).
  apply bind_Ok in Hr as (owner & _ & Hr). apply bind_Ok in Hr as (_ & _ & Hr).
  apply bind_Ok in Hr as (t & [Hex Hown]%erc721_burn_spec & Hr).
  apply bind_Ok in Hr as (amounts & (x & Hx & ->)%count_grade_Ok & Hr). injection Hr as <-.
  destruct (split_id _ _ _ Hok Hex) as [Eids Hid]. set (rest := ids ∖ {[ id ]}) in *.
  pose proof (elem_range _ _ _ _ Hok Hx) as Hrange.
  pose proof (elem_uint256 _ _ _ (proj2 (no_amount _ _ Hok)) Hx) as Hux.
  pose proof (count_rest _ _ _ _ _ Hok Eids Hid Hrange) as Hcount. rewrite Hx, decide_True in Hcount by done.
  injection Hcount as Ex.
  assert (uint256 (x + -1)) as Hu by (unfold uint256 in *; lia). rewrite (mod_small _ _ Hu).
  split; [|split; [done|exists x; split; [done|split; [lia|done]]]]. set (n' := with_grades _ _ _).
  assert (forall i, grade_of n' i = if decide (i = id) then 0 else grade_of n i) as Hgr
    by (intros i; apply (grade_of_insert (with_erc721 n t))).
  assert (forall i, i ∈ rest -> i <> id) as Hne by (intros i Hi ->; done).
  split; try done; try apply Hok.
  - intros i. cbn. rewrite Hown. unfold rest. rewrite elem_of_difference, elem_of_singleton, (no_ids _ _ Hok).
    case_decide; [|naive_solver]. split; [naive_solver|by intros []].
  - intros i Hi. rewrite Hgr, decide_False by auto. apply (no_grades _ _ Hok). unfold rest in Hi. set_solver.
  - intros i Hi. rewrite Hgr. case_decide; [done|]. apply (no_burned _ _ Hok). unfold rest in Hi. set_solver.
  - intros g Hg. change (gradeAmount n') with (<[ Z.to_nat (grade_of n id) := x + -1 ]> (gradeAmount n)).
    rewrite (elem_insert _ _ _ _ _ Hx), (of_grade_ext n) by (intros i Hi; rewrite Hgr, decide_False by auto; done).
    pose proof (count_rest _ _ _ _ _ Hok Eids Hid Hg) as Hc. destruct (decide (g = grade_of n id)) as [->|Hg'].
    + f_equal. lia.
    + rewrite Hc, decide_False by done. f_equal. lia.
  - change (gradeAmount n') with (<[ Z.to_nat (grade_of n id) := x + -1 ]> (gradeAmount n)).
    destruct (no_amount _ _ Hok). split; [by rewrite length_insert|by apply uint256_insert].
Qed.

Lemma upgrade_ok m n ids id grade' n' :
  nft_ok n ids -> is_Some (erc721_owner (nft_erc721 n) id) -> upgrade m n id grade' = Ok n' ->
  nft_ok n' ids /\ gradeLockHuskys n' = gradeLockHuskys n /\
  exists x y, elem (gradeAmount n) (grade_of n id) = Ok x /\ 1 <= x /\
    elem (<[ Z.to_nat (grade_of n id) := x - 1 ]> (gradeAmount n)) grade' = Ok y /\
    gradeAmount n' = <[ Z.to_nat grade' := y + 1 ]> (<[ Z.to_nat (grade_of n id) := x - 1 ]> (gradeAmount n)).
Proof.
  intros Hok Hex Hr. unfold upgrade in Hr. apply bind_Ok in Hr as (_ & _ & Hr). cbv zeta in Hr.
  apply bind_Ok in Hr as (_ & _ & Hr). apply bind_Ok in Hr as (z & Hz & Hr).
  apply bind_Ok in Hr as (limit & Hlimit & Hr). apply bind_Ok in Hr as (_ & Hlt%require_Ok & Hr). to_props.
  apply bind_Ok in Hr as (l1 & (x & Hx & ->)%count_grade_Ok & Hr).
  apply bind_Ok in Hr as (l2 & (y & Hy & ->)%count_grade_Ok & Hr). injection Hr as <-.
  set (grade := grade_of n id) in *. destruct (split_id _ _ _ Hok Hex) as [Eids Hid].
  set (rest := ids ∖ {[ id ]}) in *. destruct (no_amount _ _ Hok) as [Hlen Hall].
  pose proof (elem_range _ _ _ _ Hok Hx) as Hrange. pose proof (elem_range _ _ _ _ Hok Hz) as Hrange'.
  pose proof (elem_uint256 _ _ _ Hall Hx) as Hux. pose proof (elem_uint256 _ _ _ Hall Hz) as Huz.
  pose proof (elem_uint256 _ _ _ (proj2 (no_limit _ _ Hok)) Hlimit) as Hul.
  pose proof (count_rest _ _ _ _ _ Hok Eids Hid Hrange) as Hcount.
  rewrite Hx, (decide_True (P := grade_of n id = grade)) in Hcount by done. injection Hcount as Ex.
  assert (uint256 (x + -1)) as Hu by (unfold uint256 in *; lia). rewrite (mod_small _ _ Hu) in Hy |- *.
  pose proof Hy as Hyz. rewrite (elem_insert _ _ _ _ _ Hx), Hz in Hyz.
  assert (y = if decide (grade' = grade) then x + -1 else z) as Ey by (case_decide; congruence).
  assert (uint256 (y + 1)) as Hu' by (unfold uint256 in *; rewrite Ey; case_decide; lia). rewrite (mod_small _ _ Hu').
  split; [|split; [done|exists x, y; split_and!; [done|lia|exact Hy|done]]]. set (n' := with_grades _ _ _).
  assert (forall i, grade_of n' i = if decide (i = id) then grade' else grade_of n i) as Hgr
    by (intros i; apply (grade_of_insert n)).
  assert (forall i, i ∈ rest -> i <> id) as Hne by (intros i Hi ->; done).
  assert (forall g, of_grade n' rest g = of_grade n rest g) as Hrest
    by (intros g; apply of_grade_ext; intros i Hi; rewrite Hgr, decide_False by auto; done).
  split; try done; try apply Hok.
  - intros i Hi. rewrite Hgr. destruct (decide (i = id)); [done|]. by apply (no_grades _ _ Hok).
  - intros i Hi. rewrite Hgr. destruct (decide (i = id)) as [E|]; [|by apply (no_burned _ _ Hok)].
    subst i. exfalso. apply Hi. rewrite Eids. set_solver.
  - intros g Hg. change (gradeAmount n') with (<[ Z.to_nat grade' := y + 1 ]> (<[ Z.to_nat grade := x + -1 ]> (gradeAmount n))).
    rewrite (elem_insert _ _ _ _ _ Hy), (elem_insert _ _ _ _ _ Hx), Eids, size_of_grade by done.
    rewrite Hrest, Hgr, (decide_True (P := id = id)) by done.
    pose proof (count_rest _ _ _ _ _ Hok Eids Hid Hg) as Hc. fold grade in Hc.
    pose proof (count_rest _ _ _ _ _ Hok Eids Hid Hrange') as Hc'. rewrite Hz in Hc'. fold grade in Hc'.
    injection Hc' as Ez. rewrite Hc. clear - Ex Ey Ez. clearbody grade rest.
    repeat case_decide; try congruence; f_equal; subst; try lia; congruence.
  - change (gradeAmount n') with (<[ Z.to_nat grade' := y + 1 ]> (<[ Z.to_nat grade := x + -1 ]> (gradeAmount n))).
    split; [by rewrite !length_insert|]. apply uint256_insert; [by apply uint256_insert|done].
Qed.

Lemma set_grade_ok (gs : list Z) points huskys amounts :
  Forall uint256 points -> Forall uint256 huskys -> Forall uint256 amounts -> forall n s idx n',
  nft_ok n s -> set_grade gs points huskys amounts n idx = Ok n' -> nft_ok n' s.
Proof.
  intros Hp Hh Ha n s idx n' Hok Hr. unfold set_grade in Hr.
  apply bind_Ok in Hr as (id & _ & Hr). apply bind_Ok in Hr as (x & Hx%of_option_Ok & Hr).
  apply bind_Ok in Hr as (need & [_ ->]%set_elem_Ok & Hr). apply bind_Ok in Hr as (y & Hy%of_option_Ok & Hr).
  apply bind_Ok in Hr as (locked & [_ ->]%set_elem_Ok & Hr). apply bind_Ok in Hr as (z & Hz%of_option_Ok & Hr).
  apply bind_Ok in Hr as (limit & [_ ->]%set_elem_Ok & Hr). injection Hr as <-.
  destruct Hok as [H1 H2 H3 H4 H5 [L1 F1] [L2 F2] [L3 F3]].
  split; try done; cbn -[uint256]; (split; [by rewrite length_insert|apply uint256_insert; [done|]]);
    [exact (Forall_lookup_1 _ _ _ _ Hp Hx)|exact (Forall_lookup_1 _ _ _ _ Hh Hy)|exact (Forall_lookup_1 _ _ _ _ Ha Hz)].
Qed.

Lemma setGradeInfo_ok m n s gs points huskys amounts n' :
  Forall uint256 points -> Forall uint256 huskys -> Forall uint256 amounts ->
  nft_ok n s -> setGradeInfo m n gs points huskys amounts = Ok n' -> nft_ok n' s.
Proof.
  intros Hp Hh Ha Hok Hr. unfold setGradeInfo in Hr. apply bind_Ok in Hr as (_ & _ & Hr). cbv zeta in Hr.
  refine (foldM_invariant (fun n => nft_ok n s) _ _ _ _ _ _ Hr); [destruct Hok; by split|].
  intros n1 i n2 _ H1 H2. by eapply set_grade_ok; [..|exact H2].
Qed.

(** ** Every history of the badges

    The calls of operators and of the owner.  No operator upgrades a badge that does not
    exist: the relayer does not (BadgeLocks.v), and BadgeNFT does not ask. *)
Inductive nft_step : BadgeNFT -> BadgeNFT -> Prop :=
| nft_transferred m n from to id n' : BadgeNFT_transferFrom m n from to id = Ok n' -> nft_step n n'
| nft_safely_transferred m n from to id d n' : BadgeNFT_safeTransferFrom m n from to id d = Ok n' -> nft_step n n'
| nft_burned m n from id n' : BadgeNFT_burn m n from id = Ok n' -> nft_step n n'
| nft_minted m n to id g n' : mintTo m n to id g = Ok n' -> nft_step n n'
| nft_upgraded m n id g n' : is_Some (erc721_owner (nft_erc721 n) id) -> upgrade m n id g = Ok n' -> nft_step n n'
| nft_named m n id uri n' : setTokenURI m n id uri = Ok n' -> nft_step n n'
| nft_operated m n ops ok n' : setOperatorsOk m n ops ok = Ok n' -> nft_step n n'
| nft_info m n gs points huskys amounts n' : Forall uint256 points -> Forall uint256 huskys -> Forall uint256 amounts ->
    setGradeInfo m n gs points huskys amounts = Ok n' -> nft_step n n'
| nft_handed n o : nft_step n {| nft_owner := o; nft_erc721 := nft_erc721 n; GRADE_LIMIT := GRADE_LIMIT n;
    gradeNeedPoints := gradeNeedPoints n; gradeLockHuskys := gradeLockHuskys n; gradeLimitAmount := gradeLimitAmount n;
    gradeAmount := gradeAmount n; tokensGrade := tokensGrade n; nft_operators := nft_operators n |}.

Inductive nft_reachable : BadgeNFT -> Prop :=
| nft_fresh m : nft_reachable (new_BadgeNFT m)
| nft_next n n' : nft_reachable n -> nft_step n n' -> nft_reachable n'.

Lemma owner_moved (o o' : Z -> option address) id a i :
  is_Some (o id) -> (forall i, o' i = if decide (i = id) then Some a else o i) -> is_Some (o' i) <-> is_Some (o i).
Proof. intros Hid Ho. rewrite Ho. case_decide; subst; [|done]. split; [done|by eexists]. Qed.

Lemma nft_step_ok n n' : nft_step n n' -> (exists ids, nft_ok n ids) -> exists ids, nft_ok n' ids.
Proof.
  intros Hstep [s Hok]. destruct Hstep as [m n from to id n' Hr|m n from to id d n' Hr|m n from id n' Hr|m n to id g n' Hr
    |m n id g n' Hex Hr|m n id uri n' Hr|m n ops ok n' Hr|m n gs points huskys amounts n' Hp Hh Ha Hr|n o].
  - unfold BadgeNFT_transferFrom in Hr. apply bind_Ok in Hr as (_ & _ & Hr).
    apply bind_Ok in Hr as (t & [Hfrom Ht]%erc721_transfer_spec & Hr). injection Hr as <-. exists s.
    apply nft_ok_erc721; [done|]. intros i. eapply owner_moved; [|exact Ht]. by eexists.
  - unfold BadgeNFT_safeTransferFrom in Hr. apply bind_Ok in Hr as (_ & _ & Hr).
    apply bind_Ok in Hr as (t & [Hfrom Ht]%erc721_safeTransfer_spec & Hr). injection Hr as <-. exists s.
    apply nft_ok_erc721; [done|]. intros i. eapply owner_moved; [|exact Ht]. by eexists.
  - eexists. by eapply burn_ok.
  - eexists. by eapply mintTo_ok.
  - eexists. by eapply upgrade_ok.
  - unfold setTokenURI in Hr. apply bind_Ok in Hr as (_ & _ & Hr).
    apply bind_Ok in Hr as (t & Ht & Hr). injection Hr as <-. exists s. pose proof (erc721_uri_spec _ _ _ _ Ht) as Hu.
    apply nft_ok_erc721; [done|]. intros i. by rewrite Hu.
  - unfold setOperatorsOk in Hr. apply bind_Ok in Hr as (_ & _ & Hr). injection Hr as <-. exists s. destruct Hok. by split.
  - exists s. by eapply setGradeInfo_ok; [..|exact Hr].
  - exists s. destruct Hok. by split.
Qed.

Lemma new_BadgeNFT_ok m : nft_ok (new_BadgeNFT m) ∅.
Proof.
  assert (forall k, Forall uint256 (replicate k 0)) as Hz by (intros k; apply Forall_replicate; split; [done|reflexivity]).
  split; cbn [new_BadgeNFT gradeAmount gradeNeedPoints gradeLockHuskys gradeLimitAmount nft_erc721]; try (by split).
  - intros id. rewrite erc721_new_owner. split; [set_solver|by intros []].
  - intros g Hg. unfold of_grade. replace (filter _ ∅) with (∅ : gset Z) by (apply set_eq; set_solver).
    rewrite size_empty. apply elem_Ok. split; [lia|]. apply lookup_replicate. unfold GRADE_CEILING. lia.
Qed.

Lemma nft_reachable_ok n : nft_reachable n -> exists ids, nft_ok n ids.
Proof.
  induction 1 as [m|n n' _ IH Hstep]; [eexists; apply new_BadgeNFT_ok|by eapply nft_step_ok].
Qed.

End Nft.

(** ** Invitations *)

(** Whoever names their own code as that of their inviter is their own inviter, and each
    minting of points to them pays the reward for the invitation, too. *)
Lemma self_invitation `{OpenZeppelin} m (p : BadgePoints) a code q :
  makeInviteRelation m p a code code = Ok q -> 0 <= bp_allocPoint p ->
  inviter q a = a /\
  forall m' v q', 0 <= v < UINT256 -> BadgePoints_mint m' q a v = Ok q' ->
    erc20_balanceOf (bp_erc20 q') a = erc20_balanceOf (bp_erc20 p) a + v + bp_allocPoint p * v / 100.
Proof.
  intros Hr Halloc. unfold makeInviteRelation in Hr. inv_result. to_props. subst q.
  assert (forall c o r, inviter (with_invites p c o (<[ a := default zero_address (<[ code := a ]> (inviteCodesOwner p) !! code) ]> r)) a = a) as Hinv
    by (intros c o r; unfold inviter; cbn; by rewrite !lookup_insert_eq).
  split; [apply Hinv|]. intros m' v q' Hv Hr. unfold BadgePoints_mint in Hr. set (q := with_invites _ _ _ _) in Hr.
  assert (deleted (invite_of q a) = false) as Hd by (unfold invite_of; cbn; by rewrite lookup_insert_eq).
  rewrite Hd in Hr. apply bind_Ok in Hr as (_ & _ & Hr). apply bind_Ok in Hr as (q1 & Hq1 & Hr).
  apply bind_Ok in Hq1 as (t1 & (_ & Ht1 & _)%erc20_mint_spec & Hq1). injection Hq1 as <-.
  change (inviter (with_bp_erc20 q t1) a) with (inviter q a) in Hr.
  assert (inviter q a = a) as Hi by apply Hinv. rewrite Hi in Hr.
  rewrite bool_decide_eq_false_2 in Hr by done.
  change (deleted (invite_of (with_bp_erc20 q t1) a)) with (deleted (invite_of q a)) in Hr. rewrite Hd in Hr.
  apply bind_Ok in Hr as (x & Hx & Hr). apply sm_mul_inv in Hx as [-> _]; [|done].
  apply bind_Ok in Hr as (y & [-> _]%sm_div_Ok & Hr). apply bind_Ok in Hr as (t2 & (_ & Ht2 & _)%erc20_mint_spec & Hr).
  injection Hr as <-. cbn [bp_erc20 with_bp_erc20]. rewrite Ht2. cbn [bp_erc20 with_bp_erc20]. rewrite Ht1.
  reflexivity.
Qed.
