(* ===== verification/BadgeRelayer.v ===== *)
(** * The badge relayer

    BadgeRelayer.sol, through which users mint, upgrade, transfer and burn badges: it spends
    their points, locks HUSKI with FairLaunch and keeps the grades in BadgeNFT.  The record
    [Badges] holds all the contracts that it calls. *)

From S2P Require Import Prelude Buffers MerkleTree BalanceTree Evm Uint HuskyToken FairLaunch Lending Badges Staking.

Local Open Scope Z_scope.

Record BadgeRelayer := {
  br_owner : address;
  br_husky : address;
  br_fairLaunch : address;
  br_badgeNft : address;
  br_badgePoints : address;
  br_complexOracle : address;
  br_config : address
}.

Record Badges `{OpenZeppelin} `{ERC721} := {
  staking : Stakes;                      (* FairLaunch, HUSKI, the debt tokens, points, oracles *)
  relayer : BadgeRelayer;
  relayer_address : address;
  nft : BadgeNFT;
  nft_address : address;
  vault_configs : gmap address BasicVaultConfig;
  native_relayers : gmap address WNativeRelayer;
  coins : gmap address Erc20;            (* tokens of OpenZeppelin's kind *)
  others : gset address                  (* contracts that are no tokens *)
}.

Section Relayer.
Context `{OpenZeppelin} `{ERC721}.

Definition with_staking (w : Badges) (s : Stakes) : Badges :=
  {| staking := s; relayer := relayer w; relayer_address := relayer_address w; nft := nft w;
     nft_address := nft_address w; vault_configs := vault_configs w; native_relayers := native_relayers w;
     coins := coins w; others := others w |}.

Definition with_relayer (w : Badges) (r : BadgeRelayer) : Badges :=
  {| staking := staking w; relayer := r; relayer_address := relayer_address w; nft := nft w;
     nft_address := nft_address w; vault_configs := vault_configs w; native_relayers := native_relayers w;
     coins := coins w; others := others w |}.

Definition with_nft (w : Badges) (n : BadgeNFT) : Badges :=
  {| staking := staking w; relayer := relayer w; relayer_address := relayer_address w; nft := n;
     nft_address := nft_address w; vault_configs := vault_configs w; native_relayers := native_relayers w;
     coins := coins w; others := others w |}.

Definition with_coins (w : Badges) (c : gmap address Erc20) : Badges :=
  {| staking := staking w; relayer := relayer w; relayer_address := relayer_address w; nft := nft w;
     nft_address := nft_address w; vault_configs := vault_configs w; native_relayers := native_relayers w;
     coins := c; others := others w |}.

Definition BadgeRelayer_initialize (m : Msg)
    (_husky _fairLaunch _badgeNft _badgePoints _complexOracle _config : address) : BadgeRelayer :=
  {| br_owner := sender m; br_husky := _husky; br_fairLaunch := _fairLaunch; br_badgeNft := _badgeNft;
     br_badgePoints := _badgePoints; br_complexOracle := _complexOracle; br_config := _config |}.

Definition br_updateConfig (m : Msg) (r : BadgeRelayer) (_config : address) : result BadgeRelayer :=
  onlyOwner (br_owner r) m ;;
  Ok {| br_owner := br_owner r; br_husky := br_husky r; br_fairLaunch := br_fairLaunch r;
        br_badgeNft := br_badgeNft r; br_badgePoints := br_badgePoints r;
        br_complexOracle := br_complexOracle r; br_config := _config |}.

(** ** The contracts that the relayer calls *)

Definition husky_at (w : Badges) : result HuskyToken :=
  require (bool_decide (br_husky (relayer w) = husky (fair_launch (staking w)))) EmptyString ;;
  Ok (husky_token (staking w)).

Definition points_of (w : Badges) : result BadgePoints :=
  of_option (points_at (staking w) !! br_badgePoints (relayer w)) EmptyString.

Definition nft_of (w : Badges) : result BadgeNFT :=
  require (bool_decide (br_badgeNft (relayer w) = nft_address w)) EmptyString ;; Ok (nft w).

Definition config_of (w : Badges) : result BasicVaultConfig :=
  of_option (vault_configs w !! br_config (relayer w)) EmptyString.

Definition call_points (m : Msg) (w : Badges) (op : Msg -> BadgePoints -> result BadgePoints) : result Badges :=
  let a := br_badgePoints (relayer w) in
  s ← on_points (staking w) a (op (call_from m a)); Ok (with_staking w s).

Definition call_nft (m : Msg) (w : Badges) (op : Msg -> BadgeNFT -> result BadgeNFT) : result Badges :=
  n ← nft_of w; n ← op (call_from m (nft_address w)) n; Ok (with_nft w n).

Definition call_fair (m : Msg) (w : Badges) (op : Msg -> Stakes -> result Stakes) : result Badges :=
  require (bool_decide (br_fairLaunch (relayer w) = fair_address (staking w))) EmptyString ;;
  s ← op (call_from m (br_fairLaunch (relayer w))) (staking w); Ok (with_staking w s).

(** ** Any token, by low-level calls

    SafeToken.sol on the address [tok]: HUSKI, a debt token, the points, the badges -- whose
    [transferFrom] has the selector of ERC-20 --, another token; a contract without the
    function reverts, and the call of an address without code succeeds. *)

Definition low_transferFrom (m : Msg) (w : Badges) (tok from to : address) (v : Z) : result Badges :=
  let s := staking w in
  if bool_decide (tok = husky (fair_launch s)) then
    s ← on_husky s (fun h => husky_transferFrom (call_from m tok) h from to v); Ok (with_staking w s)
  else if bool_decide (is_Some (debts s !! tok)) then
    s ← on_debt s tok (fun d => DebtToken_transferFrom (call_from m tok) d from to v); Ok (with_staking w s)
  else if bool_decide (is_Some (points_at s !! tok)) then
    s ← on_points s tok (fun p => BadgePoints_transferFrom (call_from m tok) p from to v); Ok (with_staking w s)
  else if bool_decide (tok = nft_address w) then
    n ← BadgeNFT_transferFrom (call_from m tok) (nft w) from to v; Ok (with_nft w n)
  else match coins w !! tok with
  | Some t =>
      t ← erc20_transfer t from to v;
      left ← sm_sub (erc20_allowance t from (self m)) v "ERC20: transfer amount exceeds allowance";
      t ← erc20_approve t from (self m) left;
      Ok (with_coins w (<[ tok := t ]> (coins w)))
  | None => require (bool_decide (tok ∉ others w)) EmptyString ;; Ok w
  end.

Definition low_transfer (m : Msg) (w : Badges) (tok to : address) (v : Z) : result Badges :=
  let s := staking w in
  if bool_decide (tok = husky (fair_launch s)) then
    s ← on_husky s (fun h => husky_transfer (call_from m tok) h to v); Ok (with_staking w s)
  else if bool_decide (is_Some (debts s !! tok)) then
    s ← on_debt s tok (fun d => DebtToken_transfer (call_from m tok) d to v); Ok (with_staking w s)
  else if bool_decide (is_Some (points_at s !! tok)) then
    s ← on_points s tok (fun p => BadgePoints_transfer (call_from m tok) p to v); Ok (with_staking w s)
  else if bool_decide (tok = nft_address w) then Err EmptyString
  else match coins w !! tok with
  | Some t => t ← erc20_transfer t (self m) to v; Ok (with_coins w (<[ tok := t ]> (coins w)))
  | None => require (bool_decide (tok ∉ others w)) EmptyString ;; Ok w
  end.

Definition safely {A} (r : result A) (message : string) : result A :=
  match r with Ok a => Ok a | Err _ => Err message end.

(** WETH.sol, [deposit] by the relayer, as a checked credit: the native currency itself is not
    followed, since no call that brings some succeeds ([unwrap_for_relayer]). *)
Definition wrap (m : Msg) (w : Badges) (weth : address) (v : Z) : result Badges :=
  t ← of_option (coins w !! weth) EmptyString;
  t ← erc20_mint t (self m) v;
  Ok (with_coins w (<[ weth := t ]> (coins w))).

(** [transferTokenToRelayer] *)
Definition transferTokenToRelayer (m : Msg) (w : Badges) (msg_value : Z) (tok : address) (value : Z) :
    result Badges :=
  if negb (msg_value =? 0) then
    c ← config_of w;
    require (bool_decide (tok = wrappedNative c)) "Vault::transferTokenToRelayer: baseToken is not wNative" ;;
    require (value =? msg_value) "Vault::transferTokenToRelayer: value != msg.value" ;;
    wrap m w (wrappedNative c) msg_value
  else safely (low_transferFrom m w tok (sender m) (self m) value) "!safeTransferFrom".

(** WNativeRelayer.withdraw, called by the relayer, which has no function to receive native
    currency with: the transfer back fails. *)
Definition unwrap_for_relayer (m : Msg) (w : Badges) (a : address) (_amount : Z) : result Badges :=
  r ← of_option (native_relayers w !! a) EmptyString;
  require (default false (okCallers r !! self m)) "WNativeRelayer::onlyWhitelistedCaller: !okCaller" ;;
  t ← of_option (coins w !! wnative r) EmptyString;
  t ← erc20_burn t a _amount;
  Err "WNativeRelayer::onlyWhitelistedCaller: can't withdraw".

(** ** BadgeRelayer.sol *)

Definition mintBadge (m : Msg) (w : Badges) (_tokenId : Z) (_tokenURI : string)
    (_grade _userCode _inviteCode : Z) : result Badges :=
  p ← points_of w;
  let balancePoints := erc20_balanceOf (bp_erc20 p) (sender m) in
  h ← husky_at w;
  let balanceHusky := erc20_balanceOf (husky_erc20 h) (sender m) in
  n ← nft_of w;
  gradeLockHusky ← elem (gradeLockHuskys n) _grade;
  need ← elem (gradeNeedPoints n) _grade;
  require (need <=? balancePoints) "mintBadge: Points not enough" ;;
  require (gradeLockHusky <=? balanceHusky) "mintBadge: Husky not enough" ;;
  w ← call_points m w (fun m' p => makeInviteRelation m' p (sender m) _userCode _inviteCode);
  w ← call_nft m w (fun m' n => mintTo m' n (sender m) _tokenId _grade);
  w ← call_nft m w (fun m' n => setTokenURI m' n _tokenId _tokenURI);
  call_fair m w (fun m' s => lockToFair m' s (sender m) gradeLockHusky).

Definition upgradeBadge (m : Msg) (w : Badges) (_tokenId _newGrade : Z) : result Badges :=
  n ← nft_of w;
  let grade := grade_of n _tokenId in
  require (grade <? _newGrade) "upgradeBadge: NewGrade not biger" ;;
  p ← points_of w;
  let balancePoints := erc20_balanceOf (bp_erc20 p) (sender m) in
  h ← husky_at w;
  let balanceHusky := erc20_balanceOf (husky_erc20 h) (sender m) in
  gradeLockHusky ← elem (gradeLockHuskys n) grade;
  nextGradeLockHusky ← elem (gradeLockHuskys n) _newGrade;
  owner ← of_option (erc721_owner (nft_erc721 n) _tokenId) "ERC721: owner query for nonexistent token";
  require (bool_decide (sender m = owner)) "upgradeBadge: Sender not owner" ;;
  need ← elem (gradeNeedPoints n) _newGrade;
  require (need <=? balancePoints) "upgradeBadge: Points not enough" ;;
  require ((nextGradeLockHusky - gradeLockHusky) mod UINT256 <=? balanceHusky) "upgradeBadge: Husky not enough" ;;
  w ← call_nft m w (fun m' n => upgrade m' n _tokenId _newGrade);
  more ← sm_sub nextGradeLockHusky gradeLockHusky SUB_OVERFLOW;
  call_fair m w (fun m' s => lockToFair m' s (sender m) more).

(** [transferBadge{value: msg_value}(_token, _amount, _to, _tokenId, _userCode)]: the caller
    takes the badge of [_to], who is paid the amount that the caller names. *)
Definition transferBadge (m : Msg) (w : Badges) (msg_value : Z) (_token : address) (_amount : Z)
    (_to : address) (_tokenId _userCode : Z) : result Badges :=
  w ← transferTokenToRelayer m w msg_value _token _amount;
  n ← nft_of w;
  gradePoints ← elem (gradeNeedPoints n) (grade_of n _tokenId);
  w ← call_points m w (fun m' p => makeInviteRelation m' p (sender m) _userCode 0);
  w ← call_nft m w (fun m' n => BadgeNFT_transferFrom m' n _to (sender m) _tokenId);
  w ← call_points m w (fun m' p => BadgePoints_transferFrom m' p _to (sender m) gradePoints);
  c ← config_of w;
  if bool_decide (_token = wrappedNative c) then
    w ← safely (low_transfer m w _token (wNativeRelayer c) _amount) "!safeTransfer";
    unwrap_for_relayer m w (wNativeRelayer c) _amount
  else safely (low_transfer m w _token _to _amount) "!safeTransfer".

Definition burnBadge (m : Msg) (w : Badges) (_tokenId : Z) : result Badges :=
  n ← nft_of w;
  gradeLockHusky ← elem (gradeLockHuskys n) (grade_of n _tokenId);
  w ← call_nft m w (fun m' n => BadgeNFT_burn m' n (sender m) _tokenId);
  w ← call_points m w (fun m' p => deleteInvite m' p (sender m));
  call_fair m w (fun m' s => unlockFromOwner m' s (sender m) gradeLockHusky).

Definition mintPoints (m : Msg) (w : Badges) (_account _stakeToken : address) (_amount _multiplier : Z) :
    result Badges :=
  onlyOwner (br_owner (relayer w)) m ;;
  o ← of_option (prices_at (staking w) !! br_complexOracle (relayer w)) EmptyString;
  '(price, _) ← cpo_getPrice o _stakeToken;
  x ← sm_mul _amount price;
  y ← sm_mul x _multiplier;
  amount ← sm_div y (10 ^ 18);
  call_points m w (fun m' p => BadgePoints_mint m' p _account amount).

(** The calls of users. *)
Inductive BadgeCall :=
| MintBadge (_tokenId : Z) (_tokenURI : string) (_grade _userCode _inviteCode : Z)
| UpgradeBadge (_tokenId _newGrade : Z)
| TransferBadge (msg_value : Z) (_token : address) (_amount : Z) (_to : address) (_tokenId _userCode : Z)
| BurnBadge (_tokenId : Z).

Definition badge_call (m : Msg) (w : Badges) (c : BadgeCall) : result Badges :=
  match c with
  | MintBadge id uri grade code invite => mintBadge m w id uri grade code invite
  | UpgradeBadge id grade => upgradeBadge m w id grade
  | TransferBadge value tok amount to id code => transferBadge m w value tok amount to id code
  | BurnBadge id => burnBadge m w id
  end.
End Relayer.
