(* ===== verification/BadgeLocks.v ===== *)
(** * The HUSKI locked for badges

    What FairLaunch holds against the locks of all badges, and the counts of their grades,
    through every history of the relayer's calls; and what a badge is worth to anyone who asks for it. *)

From S2P Require Import Prelude Buffers MerkleTree BalanceTree Evm Uint HuskyToken FairLaunch Lending Badges Staking.
From S2P Require Import Pending BadgeRelayer BadgeTheory.

Local Open Scope Z_scope.

(** ** What is locked for the badges *)

(** Each count times its weight, together. *)
Definition weigh (l k : list Z) : Z := foldr Z.add 0 (zip_with Z.mul l k).

Lemma weigh_insert l k i x y v :
  l !! i = Some x -> k !! i = Some y -> weigh (<[ i := v ]> l) k = weigh l k + (v - x) * y.
Proof.
  revert k i. induction l as [|a l IH]; intros [|b k] [|i] Hl Hk; try done.
  - injection Hl as ->. injection Hk as ->. unfold weigh. cbn. lia.
  - change (<[ S i := v ]> (a :: l)) with (a :: <[ i := v ]> l). specialize (IH k i Hl Hk).
    unfold weigh in *. cbn [zip_with foldr]. lia.
Qed.

Lemma weigh_nonneg l k : Forall uint256 l -> Forall uint256 k -> 0 <= weigh l k.
Proof.
  intros Hl. revert k. induction Hl as [|a l Ha Hl IH]; intros k Hk; [done|].
  destruct Hk as [|b k Hb Hk]; [done|]. specialize (IH k Hk). unfold weigh, uint256 in *. cbn. nia.
Qed.

Lemma weigh_le l k k' :
  length k' = length k ->
  (forall i x y y', l !! i = Some x -> k !! i = Some y -> k' !! i = Some y' -> x * y' <= x * y) ->
  weigh l k' <= weigh l k.
Proof.
  revert k k'. induction l as [|a l IH]; intros [|b k] [|b' k'] Hlen Hle; try done.
  unfold weigh in *. cbn. pose proof (Hle 0%nat a b b' eq_refl eq_refl eq_refl).
  specialize (IH k k' ltac:(by injection Hlen) (fun i => Hle (S i))). lia.
Qed.

Section System.
Context `{OpenZeppelin} `{ERC721}.
Implicit Types (w : Badges) (s : Stakes) (a b : address).

Definition locked (n : BadgeNFT) : Z := weigh (gradeAmount n) (gradeLockHuskys n).

Definition huski_of s a : Z := erc20_balanceOf (husky_erc20 (husky_token s)) a.
Definition fair_huski w : Z := huski_of (staking w) (fair_address (staking w)).

Lemma locked_nonneg n ids : nft_ok n ids -> 0 <= locked n.
Proof. intros Hok. apply weigh_nonneg; [apply (no_amount _ _ Hok)|apply (no_lock _ _ Hok)]. Qed.

Lemma weigh_elem l k g x y v :
  elem l g = Ok x -> elem k g = Ok y -> weigh (<[ Z.to_nat g := v ]> l) k = weigh l k + (v - x) * y.
Proof. intros [_ Hx]%elem_Ok [_ Hy]%elem_Ok. by apply weigh_insert. Qed.

(** ** HUSKI in motion *)

Lemma safeHuskyTransfer_spec m s to v s' : safeHuskyTransfer m s to v = Ok s' ->
  let x := Z.min v (huski_of s (self m)) in
  (forall b, huski_of s' b = huski_of s b - (if decide (b = self m) then x else 0) + (if decide (b = to) then x else 0)) /\
  fair_address s' = fair_address s /\ fair_launch s' = fair_launch s.
Proof.
  unfold safeHuskyTransfer, on_husky. intros Hr. cbv zeta in Hr. apply bind_Ok in Hr as (h & Hh & Hr).
  injection Hr as <-. apply husky_transfer_erc20 in Hh as [_ Hh]. split; [|done]. intros b.
  unfold huski_of at 1. cbn [husky_token with_husky]. rewrite Hh. cbn [sender call_from].
  unfold huski_of in *. set (bal := erc20_balanceOf _ (self m)).
  replace (if bal <? v then bal else v) with (Z.min v bal); [done|]. destruct (Z.ltb_spec bal v); lia.
Qed.

Lemma lockToFair_spec m s a v s' : lockToFair m s a v = Ok s' ->
  v <= huski_of s a /\
  (forall b, huski_of s' b = huski_of s b - (if decide (b = a) then v else 0) + (if decide (b = self m) then v else 0)) /\
  fair_address s' = fair_address s /\ fair_launch s' = fair_launch s.
Proof.
  unfold lockToFair, on_husky, lockToOwner. intros Hr. apply bind_Ok in Hr as (_ & _ & Hr).
  apply bind_Ok in Hr as (h & Hh & Hr). injection Hr as <-.
  apply bind_Ok in Hh as (_ & Hown%onlyOwner_Ok & Hh). apply bind_Ok in Hh as (_ & _ & Hh).
  apply bind_Ok in Hh as (_ & _ & Hh). apply bind_Ok in Hh as (t & (Hle & _ & Ht)%erc20_transfer_spec & Hh).
  injection Hh as <-. rewrite Hown in Ht. by split.
Qed.

(** With enough HUSKI on its account FairLaunch pays all of it, a tenth to the developer. *)
Lemma unlockFromOwner_spec m s a v s' : unlockFromOwner m s a v = Ok s' -> 0 <= v <= huski_of s (self m) ->
  let dev := devaddr (fair_launch s) in
  (forall b, huski_of s' b = huski_of s b - (if decide (b = self m) then v else 0)
     + (if decide (b = dev) then v / 10 else 0) + (if decide (b = a) then v - v / 10 else 0)) /\
  fair_address s' = fair_address s /\ fair_launch s' = fair_launch s.
Proof.
  unfold unlockFromOwner. intros Hr Hv. apply bind_Ok in Hr as (_ & _ & Hr).
  apply bind_Ok in Hr as (x & [-> _]%sm_div_Ok & Hr).
  apply bind_Ok in Hr as (s1 & (H1 & Ea1 & Ef1)%safeHuskyTransfer_spec & Hr).
  apply bind_Ok in Hr as (y & [-> _]%sm_sub_Ok & Hr). apply safeHuskyTransfer_spec in Hr as (H2 & Ea2 & Ef2).
  pose proof (div_bounds v 10 ltac:(lia)) as Hd.
  assert (0 <= v / 10 <= v) as Hq by (split; [apply Z.div_pos; lia|lia]).
  rewrite Z.min_l in H1 by lia. pose proof (H1 (self m)) as Hself. rewrite decide_True in Hself by done.
  rewrite Z.min_l in H2 by (rewrite Hself; case_decide; lia).
  split; [|split; congruence]. intros b. rewrite H2, H1. repeat case_decide; lia.
Qed.

(** ** Calls that leave the locks *)

Record kept w w' : Prop := {
  kp_fair : fair_address (staking w') = fair_address (staking w);
  kp_huski : fair_huski w <= fair_huski w';
  kp_nft : forall ids, nft_ok (nft w) ids -> nft_ok (nft w') ids;
  kp_locked : locked (nft w') = locked (nft w)
}.

#[export] Instance kept_preorder : PreOrder kept.
Proof. split; [by split|]. intros w1 w2 w3 [] []. split; [congruence|lia|auto|congruence]. Qed.

Lemma kept_staking w s : fair_address s = fair_address (staking w) ->
  huski_of (staking w) (fair_address (staking w)) <= huski_of s (fair_address (staking w)) -> kept w (with_staking w s).
Proof. intros Ha Hb. split; [done| |done..]. unfold fair_huski. cbn. by rewrite Ha. Qed.

Lemma kept_nft w n : (forall ids, nft_ok (nft w) ids -> nft_ok n ids) -> locked n = locked (nft w) -> kept w (with_nft w n).
Proof. by split. Qed.

Lemma call_points_inv m w op w' : call_points m w op = Ok w' -> exists p,
  w' = with_staking w (with_points (staking w) p).
Proof. unfold call_points, on_points. intros Hr. inv_result. subst. by eexists. Qed.

Lemma call_points_kept m w op w' : call_points m w op = Ok w' -> kept w w'.
Proof. intros (p & ->)%call_points_inv. by apply kept_staking. Qed.

Lemma call_nft_inv m w op w' : call_nft m w op = Ok w' -> exists n,
  op (call_from m (nft_address w)) (nft w) = Ok n /\ w' = with_nft w n.
Proof. unfold call_nft, nft_of. intros Hr. inv_result. subst. by eexists. Qed.

Lemma call_fair_inv m w op w' : call_fair m w op = Ok w' -> exists s,
  op (call_from m (fair_address (staking w))) (staking w) = Ok s /\ w' = with_staking w s.
Proof. unfold call_fair. intros Hr. inv_result. to_props. subst. eexists. split; [|done]. congruence. Qed.

Lemma BadgeNFT_transferFrom_kept m w from to id n :
  BadgeNFT_transferFrom m (nft w) from to id = Ok n -> kept w (with_nft w n).
Proof.
  unfold BadgeNFT_transferFrom. intros Hr. apply bind_Ok in Hr as (_ & _ & Hr).
  apply bind_Ok in Hr as (t & [Hfrom Ht]%erc721_transfer_spec & Hr). injection Hr as <-.
  apply kept_nft; [|done]. intros ids Hok. apply nft_ok_erc721; [done|].
  intros i. eapply owner_moved; [by eexists|exact Ht].
Qed.

Lemma setTokenURI_kept m w id uri n : setTokenURI m (nft w) id uri = Ok n -> kept w (with_nft w n).
Proof.
  unfold setTokenURI. intros Hr. apply bind_Ok in Hr as (_ & _ & Hr).
  apply bind_Ok in Hr as (t & Ht & Hr). injection Hr as <-. pose proof (erc721_uri_spec _ _ _ _ Ht) as Hu.
  apply kept_nft; [|done]. intros ids Hok. apply nft_ok_erc721; [done|]. intros i. by rewrite Hu.
Qed.

(** A token, whichever it is, that moves from an account that is not FairLaunch's. *)
Lemma low_transferFrom_kept m w tok from to v w' :
  from <> fair_address (staking w) -> 0 <= v -> low_transferFrom m w tok from to v = Ok w' -> kept w w'.
Proof.
  intros Hf Hv Hr. unfold low_transferFrom in Hr.
  destruct (bool_decide (tok = husky _)); [|destruct (bool_decide (is_Some (debts _ !! tok)));
    [|destruct (bool_decide (is_Some (points_at _ !! tok))); [|destruct (bool_decide (tok = nft_address w));
      [|destruct (coins w !! tok) as [t|]]]]].
  - apply bind_Ok in Hr as (s & Hs & Hr). injection Hr as <-. unfold on_husky, husky_transferFrom in Hs.
    apply bind_Ok in Hs as (h & Hh & Hs). injection Hs as <-.
    apply bind_Ok in Hh as (t & (_ & _ & Ht)%erc20_transfer_spec & Hh). apply bind_Ok in Hh as (left & _ & Hh).
    apply bind_Ok in Hh as (t2 & [Ht2 _]%erc20_approve_inv & Hh). apply moveDelegates_erc20 in Hh.
    apply kept_staking; [done|]. unfold huski_of at 2. cbn [husky_token with_husky]. rewrite Hh. cbn [husky_erc20 with_erc20].
    rewrite Ht2, Ht, decide_False by done. unfold huski_of. case_decide; lia.
  - apply bind_Ok in Hr as (s & Hs & Hr). injection Hr as <-. unfold on_debt in Hs. inv_result. subst s. by apply kept_staking.
  - apply bind_Ok in Hr as (s & Hs & Hr). injection Hr as <-. unfold on_points in Hs. inv_result. subst s. by apply kept_staking.
  - apply bind_Ok in Hr as (n & Hn & Hr). injection Hr as <-. by eapply BadgeNFT_transferFrom_kept.
  - inv_result. subst. by split.
  - inv_result. by subst.
Qed.

Lemma low_transfer_kept m w tok to v w' :
  self m <> fair_address (staking w) -> 0 <= v -> low_transfer m w tok to v = Ok w' -> kept w w'.
Proof.
  intros Hf Hv Hr. unfold low_transfer in Hr.
  destruct (bool_decide (tok = husky _)); [|destruct (bool_decide (is_Some (debts _ !! tok)));
    [|destruct (bool_decide (is_Some (points_at _ !! tok))); [|destruct (bool_decide (tok = nft_address w));
      [|destruct (coins w !! tok) as [t|]]]]].
  - apply bind_Ok in Hr as (s & Hs & Hr). injection Hr as <-. unfold on_husky in Hs.
    apply bind_Ok in Hs as (h & [_ Hh]%husky_transfer_erc20 & Hs). injection Hs as <-.
    apply kept_staking; [done|]. unfold huski_of at 2. cbn [husky_token with_husky]. rewrite Hh. cbn [sender call_from].
    rewrite decide_False by done. unfold huski_of. case_decide; lia.
  - apply bind_Ok in Hr as (s & Hs & Hr). injection Hr as <-. unfold on_debt in Hs. inv_result. subst s. by apply kept_staking.
  - apply bind_Ok in Hr as (s & Hs & Hr). injection Hr as <-. unfold on_points in Hs. inv_result. subst s. by apply kept_staking.
  - done.
  - inv_result. subst. by split.
  - inv_result. by subst.
Qed.

Lemma safely_Ok {A} (r : result A) msg x : safely r msg = Ok x <-> r = Ok x.
Proof. unfold safely. by destruct r. Qed.

(** ** The calls of users *)

Record user_of (m : Msg) w : Prop := {
  uo_self : self m = relayer_address w;
  uo_relayer : relayer_address w <> fair_address (staking w);
  uo_sender : sender m <> fair_address (staking w)
}.

Definition typed_badge (c : BadgeCall) : Prop :=
  match c with TransferBadge value _ amount _ _ _ => uint256 value /\ uint256 amount | _ => True end.

Definition badges_ok w : Prop := (exists ids, nft_ok (nft w) ids) /\ locked (nft w) <= fair_huski w.

Lemma kept_ok w w' : kept w w' -> badges_ok w -> badges_ok w'.
Proof. intros [Hf Hh Hn Hl] [[ids Hok] Hle]. split; [exists ids; auto|lia]. Qed.

Lemma nft_of_Ok w n : nft_of w = Ok n -> n = nft w.
Proof. unfold nft_of. intros Hr. by inv_result. Qed.

(** A lock that the last step adds. *)
Lemma locked_more m w w1 a v w' ids :
  call_fair m w1 (fun m' s => lockToFair m' s a v) = Ok w' ->
  a <> fair_address (staking w) -> fair_address (staking w1) = fair_address (staking w) ->
  fair_huski w <= fair_huski w1 -> nft_ok (nft w1) ids -> locked (nft w1) = locked (nft w) + v ->
  badges_ok w -> badges_ok w'.
Proof.
  intros (s & Hs & ->)%call_fair_inv Ha Hf Hh Hok Hl [_ Hle].
  apply lockToFair_spec in Hs as (_ & Hbal & Ef & _). split; [by exists ids|].
  unfold fair_huski in *. cbn [staking nft with_staking]. rewrite Ef, Hbal. cbn [self call_from].
  rewrite decide_False, decide_True by congruence. rewrite Hl. lia.
Qed.

Lemma mintBadge_ok m w id uri g code invite w' :
  user_of m w -> mintBadge m w id uri g code invite = Ok w' -> badges_ok w -> badges_ok w'.
Proof.
  intros [Hself Hrel Hsend] Hr Hw. unfold mintBadge in Hr. apply bind_Ok in Hr as (p & _ & Hr). cbv zeta in Hr.
  apply bind_Ok in Hr as (h & _ & Hr). apply bind_Ok in Hr as (n & ->%nft_of_Ok & Hr).
  apply bind_Ok in Hr as (v & Hv & Hr). do 3 (apply bind_Ok in Hr as (? & _ & Hr)).
  apply bind_Ok in Hr as (w1 & (p1 & ->)%call_points_inv & Hr).
  apply bind_Ok in Hr as (w2 & (n2 & Hn2 & ->)%call_nft_inv & Hr).
  apply bind_Ok in Hr as (w3 & (n3 & Hn3 & ->)%call_nft_inv & Hr).
  destruct Hw as [[ids Hok] Hle].
  destruct (mintTo_ok _ _ _ _ _ _ _ Hok Hn2) as (Hok2 & Elock & y & Hy & Eam).
  apply setTokenURI_kept in Hn3 as [_ _ Hkeep Hlock].
  eapply (locked_more m w); [exact Hr|done|done|done|by apply Hkeep| |by split; [exists ids|]].
  cbn [nft with_nft] in *. rewrite Hlock. unfold locked. rewrite Elock, Eam, (weigh_elem _ _ _ _ _ _ Hy Hv). lia.
Qed.

Lemma upgradeBadge_ok m w id g w' :
  user_of m w -> upgradeBadge m w id g = Ok w' -> badges_ok w -> badges_ok w'.
Proof.
  intros [Hself Hrel Hsend] Hr Hw. unfold upgradeBadge in Hr. apply bind_Ok in Hr as (n & ->%nft_of_Ok & Hr).
  cbv zeta in Hr. apply bind_Ok in Hr as (_ & _ & Hr). do 2 (apply bind_Ok in Hr as (? & _ & Hr)).
  apply bind_Ok in Hr as (v & Hv & Hr). apply bind_Ok in Hr as (v' & Hv' & Hr).
  apply bind_Ok in Hr as (owner & Howner%of_option_Ok & Hr). do 4 (apply bind_Ok in Hr as (? & _ & Hr)).
  apply bind_Ok in Hr as (w1 & (n1 & Hn1 & ->)%call_nft_inv & Hr).
  apply bind_Ok in Hr as (more & [-> _]%sm_sub_Ok & Hr). destruct Hw as [[ids Hok] Hle].
  destruct (upgrade_ok _ _ _ _ _ _ Hok ltac:(by eexists) Hn1) as (Hok1 & Elock & y & z & Hy & _ & Hz & Eam).
  eapply (locked_more m w); [exact Hr|done|done|done|exact Hok1| |by split; [exists ids|]].
  cbn [nft with_nft]. unfold locked.
  rewrite Elock, Eam, (weigh_elem _ _ _ _ _ _ Hz Hv'), (weigh_elem _ _ _ _ _ _ Hy Hv). lia.
Qed.

Lemma wrap_kept m w a v w' : wrap m w a v = Ok w' -> kept w w'.
Proof. unfold wrap. intros Hr. inv_result. subst. by split. Qed.

Lemma transferBadge_kept m w value tok amount to id code w' :
  user_of m w -> 0 <= amount -> transferBadge m w value tok amount to id code = Ok w' -> kept w w'.
Proof.
  intros [Hself Hrel Hsend] Ha Hr. unfold transferBadge in Hr. apply bind_Ok in Hr as (w1 & H1 & Hr).
  assert (kept w w1) as K1.
  { unfold transferTokenToRelayer in H1. destruct (negb _).
    - do 3 (apply bind_Ok in H1 as (? & _ & H1)). by eapply wrap_kept.
    - apply safely_Ok in H1. by eapply low_transferFrom_kept. }
  apply bind_Ok in Hr as (n & _ & Hr). apply bind_Ok in Hr as (need & _ & Hr).
  apply bind_Ok in Hr as (w2 & K2%call_points_kept & Hr).
  apply bind_Ok in Hr as (w3 & (n3 & Hn3%BadgeNFT_transferFrom_kept & ->)%call_nft_inv & Hr).
  apply bind_Ok in Hr as (w4 & K4%call_points_kept & Hr). apply bind_Ok in Hr as (c & _ & Hr).
  destruct (bool_decide (tok = wrappedNative c)).
  - apply bind_Ok in Hr as (w5 & _ & Hr). unfold unwrap_for_relayer in Hr. by inv_result.
  - apply safely_Ok in Hr. assert (kept w w4) as K by (etrans; [done|]; etrans; [done|]; by etrans).
    etrans; [exact K|]. eapply low_transfer_kept; [|done|exact Hr]. rewrite (kp_fair _ _ K). congruence.
Qed.

(** Burning: the holder gets the lock, less a tenth for the developer. *)
Lemma burnBadge_spec m w id w' :
  burnBadge m w id = Ok w' -> badges_ok w -> exists v,
  elem (gradeLockHuskys (nft w)) (grade_of (nft w) id) = Ok v /\
  fair_address (staking w') = fair_address (staking w) /\
  (exists ids, nft_ok (nft w') ids) /\ locked (nft w') = locked (nft w) - v /\ 0 <= v <= fair_huski w /\
  let dev := devaddr (fair_launch (staking w)) in
  forall b, huski_of (staking w') b = huski_of (staking w) b - (if decide (b = fair_address (staking w)) then v else 0)
    + (if decide (b = dev) then v / 10 else 0) + (if decide (b = sender m) then v - v / 10 else 0).
Proof.
  intros Hr [[ids Hok] Hle]. unfold burnBadge in Hr. apply bind_Ok in Hr as (n & ->%nft_of_Ok & Hr).
  apply bind_Ok in Hr as (v & Hv & Hr). apply bind_Ok in Hr as (w1 & (n1 & Hn1 & ->)%call_nft_inv & Hr).
  apply bind_Ok in Hr as (w2 & (p2 & ->)%call_points_inv & Hr). apply call_fair_inv in Hr as (s & Hs & ->).
  destruct (burn_ok _ _ _ _ _ _ Hok Hn1) as (Hok1 & Elock & x & Hx & Hx1 & Eam).
  assert (locked n1 = locked (nft w) - v) as El by (unfold locked; rewrite Elock, Eam, (weigh_elem _ _ _ _ _ _ Hx Hv); lia).
  pose proof (locked_nonneg _ _ Hok1) as Hnn.
  pose proof (elem_uint256 _ _ _ (proj2 (no_lock _ _ Hok)) Hv) as [Hv0 _].
  apply unlockFromOwner_spec in Hs as (Hbal & Ef & _); 
    [|split; [done|change (v <= fair_huski w); lia]].
  exists v. split; [done|]. split; [done|]. split; [by eexists|]. split; [done|]. split; [lia|].
  intros dev b. cbn [staking with_staking]. by rewrite Hbal.
Qed.

Lemma burnBadge_ok m w id w' : user_of m w -> burnBadge m w id = Ok w' -> badges_ok w -> badges_ok w'.
Proof.
  intros [Hself Hrel Hsend] Hr Hw. destruct (burnBadge_spec _ _ _ _ Hr Hw) as (v & _ & Ef & Hok & El & Hv & Hbal).
  split; [done|]. destruct Hw as [_ Hle]. unfold fair_huski in *. rewrite El, Ef, Hbal.
  rewrite decide_True by done. rewrite (decide_False (P := _ = sender m)) by congruence.
  assert (0 <= v / 10) by (apply Z.div_pos; lia). case_decide; lia.
Qed.

Lemma badge_call_ok m w c w' :
  user_of m w -> typed_badge c -> badge_call m w c = Ok w' -> badges_ok w -> badges_ok w'.
Proof.
  intros Hm Hc Hr. destruct c; cbn in *.
  - by eapply mintBadge_ok.
  - by eapply upgradeBadge_ok.
  - apply kept_ok. eapply transferBadge_kept; [done| |exact Hr]. apply Hc.
  - by eapply burnBadge_ok.
Qed.

(** ** Histories *)

(** The calls of users through the relayer; the owners' calls, who do not raise the lock of
    a grade that is in use; and whatever happens to the other contracts, as long as
    FairLaunch pays no more rewards than were minted for them. *)
Inductive badge_step : Badges -> Badges -> Prop :=
| badge_user m w c w' : user_of m w -> typed_badge c -> badge_call m w c = Ok w' -> badge_step w w'
| badge_points m w a tok v k w' : mintPoints m w a tok v k = Ok w' -> badge_step w w'
| badge_info m w gs points huskys amounts n : Forall uint256 points -> Forall uint256 huskys -> Forall uint256 amounts ->
    setGradeInfo m (nft w) gs points huskys amounts = Ok n ->
    (forall g x y y', elem (gradeAmount (nft w)) g = Ok x -> x <> 0 -> elem (gradeLockHuskys (nft w)) g = Ok y ->
       elem (gradeLockHuskys n) g = Ok y' -> y' <= y) -> badge_step w (with_nft w n)
| badge_operators m w ops ok n : setOperatorsOk m (nft w) ops ok = Ok n -> badge_step w (with_nft w n)
| badge_config m w a r : br_updateConfig m (relayer w) a = Ok r -> badge_step w (with_relayer w r)
| badge_staking w s : fair_address s = fair_address (staking w) -> fair_huski w <= huski_of s (fair_address s) ->
    badge_step w (with_staking w s)
| badge_coins w c : badge_step w (with_coins w c).

Lemma setGradeInfo_amount m n gs points huskys amounts n' :
  setGradeInfo m n gs points huskys amounts = Ok n' -> gradeAmount n' = gradeAmount n.
Proof.
  unfold setGradeInfo. intros Hr. apply bind_Ok in Hr as (_ & _ & Hr).
  refine (foldM_invariant (fun n1 => gradeAmount n1 = gradeAmount n) _ _ _ _ _ _ Hr); [done|].
  intros n1 i n2 _ <- Hs. unfold set_grade in Hs. inv_result. by subst.
Qed.

Lemma badge_step_ok w w' : badge_step w w' -> badges_ok w -> badges_ok w'.
Proof.
  intros Hstep Hw. destruct Hstep as [m w c w' Hm Hc Hr|m w a tok v k w' Hr|m w gs points huskys amounts n Hp Hh Ha Hr Hle
    |m w ops ok n Hr|m w a r Hr|w s Hs Hb|w c].
  - by eapply badge_call_ok.
  - unfold mintPoints in Hr. apply bind_Ok in Hr as (_ & _ & Hr). apply bind_Ok in Hr as (o & _ & Hr).
    apply bind_Ok in Hr as ([price t] & _ & Hr). do 3 (apply bind_Ok in Hr as (? & _ & Hr)).
    eapply kept_ok; [by eapply call_points_kept|done].
  - destruct Hw as [[ids Hok] Hlocked]. pose proof (setGradeInfo_amount _ _ _ _ _ _ _ Hr) as Eam.
    pose proof (setGradeInfo_ok _ _ _ _ _ _ _ _ Hp Hh Ha Hok Hr) as Hok'. split; [by exists ids|].
    change (locked n <= fair_huski w). etrans; [|exact Hlocked]. unfold locked. rewrite Eam.
    apply weigh_le; [rewrite (proj1 (no_lock _ _ Hok)); apply Hok'|]. intros i x y y' Hx Hy Hy'.
    assert (0 <= x) as Hx0 by (pose proof (Forall_lookup_1 _ _ _ _ (proj2 (no_amount _ _ Hok)) Hx) as []; done).
    destruct (decide (x = 0)) as [->|Hne]; [lia|].
    assert (y' <= y) as Hyy; [|nia]. assert (0 <= Z.of_nat i) as Hi by lia.
    apply (Hle (Z.of_nat i) x); [..|done| |]; apply elem_Ok; by rewrite Nat2Z.id.
  - unfold setOperatorsOk in Hr. inv_result. subst. apply (kept_ok w); [|done]. apply kept_nft; [|done].
    intros ids []. by split.
  - apply (kept_ok w); [by split|done].
  - apply (kept_ok w); [|done]. apply kept_staking; [done|]. by rewrite <-Hs at 2.
  - apply (kept_ok w); [by split|done].
Qed.

(** ** The grades *)

(** What a call of the relayer does to the badges is a sequence of steps of BadgeNFT. *)
Definition nft_steps w w' : Prop := rtc nft_step (nft w) (nft w').

Lemma nft_steps_same w w' : nft w' = nft w -> nft_steps w w'.
Proof. unfold nft_steps. by intros ->. Qed.

Lemma low_transferFrom_steps m w tok from to v w' : low_transferFrom m w tok from to v = Ok w' -> nft_steps w w'.
Proof.
  unfold low_transferFrom. intros Hr.
  destruct (bool_decide (tok = husky _)); [inv_result; subst; by apply nft_steps_same|].
  destruct (bool_decide (is_Some (debts _ !! tok))); [inv_result; subst; by apply nft_steps_same|].
  destruct (bool_decide (is_Some (points_at _ !! tok))); [inv_result; subst; by apply nft_steps_same|].
  destruct (bool_decide (tok = nft_address w)).
  - apply bind_Ok in Hr as (n & Hn & Hr). injection Hr as <-. eapply rtc_once, nft_transferred, Hn.
  - destruct (coins w !! tok); inv_result; subst; by apply nft_steps_same.
Qed.

Lemma low_transfer_nft m w tok to v w' : low_transfer m w tok to v = Ok w' -> nft w' = nft w.
Proof.
  unfold low_transfer. intros Hr.
  destruct (bool_decide (tok = husky _)); [by inv_result; subst|].
  destruct (bool_decide (is_Some (debts _ !! tok))); [by inv_result; subst|].
  destruct (bool_decide (is_Some (points_at _ !! tok))); [by inv_result; subst|].
  destruct (bool_decide (tok = nft_address w)); [done|].
  destruct (coins w !! tok); by inv_result; subst.
Qed.

Lemma transferBadge_steps m w value tok amount to id code w' :
  transferBadge m w value tok amount to id code = Ok w' -> nft_steps w w'.
Proof.
  intros Hr. unfold transferBadge in Hr. apply bind_Ok in Hr as (w1 & H1 & Hr).
  assert (nft_steps w w1) as K1.
  { unfold transferTokenToRelayer in H1. destruct (negb _).
    - unfold wrap in H1. inv_result. subst. by apply nft_steps_same.
    - apply safely_Ok in H1. by eapply low_transferFrom_steps. }
  apply bind_Ok in Hr as (n & _ & Hr). apply bind_Ok in Hr as (need & _ & Hr).
  apply bind_Ok in Hr as (w2 & (p2 & ->)%call_points_inv & Hr).
  apply bind_Ok in Hr as (w3 & (n3 & Hn3 & ->)%call_nft_inv & Hr).
  apply bind_Ok in Hr as (w4 & (p4 & ->)%call_points_inv & Hr). apply bind_Ok in Hr as (c & _ & Hr).
  assert (nft_steps w (with_staking (with_nft (with_staking w1 (with_points (staking w1) p2)) n3)
    (with_points (staking w1) p4))) as K by (eapply rtc_r; [exact K1|eapply nft_transferred, Hn3]).
  destruct (bool_decide (tok = wrappedNative c)).
  - apply bind_Ok in Hr as (w5 & _ & Hr). unfold unwrap_for_relayer in Hr. by inv_result.
  - apply safely_Ok, low_transfer_nft in Hr. unfold nft_steps. rewrite Hr. exact K.
Qed.

(** The relayer asks for the owner of the badge it upgrades. *)
Lemma badge_call_steps m w c w' : badge_call m w c = Ok w' -> nft_steps w w'.
Proof.
  intros Hr. destruct c as [id uri g code invite|id g|value tok amount to id code|id]; cbn [badge_call] in Hr.
  - unfold mintBadge in Hr. do 3 (apply bind_Ok in Hr as (? & _ & Hr)). do 4 (apply bind_Ok in Hr as (? & _ & Hr)).
    apply bind_Ok in Hr as (w1 & (p1 & ->)%call_points_inv & Hr).
    apply bind_Ok in Hr as (w2 & (n2 & Hn2 & ->)%call_nft_inv & Hr).
    apply bind_Ok in Hr as (w3 & (n3 & Hn3 & ->)%call_nft_inv & Hr). apply call_fair_inv in Hr as (s & _ & ->).
    eapply rtc_l; [by eapply nft_minted|]. by eapply rtc_once, nft_named.
  - unfold upgradeBadge in Hr. apply bind_Ok in Hr as (n & ->%nft_of_Ok & Hr). cbv zeta in Hr.
    do 5 (apply bind_Ok in Hr as (? & _ & Hr)). apply bind_Ok in Hr as (owner & Howner%of_option_Ok & Hr).
    do 4 (apply bind_Ok in Hr as (? & _ & Hr)).
    apply bind_Ok in Hr as (w1 & (n1 & Hn1 & ->)%call_nft_inv & Hr). apply bind_Ok in Hr as (more & _ & Hr).
    apply call_fair_inv in Hr as (s & _ & ->). eapply rtc_once, nft_upgraded; [by eexists|exact Hn1].
  - by eapply transferBadge_steps.
  - unfold burnBadge in Hr. do 2 (apply bind_Ok in Hr as (? & _ & Hr)).
    apply bind_Ok in Hr as (w1 & (n1 & Hn1 & ->)%call_nft_inv & Hr).
    apply bind_Ok in Hr as (w2 & (p2 & ->)%call_points_inv & Hr). apply call_fair_inv in Hr as (s & _ & ->).
    by eapply rtc_once, nft_burned.
Qed.

Lemma nft_reachable_steps n n' : rtc nft_step n n' -> nft_reachable n -> nft_reachable n'.
Proof. induction 1; [done|]. intros. eauto using nft_next. Qed.

(** Upgrading a badge that does not exist takes one from the count of the lowest grade. *)
Lemma upgrade_missing m n ids id g n' :
  nft_ok n ids -> id ∉ ids -> elem (gradeAmount n) 0 = Ok 0 -> g <> 0 -> upgrade m n id g = Ok n' ->
  elem (gradeAmount n') 0 = Ok MAX_UINT256 /\ forall m' to id', is_ok (mintTo m' n' to id' 0) = false.
Proof.
  intros Hok Hid Hz0 Hg Hr. unfold upgrade in Hr. rewrite (no_burned _ _ Hok) in Hr by done.
  apply bind_Ok in Hr as (_ & _ & Hr). cbv zeta in Hr. apply bind_Ok in Hr as (_ & _ & Hr).
  apply bind_Ok in Hr as (z & Hz & Hr). apply bind_Ok in Hr as (limit & _ & Hr). apply bind_Ok in Hr as (_ & _ & Hr).
  apply bind_Ok in Hr as (l1 & (x & Hx & Hl1)%count_grade_Ok & Hr).
  apply bind_Ok in Hr as (l2 & (y & Hy & Hl2)%count_grade_Ok & Hr). injection Hr as <-.
  rewrite Hz0 in Hx. injection Hx as <-. change ((0 + -1) mod UINT256) with MAX_UINT256 in Hl1.
  assert (elem l2 0 = Ok MAX_UINT256) as Hl.
  { subst l2. rewrite (elem_insert _ _ _ _ _ Hy), decide_False by done.
    subst l1. by rewrite (elem_insert _ _ _ _ _ Hz0), decide_True. }
  split; [exact Hl|]. intros m' to id'. destruct (mintTo _ _ _ _ _) as [n2|] eqn:Hm; [exfalso|done].
  unfold mintTo in Hm. apply bind_Ok in Hm as (_ & _ & Hm). cbn [gradeAmount with_grades gradeLimitAmount] in Hm.
  rewrite Hl in Hm. cbn [mbind result_bind] in Hm. apply bind_Ok in Hm as (lim & Hlim & Hm).
  pose proof (elem_uint256 _ _ _ (proj2 (no_limit _ _ Hok)) Hlim) as [_ Hu].
  apply bind_Ok in Hm as (b & _ & Hm). apply bind_Ok in Hm as (_ & _ & Hm).
  apply bind_Ok in Hm as (_ & Hlt%require_Ok & _). to_props. unfold MAX_UINT256 in *. lia.
Qed.

(** C36: the counts of the grades are well formed.  In every state that BadgeNFT reaches
    while no operator upgrades a badge that does not exist, the arrays of the grades have
    their fifteen entries, all 256-bit numbers; every badge has one of the fifteen grades,
    and what is burned has none; and the count of each grade is the number of badges that
    have it, so that the unchecked subtraction of a burn does not wrap around.  The calls of
    users through the relayer stay within these histories.  But BadgeNFT does not check:
    when an operator upgrades a badge that does not exist while none has the lowest grade,
    the count of that grade becomes 2^256 - 1, and no badge of it can be minted. *)
Theorem badge_grades n :
  nft_reachable n ->
  (exists ids : gset Z,
    (forall id, id ∈ ids <-> is_Some (erc721_owner (nft_erc721 n) id)) /\
    (forall id, id ∈ ids -> 0 <= grade_of n id < 15) /\ (forall id, id ∉ ids -> grade_of n id = 0) /\
    Forall (fun l => length l = 15%nat /\ Forall uint256 l)
      [gradeAmount n; gradeNeedPoints n; gradeLockHuskys n; gradeLimitAmount n] /\
    (forall g, 0 <= g < 15 ->
       elem (gradeAmount n) g = Ok (Z.of_nat (size (filter (fun id => grade_of n id = g) ids)))) /\
    (forall id m from n', BadgeNFT_burn m n from id = Ok n' -> exists x,
       elem (gradeAmount n) (grade_of n id) = Ok (x + 1) /\ elem (gradeAmount n') (grade_of n id) = Ok x /\ 0 <= x)) /\
  (forall m w c w', nft w = n -> badge_call m w c = Ok w' -> nft_reachable (nft w')) /\
  (forall m id g n', erc721_owner (nft_erc721 n) id = None -> elem (gradeAmount n) 0 = Ok 0 -> g <> 0 ->
     upgrade m n id g = Ok n' ->
     elem (gradeAmount n') 0 = Ok MAX_UINT256 /\ forall m' to id', is_ok (mintTo m' n' to id' 0) = false).
Proof.
  intros Hn. pose proof (nft_reachable_ok _ Hn) as [ids Hok]. split; [exists ids; split_and!; try apply Hok|split].
  - destruct Hok. by repeat apply Forall_cons_2.
  - intros id m from n' Hr. destruct (burn_ok _ _ _ _ _ _ Hok Hr) as (_ & _ & x & Hx & Hle & ->).
    exists (x - 1). rewrite (elem_insert _ _ _ _ _ Hx), decide_True by done. rewrite Hx.
    split_and!; [f_equal; lia|done|lia].
  - intros m w c w' <- Hr. eapply nft_reachable_steps; [by eapply badge_call_steps|done].
  - intros m id g n' Hid. apply (upgrade_missing m n ids); [done|]. rewrite (no_ids _ _ Hok), Hid. by intros [].
Qed.

(** C22: what is locked for badges is there.  From badges that are backed, through every
    history of minting, upgrading, passing on and burning them, FairLaunch holds the HUSKI of
    all locks, the count of each grade times its lock; and whoever burns a badge gets its
    whole lock, less the tenth that goes to the developer. *)
Theorem badge_locks_backed w w' :
  badges_ok w -> rtc badge_step w w' ->
  locked (nft w') <= fair_huski w' /\
  forall m id w'', user_of m w' -> burnBadge m w' id = Ok w'' ->
    let dev := devaddr (fair_launch (staking w')) in
    sender m <> dev -> dev <> fair_address (staking w') -> exists v,
    elem (gradeLockHuskys (nft w')) (grade_of (nft w') id) = Ok v /\
    huski_of (staking w'') (sender m) = huski_of (staking w') (sender m) + (v - v / 10) /\
    huski_of (staking w'') dev = huski_of (staking w') dev + v / 10 /\
    fair_huski w'' = fair_huski w' - v /\ locked (nft w'') = locked (nft w') - v.
Proof.
  intros Hw Hrun. assert (badges_ok w') as Hw'.
  { induction Hrun as [|w1 w2 w3 Hstep _ IH]; [done|]. by eapply IH, badge_step_ok. }
  split; [apply Hw'|]. intros m id w'' [Hself Hrel Hsend] Hr dev Hdev Hfair.
  destruct (burnBadge_spec _ _ _ _ Hr Hw') as (v & Hv & Ef & _ & El & _ & Hbal). fold dev in Hbal.
  exists v. split; [done|]. unfold fair_huski. rewrite Ef, !Hbal. unfold dev in *.
  split_and!; [| | |done]; repeat case_decide; try congruence; lia.
Qed.

(** ** A badge for nothing *)

(** The contracts refer to each other as the deployment sets them up. *)
Record badge_system w (p : BadgePoints) : Prop := {
  sys_points : points_at (staking w) !! br_badgePoints (relayer w) = Some p;
  sys_points_operator : bp_operators p !! relayer_address w = Some true;
  sys_nft : br_badgeNft (relayer w) = nft_address w;
  sys_nft_operator : nft_operators (nft w) !! relayer_address w = Some true;
  sys_fair : br_fairLaunch (relayer w) = fair_address (staking w);
  sys_relayer : badgeRelayer (fair_launch (staking w)) = relayer_address w
}.

(** An address where no contract is. *)
Record no_code w (tok : address) : Prop := {
  nc_husky : tok <> husky (fair_launch (staking w));
  nc_debts : debts (staking w) !! tok = None;
  nc_points : points_at (staking w) !! tok = None;
  nc_nft : tok <> nft_address w;
  nc_coins : coins w !! tok = None;
  nc_others : tok ∉ others w
}.

Lemma no_is_Some {A} (o : option A) : o = None -> bool_decide (is_Some o) = false.
Proof. intros ->. apply bool_decide_eq_false_2. by intros []. Qed.

Lemma low_transferFrom_no_code m w tok from to v : no_code w tok -> low_transferFrom m w tok from to v = Ok w.
Proof.
  intros []. unfold low_transferFrom. rewrite bool_decide_eq_false_2, !no_is_Some by done.
  by rewrite bool_decide_eq_false_2, nc_coins0, bool_decide_eq_true_2 by done.
Qed.

Lemma low_transfer_no_code m w tok to v : no_code w tok -> low_transfer m w tok to v = Ok w.
Proof.
  intros []. unfold low_transfer. rewrite bool_decide_eq_false_2, !no_is_Some by done.
  by rewrite bool_decide_eq_false_2, nc_coins0, bool_decide_eq_true_2 by done.
Qed.

Lemma call_points_run m w p op p' :
  points_at (staking w) !! br_badgePoints (relayer w) = Some p ->
  op (call_from m (br_badgePoints (relayer w))) p = Ok p' ->
  call_points m w op = Ok (with_staking w (with_points (staking w)
    (<[ br_badgePoints (relayer w) := p' ]> (points_at (staking w))))).
Proof. intros Hp Hop. unfold call_points, on_points. rewrite Hp. cbn. by rewrite Hop. Qed.

Lemma call_nft_run m w op n :
  br_badgeNft (relayer w) = nft_address w -> op (call_from m (nft_address w)) (nft w) = Ok n ->
  call_nft m w op = Ok (with_nft w n).
Proof. intros Hn Hop. unfold call_nft, nft_of. rewrite bool_decide_eq_true_2 by done. cbn. by rewrite Hop. Qed.

Lemma operator_ok (ops : gmap address bool) m : ops !! sender m = Some true -> onlyOperators ops m = Ok tt.
Proof. intros Ho. unfold onlyOperators. by rewrite Ho. Qed.

(** HUSKI that no delegate is attached to. *)
Lemma safeHuskyTransfer_run m s to v :
  self m <> zero_address -> to <> zero_address -> 0 <= v <= huski_of s (self m) ->
  delegates_at (husky_token s) (self m) = zero_address -> delegates_at (husky_token s) to = zero_address ->
  exists t, safeHuskyTransfer m s to v = Ok (with_husky s (with_erc20 (husky_token s) t)).
Proof.
  intros Hm Hto Hv Hdm Hdt. unfold safeHuskyTransfer, on_husky, husky_transfer. cbv zeta. cbn [sender call_from].
  rewrite (proj2 (Z.ltb_ge _ _)) by (unfold huski_of in Hv; lia).
  pose proof (erc20_transfer_ok (husky_erc20 (husky_token s)) (self m) to v Hm Hto Hv) as Hok.
  destruct (erc20_transfer _ _ _ _) as [t|]; [|done]. exists t. cbn [mbind result_bind].
  unfold moveDelegates. by rewrite Hdm, Hdt, bool_decide_eq_false_2 by auto.
Qed.

Lemma unlockFromOwner_run m s a v :
  sender m = badgeRelayer (fair_launch s) -> 0 <= v <= huski_of s (self m) ->
  let dev := devaddr (fair_launch s) in
  Forall (fun b => b <> zero_address /\ delegates_at (husky_token s) b = zero_address) [self m; dev; a] ->
  is_ok (unlockFromOwner m s a v) = true.
Proof.
  intros Hm Hv dev Hall. rewrite !Forall_cons in Hall. destruct Hall as ([Hs Ds] & [Hd Dd] & [Ha Da] & _).
  unfold unlockFromOwner. rewrite bool_decide_eq_true_2 by done. rewrite sm_div_fits by done. cbn [require mbind result_bind].
  pose proof (div_bounds v 10 ltac:(lia)) as Hq. assert (0 <= v / 10 <= v) by (split; [apply Z.div_pos; lia|lia]).
  fold dev. destruct (safeHuskyTransfer_run m s dev (v / 10)) as (t & Ht); [done..|lia|done|done|].
  pose proof (safeHuskyTransfer_spec _ _ _ _ _ Ht) as (Hbal & _). rewrite Z.min_l in Hbal by lia.
  specialize (Hbal (self m)). rewrite (decide_True (P := self m = self m)) in Hbal by done.
  rewrite Ht. cbn [mbind result_bind]. rewrite sm_sub_fits by lia. cbn [mbind result_bind].
  destruct (safeHuskyTransfer_run m (with_husky s (with_erc20 (husky_token s) t)) a (v - v / 10)) as (t2 & Ht2);
    [done..| |done|done|by rewrite Ht2]. rewrite Hbal. case_decide; lia.
Qed.

Lemma burn_run m n ids id :
  nft_ok n ids -> nft_operators n !! sender m = Some true ->
  forall from, erc721_owner (nft_erc721 n) id = Some from -> exists n', BadgeNFT_burn m n from id = Ok n'.
Proof.
  intros Hok Hop from Hown. unfold BadgeNFT_burn. rewrite operator_ok, Hown by done. cbn [of_option mbind result_bind].
  rewrite bool_decide_eq_true_2 by done. cbn [require mbind result_bind].
  pose proof (erc721_burn_ok (nft_erc721 n) id ltac:(by eexists)) as Hb. destruct (erc721_burn _ _) as [t|]; [|done].
  cbn [mbind result_bind]. assert (id ∈ ids) as Hid by (apply (no_ids _ _ Hok); by eexists).
  pose proof (no_counts _ _ Hok _ (no_grades _ _ Hok _ Hid)) as Hc.
  unfold count_grade, set_elem. rewrite Hc. cbn. by eexists.
Qed.

(** The holder of a badge can burn it. *)
Lemma burnBadge_run m w p id :
  badges_ok w -> user_of m w -> badge_system w p -> erc721_owner (nft_erc721 (nft w)) id = Some (sender m) ->
  Forall (fun b => b <> zero_address /\ delegates_at (husky_token (staking w)) b = zero_address)
    [fair_address (staking w); devaddr (fair_launch (staking w)); sender m] ->
  is_ok (burnBadge m w id) = true.
Proof.
  intros [[ids Hok] Hle] [Hself Hrel Hsend] [] Hown Hall.
  assert (id ∈ ids) as Hid by (apply (no_ids _ _ Hok); by eexists).
  destruct (lookup_lt_is_Some_2 (gradeLockHuskys (nft w)) (Z.to_nat (grade_of (nft w) id))) as [v Hv].
  { rewrite (proj1 (no_lock _ _ Hok)). pose proof (no_grades _ _ Hok _ Hid). lia. }
  assert (elem (gradeLockHuskys (nft w)) (grade_of (nft w) id) = Ok v) as Hlock
    by (apply elem_Ok; split; [apply (no_grades _ _ Hok _ Hid)|done]).
  destruct (burn_run (call_from m (nft_address w)) (nft w) ids id Hok) with (from := sender m) as (n2 & Hn2);
    [cbn; by rewrite Hself|done|].
  unfold burnBadge, nft_of at 1. rewrite bool_decide_eq_true_2 by done. cbn [require mbind result_bind].
  rewrite Hlock. cbn [mbind result_bind]. erewrite call_nft_run; [|done|exact Hn2]. cbn [mbind result_bind].
  erewrite call_points_run; [|exact sys_points0|].
  2: { unfold deleteInvite. rewrite operator_ok by (cbn; by rewrite Hself). reflexivity. }
  cbn [mbind result_bind]. unfold call_fair. rewrite bool_decide_eq_true_2 by done. cbn [require mbind result_bind].
  set (w3 := with_staking (with_nft w n2) _).
  assert (is_ok (unlockFromOwner (call_from m (br_fairLaunch (relayer w3))) (staking w3) (sender m) v) = true) as Hu.
  { apply unlockFromOwner_run; [cbn; congruence| |cbn; by rewrite sys_fair0].
    change (self (call_from m (br_fairLaunch (relayer w3)))) with (br_fairLaunch (relayer w)). rewrite sys_fair0.
    change (huski_of (staking w3)) with (huski_of (staking w)).
    destruct (burn_ok _ _ _ _ _ _ Hok Hn2) as (Hok2 & El & x & Hx & Hx1 & Eam).
    pose proof (locked_nonneg _ _ Hok2) as Hnn. unfold locked in Hnn. rewrite El, Eam, (weigh_elem _ _ _ _ _ _ Hx Hlock) in Hnn.
    change (weigh (gradeAmount (nft w)) _) with (locked (nft w)) in Hnn.
    pose proof (elem_uint256 _ _ _ (proj2 (no_lock _ _ Hok)) Hlock) as [Hv0 _].
    split; [done|]. unfold fair_huski in Hle. lia. }
  destruct (unlockFromOwner _ (staking w3) _ _); [done|by cbn in Hu].
Qed.

(** What the caller of [transferBadge] needs: a code that is free. *)
Record may_take (m : Msg) (p : BadgePoints) (code : Z) : Prop := {
  mt_nonzero : sender m <> zero_address;
  mt_code : 10000 < code;
  mt_free : code_owner p code = zero_address;
  mt_invite : deleted (invite_of p (sender m)) = false
}.

(** Naming an address without code as the currency, and a price of nothing. *)
Lemma transfer_for_nothing m w p c tok victim id code need :
  user_of m w -> badge_system w p -> config_of w = Ok c -> no_code w tok -> tok <> wrappedNative c ->
  may_take m p code -> erc721_owner (nft_erc721 (nft w)) id = Some victim -> victim <> zero_address ->
  elem (gradeNeedPoints (nft w)) (grade_of (nft w) id) = Ok need ->
  0 <= need <= erc20_balanceOf (bp_erc20 p) victim ->
  exists q t, transferBadge m w 0 tok 0 victim id code
      = Ok (with_staking (with_nft w (with_erc721 (nft w) t)) (with_points (staking w)
          (<[ br_badgePoints (relayer w) := q ]> (points_at (staking w))))) /\
    bp_operators q = bp_operators p /\ erc721_transfer (nft_erc721 (nft w)) victim (sender m) id = Ok t.
Proof.
  intros [Hself _ _] [] Hc Hcode Htok [] Hown Hvz Hneed Hpts. unfold transferBadge, transferTokenToRelayer.
  change (negb (0 =? 0)) with false. cbv iota. rewrite low_transferFrom_no_code by done. cbn [safely mbind result_bind].
  unfold nft_of at 1. rewrite bool_decide_eq_true_2 by done. cbn [require mbind result_bind]. rewrite Hneed. cbn [mbind result_bind].
  erewrite call_points_run; [|exact sys_points0|].
  2: { unfold makeInviteRelation. rewrite operator_ok by (cbn; by rewrite Hself). cbn [mbind result_bind].
       rewrite bool_decide_eq_true_2, (proj2 (Z.ltb_lt _ _)), bool_decide_eq_true_2, mt_invite0 by done. reflexivity. }
  cbn [mbind result_bind]. set (p1 := with_invites _ _ _ _).
  pose proof (erc721_transfer_ok (nft_erc721 (nft w)) victim (sender m) id mt_nonzero0 Hown) as Ht.
  destruct (erc721_transfer _ _ _ _) as [t|] eqn:Et; [|done].
  erewrite call_nft_run; [|done|].
  2: { unfold BadgeNFT_transferFrom. rewrite operator_ok by (cbn; by rewrite Hself). cbn [mbind result_bind].
       cbn [nft with_staking]. rewrite Et. reflexivity. }
  cbn [mbind result_bind].
  pose proof (erc20_transfer_ok (bp_erc20 p1) victim (sender m) need Hvz mt_nonzero0 Hpts) as Hp.
  destruct (erc20_transfer (bp_erc20 p1) _ _ _) as [pt|] eqn:Ep; [|done].
  erewrite call_points_run; [|cbn; apply lookup_insert_eq|].
  2: { unfold BadgePoints_transferFrom. rewrite operator_ok by (cbn; by rewrite Hself). cbn [mbind result_bind].
       rewrite Ep. reflexivity. }
  cbn [mbind result_bind]. set (w4 := with_staking _ _). change (config_of w4) with (config_of w). rewrite Hc.
  cbn [mbind result_bind]. rewrite bool_decide_eq_false_2 by done.
  rewrite low_transfer_no_code; [|destruct Hcode; split; try done].
  - cbn [safely]. exists (delete_invite (with_bp_erc20 p1 pt) victim), t. split; [unfold w4; cbn [staking with_staking with_nft relayer]|done].
    cbn [points_at with_points]. by rewrite insert_insert_eq.
  - cbn. rewrite !lookup_insert_ne; [done|congruence..].
Qed.

(** C21: badges can be stolen.  [transferBadge] lets its caller name the badge, the currency
    and the price, and asks the holder nothing: for a price of zero in a currency without
    code, anyone whose invitation is unused takes a badge with its points and burns it for
    nine tenths of the HUSKI that the holder had locked; the holder gets nothing. *)
Theorem badge_theft m w p c tok victim id code need :
  badges_ok w -> user_of m w -> badge_system w p -> config_of w = Ok c -> no_code w tok -> tok <> wrappedNative c ->
  may_take m p code -> erc721_owner (nft_erc721 (nft w)) id = Some victim ->
  elem (gradeNeedPoints (nft w)) (grade_of (nft w) id) = Ok need ->
  need <= erc20_balanceOf (bp_erc20 p) victim ->
  let dev := devaddr (fair_launch (staking w)) in
  victim ∉ [zero_address; sender m; dev; fair_address (staking w)] -> sender m <> dev ->
  Forall (fun b => b <> zero_address /\ delegates_at (husky_token (staking w)) b = zero_address)
    [fair_address (staking w); dev; sender m] ->
  exists w1 w2 v, transferBadge m w 0 tok 0 victim id code = Ok w1 /\
    erc721_owner (nft_erc721 (nft w1)) id = Some (sender m) /\
    burnBadge m w1 id = Ok w2 /\ elem (gradeLockHuskys (nft w)) (grade_of (nft w) id) = Ok v /\
    huski_of (staking w2) (sender m) = huski_of (staking w) (sender m) + (v - v / 10) /\
    huski_of (staking w2) victim = huski_of (staking w) victim /\ coins w2 = coins w.
Proof.
  intros Hw Hm Hsys Hc Hcode Htok Htake Hown Hneed Hpts dev Hv Hdev Hall.
  rewrite !not_elem_of_cons in Hv. destruct Hv as (Hvz & Hvm & Hvd & Hvf & _).
  pose proof Hw as [[ids Hok] _]. pose proof (elem_uint256 _ _ _ (proj2 (no_need _ _ Hok)) Hneed) as [Hn0 _].
  destruct (transfer_for_nothing m w p c tok victim id code need) as (q & t & Hrun & Hop & Ht); [done..|].
  pose proof (erc721_transfer_spec _ _ _ _ _ Ht) as [_ Hto]. set (w1 := with_staking _ _) in Hrun.
  assert (kept w w1) as Hkept by (eapply transferBadge_kept; [exact Hm| |exact Hrun]; lia).
  pose proof (kept_ok _ _ Hkept Hw) as Hw1.
  assert (erc721_owner (nft_erc721 (nft w1)) id = Some (sender m)) as Hown1 by (cbn; by rewrite Hto, decide_True).
  assert (badge_system w1 q) as Hsys1.
  { destruct Hsys. split; try done; [apply lookup_insert_eq|by rewrite Hop]. }
  pose proof (burnBadge_run m w1 q id Hw1 ltac:(by destruct Hm) Hsys1 Hown1 Hall) as Hburn.
  destruct (burnBadge m w1 id) as [w2|] eqn:Hb; [|done].
  destruct (burnBadge_spec _ _ _ _ Hb Hw1) as (v & Hv & _ & _ & _ & _ & Hbal).
  change (huski_of (staking w1)) with (huski_of (staking w)) in Hbal.
  exists w1, w2, v. split_and!; [done|done|done|exact Hv| | |].
  - rewrite Hbal. rewrite decide_False, decide_False, decide_True by (done || apply Hm). lia.
  - rewrite Hbal. rewrite !decide_False by done. lia.
  - unfold burnBadge in Hb. apply bind_Ok in Hb as (? & _ & Hb). apply bind_Ok in Hb as (? & _ & Hb).
    apply bind_Ok in Hb as (? & (? & _ & ->)%call_nft_inv & Hb). apply bind_Ok in Hb as (? & (? & ->)%call_points_inv & Hb).
    by apply call_fair_inv in Hb as (? & _ & ->).
Qed.
End System.
