(* ===== verification/Workers.v ===== *)
(** * The workers and their strategies

    PancakeswapV2Worker.sol as it is initialised and as its owner configures it, and the
    six strategies of src/contracts/6/protocol/strategies/pancakeswapV2 as they are
    initialised and whitelist workers.  The exchange the workers farm on is an interface;
    the functions that move funds are in Farm.v and Strategies.v. *)

From S2P Require Import Prelude Buffers MerkleTree BalanceTree Evm Lending.

(** ** PancakeSwap, as the contracts see it

    The exchange's contracts are not the protocol's: what their view functions return, by
    the address of the contract asked, and nothing where the call reverts.  A router's
    and a pair's tokens and the token of a pool of the chef do not change. *)
Class Pancake `{Ethers} := {
  router_WETH : address -> option address;
  router_factory : address -> option address;
  chef_lpToken : address -> Z -> option address;      (* poolInfo(pid).lpToken *)
  chef_cake : address -> option address;
  pair_token0 : address -> option address;
  pair_token1 : address -> option address;
  pair_token0_ok : forall p t, pair_token0 p = Some t -> getAddress t = Some t;
  pair_token1_ok : forall p t, pair_token1 p = Some t -> getAddress t = Some t
}.

(** ** PancakeswapV2Worker.sol *)

Record Worker := {
  wk_owner : address;
  operator : address;
  baseToken : address;
  masterChef : address;
  router : address;
  factory : address;
  wNative : address;
  pid : Z;
  lpToken : address;
  farmingToken : address;
  cake : address;
  okStrats : gmap address bool;
  okReinvestors : gmap address bool;
  addStrat : address;
  liqStrat : address;
  reinvestBountyBps : Z;
  maxReinvestBountyBps : Z;
  fee : Z;
  feeDenom : Z
}.

Definition with_wk_owner (w : Worker) (o : address) : Worker :=
  {| wk_owner := o; operator := operator w; baseToken := baseToken w;
     masterChef := masterChef w; router := router w; factory := factory w; wNative := wNative w;
     pid := pid w; lpToken := lpToken w; farmingToken := farmingToken w; cake := cake w;
     okStrats := okStrats w; okReinvestors := okReinvestors w; addStrat := addStrat w;
     liqStrat := liqStrat w; reinvestBountyBps := reinvestBountyBps w;
     maxReinvestBountyBps := maxReinvestBountyBps w; fee := fee w; feeDenom := feeDenom w |}.

Definition with_okStrats (w : Worker) (ok : gmap address bool) : Worker :=
  {| wk_owner := wk_owner w; operator := operator w; baseToken := baseToken w;
     masterChef := masterChef w; router := router w; factory := factory w; wNative := wNative w;
     pid := pid w; lpToken := lpToken w; farmingToken := farmingToken w; cake := cake w;
     okStrats := ok; okReinvestors := okReinvestors w; addStrat := addStrat w;
     liqStrat := liqStrat w; reinvestBountyBps := reinvestBountyBps w;
     maxReinvestBountyBps := maxReinvestBountyBps w; fee := fee w; feeDenom := feeDenom w |}.

Definition with_okReinvestors (w : Worker) (ok : gmap address bool) : Worker :=
  {| wk_owner := wk_owner w; operator := operator w; baseToken := baseToken w;
     masterChef := masterChef w; router := router w; factory := factory w; wNative := wNative w;
     pid := pid w; lpToken := lpToken w; farmingToken := farmingToken w; cake := cake w;
     okStrats := okStrats w; okReinvestors := ok; addStrat := addStrat w;
     liqStrat := liqStrat w; reinvestBountyBps := reinvestBountyBps w;
     maxReinvestBountyBps := maxReinvestBountyBps w; fee := fee w; feeDenom := feeDenom w |}.

Definition with_critical (w : Worker) (add liq : address) : Worker :=
  {| wk_owner := wk_owner w; operator := operator w; baseToken := baseToken w;
     masterChef := masterChef w; router := router w; factory := factory w; wNative := wNative w;
     pid := pid w; lpToken := lpToken w; farmingToken := farmingToken w; cake := cake w;
     okStrats := okStrats w; okReinvestors := okReinvestors w; addStrat := add; liqStrat := liq;
     reinvestBountyBps := reinvestBountyBps w; maxReinvestBountyBps := maxReinvestBountyBps w;
     fee := fee w; feeDenom := feeDenom w |}.

Definition with_bounty (w : Worker) (bounty max : Z) : Worker :=
  {| wk_owner := wk_owner w; operator := operator w; baseToken := baseToken w;
     masterChef := masterChef w; router := router w; factory := factory w; wNative := wNative w;
     pid := pid w; lpToken := lpToken w; farmingToken := farmingToken w; cake := cake w;
     okStrats := okStrats w; okReinvestors := okReinvestors w; addStrat := addStrat w;
     liqStrat := liqStrat w; reinvestBountyBps := bounty; maxReinvestBountyBps := max;
     fee := fee w; feeDenom := feeDenom w |}.

Definition setReinvestBountyBps (m : Msg) (w : Worker) (_reinvestBountyBps : Z) : result Worker :=
  onlyOwner (wk_owner w) m ;;
  require (_reinvestBountyBps <=? maxReinvestBountyBps w)%Z
    "PancakeswapV2Worker::setReinvestBountyBps: _reinvestBountyBps exceeded maxReinvestBountyBps" ;;
  Ok (with_bounty w _reinvestBountyBps (maxReinvestBountyBps w)).

Definition setMaxReinvestBountyBps (m : Msg) (w : Worker) (_maxReinvestBountyBps : Z) :
    result Worker :=
  onlyOwner (wk_owner w) m ;;
  require (reinvestBountyBps w <=? _maxReinvestBountyBps)%Z
    "PancakeswapV2Worker::setMaxReinvestBountyBps: _maxReinvestBountyBps lower than reinvestBountyBps" ;;
  Ok (with_bounty w (reinvestBountyBps w) _maxReinvestBountyBps).

Definition setStrategyOk (m : Msg) (w : Worker) (strats : list address) (isOk : bool) :
    result Worker :=
  onlyOwner (wk_owner w) m ;; Ok (with_okStrats w (set_all (okStrats w) strats isOk)).

Definition setReinvestorOk (m : Msg) (w : Worker) (reinvestors : list address) (isOk : bool) :
    result Worker :=
  onlyOwner (wk_owner w) m ;; Ok (with_okReinvestors w (set_all (okReinvestors w) reinvestors isOk)).

Definition setCriticalStrategies (m : Msg) (w : Worker) (_addStrat _liqStrat : address) :
    result Worker :=
  onlyOwner (wk_owner w) m ;; Ok (with_critical w _addStrat _liqStrat).

(** ** The strategies: what they are initialised with, and their whitelist *)

Inductive StrategyKind :=
| PancakeswapV2AddBaseTokenOnly
| PancakeswapV2Liquidate
| PancakeswapV2WithdrawMinimizeTrading (wbnb wNativeRelayer : address)
| PancakeswapV2PartialCloseLiquidate
| PancakeswapV2PartialCloseMinimizeTrading (wbnb wNativeRelayer : address)
| PancakeswapV2AddTwoSidesOptimal (vault : address).

Record Strategy := {
  st_owner : address;
  st_kind : StrategyKind;
  st_factory : address;
  st_router : address;
  okWorkers : gmap address bool
}.

Definition with_okWorkers (s : Strategy) (ok : gmap address bool) : Strategy :=
  {| st_owner := st_owner s; st_kind := st_kind s; st_factory := st_factory s;
     st_router := st_router s; okWorkers := ok |}.

Definition with_st_owner (s : Strategy) (o : address) : Strategy :=
  {| st_owner := o; st_kind := st_kind s; st_factory := st_factory s;
     st_router := st_router s; okWorkers := okWorkers s |}.

Definition setWorkersOk (m : Msg) (s : Strategy) (workers : list address) (isOk : bool) :
    result Strategy :=
  onlyOwner (st_owner s) m ;; Ok (with_okWorkers s (set_all (okWorkers s) workers isOk)).

(** ** Initialisation, which asks the exchange *)

Section Initialize.
Context `{Pancake}.

(** A view call that the initialiser makes: it reverts when the contract does. *)
Definition ask (o : option address) : result address := of_option o EmptyString.

Definition Worker_initialize (m : Msg) (_operator _baseToken _masterChef _router : address)
    (_pid : Z) (_addStrat _liqStrat : address) (_reinvestBountyBps : Z) : result Worker :=
  wNative ← ask (router_WETH _router);
  factory ← ask (router_factory _router);
  lpToken ← ask (chef_lpToken _masterChef _pid);
  token0 ← ask (pair_token0 lpToken);
  token1 ← ask (pair_token1 lpToken);
  let farmingToken := if bool_decide (token0 = _baseToken) then token1 else token0 in
  cake ← ask (chef_cake _masterChef);
  require (_reinvestBountyBps <=? 500)%Z
    "PancakeswapV2Worker::initialize: reinvestBountyBps exceeded maxReinvestBountyBps" ;;
  require ((bool_decide (farmingToken = token0) || bool_decide (farmingToken = token1)) &&
           (bool_decide (_baseToken = token0) || bool_decide (_baseToken = token1)))
    "PancakeswapV2Worker::initialize: LP underlying not match with farm & base token" ;;
  Ok
    {| wk_owner := sender m; operator := _operator; baseToken := _baseToken;
       masterChef := _masterChef; router := _router; factory := factory; wNative := wNative;
       pid := _pid; lpToken := lpToken; farmingToken := farmingToken; cake := cake;
       okStrats := <[ _liqStrat := true ]> (<[ _addStrat := true ]> ∅); okReinvestors := ∅;
       addStrat := _addStrat; liqStrat := _liqStrat; reinvestBountyBps := _reinvestBountyBps;
       maxReinvestBountyBps := 500; fee := 9975; feeDenom := 10000 |}.

(** [initialize] of a strategy of a given kind. *)
Definition Strategy_initialize (m : Msg) (kind : StrategyKind) (_router : address) :
    result Strategy :=
  factory ← ask (router_factory _router);
  Ok {| st_owner := sender m; st_kind := kind; st_factory := factory; st_router := _router;
        okWorkers := ∅ |}.
End Initialize.
