(* ===== verification/Bank.v ===== *)
(** * The vault's lending operations

    Vault.sol as its users run it: depositing and withdrawing with interest accrual,
    opening, changing and killing leveraged positions, and the functions a strategy calls
    back while a position is worked on.  The storage extends the record [Vault] of
    Lending.v.  Tokens, workers, configurations and FairLaunch are reached through the
    interface [Surroundings]. *)

From S2P Require Import Prelude Buffers MerkleTree BalanceTree Evm Uint Lending.

Open Scope Z_scope.

Definition NOT_ENTERED : Z := 1.
Definition ENTERED : Z := 2.
Definition NO_ID : Z := MAX_UINT256.
Definition NO_ADDRESS : address := "0x0000000000000000000000000000000000000001".

Record Position := {
  p_worker : address;
  p_owner : address;
  debtShare : Z;
  serialCode : Z;
  blockNumber : Z
}.

(** An id without a position reads as zeros. *)
Definition no_position : Position :=
  {| p_worker := zero_address; p_owner := zero_address; debtShare := 0; serialCode := 0; blockNumber := 0 |}.

Record Bank `{OpenZeppelin} := {
  vault : Vault;
  IN_EXEC_LOCK : Z;
  POSITION_ID : Z;
  STRATEGY : address;
  positions : gmap Z Position;
  holderPositions : gmap address (list Z);
  vaultDebtShare : Z;
  vaultDebtVal : Z;
  reservePool : Z;
  guard : Guard
}.

Section Storage.
Context `{OpenZeppelin}.

(** What [initialize] leaves, the fields of Lending.v given. *)
Definition new_Bank (v : Vault) : Bank :=
  {| vault := v; IN_EXEC_LOCK := NOT_ENTERED; POSITION_ID := NO_ID; STRATEGY := NO_ADDRESS;
     positions := ∅; holderPositions := ∅; vaultDebtShare := 0; vaultDebtVal := 0;
     reservePool := 0; guard := guard_new |}.

Definition position (b : Bank) (id : Z) : Position := default no_position (positions b !! id).

Definition with_vault (b : Bank) (v : Vault) : Bank :=
  {| vault := v; IN_EXEC_LOCK := IN_EXEC_LOCK b; POSITION_ID := POSITION_ID b; STRATEGY := STRATEGY b;
     positions := positions b; holderPositions := holderPositions b;
     vaultDebtShare := vaultDebtShare b; vaultDebtVal := vaultDebtVal b;
     reservePool := reservePool b; guard := guard b |}.

Definition with_scope (b : Bank) (id : Z) (strategy : address) : Bank :=
  {| vault := vault b; IN_EXEC_LOCK := IN_EXEC_LOCK b; POSITION_ID := id; STRATEGY := strategy;
     positions := positions b; holderPositions := holderPositions b;
     vaultDebtShare := vaultDebtShare b; vaultDebtVal := vaultDebtVal b;
     reservePool := reservePool b; guard := guard b |}.

Definition with_exec_lock (b : Bank) (l : Z) : Bank :=
  {| vault := vault b; IN_EXEC_LOCK := l; POSITION_ID := POSITION_ID b; STRATEGY := STRATEGY b;
     positions := positions b; holderPositions := holderPositions b;
     vaultDebtShare := vaultDebtShare b; vaultDebtVal := vaultDebtVal b;
     reservePool := reservePool b; guard := guard b |}.

Definition with_position (b : Bank) (id : Z) (p : Position) : Bank :=
  {| vault := vault b; IN_EXEC_LOCK := IN_EXEC_LOCK b; POSITION_ID := POSITION_ID b; STRATEGY := STRATEGY b;
     positions := <[ id := p ]> (positions b); holderPositions := holderPositions b;
     vaultDebtShare := vaultDebtShare b; vaultDebtVal := vaultDebtVal b;
     reservePool := reservePool b; guard := guard b |}.

Definition with_debt (b : Bank) (share val : Z) : Bank :=
  {| vault := vault b; IN_EXEC_LOCK := IN_EXEC_LOCK b; POSITION_ID := POSITION_ID b; STRATEGY := STRATEGY b;
     positions := positions b; holderPositions := holderPositions b;
     vaultDebtShare := share; vaultDebtVal := val; reservePool := reservePool b; guard := guard b |}.

Definition with_reserve (b : Bank) (r : Z) : Bank :=
  {| vault := vault b; IN_EXEC_LOCK := IN_EXEC_LOCK b; POSITION_ID := POSITION_ID b; STRATEGY := STRATEGY b;
     positions := positions b; holderPositions := holderPositions b;
     vaultDebtShare := vaultDebtShare b; vaultDebtVal := vaultDebtVal b; reservePool := r; guard := guard b |}.

Definition with_guard (b : Bank) (g : Guard) : Bank :=
  {| vault := vault b; IN_EXEC_LOCK := IN_EXEC_LOCK b; POSITION_ID := POSITION_ID b; STRATEGY := STRATEGY b;
     positions := positions b; holderPositions := holderPositions b;
     vaultDebtShare := vaultDebtShare b; vaultDebtVal := vaultDebtVal b;
     reservePool := reservePool b; guard := g |}.

(** [_holderPositions[owner].add(id)]: EnumerableSet keeps the order of insertion. *)
Definition add_holder (b : Bank) (owner : address) (id : Z) : Bank :=
  let ids := default [] (holderPositions b !! owner) in
  {| vault := vault b; IN_EXEC_LOCK := IN_EXEC_LOCK b; POSITION_ID := POSITION_ID b; STRATEGY := STRATEGY b;
     positions := positions b;
     holderPositions := <[ owner := if bool_decide (id ∈ ids) then ids else ids ++ [id] ]> (holderPositions b);
     vaultDebtShare := vaultDebtShare b; vaultDebtVal := vaultDebtVal b;
     reservePool := reservePool b; guard := guard b |}.

Definition with_debtShare (p : Position) (s : Z) : Position :=
  {| p_worker := p_worker p; p_owner := p_owner p; debtShare := s; serialCode := serialCode p;
     blockNumber := blockNumber p |}.

Definition with_serialCode (p : Position) (c : Z) : Position :=
  {| p_worker := p_worker p; p_owner := p_owner p; debtShare := debtShare p; serialCode := c;
     blockNumber := blockNumber p |}.

(** The vault's own token and the counters kept in the record of Lending.v. *)
Definition with_v_erc20 (v : Vault) (t : Erc20) : Vault :=
  {| v_owner := v_owner v; v_erc20 := t; v_name := v_name v; v_symbol := v_symbol v;
     v_decimals := v_decimals v; token := token v; debtToken := debtToken v; config := config v;
     nextPositionID := nextPositionID v; fairLaunchPoolId := fairLaunchPoolId v;
     lastAccrueTime := lastAccrueTime v |}.

Definition with_nextPositionID (v : Vault) (n : Z) : Vault :=
  {| v_owner := v_owner v; v_erc20 := v_erc20 v; v_name := v_name v; v_symbol := v_symbol v;
     v_decimals := v_decimals v; token := token v; debtToken := debtToken v; config := config v;
     nextPositionID := n; fairLaunchPoolId := fairLaunchPoolId v; lastAccrueTime := lastAccrueTime v |}.

Definition with_lastAccrueTime (v : Vault) (t : Z) : Vault :=
  {| v_owner := v_owner v; v_erc20 := v_erc20 v; v_name := v_name v; v_symbol := v_symbol v;
     v_decimals := v_decimals v; token := token v; debtToken := debtToken v; config := config v;
     nextPositionID := nextPositionID v; fairLaunchPoolId := fairLaunchPoolId v; lastAccrueTime := t |}.

Definition positionsOfOwner (b : Bank) (owner : address) : list Z :=
  default [] (holderPositions b !! owner).
End Storage.

(** ** Tokens

    SafeToken.sol and native currency: the token, then the accounts, then the amount.  The
    caller is the contract [self m]. *)
Class Ledger (W : Type) := {
  balanceOf : W -> address -> address -> result Z;
  safeTransfer : Msg -> W -> address -> address -> Z -> result W;
  safeTransferFrom : Msg -> W -> address -> address -> address -> Z -> result W;
  send_native : W -> address -> address -> Z -> result W;
  wrapped_deposit : Msg -> W -> address -> Z -> result W;
  wrapped_withdraw : Msg -> W -> address -> Z -> result W
}.

(** WNativeRelayer.sol at an address: unwraps for the caller [self m]. *)
Class NativeRelayer (W : Type) := {
  relayer_withdraw : Msg -> W -> address -> Z -> result W
}.

(** ** Functions for the strategy of the position being worked on *)

Section Callbacks.
Context `{OpenZeppelin} {W : Type} `{!Ledger W}.

(** [inExec]: the caller must be the strategy of the execution scope. *)
Definition inExec (m : Msg) (b : Bank) (w : W) (body : Bank -> W -> result (Bank * W)) : result (Bank * W) :=
  require (negb (POSITION_ID b =? NO_ID)) "Vault::inExec: not within execution scope" ;;
  require (bool_decide (STRATEGY b = sender m)) "Vault::inExec: not from the strategy" ;;
  require (IN_EXEC_LOCK b =? NOT_ENTERED) "Vault::inExec: in exec lock" ;;
  '(b, w) ← body (with_exec_lock b ENTERED) w;
  Ok (with_exec_lock b NOT_ENTERED, w).

Definition requestFunds (m : Msg) (bw : Bank * W) (targetedToken : address) (amount : Z) :
    result (Bank * W) :=
  inExec m bw.1 bw.2 (fun b w =>
    w ← safeTransferFrom m w targetedToken (p_owner (position b (POSITION_ID b))) (sender m) amount;
    Ok (b, w)).

Definition injectSerialCode (m : Msg) (bw : Bank * W) (code : Z) : result (Bank * W) :=
  inExec m bw.1 bw.2 (fun b w =>
    Ok (with_position b (POSITION_ID b) (with_serialCode (position b (POSITION_ID b)) code), w)).

End Callbacks.

(** ** What the vault calls

    A caller is the contract [self m].  A worker's strategy may call back into the vault:
    [worker_work] and [worker_liquidate] run on the vault's storage too. *)
Class Surroundings `{OpenZeppelin} (W : Type) := {
  (** BasicVaultConfig.sol, the interest model and the configuration of the workers *)
  vault_config : W -> address -> result BasicVaultConfig;
  interest_rate : W -> address -> Z -> Z -> result Z;
  wc_acceptDebt : Block -> W -> address -> address -> result bool;
  wc_workFactor : Block -> W -> address -> address -> Z -> result Z;
  wc_killFactor : Block -> W -> address -> address -> Z -> result Z;
  (** IWorker *)
  worker_health : W -> address -> Z -> result Z;
  worker_work : Msg -> Bank * W -> address -> Z -> address -> Z -> Buffer -> result (Bank * W);
  worker_liquidate : Msg -> Bank * W -> address -> Z -> result (Bank * W);
  (** IDebtToken and IFairLaunch *)
  debt_mint : Msg -> W -> address -> address -> Z -> result W;
  debt_burn : Msg -> W -> address -> address -> Z -> result W;
  fairlaunch_deposit : Msg -> W -> address -> address -> Z -> Z -> result W;
  fairlaunch_withdraw : Msg -> W -> address -> address -> Z -> Z -> result W
}.

Section Vault.
Context `{AbiCoder} `{!OpenZeppelin} {W : Type} `{!Ledger W} `{!NativeRelayer W} `{!Surroundings W}.

Definition vconfig (b : Bank) (w : W) : result BasicVaultConfig := vault_config w (config (vault b)).
Definition myBalance (m : Msg) (b : Bank) (w : W) : result Z := balanceOf w (token (vault b)) (self m).
Definition now (m : Msg) : Z := timestamp (block m).

(** [workers[worker]] of the configuration: a call to the zero address reverts. *)
Definition worker_config (c : BasicVaultConfig) (worker : address) : address :=
  default zero_address (bvc_workers c !! worker).

(** ** Interest *)

Definition pendingInterest (m : Msg) (b : Bank) (w : W) (value : Z) : result Z :=
  if lastAccrueTime (vault b) <? now m then
    timePast ← sm_sub (now m) (lastAccrueTime (vault b)) SUB_OVERFLOW;
    bal ← myBalance m b w;
    balance ← sm_sub bal value SUB_OVERFLOW;
    c ← vconfig b w;
    ratePerSec ← interest_rate w (interestModel c) (vaultDebtVal b) balance;
    x ← sm_mul ratePerSec (vaultDebtVal b);
    y ← sm_mul x timePast;
    sm_div y (10 ^ 18)
  else Ok 0.

Definition accrue (m : Msg) (b : Bank) (w : W) (value : Z) : result Bank :=
  if lastAccrueTime (vault b) <? now m then
    interest ← pendingInterest m b w value;
    c ← vconfig b w;
    x ← sm_mul interest (getReservePoolBps c);
    toReserve ← sm_div x 10000;
    reserve ← sm_add (reservePool b) toReserve;
    debtVal ← sm_add (vaultDebtVal b) interest;
    Ok (with_vault (with_debt (with_reserve b reserve) (vaultDebtShare b) debtVal)
          (with_lastAccrueTime (vault b) (now m)))
  else Ok b.

(** ** Debt shares *)

Definition debtShareToVal (b : Bank) (share : Z) : result Z :=
  if vaultDebtShare b =? 0 then Ok share
  else x ← sm_mul share (vaultDebtVal b); sm_div x (vaultDebtShare b).

Definition debtValToShare (b : Bank) (debtVal : Z) : result Z :=
  if vaultDebtShare b =? 0 then Ok debtVal
  else x ← sm_mul debtVal (vaultDebtShare b); sm_div x (vaultDebtVal b).

Definition addDebt (b : Bank) (id debtVal : Z) : result Bank :=
  let pos := position b id in
  share ← debtValToShare b debtVal;
  posShare ← sm_add (debtShare pos) share;
  total ← sm_add (vaultDebtShare b) share;
  val ← sm_add (vaultDebtVal b) debtVal;
  Ok (with_debt (with_position b id (with_debtShare pos posShare)) total val).

Definition removeDebt (b : Bank) (id : Z) : result (Bank * Z) :=
  let pos := position b id in
  if 0 <? debtShare pos then
    debtVal ← debtShareToVal b (debtShare pos);
    total ← sm_sub (vaultDebtShare b) (debtShare pos) SUB_OVERFLOW;
    val ← sm_sub (vaultDebtVal b) debtVal SUB_OVERFLOW;
    Ok (with_debt (with_position b id (with_debtShare pos 0)) total val, debtVal)
  else Ok (b, 0).

(** [positionInfo]: the value of a position and its debt. *)
Definition positionInfo (b : Bank) (w : W) (id : Z) : result (Z * Z) :=
  let pos := position b id in
  health ← worker_health w (p_worker pos) id;
  debt ← debtShareToVal b (debtShare pos);
  Ok (health, debt).

Definition totalToken (m : Msg) (b : Bank) (w : W) : result Z :=
  bal ← myBalance m b w;
  x ← sm_add bal (vaultDebtVal b);
  sm_sub x (reservePool b) SUB_OVERFLOW.

Definition totalSupply (b : Bank) : Z := erc20_totalSupply (v_erc20 (vault b)).

(** ** Transfers *)

(** The currency sent along has reached the vault when the modifier runs. *)
Definition transferTokenToVault (m : Msg) (msgValue : Z) (b : Bank) (w : W) (value : Z) : result W :=
  if negb (msgValue =? 0) then
    w ← send_native w (sender m) (self m) msgValue;
    c ← vconfig b w;
    require (bool_decide (token (vault b) = wrappedNative c))
      "Vault::transferTokenToVault: baseToken is not wNative" ;;
    require (value =? msgValue) "Vault::transferTokenToVault: value != msg.value" ;;
    wrapped_deposit m w (wrappedNative c) msgValue
  else safeTransferFrom m w (token (vault b)) (sender m) (self m) value.

Definition smartSafeTransfer (m : Msg) (b : Bank) (w : W) (recipient : address) (amount : Z) : result W :=
  c ← vconfig b w;
  if bool_decide (token (vault b) = wrappedNative c) then
    w ← safeTransfer m w (token (vault b)) (wNativeRelayer c) amount;
    w ← relayer_withdraw m w (wNativeRelayer c) amount;
    send_native w (self m) recipient amount
  else safeTransfer m w (token (vault b)) recipient amount.

(** [nonReentrant] *)
Definition nonReentrant (b : Bank) (w : W) (body : Bank -> W -> result (Bank * W)) : result (Bank * W) :=
  g ← guard_enter (guard b);
  '(b, w) ← body (with_guard b g) w;
  Ok (with_guard b (guard_leave (guard b)), w).

(** ** Lenders *)

Definition deposit_body (m : Msg) (amountToken : Z) (b : Bank) (w : W) : result (Bank * W) :=
  tokens ← totalToken m b w;
  total ← sm_sub tokens amountToken SUB_OVERFLOW;
  share ← (if total =? 0 then Ok amountToken
           else x ← sm_mul amountToken (totalSupply b); sm_div x total);
  t ← erc20_mint (v_erc20 (vault b)) (sender m) share;
  let b := with_vault b (with_v_erc20 (vault b) t) in
  require (10 ^ 17 <? totalSupply b) "Vault::deposit: no tiny shares" ;;
  Ok (b, w).

Definition deposit (m : Msg) (msgValue : Z) (bw : Bank * W) (amountToken : Z) : result (Bank * W) :=
  let '(b, w) := bw in
  w ← transferTokenToVault m msgValue b w amountToken;
  b ← accrue m b w amountToken;
  nonReentrant b w (deposit_body m amountToken).

Definition withdraw_body (m : Msg) (share : Z) (b : Bank) (w : W) : result (Bank * W) :=
  tokens ← totalToken m b w;
  x ← sm_mul share tokens;
  amount ← sm_div x (totalSupply b);
  t ← erc20_burn (v_erc20 (vault b)) (sender m) share;
  let b := with_vault b (with_v_erc20 (vault b) t) in
  w ← smartSafeTransfer m b w (sender m) amount;
  require (10 ^ 17 <? totalSupply b) "Vault::withdraw: no tiny shares" ;;
  Ok (b, w).

Definition withdraw (m : Msg) (bw : Bank * W) (share : Z) : result (Bank * W) :=
  let '(b, w) := bw in
  b ← accrue m b w 0;
  nonReentrant b w (withdraw_body m share).
(** ** Positions *)

Definition onlyEOA (m : Msg) (origin : address) : result unit :=
  require (bool_decide (sender m = origin)) "Vault::onlyEoa: not eoa".

Definition fairLaunchDeposit (m : Msg) (b : Bank) (w : W) (id amount : Z) : result W :=
  if 0 <? amount then
    w ← debt_mint m w (debtToken (vault b)) (self m) amount;
    c ← vconfig b w;
    fairlaunch_deposit m w (fairLaunch c) (p_owner (position b id)) (fairLaunchPoolId (vault b)) amount
  else Ok w.

(** A low-level call: its failure is ignored, and then nothing is burnt. *)
Definition fairLaunchWithdraw (m : Msg) (b : Bank) (w : W) (id : Z) : result W :=
  let pos := position b id in
  if 0 <? debtShare pos then
    c ← vconfig b w;
    match fairlaunch_withdraw m w (fairLaunch c) (p_owner pos) (fairLaunchPoolId (vault b)) (debtShare pos) with
    | Ok w => debt_burn m w (debtToken (vault b)) (self m) (debtShare pos)
    | Err _ => Ok w
    end
  else Ok w.

(** The position to work on: a new one for id 0, or one of the sender's. *)
Definition select_position (m : Msg) (b : Bank) (w : W) (id : Z) (worker : address) :
    result (Bank * W * Z) :=
  if id =? 0 then
    let id := nextPositionID (vault b) in
    let b := with_vault b (with_nextPositionID (vault b) ((id + 1) mod UINT256)) in
    let pos := position b id in
    let b := with_position b id
      {| p_worker := worker; p_owner := sender m; debtShare := debtShare pos;
         serialCode := serialCode pos; blockNumber := number (block m) |} in
    Ok (add_holder b (sender m) id, w, id)
  else
    let pos := position b id in
    require (id <? nextPositionID (vault b)) "Vault::work: bad position id" ;;
    require (bool_decide (p_worker pos = worker)) "Vault::work: bad position worker" ;;
    require (bool_decide (p_owner pos = sender m)) "Vault::work: not position owner" ;;
    w ← fairLaunchWithdraw m b w id;
    Ok (b, w, id).

(** The debt that is left is checked against the health of the position and recorded. *)
Definition take_debt (m : Msg) (b : Bank) (w : W) (id : Z) (worker : address) (debt : Z) :
    result (Bank * W) :=
  if 0 <? debt then
    c ← vconfig b w;
    require (minDebtSize c <=? debt) "Vault::work: too small debt size" ;;
    health ← worker_health w worker id;
    workFactor ← wc_workFactor (block m) w (worker_config c worker) worker debt;
    x ← sm_mul health workFactor; y ← sm_mul debt 10000;
    require (y <=? x) "Vault::work: bad work factor" ;;
    b ← addDebt b id debt;
    w ← fairLaunchDeposit m b w id (debtShare (position b id));
    Ok (b, w)
  else Ok (b, w).

(** What is left over goes to the owner but for the closing prize; the statement
    [reservePool.add(prize)] computes a sum and drops it. *)
Definition return_excess (m : Msg) (b : Bank) (w : W) (back lessDebt : Z) : result W :=
  if lessDebt <? back then
    c ← vconfig b w;
    left ← sm_sub back lessDebt SUB_OVERFLOW;
    x ← sm_mul left (getCloseBps c); prize ← sm_div x 10000;
    (if 0 <? prize then sm_add (reservePool b) prize else Ok 0) ;;
    out ← sm_sub left prize SUB_OVERFLOW;
    smartSafeTransfer m b w (sender m) out
  else Ok w.

(** [work] up to the return of the worker: the position worked on, what it owes with the
    loan, and what the worker sent back. *)
Definition run_worker (m : Msg) (id : Z) (worker : address) (principalAmount loan : Z)
    (data : Buffer) (b : Bank) (w : W) : result (Bank * W * Z * Z * Z) :=
  require (negb (fairLaunchPoolId (vault b) =? MAX_UINT256)) "Vault::work: poolId not set" ;;
  '(b, w, id) ← select_position m b w id worker;
  strategy ← (match abi_decode [TAddress; TBytes] data with
              | Some [VAddress s; VBytes _] => Ok s | _ => Err EmptyString end);
  let b := with_scope b id strategy in
  c ← vconfig b w;
  require (isWorker c worker) "Vault::work: not a worker" ;;
  ok ← (if loan =? 0 then Ok true
        else wc_acceptDebt (block m) w (worker_config c worker) worker);
  require ok "Vault::work: worker not accept more debt" ;;
  '(b, removed) ← removeDebt b id;
  debt ← sm_add removed loan;
  sendBEP20 ← sm_add principalAmount loan;
  bal ← myBalance m b w;
  require (sendBEP20 <=? bal) "Vault::work: insufficient funds in the vault" ;;
  beforeBEP20 ← sm_sub bal sendBEP20 SUB_OVERFLOW;
  w ← safeTransfer m w (token (vault b)) worker sendBEP20;
  '(b, w) ← worker_work m (b, w) worker id (sender m) debt data;
  bal ← myBalance m b w;
  back ← sm_sub bal beforeBEP20 SUB_OVERFLOW;
  Ok (b, w, id, debt, back).

Definition work_body (m : Msg) (id : Z) (worker : address) (principalAmount loan maxReturn : Z)
    (data : Buffer) (b : Bank) (w : W) : result (Bank * W) :=
  '(b, w, id, debt, back) ← run_worker m id worker principalAmount loan data b w;
  let lessDebt := Math_min debt (Math_min back maxReturn) in
  debt ← sm_sub debt lessDebt SUB_OVERFLOW;
  '(b, w) ← take_debt m b w id worker debt;
  w ← return_excess m b w back lessDebt;
  Ok (with_scope b NO_ID NO_ADDRESS, w).

Definition work (m : Msg) (origin : address) (msgValue : Z) (bw : Bank * W) (id : Z) (worker : address)
    (principalAmount loan maxReturn : Z) (data : Buffer) : result (Bank * W) :=
  let '(b, w) := bw in
  onlyEOA m origin ;;
  w ← transferTokenToVault m msgValue b w principalAmount;
  b ← accrue m b w principalAmount;
  nonReentrant b w (work_body m id worker principalAmount loan maxReturn data).

Definition kill_body (m : Msg) (id : Z) (b : Bank) (w : W) : result (Bank * W) :=
  require (negb (fairLaunchPoolId (vault b) =? MAX_UINT256)) "Vault::kill: poolId not set" ;;
  let pos := position b id in
  require (0 <? debtShare pos) "Vault::kill: no debt" ;;
  w ← fairLaunchWithdraw m b w id;
  '(b, debt) ← removeDebt b id;
  health ← worker_health w (p_worker pos) id;
  c ← vconfig b w;
  killFactor ← wc_killFactor (block m) w (worker_config c (p_worker pos)) (p_worker pos) debt;
  x ← sm_mul health killFactor; y ← sm_mul debt 10000;
  require (x <? y) "Vault::kill: can't liquidate" ;;
  beforeToken ← myBalance m b w;
  '(b, w) ← worker_liquidate m (b, w) (p_worker pos) id;
  bal ← myBalance m b w;
  back ← sm_sub bal beforeToken SUB_OVERFLOW;
  c ← vconfig b w;
  z ← sm_mul back (getKillBps c); prize ← sm_div z 10000;
  rest ← sm_sub back prize SUB_OVERFLOW;
  w ← (if 0 <? prize then smartSafeTransfer m b w (sender m) prize else Ok w);
  let left := if debt <? rest then rest - debt else 0 in
  w ← (if 0 <? left then smartSafeTransfer m b w (p_owner pos) left else Ok w);
  Ok (b, w).

Definition kill (m : Msg) (origin : address) (bw : Bank * W) (id : Z) : result (Bank * W) :=
  let '(b, w) := bw in
  onlyEOA m origin ;;
  b ← accrue m b w 0;
  nonReentrant b w (kill_body m id).

(** ** The owner's reserve *)

Definition withdrawReserve (m : Msg) (bw : Bank * W) (to : address) (value : Z) : result (Bank * W) :=
  let '(b, w) := bw in
  onlyOwner (v_owner (vault b)) m ;;
  nonReentrant b w (fun b w =>
    r ← sm_sub (reservePool b) value SUB_OVERFLOW;
    let b := with_reserve b r in
    w ← safeTransfer m w (token (vault b)) to value;
    Ok (b, w)).

Definition reduceReserve (m : Msg) (bw : Bank * W) (value : Z) : result (Bank * W) :=
  let '(b, w) := bw in
  onlyOwner (v_owner (vault b)) m ;;
  r ← sm_sub (reservePool b) value SUB_OVERFLOW;
  Ok (with_reserve b r, w).

(** ** The vault as a state machine *)

Inductive VaultCall :=
| Deposit (amountToken : Z)
| Withdraw (share : Z)
| Work (id : Z) (worker : address) (principalAmount loan maxReturn : Z) (data : Buffer)
| Kill (id : Z)
| RequestFunds (targetedToken : address) (amount : Z)
| InjectSerialCode (code : Z)
| WithdrawReserve (to : address) (value : Z)
| ReduceReserve (value : Z).

(** A transaction of [origin] that calls the vault from [sender m] with [msgValue] of the
    native currency. *)
Definition vault_call (m : Msg) (origin : address) (msgValue : Z) (bw : Bank * W) (c : VaultCall) :
    result (Bank * W) :=
  match c with
  | Deposit amountToken => deposit m msgValue bw amountToken
  | Withdraw share => withdraw m bw share
  | Work id worker principalAmount loan maxReturn data =>
      work m origin msgValue bw id worker principalAmount loan maxReturn data
  | Kill id => kill m origin bw id
  | RequestFunds targetedToken amount => requestFunds m bw targetedToken amount
  | InjectSerialCode code => injectSerialCode m bw code
  | WithdrawReserve to value => withdrawReserve m bw to value
  | ReduceReserve value => reduceReserve m bw value
  end.

(** The arguments are machine integers. *)
Definition typed_call (c : VaultCall) : Prop :=
  match c with
  | Deposit z | Withdraw z | Kill z | RequestFunds _ z | InjectSerialCode z
  | WithdrawReserve _ z | ReduceReserve z => uint256 z
  | Work id _ p l r _ => uint256 id /\ uint256 p /\ uint256 l /\ uint256 r
  end.

(** The states a vault can be in between transactions.  The surroundings are free to change
    between two calls; the owner's functions of Lending.v and the transfers of the vault's
    own token change the part of the storage kept there. *)
Inductive reachable : Bank -> Prop :=
| reachable_initialize v : reachable (new_Bank v)
| reachable_call b w m origin msgValue c b' w' :
    reachable b -> typed_call c -> vault_call m origin msgValue (b, w) c = Ok (b', w') -> reachable b'
| reachable_owner b v : reachable b -> reachable (with_vault b v).
End Vault.
