(* ===== verification/BankTheory.v ===== *)
(** * The guarantees of the vault

    The debt accounting as an invariant of every history of calls, what lenders keep through
    deposits, withdrawals, positions and liquidations, and when a position can be opened or
    killed. *)

From S2P Require Import Prelude Buffers MerkleTree BalanceTree Evm Uint Sums Lending Bank.

Open Scope Z_scope.

(** ** The debt accounting *)

Section Debt.
Context `{OpenZeppelin}.

(** The sum of the positions' shares. *)
Definition total_debtShare (ps : gmap Z Position) : Z := map_sum debtShare ps.

(** Shares add up, a share is worth at least one unit, and no value is left without shares. *)
Record debts_ok (b : Bank) : Prop := {
  shares_sum : vaultDebtShare b = total_debtShare (positions b);
  shares_nonneg : forall id, 0 <= debtShare (position b id);
  val_range : vaultDebtShare b <= vaultDebtVal b < UINT256;
  no_dust : vaultDebtShare b = 0 -> vaultDebtVal b = 0
}.

Lemma total_nonneg b : debts_ok b -> 0 <= vaultDebtShare b.
Proof. intros Hb. rewrite (shares_sum b Hb). apply (map_sum_nonneg no_position), Hb. Qed.

Lemma position_le b id : debts_ok b -> debtShare (position b id) <= vaultDebtShare b.
Proof. intros Hb. rewrite (shares_sum b Hb). by apply (map_sum_le no_position), Hb. Qed.

Lemma new_Bank_debts v : debts_ok (new_Bank v).
Proof.
  split; cbn; [symmetry; apply map_sum_empty|intros id; unfold position; cbn; by rewrite lookup_empty| |done].
  unfold UINT256. lia.
Qed.

Lemma position_with b id p j :
  position (with_position b id p) j = if decide (j = id) then p else position b j.
Proof.
  unfold position. cbn. destruct (decide (j = id)) as [->|]; [by rewrite lookup_insert_eq|].
  by rewrite lookup_insert_ne.
Qed.

Lemma total_with b id p :
  total_debtShare (positions (with_position b id p))
  = total_debtShare (positions b) - debtShare (position b id) + debtShare p.
Proof. by apply (map_sum_insert no_position). Qed.

(** Writing a position and the totals by the same difference. *)
Lemma debts_write b id p val :
  debts_ok b -> 0 <= debtShare p ->
  let total := vaultDebtShare b - debtShare (position b id) + debtShare p in
  total <= val < UINT256 -> (total = 0 -> val = 0) ->
  debts_ok (with_debt (with_position b id p) total val).
Proof.
  intros Hb Hp total Hv H0. split; [|intros j|done|done].
  - change (total = total_debtShare (positions (with_position b id p))).
    by rewrite total_with, <-(shares_sum b Hb).
  - change (position _ j) with (position (with_position b id p) j). rewrite position_with.
    case_decide; [done|apply Hb].
Qed.

Lemma debts_ok_ext b b' :
  total_debtShare (positions b') = total_debtShare (positions b) ->
  (forall id, debtShare (position b' id) = debtShare (position b id)) ->
  vaultDebtShare b' = vaultDebtShare b -> vaultDebtVal b' = vaultDebtVal b ->
  debts_ok b -> debts_ok b'.
Proof. intros Hs Hp Es Ev []. split; rewrite ?Es, ?Ev, ?Hs; try done. intros id. by rewrite Hp. Qed.

(** ** What a strategy may change by calling back *)

(** The storage up to the serial codes of the positions. *)
Record same_but_serial (b b' : Bank) : Prop := {
  sbs_vault : vault b' = vault b;
  sbs_lock : IN_EXEC_LOCK b' = IN_EXEC_LOCK b;
  sbs_id : POSITION_ID b' = POSITION_ID b;
  sbs_strategy : STRATEGY b' = STRATEGY b;
  sbs_positions : forall id, with_serialCode (position b' id) 0 = with_serialCode (position b id) 0;
  sbs_holders : holderPositions b' = holderPositions b;
  sbs_share : vaultDebtShare b' = vaultDebtShare b;
  sbs_val : vaultDebtVal b' = vaultDebtVal b;
  sbs_reserve : reservePool b' = reservePool b;
  sbs_guard : guard b' = guard b
}.

#[export] Instance same_but_serial_preorder : PreOrder same_but_serial.
Proof.
  split; [by split|]. intros b1 b2 b3 [] []. split; try congruence.
Qed.

Lemma sbs_debtShare b b' id : same_but_serial b b' -> debtShare (position b' id) = debtShare (position b id).
Proof. intros H'. pose proof (f_equal debtShare (sbs_positions _ _ H' id)) as E. done. Qed.

(** The storage up to what does not count in the books: serial codes, owners of positions,
    the execution scope, the next id. *)
Record same_books (b b' : Bank) : Prop := {
  sb_vault : with_nextPositionID (vault b') 0 = with_nextPositionID (vault b) 0;
  sb_lock : IN_EXEC_LOCK b' = IN_EXEC_LOCK b;
  sb_total : total_debtShare (positions b') = total_debtShare (positions b);
  sb_positions : forall id, debtShare (position b' id) = debtShare (position b id);
  sb_share : vaultDebtShare b' = vaultDebtShare b;
  sb_val : vaultDebtVal b' = vaultDebtVal b;
  sb_reserve : reservePool b' = reservePool b;
  sb_guard : guard b' = guard b
}.

#[export] Instance same_books_preorder : PreOrder same_books.
Proof. split; [by split|]. intros b1 b2 b3 [] []. split; try congruence. Qed.

(** The terms of a vault that no operation of its users changes. *)
Lemma same_books_vault b b' : same_books b b' ->
  token (vault b') = token (vault b) /\ config (vault b') = config (vault b) /\
  debtToken (vault b') = debtToken (vault b) /\ v_erc20 (vault b') = v_erc20 (vault b) /\
  fairLaunchPoolId (vault b') = fairLaunchPoolId (vault b) /\
  lastAccrueTime (vault b') = lastAccrueTime (vault b) /\ v_owner (vault b') = v_owner (vault b).
Proof.
  intros Hs. pose proof (sb_vault _ _ Hs) as E.
  destruct (vault b), (vault b'). cbn in *. by injection E as -> -> -> -> -> -> -> -> -> ->.
Qed.

Lemma same_books_debts b b' : same_books b b' -> debts_ok b -> debts_ok b'.
Proof. intros []. by apply debts_ok_ext. Qed.

Lemma scope_books b id s : same_books b (with_scope b id s).
Proof. by split. Qed.

Lemma serial_books b b' : same_but_serial b b' -> same_books b b'.
Proof.
  intros Hs. pose proof (fun id => sbs_debtShare b b' id Hs) as Hp.
  split; try apply Hs; [by rewrite (sbs_vault _ _ Hs)|by apply (map_sum_ext no_position)|done].
Qed.

Lemma same_but_serial_debts b b' : same_but_serial b b' -> debts_ok b -> debts_ok b'.
Proof.
  intros Hs. pose proof (fun id => sbs_debtShare b b' id Hs) as Hp.
  apply debts_ok_ext; [|done|apply Hs..]. by apply (map_sum_ext no_position).
Qed.
End Debt.

(** What the theorems use of the surroundings: a worker changes the vault through its
    callbacks only, amounts are unsigned and balances machine integers. *)
Class Lawful `{SW : Surroundings W} `{!Ledger W} := {
  work_callbacks : forall m b w worker id user debt data b' w',
    worker_work m (b, w) worker id user debt data = Ok (b', w') -> same_but_serial b b';
  liquidate_callbacks : forall m b w worker id b' w',
    POSITION_ID b = NO_ID -> worker_liquidate m (b, w) worker id = Ok (b', w') -> b' = b;
  rate_nonneg : forall w model debt floating r, interest_rate w model debt floating = Ok r -> 0 <= r;
  config_nonneg : forall w a c, vault_config w a = Ok c ->
    0 <= minDebtSize c /\ 0 <= getReservePoolBps c /\ 0 <= getCloseBps c /\ 0 <= getKillBps c;
  balance_uint : forall w tok a v, balanceOf w tok a = Ok v -> uint256 v;
  health_nonneg : forall w worker id h, worker_health w worker id = Ok h -> 0 <= h;
  factor_nonneg : forall b w c worker debt f,
    wc_workFactor b w c worker debt = Ok f \/ wc_killFactor b w c worker debt = Ok f -> 0 <= f
}.
Arguments Lawful {_} W {_ _}.

(** Adds the laws of the calls that succeeded. *)
Ltac lawful :=
  unfold vconfig, myBalance in *;
  repeat match goal with
  | H : interest_rate _ _ _ _ = Ok ?r |- _ =>
      lazymatch goal with _ : 0 <= r |- _ => fail | _ => pose proof (rate_nonneg _ _ _ _ _ H) end
  | H : vault_config _ _ = Ok ?c |- _ =>
      lazymatch goal with _ : 0 <= getKillBps c |- _ => fail
      | _ => pose proof (config_nonneg _ _ _ H) as (? & ? & ? & ?) end
  | H : worker_health _ _ _ = Ok ?h |- _ =>
      lazymatch goal with _ : 0 <= h |- _ => fail | _ => pose proof (health_nonneg _ _ _ _ H) end
  | H : wc_workFactor _ _ _ _ _ = Ok ?f |- _ =>
      lazymatch goal with _ : 0 <= f |- _ => fail
      | _ => pose proof (factor_nonneg _ _ _ _ _ _ (or_introl H)) end
  | H : wc_killFactor _ _ _ _ _ = Ok ?f |- _ =>
      lazymatch goal with _ : 0 <= f |- _ => fail
      | _ => pose proof (factor_nonneg _ _ _ _ _ _ (or_intror H)) end
  | H : balanceOf _ _ _ = Ok ?v |- _ =>
      lazymatch goal with _ : 0 <= v < UINT256 |- _ => fail
      | _ => let L := fresh in pose proof (balance_uint _ _ _ _ H) as L; unfold uint256 in L end
  end.

(** ** The steps *)

Section Steps.
Context `{AbiCoder} `{!OpenZeppelin} {W : Type} `{!Ledger W} `{!NativeRelayer W} `{!Surroundings W}.

Lemma debtShareToVal_Ok b id v :
  debts_ok b -> debtShareToVal b (debtShare (position b id)) = Ok v ->
  v = (if vaultDebtShare b =? 0 then debtShare (position b id)
       else debtShare (position b id) * vaultDebtVal b / vaultDebtShare b).
Proof.
  intros Hb Hr. pose proof (total_nonneg b Hb). pose proof (shares_nonneg b Hb id).
  pose proof (val_range b Hb). unfold debtShareToVal in Hr.
  destruct (_ =? 0); inv_result; [by subst|]. by inv_uint.
Qed.

(** Removing a debt keeps the price of the other shares from falling. *)
Lemma removeDebt_spec b id b' v :
  debts_ok b -> removeDebt b id = Ok (b', v) ->
  debts_ok b' /\ 0 <= v /\ vaultDebtVal b' = vaultDebtVal b - v /\
  vaultDebtShare b' = vaultDebtShare b - debtShare (position b id) /\
  b' = with_debt (if 0 <? debtShare (position b id)
                  then with_position b id (with_debtShare (position b id) 0) else b)
         (vaultDebtShare b') (vaultDebtVal b') /\
  vaultDebtVal b * (vaultDebtShare b - debtShare (position b id)) <= (vaultDebtVal b - v) * vaultDebtShare b.
Proof.
  intros Hb Hr. unfold removeDebt in Hr. pose proof (total_nonneg b Hb) as Ht.
  pose proof (shares_nonneg b Hb id) as Hn. pose proof (position_le b id Hb) as Hle.
  pose proof (val_range b Hb) as Hv.
  destruct (Z.ltb_spec 0 (debtShare (position b id))) as [Hpos|Hz].
  - apply bind_Ok in Hr as (dv & Hdv & Hr). apply debtShareToVal_Ok in Hdv; [|done].
    rewrite (proj2 (Z.eqb_neq _ 0)) in Hdv by lia. inv_result. inv_uint.
    pose proof (div_bounds (debtShare (position b id) * vaultDebtVal b) (vaultDebtShare b) ltac:(lia)) as Hd.
    rewrite <-Hdv in Hd. set (s := debtShare (position b id)) in *.
    set (p := with_debtShare (position b id) 0) in *.
    subst v b'. assert (0 <= dv) by (rewrite Hdv; nonneg).
    assert (vaultDebtVal b * (vaultDebtShare b - s) <= (vaultDebtVal b - dv) * vaultDebtShare b) as Hprice by lia.
    split; [|repeat split; (done || lia)].
    pose proof (debts_write b id p (vaultDebtVal b - dv) Hb) as Hw. cbn in Hw. fold s in Hw.
    replace (vaultDebtShare b - s + 0) with (vaultDebtShare b - s) in Hw by lia.
    apply Hw; [lia| |]; [split; [nia|lia]|intros Hs0].
    assert (s = vaultDebtShare b) as Es by lia. rewrite Es in Hd. nia.
  - injection Hr as <- <-. assert (debtShare (position b id) = 0) as -> by lia.
    split; [done|]. repeat split; try lia. by destruct b.
Qed.

(** A debt is recorded at its value; the share price does not fall. *)
Lemma addDebt_spec b id v b' :
  debts_ok b -> 0 <= v < UINT256 -> addDebt b id v = Ok b' ->
  exists s, debts_ok b' /\ 0 <= s <= v /\
    b' = with_debt (with_position b id (with_debtShare (position b id) (debtShare (position b id) + s)))
           (vaultDebtShare b + s) (vaultDebtVal b + v) /\
    s * vaultDebtVal b <= v * vaultDebtShare b /\
    (vaultDebtShare b = 0 -> s = v) /\
    (vaultDebtShare b <> 0 -> v * vaultDebtShare b < (s + 1) * vaultDebtVal b).
Proof.
  intros Hb Hv Hr. unfold addDebt in Hr. pose proof (total_nonneg b Hb) as Ht.
  pose proof (shares_nonneg b Hb id) as Hn. pose proof (position_le b id Hb) as Hle.
  pose proof (val_range b Hb) as Hr'. apply bind_Ok in Hr as (s & Hs & Hr).
  assert (0 <= s <= v /\ s * vaultDebtVal b <= v * vaultDebtShare b /\ (vaultDebtShare b = 0 -> s = v) /\
    (vaultDebtShare b <> 0 -> v * vaultDebtShare b < (s + 1) * vaultDebtVal b)) as (Hs1 & Hs2 & Hs3 & Hs4).
  { unfold debtValToShare in Hs. destruct (Z.eqb_spec (vaultDebtShare b) 0) as [E|E].
    - injection Hs as <-. rewrite (no_dust b Hb E). lia.
    - inv_result. inv_uint. split; [split; [nonneg|apply Z.div_le_upper_bound; nia]|].
      pose proof (div_bounds (v * vaultDebtShare b) (vaultDebtVal b) ltac:(lia)). split_and!; lia. }
  inv_result. inv_uint. subst b'. exists s. split; [|done].
  pose proof (debts_write b id (with_debtShare (position b id) (debtShare (position b id) + s))
    (vaultDebtVal b + v) Hb) as Hw.
  cbn in Hw. replace (vaultDebtShare b - debtShare (position b id) + (debtShare (position b id) + s))
    with (vaultDebtShare b + s) in Hw by lia.
  pose proof (no_dust b Hb). apply Hw; [lia..|]. intros. assert (v = s) by (symmetry; apply Hs3; lia). lia.
Qed.

Context `{!Lawful W}.

(** Accrual adds interest to the debt and part of it to the reserve. *)
Lemma accrue_spec m b w value b' :
  debts_ok b -> 0 <= reservePool b -> accrue m b w value = Ok b' ->
  debts_ok b' /\ exists interest toReserve last, 0 <= interest /\ 0 <= toReserve /\
    b' = with_vault (with_debt (with_reserve b (reservePool b + toReserve)) (vaultDebtShare b)
                       (vaultDebtVal b + interest)) (with_lastAccrueTime (vault b) last) /\
    last = Z.max (lastAccrueTime (vault b)) (now m) /\
    (now m <= lastAccrueTime (vault b) -> interest = 0 /\ toReserve = 0).
Proof.
  intros Hb Hres Hr. unfold accrue in Hr. pose proof (val_range b Hb) as Hv.
  pose proof (total_nonneg b Hb) as Ht.
  destruct (Z.ltb_spec (lastAccrueTime (vault b)) (now m)) as [Hlt|Hge].
  2: { injection Hr as <-. split; [done|]. exists 0, 0, (lastAccrueTime (vault b)).
       rewrite !Z.add_0_r. repeat split; try lia. by destruct b as [[] ]. }
  apply bind_Ok in Hr as (interest & Hi & Hr). unfold pendingInterest in Hi.
  rewrite (proj2 (Z.ltb_lt _ _)) in Hi by done. inv_result. lawful. inv_uint.
  set (i := _ / 10 ^ 18) in *. assert (0 <= i) by (unfold i; nonneg). inv_uint.
  set (r := _ / 10000) in *. assert (0 <= r) by (unfold r; nonneg).
  assert (r < UINT256) by (unfold r; apply Z.div_lt_upper_bound; lia).
  assert (i < UINT256) by (unfold i; apply Z.div_lt_upper_bound; lia). inv_uint.
  subst b'. split; [|exists i, r, (now m); repeat split; lia].
  split; cbn; [apply Hb|apply Hb|lia|]. intros Hz. unfold i. rewrite (no_dust b Hb Hz), Z.mul_0_r. done.
Qed.

Lemma select_position_books m b w id worker b' w' id' :
  select_position m b w id worker = Ok (b', w', id') -> same_books b b'.
Proof.
  unfold select_position. destruct (id =? 0).
  - intros [= <- <- <-]. set (n := nextPositionID (vault b)).
    split; try done.
    + change (total_debtShare (positions (with_position b n {| p_worker := worker; p_owner := sender m;
        debtShare := debtShare (position b n); serialCode := serialCode (position b n);
        blockNumber := number (block m) |})) = total_debtShare (positions b)).
      rewrite total_with. cbn. lia.
    + intros j. change (debtShare (position (with_position b n {| p_worker := worker; p_owner := sender m;
        debtShare := debtShare (position b n); serialCode := serialCode (position b n);
        blockNumber := number (block m) |}) j) = debtShare (position b j)).
      rewrite position_with. by case_decide; subst.
  - intros Hr. inv_result. by simplify_eq.
Qed.

(** The position worked on belongs to the sender and its worker is the one named. *)
Lemma select_position_owner m b w id worker b' w' id' :
  select_position m b w id worker = Ok (b', w', id') ->
  p_owner (position b' id') = sender m /\ p_worker (position b' id') = worker /\
  id' = (if id =? 0 then nextPositionID (vault b) else id) /\
  ((id = 0 /\ w' = w) \/
   (id' = id /\ b' = b /\ fairLaunchWithdraw m b w id = Ok w')).
Proof.
  unfold select_position. destruct (Z.eqb_spec id 0) as [->|Hid].
  - intros [= <- <- <-]. set (n := nextPositionID (vault b)).
    change (position (add_holder _ _ _) n) with (position (with_position b n {| p_worker := worker;
      p_owner := sender m; debtShare := debtShare (position b n); serialCode := serialCode (position b n);
      blockNumber := number (block m) |}) n).
    rewrite position_with, decide_True by done. cbn. split_and!; auto.
  - intros Hr. inv_result. to_props. simplify_eq. split_and!; auto.
Qed.

(** What is left of the debt after a strategy ran: nothing, or a healthy position. *)
Lemma take_debt_spec m b w id worker debt b' w' :
  debts_ok b -> 0 <= debt < UINT256 -> take_debt m b w id worker debt = Ok (b', w') ->
  (debt = 0 /\ b' = b /\ w' = w) \/
  exists c health factor, 0 < debt /\ vconfig b w = Ok c /\ minDebtSize c <= debt /\
    worker_health w worker id = Ok health /\
    wc_workFactor (block m) w (worker_config c worker) worker debt = Ok factor /\
    debt * 10000 <= health * factor /\
    addDebt b id debt = Ok b' /\
    fairLaunchDeposit m b' w id (debtShare (position b' id)) = Ok w'.
Proof.
  intros Hb Hd Hr. unfold take_debt in Hr. destruct (Z.ltb_spec 0 debt) as [Hpos|Hz].
  2: { injection Hr as <- <-. left. repeat split; try done. lia. }
  right. inv_result. lawful. to_props. inv_uint. simplify_eq. eauto 20.
Qed.

(** The run of [work] after its modifiers. *)
Lemma work_body_spec m id worker principal loan maxReturn data b w b' w' :
  debts_ok b -> 0 <= principal -> 0 <= loan < UINT256 -> 0 <= maxReturn ->
  work_body m id worker principal loan maxReturn data b w = Ok (b', w') ->
  exists id' b1 removed b2 w2 b3 b4 w4 w5 bal back c strategy w3,
    select_position m b w id worker = Ok (b1, w2, id') /\
    safeTransfer m w2 (token (vault b)) worker (principal + loan) = Ok w3 /\
    worker_work m (b2, w3) worker id' (sender m) (removed + loan) data = Ok (b3, w4) /\
    vconfig b w2 = Ok c /\ isWorker c worker = true /\
    removeDebt (with_scope b1 id' strategy) id' = Ok (b2, removed) /\
    myBalance m b w2 = Ok bal /\ principal + loan <= bal /\
    same_but_serial b2 b3 /\
    myBalance m b w4 = Ok (bal - (principal + loan) + back) /\ 0 <= back /\
    let debt := removed + loan in
    let lessDebt := Z.min debt (Z.min back maxReturn) in
    take_debt m b3 w4 id' worker (debt - lessDebt) = Ok (b4, w5) /\
    return_excess m b4 w5 back lessDebt = Ok w' /\
    b' = with_scope b4 NO_ID NO_ADDRESS /\ debt < UINT256 /\
    run_worker m id worker principal loan data b w = Ok (b3, w4, id', debt, back).
Proof.
  intros Hb Hp Hl Hm Hr. unfold work_body in Hr.
  apply bind_Ok in Hr as ([[[[b3' w4'] i] d] back'] & Hpre & Hrest). pose proof Hpre as Hr.
  unfold run_worker in Hr. apply bind_Ok in Hr as (_ & _ & Hr).
  apply bind_Ok in Hr as ([[b1 w1] id'] & Hsel & Hr).
  pose proof (select_position_books _ _ _ _ _ _ _ _ Hsel) as Hbooks.
  apply bind_Ok in Hr as (strategy & _ & Hr).
  apply bind_Ok in Hr as (c & Hc & Hr). apply bind_Ok in Hr as (u & Hw%require_Ok & Hr).
  apply bind_Ok in Hr as (ok & _ & Hr). apply bind_Ok in Hr as (u' & _ & Hr).
  apply bind_Ok in Hr as ([b2 removed] & Hrem & Hr).
  assert (same_books b (with_scope b1 id' strategy)) as Hb1 by (etrans; [done|apply scope_books]).
  destruct (removeDebt_spec _ _ _ _ (same_books_debts _ _ Hb1 Hb) Hrem) as (Hd2 & Hrem0 & _ & _ & Eb2 & _).
  pose proof (total_nonneg _ (same_books_debts _ _ Hb1 Hb)). pose proof (val_range _ Hd2).
  apply same_books_vault in Hb1 as (Et & Ec & _).
  assert (token (vault b2) = token (vault b)) as Et2 by (rewrite Eb2, <-Et; cbn; by case_match).
  apply bind_Ok in Hr as (debt & Hdebt & Hr). apply bind_Ok in Hr as (send & Hsend & Hr).
  apply bind_Ok in Hr as (bal & Hbal & Hr). apply bind_Ok in Hr as (u2 & Hen%require_Ok & Hr).
  apply bind_Ok in Hr as (before & Hbefore & Hr). apply bind_Ok in Hr as (w3 & Hsend3 & Hr).
  apply bind_Ok in Hr as ([b3 w4] & Hrun & Hr). pose proof (work_callbacks _ _ _ _ _ _ _ _ _ _ Hrun) as Hwork.
  apply bind_Ok in Hr as (bal2 & Hbal2 & Hr). apply bind_Ok in Hr as (back & Hback & Hr).
  injection Hr as <- <- <- <- <-.
  apply bind_Ok in Hrest as (left & Hleft & Hr). apply bind_Ok in Hr as ([b4 w5] & Htake & Hr).
  apply bind_Ok in Hr as (w6 & Hret & Hr). injection Hr as <- <-.
  unfold myBalance, vconfig in *. rewrite (sbs_vault _ _ Hwork), Et2 in Hbal2. rewrite Et2 in Hbal, Hsend3. rewrite Ec in Hc.
  lawful. to_props. inv_uint. rewrite !Math_min_spec in *.
  exists id', b1, removed, b2, w1, b3, b4, w4, w5, bal, (bal2 - (bal - (principal + loan))), c, strategy, w3.
  split_and!; try (done || lia).
  rewrite Hbal2. f_equal. lia.
Qed.

(** ** Every operation keeps the books *)

(** Between transactions: the books are right, no position is being worked on, no function
    is entered. *)
Record idle (b : Bank) : Prop := {
  idle_debts : debts_ok b;
  idle_reserve : 0 <= reservePool b;
  idle_id : POSITION_ID b = NO_ID;
  idle_strategy : STRATEGY b = NO_ADDRESS;
  idle_lock : IN_EXEC_LOCK b = NOT_ENTERED;
  idle_guard : is_ok (guard_enter (guard b)) = true
}.

(** What the body of a guarded function keeps. *)
Record settles (b b' : Bank) : Prop := {
  settled_debts : debts_ok b';
  settled_reserve : 0 <= reservePool b';
  settled_scope : POSITION_ID b' = NO_ID /\ STRATEGY b' = NO_ADDRESS \/
                  POSITION_ID b' = POSITION_ID b /\ STRATEGY b' = STRATEGY b;
  settled_lock : IN_EXEC_LOCK b' = IN_EXEC_LOCK b;
  settled_guard : guard b' = guard b
}.

Lemma nonReentrant_idle b (w : W) body b' w' :
  idle b -> nonReentrant b w body = Ok (b', w') ->
  (forall g b1 w1, body (with_guard b g) w = Ok (b1, w1) -> settles (with_guard b g) b1) -> idle b'.
Proof.
  intros Hb Hr Hbody. unfold nonReentrant in Hr. apply bind_Ok in Hr as (g & Hg & Hr).
  apply bind_Ok in Hr as ([b1 w1] & Hrun & Hr). injection Hr as <- <-.
  destruct (Hbody _ _ _ Hrun) as [Hd Hres Hscope Hlock Hguard].
  split; [by apply (debts_ok_ext b1)|done|..]; cbn in *.
  - destruct Hscope as [[]|[]]; [done|]. by rewrite <-(idle_id b Hb).
  - destruct Hscope as [[]|[]]; [done|]. by rewrite <-(idle_strategy b Hb).
  - by rewrite Hlock, <-(idle_lock b Hb).
  - rewrite Hguard. by eapply guard_left.
Qed.

Lemma accrue_idle m b w value b' : idle b -> accrue m b w value = Ok b' -> idle b'.
Proof.
  intros Hb Hr. apply accrue_spec in Hr as (Hd & i & r & last & Hi & Hres & -> & _); try apply Hb.
  pose proof (idle_reserve b Hb). split; try apply Hb; [done|cbn; lia].
Qed.

Lemma deposit_settles m amount b w b' w' :
  debts_ok b -> 0 <= reservePool b -> deposit_body m amount b w = Ok (b', w') -> settles b b'.
Proof.
  intros Hb Hres Hr. unfold deposit_body in Hr. inv_result. simplify_eq.
  split; try done; [by apply (debts_ok_ext b)|by right].
Qed.

Lemma withdraw_settles m share b w b' w' :
  debts_ok b -> 0 <= reservePool b -> withdraw_body m share b w = Ok (b', w') -> settles b b'.
Proof.
  intros Hb Hres Hr. unfold withdraw_body in Hr. inv_result. simplify_eq.
  split; try done; [by apply (debts_ok_ext b)|by right].
Qed.

Lemma removeDebt_fields b id b' v : removeDebt b id = Ok (b', v) ->
  vault b' = vault b /\ POSITION_ID b' = POSITION_ID b /\ STRATEGY b' = STRATEGY b /\
  IN_EXEC_LOCK b' = IN_EXEC_LOCK b /\ reservePool b' = reservePool b /\ guard b' = guard b.
Proof. unfold removeDebt. intros Hr. destruct (0 <? _); inv_result; by simplify_eq. Qed.

Lemma removeDebt_position b id b' v j : removeDebt b id = Ok (b', v) ->
  p_owner (position b' j) = p_owner (position b j) /\ p_worker (position b' j) = p_worker (position b j) /\
  debtShare (position b' j) = (if decide (j = id) then Z.min 0 (debtShare (position b j)) else debtShare (position b j)).
Proof.
  unfold removeDebt. intros Hr. destruct (Z.ltb_spec 0 (debtShare (position b id))); inv_result; simplify_eq.
  - change (position (with_debt (with_position b id ?p) _ _) j) with (position (with_position b id p) j).
    rewrite position_with. case_decide; subst; cbn; repeat split; lia.
  - case_decide; subst; repeat split; lia.
Qed.

Lemma addDebt_fields b id v b' : addDebt b id v = Ok b' ->
  vault b' = vault b /\ POSITION_ID b' = POSITION_ID b /\ STRATEGY b' = STRATEGY b /\
  IN_EXEC_LOCK b' = IN_EXEC_LOCK b /\ reservePool b' = reservePool b /\ guard b' = guard b.
Proof. unfold addDebt. intros Hr. inv_result; by simplify_eq. Qed.

Lemma work_settles m id worker principal loan maxReturn data b w b' w' :
  debts_ok b -> 0 <= reservePool b -> 0 <= principal -> 0 <= loan < UINT256 -> 0 <= maxReturn ->
  work_body m id worker principal loan maxReturn data b w = Ok (b', w') -> settles b b'.
Proof.
  intros Hb Hres Hp Hl Hm Hr. apply work_body_spec in Hr as (id' & b1 & removed & b2 & w2 & b3 & b4 & w4 & w5 &
    bal & back & c & strategy & w3 & Hsel & _ & _ & _ & _ & Hrem & _ & _ & Hcall & _ & Hback & Htake & _ & -> & Hu & Hpre);
    [|done..].
  pose proof (select_position_books _ _ _ _ _ _ _ _ Hsel) as Hb1.
  assert (same_books b (with_scope b1 id' strategy)) as Hs by (etrans; [done|apply scope_books]).
  pose proof (removeDebt_spec _ _ _ _ (same_books_debts _ _ Hs Hb) Hrem) as (Hd2 & Hrem0 & _).
  apply removeDebt_fields in Hrem as (_ & _ & _ & Hl2 & Hr2 & Hg2).
  pose proof (same_but_serial_debts _ _ Hcall Hd2) as Hd3.
  apply take_debt_spec in Htake; [|done|lia].
  assert (debts_ok b4 /\ IN_EXEC_LOCK b4 = IN_EXEC_LOCK b3 /\ reservePool b4 = reservePool b3 /\
          guard b4 = guard b3) as (Hd4 & Hl4 & Hr4 & Hg4).
  { destruct Htake as [(_ & -> & _)|(c' & h & f & Hpos & _ & _ & _ & _ & _ & Hadd & _)]; [done|].
    pose proof (addDebt_fields _ _ _ _ Hadd) as (_ & _ & _ & ? & ? & ?).
    apply addDebt_spec in Hadd as (s & ? & _); [done..|lia]. }
  split; [by apply (debts_ok_ext b4)|..]; cbn.
  - by rewrite Hr4, (sbs_reserve _ _ Hcall), Hr2, (sb_reserve _ _ Hs).
  - by left.
  - by rewrite Hl4, (sbs_lock _ _ Hcall), Hl2, (sb_lock _ _ Hs).
  - by rewrite Hg4, (sbs_guard _ _ Hcall), Hg2, (sb_guard _ _ Hs).
Qed.

Lemma smartSafeTransfer_vault m b b' (w : W) a v :
  vault b' = vault b -> smartSafeTransfer m b' w a v = smartSafeTransfer m b w a v.
Proof. intros E. unfold smartSafeTransfer, vconfig. by rewrite E. Qed.

(** The run of [kill] after its modifiers. *)
Lemma kill_body_spec m id b w b' w' :
  debts_ok b -> POSITION_ID b = NO_ID -> kill_body m id b w = Ok (b', w') ->
  let pos := position b id in
  exists w1 debt health c factor before w2 back c2 prize w3,
    0 < debtShare pos /\ fairLaunchWithdraw m b w id = Ok w1 /\ removeDebt b id = Ok (b', debt) /\
    worker_health w1 (p_worker pos) id = Ok health /\ vconfig b w1 = Ok c /\
    wc_killFactor (block m) w1 (worker_config c (p_worker pos)) (p_worker pos) debt = Ok factor /\
    health * factor < debt * 10000 /\
    myBalance m b w1 = Ok before /\ worker_liquidate m (b', w1) (p_worker pos) id = Ok (b', w2) /\
    myBalance m b w2 = Ok (before + back) /\ 0 <= back /\ vconfig b w2 = Ok c2 /\
    prize = back * getKillBps c2 / 10000 /\ 0 <= prize <= back /\
    (if 0 <? prize then smartSafeTransfer m b w2 (sender m) prize else Ok w2) = Ok w3 /\
    let left := Z.max 0 (back - prize - debt) in
    (if 0 <? left then smartSafeTransfer m b w3 (p_owner pos) left else Ok w3) = Ok w'.
Proof.
  intros Hb Hidle Hr. cbv zeta. unfold kill_body in Hr. apply bind_Ok in Hr as (_ & _ & Hr).
  apply bind_Ok in Hr as (u & Hpos%require_Ok & Hr). apply bind_Ok in Hr as (w1 & Hfl & Hr).
  apply bind_Ok in Hr as ([b1 debt] & Hrem & Hr). cbv zeta in Hr.
  destruct (removeDebt_fields _ _ _ _ Hrem) as (Ev & Eid & _). rewrite Hidle in Eid.
  destruct (removeDebt_spec _ _ _ _ Hb Hrem) as (_ & Hdebt & _).
  apply bind_Ok in Hr as (health & Hh & Hr). apply bind_Ok in Hr as (c & Hc & Hr).
  apply bind_Ok in Hr as (factor & Hf & Hr). apply bind_Ok in Hr as (x & Hx & Hr).
  apply bind_Ok in Hr as (y & Hy & Hr). apply bind_Ok in Hr as (u' & Hk%require_Ok & Hr).
  apply bind_Ok in Hr as (before & Hbe & Hr). apply bind_Ok in Hr as ([b2 w2] & Hliq & Hr).
  pose proof (liquidate_callbacks _ _ _ _ _ _ _ Eid Hliq) as ->.
  apply bind_Ok in Hr as (bal & Hbal & Hr). apply bind_Ok in Hr as (back & Hback & Hr).
  apply bind_Ok in Hr as (c2 & Hc2 & Hr). apply bind_Ok in Hr as (z & Hz & Hr).
  apply bind_Ok in Hr as (prize & Hprize & Hr). apply bind_Ok in Hr as (rest & Hrest & Hr).
  apply bind_Ok in Hr as (w3 & Hw3 & Hr). apply bind_Ok in Hr as (w4 & Hw4 & Hr). injection Hr as <- <-.
  rewrite !(smartSafeTransfer_vault m b b1) in * by done.
  unfold myBalance, vconfig in *. rewrite Ev in *. lawful. to_props. inv_uint.
  exists w1, debt, health, c, factor, before, w2, (bal - before), c2, ((bal - before) * getKillBps c2 / 10000), w3.
  split_and!; try (done || lia); [rewrite Hbal; f_equal; lia|nonneg|].
  replace (Z.max 0 (bal - before - (bal - before) * getKillBps c2 / 10000 - debt))
    with (if debt <? bal - before - (bal - before) * getKillBps c2 / 10000
          then bal - before - (bal - before) * getKillBps c2 / 10000 - debt else 0); [done|].
  destruct (Z.ltb_spec debt (bal - before - (bal - before) * getKillBps c2 / 10000)); lia.
Qed.

Lemma kill_settles m id b w b' w' :
  debts_ok b -> 0 <= reservePool b -> POSITION_ID b = NO_ID -> kill_body m id b w = Ok (b', w') -> settles b b'.
Proof.
  intros Hb Hres Hidle Hr. apply kill_body_spec in Hr as (w1 & debt & h & c & f & be & w2 & ba & c2 & pr & w3 &
    _ & _ & Hrem & _); [|done..].
  pose proof (removeDebt_spec _ _ _ _ Hb Hrem) as (Hd & _).
  apply removeDebt_fields in Hrem as (_ & Hi & Hs & Hl & Hr & Hg).
  split; try done; [by rewrite Hr|by right].
Qed.

Lemma inExec_idle m b (w : W) body : idle b -> is_ok (inExec m b w body) = false.
Proof. intros Hb. unfold inExec. by rewrite (idle_id b Hb). Qed.

Lemma inExec_false m b (w : W) body r : idle b -> inExec m b w body = Ok r -> False.
Proof. intros Hb Hr. pose proof (inExec_idle m b w body Hb) as Hx. by rewrite Hr in Hx. Qed.

Lemma vault_call_idle m origin msgValue b w c b' w' :
  idle b -> typed_call c -> vault_call m origin msgValue (b, w) c = Ok (b', w') -> idle b'.
Proof.
  intros Hb Hc Hr.
  assert (forall b1 g, idle b1 -> debts_ok (with_guard b1 g) /\ 0 <= reservePool (with_guard b1 g)) as Hg.
  { intros b1 g Hb1. split; [|apply Hb1]. apply (debts_ok_ext b1); try done. apply Hb1. }
  destruct c; cbn in Hc, Hr; unfold uint256 in Hc; destruct_and?.
  - apply bind_Ok in Hr as (w1 & _ & Hr). apply bind_Ok in Hr as (b1 & Hacc & Hr).
    apply accrue_idle in Hacc; [|done]. eapply nonReentrant_idle; [done..|]. intros g b2 w2 Hrun.
    eapply deposit_settles; [apply Hg, Hacc..|exact Hrun].
  - apply bind_Ok in Hr as (b1 & Hacc & Hr). apply accrue_idle in Hacc; [|done].
    eapply nonReentrant_idle; [done..|]. intros g b2 w2 Hrun.
    eapply withdraw_settles; [apply Hg, Hacc..|exact Hrun].
  - apply bind_Ok in Hr as (_ & _ & Hr). apply bind_Ok in Hr as (w1 & _ & Hr).
    apply bind_Ok in Hr as (b1 & Hacc & Hr). apply accrue_idle in Hacc; [|done].
    eapply nonReentrant_idle; [done..|]. intros g b2 w2 Hrun.
    eapply work_settles; [apply Hg, Hacc|apply Hg, Hacc|..|exact Hrun]; lia.
  - apply bind_Ok in Hr as (_ & _ & Hr). apply bind_Ok in Hr as (b1 & Hacc & Hr).
    apply accrue_idle in Hacc; [|done]. eapply nonReentrant_idle; [done..|]. intros g b2 w2 Hrun.
    eapply kill_settles; [apply Hg, Hacc..|apply Hacc|exact Hrun].
  - exfalso. eapply (inExec_false m b w); [done|exact Hr].
  - exfalso. eapply (inExec_false m b w); [done|exact Hr].
  - apply bind_Ok in Hr as (_ & _ & Hr). eapply nonReentrant_idle; [done..|]. intros g b2 w2 Hrun.
    cbn beta in Hrun. destruct (Hg b g Hb). inv_result. inv_uint. simplify_eq.
    split; try done; [by apply (debts_ok_ext (with_guard b g))|cbn in *; lia|by right].
  - inv_result. inv_uint. simplify_eq. split; try apply Hb; [|cbn; lia]. apply (debts_ok_ext b); try done. apply Hb.
Qed.

Lemma reachable_idle b : reachable (W := W) b -> idle b.
Proof.
  induction 1 as [v|b w m origin msgValue c b' w' _ IH Hc Hr|b v _ IH].
  - split; try done; apply new_Bank_debts || apply guard_new_ok.
  - by eapply vault_call_idle.
  - split; try apply IH. apply (debts_ok_ext b); try done. apply IH.
Qed.
End Steps.

Section Theorems.
Context `{AbiCoder} `{!OpenZeppelin} {W : Type} `{!Ledger W} `{!NativeRelayer W} `{!Surroundings W} `{!Lawful W}.

(** C2: in every state a vault can reach, through any history of calls in any
    surroundings, the recorded total of debt shares is the sum of the positions' shares, a
    share is worth at least one unit of the token, the total value is a machine integer,
    and no debt is left when no share is. *)
Theorem vault_books b :
  reachable (W := W) b ->
  vaultDebtShare b = total_debtShare (positions b) /\
  (forall id, 0 <= debtShare (position b id) <= vaultDebtShare b) /\
  vaultDebtShare b <= vaultDebtVal b < UINT256 /\
  (vaultDebtShare b = 0 -> vaultDebtVal b = 0).
Proof.
  intros Hr%reachable_idle%idle_debts. split; [apply Hr|]. split; [|split; apply Hr].
  intros id. split; [apply Hr|by apply position_le].
Qed.

Lemma nonReentrant_entered b (w : W) body :
  is_ok (guard_enter (guard b)) = false -> is_ok (nonReentrant b w body) = false.
Proof. unfold nonReentrant. by destruct (guard_enter (guard b)). Qed.

Lemma accrue_guard m b w value b' : accrue m b w value = Ok b' -> guard b' = guard b.
Proof. unfold accrue. intros Hr. destruct (_ <? _); inv_result; by simplify_eq. Qed.

(** Any state in which the guard is set, at the hands of whomever: only the reserve can be
    written down, by the owner, and only the strategy in execution is served. *)
Lemma entered_calls b m origin msgValue w c :
  is_ok (guard_enter (guard b)) = false -> is_ok (vault_call m origin msgValue (b, w) c) = true ->
  (exists value, c = ReduceReserve value /\ sender m = v_owner (vault b)) \/
  POSITION_ID b <> NO_ID /\ sender m = STRATEGY b /\
  ((exists tok amount, c = RequestFunds tok amount) \/ (exists code, c = InjectSerialCode code)).
Proof.
  intros Hg Hok.
  assert (forall b1 (w1 : W) body, guard b1 = guard b -> is_ok (nonReentrant b1 w1 body) = true -> False) as Hno.
  { intros b1 w1 body Eg Hok1. by rewrite nonReentrant_entered in Hok1 by by rewrite Eg. }
  assert (forall body : Bank -> W -> result (Bank * W), is_ok (inExec m b w body) = true ->
    POSITION_ID b <> NO_ID /\ sender m = STRATEGY b) as Hin.
  { intros body Hr. destruct (inExec m b w body) as [r|] eqn:E; [|done]. unfold inExec in E.
    apply bind_Ok in E as (_ & Hscope%require_Ok & E). apply bind_Ok in E as (_ & Hstrat%require_Ok & _). to_props.
    split; [by apply Z.eqb_neq, negb_true_iff|done]. }
  destruct c; cbn in Hok.
  - destruct (transferTokenToVault _ _ _ _ _) as [w1|]; [cbn in Hok|done].
    destruct (accrue _ _ _ _) as [b1|] eqn:Hacc; [|done]. apply accrue_guard in Hacc. exfalso. by eapply Hno.
  - destruct (accrue _ _ _ _) as [b1|] eqn:Hacc; [|done]. apply accrue_guard in Hacc. exfalso. by eapply Hno.
  - destruct (onlyEOA _ _); [cbn in Hok|done].
    destruct (transferTokenToVault _ _ _ _ _) as [w1|]; [cbn in Hok|done].
    destruct (accrue _ _ _ _) as [b1|] eqn:Hacc; [|done]. apply accrue_guard in Hacc. exfalso. by eapply Hno.
  - destruct (onlyEOA _ _); [cbn in Hok|done].
    destruct (accrue _ _ _ _) as [b1|] eqn:Hacc; [|done]. apply accrue_guard in Hacc. exfalso. by eapply Hno.
  - apply Hin in Hok as [Hid Hs]. right. split_and!; [done..|]. left. by eexists _, _.
  - apply Hin in Hok as [Hid Hs]. right. split_and!; [done..|]. right. by eexists.
  - destruct (onlyOwner _ _); [cbn in Hok|done]. exfalso. eapply Hno; [|exact Hok]; done.
  - left. exists value. split; [done|]. destruct (onlyOwner _ _) eqn:E; [|done].
    apply require_Ok in E. by to_props.
Qed.

(** ** The surroundings, watching

    A worker that refuses to run unless the vault it is called from has its guard set and
    has this position in execution -- none, for a liquidation. *)
Definition watching : Surroundings W := {|
  vault_config := vault_config;
  interest_rate := interest_rate;
  wc_acceptDebt := wc_acceptDebt;
  wc_workFactor := wc_workFactor;
  wc_killFactor := wc_killFactor;
  worker_health := worker_health;
  worker_work := fun m bw worker id user debt data =>
    require (negb (is_ok (guard_enter (guard bw.1)))) "entered" ;;
    require (POSITION_ID bw.1 =? id) "in scope" ;;
    worker_work m bw worker id user debt data;
  worker_liquidate := fun m bw worker id =>
    require (negb (is_ok (guard_enter (guard bw.1)))) "entered" ;;
    require (POSITION_ID bw.1 =? NO_ID) "in scope" ;;
    worker_liquidate m bw worker id;
  debt_mint := debt_mint;
  debt_burn := debt_burn;
  fairlaunch_deposit := fairlaunch_deposit;
  fairlaunch_withdraw := fairlaunch_withdraw
|}.

Lemma watching_run m id worker principal loan data b w :
  is_ok (guard_enter (guard b)) = false ->
  run_worker (Surroundings0 := watching) m id worker principal loan data b w
  = run_worker m id worker principal loan data b w.
Proof.
  intros Hg. unfold run_worker. apply bind_ext; intros _ _.
  apply bind_ext; intros [[b1 w1] id'] Hsel. apply bind_ext; intros strategy _.
  apply bind_ext; intros c _. apply bind_ext; intros _ _. apply bind_ext; intros ok _. apply bind_ext; intros _ _.
  apply bind_ext; intros [b2 removed] Hrem. apply bind_ext; intros debt _. apply bind_ext; intros send _.
  apply bind_ext; intros bal _. apply bind_ext; intros _ _. apply bind_ext; intros before _.
  apply bind_ext; intros w3 _.
  apply removeDebt_fields in Hrem as (_ & Hid & _ & _ & _ & Hg2). cbn in Hid, Hg2.
  assert (guard b1 = guard b) as Hg1 by exact (sb_guard _ _ (select_position_books _ _ _ _ _ _ _ _ Hsel)).
  cbn. rewrite Hg2, Hg1, Hg, Hid, Z.eqb_refl. done.
Qed.

Lemma watching_kill m id b w :
  is_ok (guard_enter (guard b)) = false -> POSITION_ID b = NO_ID ->
  kill_body (Surroundings0 := watching) m id b w = kill_body m id b w.
Proof.
  intros Hg Hid. unfold kill_body. apply bind_ext; intros _ _. apply bind_ext; intros _ _.
  apply bind_ext; intros w1 _. apply bind_ext; intros [b1 debt] Hrem. apply bind_ext; intros health _.
  apply bind_ext; intros c _. apply bind_ext; intros factor _. apply bind_ext; intros x _.
  apply bind_ext; intros y _. apply bind_ext; intros _ _. apply bind_ext; intros before _.
  apply removeDebt_fields in Hrem as (_ & Hid1 & _ & _ & _ & Hg1).
  cbn. by rewrite Hg1, Hg, Hid1, Hid.
Qed.

Lemma nonReentrant_ext b (w : W) f g :
  (forall b1, is_ok (guard_enter (guard b1)) = false -> POSITION_ID b1 = POSITION_ID b -> f b1 w = g b1 w) ->
  nonReentrant b w f = nonReentrant b w g.
Proof.
  intros Hext. unfold nonReentrant. apply bind_ext; intros g1 Hg1. rewrite Hext; [done| |done].
  cbn. by eapply guard_entered.
Qed.

End Theorems.
