(* ===== verification/BankValue.v ===== *)
(** * What lenders and borrowers keep

    The value a vault holds for its lenders -- its token balance and the debts owed to it,
    without the reserve -- and how each operation changes it: deposits and withdrawals do not
    dilute it, working on a position conserves it, killing one costs at most what the
    position fails to cover.  And a position that has just been worked on cannot be killed. *)

From S2P Require Import Prelude Buffers MerkleTree BalanceTree Evm Uint Sums Lending Bank BankTheory.

Open Scope Z_scope.

Section Moved.
Context `{OpenZeppelin} {W : Type} `{!Ledger W} `{!NativeRelayer W} `{!Surroundings W}.

(** From [w] to [w'] the balance of [me] in [tok] changes by [d], and the configurations of
    the vaults stay. *)
Record moved (tok me : address) (d : Z) (w w' : W) : Prop := {
  moved_balance : forall x, balanceOf w tok me = Ok x -> balanceOf w' tok me = Ok (x + d);
  moved_config : forall a, vault_config w' a = vault_config w a
}.

Lemma moved_refl tok me w : moved tok me 0 w w.
Proof. split; [|done]. intros x ->. f_equal. lia. Qed.

Lemma moved_trans tok me d d' w1 w2 w3 :
  moved tok me d w1 w2 -> moved tok me d' w2 w3 -> moved tok me (d + d') w1 w3.
Proof.
  intros [B1 C1] [B2 C2]. split; [|intros a; by rewrite C2].
  intros x Hx. rewrite (B2 _ (B1 _ Hx)). f_equal. lia.
Qed.

(** The base token of the vault at [me]: a plain ERC-20 whose transfers move what they say,
    distinct from the tokens that other contracts move on the vault's behalf. *)
Class BaseToken (tok me : address) := {
  transfer_out : forall m w to v w', self m = me -> to <> me ->
    safeTransfer m w tok to v = Ok w' -> moved tok me (- v) w w';
  transfer_in : forall m w from v w', from <> me ->
    safeTransferFrom m w tok from me v = Ok w' -> moved tok me v w w';
  wrap_in : forall m w v w', self m = me -> wrapped_deposit m w tok v = Ok w' -> moved tok me v w w';
  native_still : forall w a b v w', send_native w a b v = Ok w' -> moved tok me 0 w w';
  relayer_still : forall m w relayer v w', self m = me -> relayer <> me ->
    relayer_withdraw m w relayer v = Ok w' -> moved tok me 0 w w';
  debt_still : forall m w d v w', self m = me -> d <> tok ->
    debt_mint m w d me v = Ok w' \/ debt_burn m w d me v = Ok w' -> moved tok me 0 w w';
  fairlaunch_still : forall m w f a pid v w', self m = me -> a <> me ->
    fairlaunch_deposit m w f a pid v = Ok w' \/ fairlaunch_withdraw m w f a pid v = Ok w' ->
    moved tok me 0 w w';
  work_config : forall m b w worker id user debt data b' w',
    worker_work m (b, w) worker id user debt data = Ok (b', w') ->
    forall a, vault_config w' a = vault_config w a;
  liquidate_config : forall m b w worker id b' w', worker_liquidate m (b, w) worker id = Ok (b', w') ->
    forall a, vault_config w' a = vault_config w a
}.
End Moved.

(** ** The value held for the lenders *)

Section Value.
Context `{AbiCoder} `{!OpenZeppelin} {W : Type} `{!Ledger W} `{!NativeRelayer W} `{!Surroundings W} `{!Lawful W}.

Definition lenders_value (m : Msg) (b : Bank) (w : W) (t : Z) : Prop :=
  exists x, myBalance m b w = Ok x /\ t = x + vaultDebtVal b - reservePool b.

(** It is what [totalToken] returns. *)
Lemma totalToken_value m b w t :
  debts_ok b -> totalToken m b w = Ok t -> lenders_value m b w t /\ 0 <= t.
Proof.
  intros Hb Hr. pose proof (val_range b Hb). pose proof (total_nonneg b Hb).
  unfold totalToken in Hr. apply bind_Ok in Hr as (x & Hx & Hr). lawful. inv_result. inv_uint.
  split; [by exists x|lia].
Qed.

Lemma lenders_value_unique m b w t t' : lenders_value m b w t -> lenders_value m b w t' -> t = t'.
Proof. intros (x & Hx & ->) (y & Hy & ->). rewrite Hx in Hy. by injection Hy as ->. Qed.

(** Where the body of [work] starts: the principal is in the vault, interest accrued, the
    guard set. *)
Definition entered (m : Msg) (msgValue : Z) (b : Bank) (w : W) (principal : Z) : result (Bank * W) :=
  w ← transferTokenToVault m msgValue b w principal;
  b ← accrue m b w principal;
  g ← guard_enter (guard b);
  Ok (with_guard b g, w).

Lemma work_entered m origin msgValue b w id worker principal loan maxReturn data b' w' :
  work m origin msgValue (b, w) id worker principal loan maxReturn data = Ok (b', w') ->
  exists b1 w1 b2, entered m msgValue b w principal = Ok (b1, w1) /\
    work_body m id worker principal loan maxReturn data b1 w1 = Ok (b2, w') /\
    b' = with_guard b2 (guard_leave (guard b2)).
Proof.
  intros Hr. cbn in Hr. apply bind_Ok in Hr as (_ & _ & Hr). apply bind_Ok in Hr as (w1 & Hin & Hr).
  apply bind_Ok in Hr as (b1 & Hacc & Hr). unfold nonReentrant in Hr.
  apply bind_Ok in Hr as (g & Hg & Hr). apply bind_Ok in Hr as ([b2 w2] & Hrun & Hr). injection Hr as <- <-.
  exists (with_guard b1 g), w1, b2. split; [|done]. unfold entered. rewrite Hin. cbn. rewrite Hacc. cbn. by rewrite Hg.
Qed.

(** Interest has been accrued in this block: what every operation does first. *)
Lemma accrue_accrued m b w v b' : now m <= lastAccrueTime (vault b) -> accrue m b w v = Ok b' -> b' = b.
Proof. intros Hn. unfold accrue. rewrite (proj2 (Z.ltb_ge _ _)) by done. by intros [= <-]. Qed.

Context {tok me : address} `{!BaseToken tok me}.

(** The vault at [me] with the base token [tok], and a caller who is not the vault. *)
Record at_vault (m : Msg) (b : Bank) (w : W) : Prop := {
  at_self : self m = me;
  at_token : token (vault b) = tok;
  at_debtToken : debtToken (vault b) <> tok;
  at_sender : sender m <> me;
  at_relayer : forall c, vconfig b w = Ok c -> wNativeRelayer c <> me
}.

Lemma transferTokenToVault_moved m msgValue b w v w' :
  at_vault m b w -> 0 <= v -> transferTokenToVault m msgValue b w v = Ok w' -> moved tok me v w w'.
Proof.
  intros [Hs Ht _ Hsend _] Hv Hr. unfold transferTokenToVault in Hr. rewrite Ht, Hs in Hr.
  destruct (negb _); [|by eapply transfer_in].
  apply bind_Ok in Hr as (w1 & Hw1 & Hr). apply bind_Ok in Hr as (c & Hc & Hr).
  apply bind_Ok in Hr as (u & Hweth%require_Ok & Hr). apply bind_Ok in Hr as (u2 & Heq%require_Ok & Hr).
  to_props. rewrite <-Hweth in Hr. apply native_still in Hw1. apply wrap_in in Hr; [|done].
  pose proof (moved_trans _ _ _ _ _ _ _ Hw1 Hr) as Hm. by rewrite <-Heq in Hm.
Qed.

Lemma smartSafeTransfer_moved m b w to v w' :
  at_vault m b w -> to <> me -> smartSafeTransfer m b w to v = Ok w' -> moved tok me (- v) w w'.
Proof.
  intros [Hs Ht _ _ Hc] Hto Hr. unfold smartSafeTransfer in Hr. apply bind_Ok in Hr as (c & Hrel%Hc & Hr).
  rewrite Ht in Hr.
  destruct (bool_decide _); [|by eapply (transfer_out m); [..|exact Hr]].
  apply bind_Ok in Hr as (w1 & Hw1 & Hr). apply bind_Ok in Hr as (w2 & Hw2 & Hr).
  apply transfer_out in Hw1; [|done..]. apply relayer_still in Hw2; [|done..]. apply native_still in Hr.
  pose proof (moved_trans _ _ _ _ _ _ _ (moved_trans _ _ _ _ _ _ _ Hw1 Hw2) Hr) as Hm.
  by rewrite !Z.add_0_r in Hm.
Qed.

(** ** Deposits and withdrawals *)

(** What a deposit does to the books, interest accrued. *)
Lemma deposit_spec m msgValue b w a b' w' t :
  idle b -> at_vault m b w -> uint256 a -> now m <= lastAccrueTime (vault b) ->
  lenders_value m b w t -> deposit m msgValue (b, w) a = Ok (b', w') ->
  exists share, lenders_value m b' w' (t + a) /\
    share = (if t =? 0 then a else a * totalSupply b / t) /\
    erc20_mint (v_erc20 (vault b)) (sender m) share = Ok (v_erc20 (vault b')) /\
    b' = with_guard (with_vault b (with_v_erc20 (vault b) (v_erc20 (vault b')))) (guard b') /\
    0 <= t /\ moved tok me a w w'.
Proof.
  intros Hb Hat [Ha0 Ha] Hnow (x & Hx & ->) Hr. cbn in Hr. apply bind_Ok in Hr as (w1 & Hw1 & Hr).
  apply transferTokenToVault_moved in Hw1; [|done..]. apply bind_Ok in Hr as (b1 & Hacc & Hr).
  apply accrue_accrued in Hacc as ->; [|done]. unfold nonReentrant in Hr.
  apply bind_Ok in Hr as (g & _ & Hr). apply bind_Ok in Hr as ([b2 w2] & Hrun & Hr). injection Hr as <- <-.
  unfold deposit_body in Hrun. apply bind_Ok in Hrun as (tokens & Htok & Hrun).
  apply totalToken_value in Htok as [(y & Hy & ->) _]; [|by apply (debts_ok_ext b), idle_debts].
  destruct Hat as [Hs Ht Hd Hsend _]. unfold myBalance in *. cbn in Hy. rewrite Hs, Ht in *.
  rewrite (moved_balance _ _ _ _ _ Hw1 _ Hx) in Hy. injection Hy as <-.
  apply bind_Ok in Hrun as (total & Htotal & Hrun). apply bind_Ok in Hrun as (share & Hshare & Hrun).
  apply bind_Ok in Hrun as (e & He & Hrun). apply bind_Ok in Hrun as (u & _ & Hrun). injection Hrun as <- <-.
  inv_uint. cbn in *. replace (x + a + vaultDebtVal b - reservePool b - a)
    with (x + vaultDebtVal b - reservePool b) in Hshare by lia.
  exists share. split; [|split_and!; try done].
  - exists (x + a). split; [|cbn; lia].
    unfold myBalance. cbn. rewrite Hs, Ht. by apply (moved_balance _ _ _ _ _ Hw1).
  - destruct (_ =? 0); [by injection Hshare as <-|]. inv_result. by inv_uint.
  - lia.
Qed.

(** A bank with the same terms at the same place. *)
Lemma at_vault_still m b w b' w' :
  at_vault m b w -> token (vault b') = token (vault b) -> debtToken (vault b') = debtToken (vault b) ->
  config (vault b') = config (vault b) -> (forall a, vault_config w' a = vault_config w a) ->
  at_vault m b' w'.
Proof.
  intros [] Et Ed Ec Hw. split; [done|congruence..|done|]. unfold vconfig in *. by rewrite Ec, Hw.
Qed.

Lemma withdraw_spec m b w share b' w' t :
  idle b -> at_vault m b w -> uint256 share -> now m <= lastAccrueTime (vault b) ->
  lenders_value m b w t -> withdraw m (b, w) share = Ok (b', w') ->
  exists amount, lenders_value m b' w' (t - amount) /\ amount = share * t / totalSupply b /\
    0 < totalSupply b /\ 0 <= t /\
    erc20_burn (v_erc20 (vault b)) (sender m) share = Ok (v_erc20 (vault b')) /\
    b' = with_guard (with_vault b (with_v_erc20 (vault b) (v_erc20 (vault b')))) (guard b') /\
    moved tok me (- amount) w w'.
Proof.
  intros Hb Hat [Hs0 Hs] Hnow Hval Hr. cbn in Hr. apply bind_Ok in Hr as (b1 & Hacc & Hr).
  apply accrue_accrued in Hacc as ->; [|done]. unfold nonReentrant in Hr.
  apply bind_Ok in Hr as (g & _ & Hr). apply bind_Ok in Hr as ([b2 w2] & Hrun & Hr). injection Hr as <- <-.
  unfold withdraw_body in Hrun. apply bind_Ok in Hrun as (tokens & Htok & Hrun).
  apply totalToken_value in Htok as [Hval' Ht0]; [|by apply (debts_ok_ext b), idle_debts].
  assert (tokens = t) as -> by by eapply (lenders_value_unique m b w).
  apply bind_Ok in Hrun as (x & Hx & Hrun). apply bind_Ok in Hrun as (amount & Hamount & Hrun).
  apply bind_Ok in Hrun as (e & He & Hrun). apply bind_Ok in Hrun as (w3 & Hw3 & Hrun).
  apply bind_Ok in Hrun as (u & _ & Hrun). injection Hrun as <- <-. inv_uint. cbn in He.
  apply smartSafeTransfer_moved in Hw3; [|by apply (at_vault_still m b w)|apply Hat].
  exists (share * t / totalSupply b). split; [|split_and!; try done].
  destruct Hval as (y & Hy & ->). destruct Hat as [Hself Htk _ _ _].
  exists (y - share * (y + vaultDebtVal b - reservePool b) / totalSupply b). unfold myBalance in *. cbn in *.
  rewrite Hself, Htk in *. split; [|lia]. rewrite (moved_balance _ _ _ _ _ Hw3 _ Hy). done.
Qed.

Lemma deposit_idle m msgValue b w a b' w' :
  idle b -> uint256 a -> deposit m msgValue (b, w) a = Ok (b', w') -> idle b'.
Proof. intros Hb Ha Hr. by eapply (vault_call_idle m (sender m) msgValue b w (Deposit a)). Qed.

(** C13: neither a deposit nor a withdrawal dilutes the lenders who stay: with interest
    accrued, the value per share -- compared as cross products -- does not fall.  A deposit
    adds its amount to the value held, a withdrawal takes its part, rounded down. *)
Theorem lenders_not_diluted m msgValue b w a b' w' t :
  idle b -> at_vault m b w -> uint256 a -> now m <= lastAccrueTime (vault b) ->
  lenders_value m b w t -> 0 <= totalSupply b ->
  (deposit m msgValue (b, w) a = Ok (b', w') \/ withdraw m (b, w) a = Ok (b', w')) ->
  exists t', lenders_value m b' w' t' /\ t * totalSupply b' <= t' * totalSupply b.
Proof.
  intros Hb Hat Ha Hnow Hval HS [Hr|Hr].
  - eapply deposit_spec in Hr as (share & Hval' & Hshare & Hmint & _ & Ht & _); [|done..].
    exists (t + a). split; [done|]. apply erc20_mint_spec in Hmint as (Hs & _).
    unfold totalSupply in *. rewrite Hs. destruct Ha. destruct (Z.eqb_spec t 0) as [->|Hnz]; [lia|].
    pose proof (div_bounds (a * erc20_totalSupply (v_erc20 (vault b))) t ltac:(lia)). subst share. lia.
  - eapply withdraw_spec in Hr as (amount & Hval' & Ham & HSpos & Ht & Hburn & _); [|done..].
    exists (t - amount). split; [done|]. apply erc20_burn_spec in Hburn as (_ & Hs & _).
    pose proof (div_bounds (a * t) (totalSupply b) HSpos). unfold totalSupply in *. rewrite Hs. subst amount. lia.
Qed.

(** C28: depositing and withdrawing the shares at once, interest accrued, returns at most
    what was put in, and less than it by at most the value of one share and one unit: the
    rounding is the vault's, and it is bounded. *)
Theorem deposit_withdraw_round m msgValue b w a share b1 w1 b2 w2 t x y :
  idle b -> at_vault m b w -> uint256 a -> uint256 share -> now m <= lastAccrueTime (vault b) ->
  lenders_value m b w t -> 0 < t -> 0 < totalSupply b ->
  deposit m msgValue (b, w) a = Ok (b1, w1) ->
  totalSupply b1 = totalSupply b + share ->
  withdraw m (b1, w1) share = Ok (b2, w2) ->
  balanceOf w1 tok me = Ok x -> balanceOf w2 tok me = Ok y ->
  let paid := x - y in
  totalSupply b2 = totalSupply b /\ paid <= a /\ (a - paid - 1) * totalSupply b < t.
Proof.
  intros Hb Hat Ha Hshare Hnow Hval Ht HS Hd HS1 Hw Hx Hy. cbv zeta.
  pose proof (deposit_idle _ _ _ _ _ _ _ Hb Ha Hd) as Hb1.
  eapply deposit_spec in Hd as (s & Hval1 & Hs & Hmint & E1 & _ & Hm1); [|done..].
  apply erc20_mint_spec in Hmint as (HS1' & _). unfold totalSupply in HS1 at 1. rewrite HS1' in HS1.
  assert (s = share) as -> by (unfold totalSupply in HS1; lia). rewrite (proj2 (Z.eqb_neq t 0)) in Hs by lia.
  assert (at_vault m b1 w1) as Hat1.
  { apply (at_vault_still m b w); [done|by rewrite E1..|apply Hm1]. }
  eapply withdraw_spec in Hw as (amount & _ & Ham & _ & _ & Hburn & _ & Hm2); [|done..|by rewrite E1|done].
  apply erc20_burn_spec in Hburn as (_ & HS2 & _).
  pose proof (moved_balance _ _ _ _ _ Hm2 _ Hx) as Hy'. rewrite Hy in Hy'. injection Hy' as ->.
  assert (totalSupply b1 = totalSupply b + share) as HSb1 by (unfold totalSupply in *; lia).
  rewrite HSb1 in Ham. pose proof (div_bounds (a * totalSupply b) t Ht) as D1. rewrite <-Hs in D1.
  destruct Hshare, Ha.
  pose proof (div_bounds (share * (t + a)) (totalSupply b + share) ltac:(lia)) as D2. rewrite <-Ham in D2.
  split; [unfold totalSupply in *; lia|].
  replace (x - (x + - amount)) with amount by lia. set (S0 := totalSupply b) in *.
  assert (share * t <= a * S0) by lia.
  split; [apply Z.mul_le_mono_pos_l with (S0 + share); lia|].
  apply Z.mul_lt_mono_pos_l with (S0 + share); [lia|].
  assert (S0 * ((S0 + share) * (a - amount - 1)) < S0 * (a * S0 - share * t)) by nia.
  nia.
Qed.

(** ** Positions *)

Lemma fairLaunchWithdraw_moved m b w id w' :
  at_vault m b w -> p_owner (position b id) <> me -> fairLaunchWithdraw m b w id = Ok w' -> moved tok me 0 w w'.
Proof.
  intros [Hs _ Hd _ _] Hown Hr. unfold fairLaunchWithdraw in Hr.
  destruct (0 <? _); [|injection Hr as <-; apply moved_refl].
  apply bind_Ok in Hr as (c & _ & Hr). destruct (fairlaunch_withdraw _ _ _ _ _ _) as [w1|] eqn:Hw1.
  - eapply (moved_trans _ _ 0 0 _ w1); [by eapply (fairlaunch_still m); eauto|].
    rewrite Hs in Hr. eapply debt_still; [exact Hs|exact Hd|]. by right.
  - injection Hr as <-. apply moved_refl.
Qed.

Lemma fairLaunchDeposit_moved m b w id v w' :
  at_vault m b w -> p_owner (position b id) <> me -> fairLaunchDeposit m b w id v = Ok w' -> moved tok me 0 w w'.
Proof.
  intros [Hs _ Hd _ _] Hown Hr. unfold fairLaunchDeposit in Hr.
  destruct (0 <? _); [|injection Hr as <-; apply moved_refl].
  apply bind_Ok in Hr as (w1 & Hw1 & Hr). apply bind_Ok in Hr as (c & _ & Hr).
  eapply (moved_trans _ _ 0 0 _ w1).
  - rewrite Hs in Hw1. eapply debt_still; [exact Hs|exact Hd|]. by left.
  - eapply fairlaunch_still; [exact Hs|exact Hown|]. by left.
Qed.

(** What the owner of a position gets back, and the closing prize the vault keeps. *)
Lemma return_excess_moved m b w back lessDebt w' c :
  at_vault m b w -> 0 <= lessDebt <= back -> vconfig b w = Ok c -> return_excess m b w back lessDebt = Ok w' ->
  let left := back - lessDebt in
  0 <= left * getCloseBps c / 10000 /\ moved tok me (left * getCloseBps c / 10000 - left) w w'.
Proof.
  intros Hat Hle Hc Hr. unfold return_excess in Hr. destruct (Z.ltb_spec lessDebt back) as [Hlt|Hge].
  - rewrite Hc in Hr. cbn [mbind result_bind] in Hr. lawful. inv_result. inv_uint.
    split; [nonneg|]. match goal with H : smartSafeTransfer _ _ _ _ _ = _ |- _ =>
      apply smartSafeTransfer_moved in H; [|done|apply Hat] end.
    by match goal with H : moved _ _ ?d _ _ |- moved _ _ ?d' _ _ => replace d' with d by lia end.
  - injection Hr as <-. assert (back - lessDebt = 0) as -> by lia. cbn. split; [done|apply moved_refl].
Qed.

(** After a worker ran, the vault has the same terms. *)
Lemma vault_terms b1 b2 w1 w2 m :
  at_vault m b1 w1 -> same_books b1 b2 -> (forall a, vault_config w2 a = vault_config w1 a) -> at_vault m b2 w2.
Proof.
  intros Hat (Et & Ec & Ed & _)%same_books_vault Hw. by apply (at_vault_still m b1 w1).
Qed.

Lemma take_debt_moved m b w id worker debt b' w' :
  debts_ok b -> 0 <= debt < UINT256 -> at_vault m b w -> p_owner (position b id) <> me ->
  take_debt m b w id worker debt = Ok (b', w') ->
  moved tok me 0 w w' /\ vaultDebtVal b' = vaultDebtVal b + debt /\ reservePool b' = reservePool b /\
  vault b' = vault b.
Proof.
  intros Hb Hd Hat Hown Hr. apply take_debt_spec in Hr; [|done..].
  destruct Hr as [(-> & -> & ->)|(c & h & f & Hpos & _ & _ & _ & _ & _ & Hadd & Hfl)].
  - split_and!; try done; [apply moved_refl|lia].
  - destruct (addDebt_fields _ _ _ _ Hadd) as (Ev & _ & _ & _ & Er & _).
    apply addDebt_spec in Hadd as (s & _ & _ & E & _); [|done..].
    split_and!; try done; [|by rewrite E].
    eapply fairLaunchDeposit_moved; [|..|exact Hfl].
    + apply (at_vault_still m b w); [done|by rewrite Ev..|done].
    + rewrite E. change (position (with_debt (with_position b id ?p) _ _) id) with (position (with_position b id p) id).
      by rewrite position_with, decide_True by done.
Qed.

Lemma work_body_value m id worker principal loan maxReturn data b w b' w' x c :
  debts_ok b -> at_vault m b w -> worker <> me -> 0 <= principal -> 0 <= loan < UINT256 -> 0 <= maxReturn ->
  myBalance m b w = Ok (x + principal) -> vconfig b w = Ok c ->
  work_body m id worker principal loan maxReturn data b w = Ok (b', w') ->
  exists b1 w1 id' debt back y, run_worker m id worker principal loan data b w = Ok (b1, w1, id', debt, back) /\
    let left := back - Z.min debt (Z.min back maxReturn) in
    0 <= left /\ myBalance m b' w' = Ok y /\ reservePool b' = reservePool b /\
    y + vaultDebtVal b' = x + vaultDebtVal b + left * getCloseBps c / 10000.
Proof.
  intros Hb Hat Hwk Hp Hl Hm Hx Hc Hr.
  apply work_body_spec in Hr as (id' & b1 & removed & b2 & w2 & b3 & b4 & w4 & w5 & bal & back & c' & strategy & w3 &
    Hsel & Hsend & Hrun & _ & _ & Hrem & Hbal & _ & Hcall & Hbal4 & Hback & Htake & Hret & -> & Hu & Hpre); [|done..].
  pose proof (select_position_books _ _ _ _ _ _ _ _ Hsel) as Hb1.
  assert (same_books b (with_scope b1 id' strategy)) as Hs by (etrans; [done|apply scope_books]).
  pose proof (same_books_debts _ _ Hs Hb) as Hd1.
  pose proof (removeDebt_spec _ _ _ _ Hd1 Hrem) as (Hd2 & Hrem0 & HV2 & _).
  pose proof (removeDebt_fields _ _ _ _ Hrem) as (Ev2 & _ & _ & _ & Hr2 & _).
  pose proof (same_but_serial_debts _ _ Hcall Hd2) as Hd3.
  apply select_position_owner in Hsel as (Hown1 & _ & _ & Hcase).
  assert (p_owner (position b3 id') <> me) as Hown3.
  { pose proof (f_equal p_owner (sbs_positions _ _ Hcall id')) as E. cbn in E. rewrite E.
    destruct (removeDebt_position _ _ _ _ id' Hrem) as (-> & _).
    change (p_owner (position b1 id') <> me). rewrite Hown1. apply Hat. }
  assert (moved tok me 0 w w2) as Hm2.
  { destruct Hcase as [(_ & ->)|(-> & -> & Hfl)]; [apply moved_refl|].
    eapply fairLaunchWithdraw_moved; [done| |done]. rewrite Hown1. apply Hat. }
  destruct Hat as [Hself Htok Hdt Hsender Hrel] eqn:Eat. rewrite Htok in Hsend.
  apply transfer_out in Hsend; [|done..]. pose proof (work_config _ _ _ _ _ _ _ _ _ _ Hrun) as Hcfg.
  pose proof (moved_trans _ _ _ _ _ _ _ Hm2 Hsend) as Hm3. 
  assert (at_vault m b3 w4) as Hat3.
  { apply (at_vault_still m b w); [done|rewrite (sbs_vault _ _ Hcall), Ev2; apply same_books_vault in Hs as (?&?&?&_); done..|].
    intros a. by rewrite Hcfg, (moved_config _ _ _ _ _ Hm3). }
  set (debt := removed + loan) in *. set (lessDebt := Z.min debt (Z.min back maxReturn)) in *.
  apply take_debt_moved in Htake as (Hm5 & HV4 & HR4 & Ev4); [|done|lia|done..].
  assert (at_vault m b4 w5) as Hat4.
  { apply (at_vault_still m b3 w4); [done|by rewrite Ev4..|apply Hm5]. }
  assert (config (vault b4) = config (vault b)) as Ec4.
  { rewrite Ev4, (sbs_vault _ _ Hcall), Ev2. by apply same_books_vault in Hs as (_&?&_). }
  apply (return_excess_moved _ _ _ _ _ _ c) in Hret as [Hprize Hm6]; [|done|lia|].
  2: { unfold vconfig. rewrite Ec4, (moved_config _ _ _ _ _ Hm5), Hcfg, (moved_config _ _ _ _ _ Hm3). done. }
  exists b3, w4, id', debt, back, (x - loan + back + ((back - lessDebt) * getCloseBps c / 10000 - (back - lessDebt))).
  split; [exact Hpre|]. cbv zeta. fold lessDebt. split; [lia|]. split_and!.
  - unfold myBalance in *. cbn. rewrite (at_token _ _ _ Hat4), Hself. rewrite Hself, Htok in *.
    rewrite (moved_balance _ _ _ _ _ Hm2 _ Hx) in Hbal. injection Hbal as <-.
    pose proof (moved_balance _ _ _ _ _ (moved_trans _ _ _ _ _ _ _ Hm5 Hm6) _ Hbal4) as Hy.
    rewrite Hy. f_equal. lia.
  - cbn. rewrite HR4, (sbs_reserve _ _ Hcall), Hr2. apply Hs.
  - cbn. rewrite HV4, (sbs_val _ _ Hcall), HV2. pose proof (sb_val _ _ Hs). lia.
Qed.

(** C6: working on a position conserves what the lenders hold, interest accrued: the
    tokens lent, the debt recorded, what the worker returned and what the owner got balance
    out.  Of what the worker returned, the part that does not reduce the debt is left over;
    the lenders gain exactly the closing prize on it, and the reserve gains nothing. *)
Theorem work_conserves_value m origin msgValue b w id worker principal loan maxReturn data b' w' t c :
  idle b -> at_vault m b w -> worker <> me -> typed_call (Work id worker principal loan maxReturn data) ->
  now m <= lastAccrueTime (vault b) -> lenders_value m b w t -> vconfig b w = Ok c ->
  work m origin msgValue (b, w) id worker principal loan maxReturn data = Ok (b', w') ->
  exists b1 w1 b2 w2 id' debt back,
    entered m msgValue b w principal = Ok (b1, w1) /\
    run_worker m id worker principal loan data b1 w1 = Ok (b2, w2, id', debt, back) /\
    let left := back - Z.min debt (Z.min back maxReturn) in
    0 <= left /\ lenders_value m b' w' (t + left * getCloseBps c / 10000) /\
    reservePool b' = reservePool b.
Proof.
  intros Hb Hat Hwk (_ & [Hp0 Hp] & [Hl0 Hl] & [Hr0 _]) Hnow (x & Hx & ->) Hc Hr.
  apply work_entered in Hr as (b1 & w1 & b2 & Hent & Hrun & ->). pose proof Hent as Hent'. unfold entered in Hent.
  apply bind_Ok in Hent as (w1' & Hin & Hent). apply bind_Ok in Hent as (b1' & Hacc & Hent).
  apply accrue_accrued in Hacc as ->; [|done]. apply bind_Ok in Hent as (g & _ & Hent). injection Hent as <- <-.
  apply transferTokenToVault_moved in Hin; [|done..].
  assert (debts_ok (with_guard b g)) as Hd by by apply (debts_ok_ext b), idle_debts.
  assert (at_vault m (with_guard b g) w1') as Hat1 by (apply (at_vault_still m b w); [done..|apply Hin]).
  assert (myBalance m (with_guard b g) w1' = Ok (x + principal)) as Hx1.
  { unfold myBalance in *. cbn. rewrite (at_self _ _ _ Hat), (at_token _ _ _ Hat) in *.
    by apply (moved_balance _ _ _ _ _ Hin). }
  assert (vconfig (with_guard b g) w1' = Ok c) as Hc1.
  { unfold vconfig in *. cbn. by rewrite (moved_config _ _ _ _ _ Hin). }
  apply (work_body_value _ _ _ _ _ _ _ _ _ _ _ x c) in Hrun as (b3 & w3 & id' & debt & back & y & Hrw & Hleft & Hy & Hres & HV);
    [|done || lia..].
  exists (with_guard b g), w1', b3, w3, id', debt, back. split; [done|]. split; [done|]. cbv zeta in *.
  split; [done|]. split; [|done]. exists y. split; [done|]. cbn in *. lia.
Qed.

(** C7: killing a position costs the lenders at most what it fails to cover, interest
    accrued: the position was killable when its rewards were claimed, its debt is cleared,
    and the value held changes by what the liquidation returned to the vault, without the
    killer's prize and up to the debt, less the debt.  Nothing else of the proceeds stays in
    the vault. *)
Theorem kill_conserves_value m origin b w id b' w' t :
  idle b -> at_vault m b w -> p_owner (position b id) <> me ->
  now m <= lastAccrueTime (vault b) -> lenders_value m b w t ->
  kill m origin (b, w) id = Ok (b', w') ->
  let worker := p_worker (position b id) in
  exists g w1 b1 debt w2 x back c health factor,
    guard_enter (guard b) = Ok g /\ fairLaunchWithdraw m (with_guard b g) w id = Ok w1 /\
    removeDebt (with_guard b g) id = Ok (b1, debt) /\ worker_liquidate m (b1, w1) worker id = Ok (b1, w2) /\
    balanceOf w1 tok me = Ok x /\ balanceOf w2 tok me = Ok (x + back) /\
    vconfig b w = Ok c /\ worker_health w1 worker id = Ok health /\
    wc_killFactor (block m) w1 (worker_config c worker) worker debt = Ok factor /\
    health * factor < debt * 10000 /\
    let prize := back * getKillBps c / 10000 in
    debt = debtShare (position b id) * vaultDebtVal b / vaultDebtShare b /\
    debtShare (position b' id) = 0 /\ 0 <= prize <= back /\
    lenders_value m b' w' (t - debt + Z.min debt (back - prize)).
Proof.
  intros Hb Hat Hown Hnow (x & Hx & ->) Hr. cbn in Hr. apply bind_Ok in Hr as (_ & _ & Hr).
  apply bind_Ok in Hr as (b1 & Hacc & Hr). apply accrue_accrued in Hacc as ->; [|done].
  unfold nonReentrant in Hr. apply bind_Ok in Hr as (g & Hg & Hr).
  apply bind_Ok in Hr as ([b2 w2] & Hrun & Hr). injection Hr as <- <-.
  set (bg := with_guard b g) in *. assert (debts_ok bg) as Hd by by apply (debts_ok_ext b), idle_debts.
  apply kill_body_spec in Hrun as (w3 & debt & health & c & factor & before & w4 & back & c2 & prize & w5 &
    Hpos & Hfl & Hrem & Hh & Hc & Hf & Hk & Hbe & Hliq & Hbal & Hback & Hc2 & Hpr & Hpr0 & Hw5 & Hw'); [|done|apply Hb].
  assert (at_vault m bg w) as Hatg by by apply (at_vault_still m b w).
  pose proof Hfl as Hfl0. apply fairLaunchWithdraw_moved in Hfl; [|done..].
  assert (myBalance m bg w3 = Ok (x + 0)) as Hbe'.
  { unfold myBalance in *. rewrite (at_self _ _ _ Hatg), (at_token _ _ _ Hatg).
    apply (moved_balance _ _ _ _ _ Hfl). by rewrite <-(at_self _ _ _ Hat), <-(at_token _ _ _ Hat). }
  rewrite Hbe in Hbe'. injection Hbe' as ->.
  assert (at_vault m bg w4) as Hat4.
  { apply (at_vault_still m b w); [done..|]. intros a. rewrite (liquidate_config _ _ _ _ _ _ _ Hliq). apply Hfl. }
  pose proof (removeDebt_spec _ _ _ _ Hd Hrem) as (_ & Hdebt & HV & HS & _).
  destruct (removeDebt_fields _ _ _ _ Hrem) as (Ev & _ & _ & _ & HR & _).
  assert (debt = debtShare (position b id) * vaultDebtVal b / vaultDebtShare b) as Ed.
  { unfold removeDebt in Hrem. rewrite (proj2 (Z.ltb_lt _ _)) in Hrem by done.
    apply bind_Ok in Hrem as (v & Hv%debtShareToVal_Ok & Hrem); [|done]. inv_result. simplify_eq.
    pose proof (position_le bg id Hd). destruct (Z.eqb_spec (vaultDebtShare bg) 0); [lia|done]. }
  assert (moved tok me (- prize) w4 w5) as Hm5.
  { destruct (Z.ltb_spec 0 prize); [apply smartSafeTransfer_moved in Hw5; [done..|apply Hat]|].
    injection Hw5 as <-. assert (prize = 0) as -> by lia. apply moved_refl. }
  set (left := Z.max 0 (back - prize - debt)) in *.
  assert (moved tok me (- left) w5 w2) as Hm6.
  { cbv zeta in Hw'. destruct (Z.ltb_spec 0 left).
    - apply smartSafeTransfer_moved in Hw'; [done| |done]. apply (at_vault_still m bg w4); [done..|apply Hm5].
    - injection Hw' as <-. assert (left = 0) as -> by lia. apply moved_refl. }
  assert (vconfig b w = Ok c) as Hc0.
  { unfold vconfig in *. by rewrite <-(moved_config _ _ _ _ _ Hfl). }
  assert (c2 = c) as ->.
  { unfold vconfig in Hc2, Hc. rewrite (liquidate_config _ _ _ _ _ _ _ Hliq), Hc in Hc2. by injection Hc2 as ->. }
  rewrite Hpr in *. exists g, w3, b2, debt, w4, x, back, c, health, factor. split_and!; try done.
  { unfold myBalance in Hbe. by rewrite Z.add_0_r, (at_self _ _ _ Hatg), (at_token _ _ _ Hatg) in Hbe. }
  { unfold myBalance in Hbal. by rewrite Z.add_0_r, (at_self _ _ _ Hatg), (at_token _ _ _ Hatg) in Hbal. }
  cbv zeta. split_and!; try done.
  - destruct (removeDebt_position _ _ _ _ id Hrem) as (_ & _ & E). rewrite decide_True in E by done.
    change (debtShare (position b2 id) = 0). rewrite E. pose proof (shares_nonneg bg Hd id). lia.
  - lia.
  - lia.
  - exists (x + 0 + back + (- (back * getKillBps c / 10000) + - left)). unfold myBalance in *. cbn.
    rewrite Ev, (at_self _ _ _ Hatg), (at_token _ _ _ Hatg) in *. split; [|rewrite HV, HR; cbn; lia].
    by apply (moved_balance _ _ _ _ _ (moved_trans _ _ _ _ _ _ _ Hm5 Hm6)).
Qed.
End Value.

(** ** A position that has just been worked on *)

Section Fresh.
Context `{AbiCoder} `{!OpenZeppelin} {W : Type} `{!Ledger W} `{!NativeRelayer W} `{!Surroundings W} `{!Lawful W}.

(** The calls by which the vault pays out and moves debt tokens. *)
Inductive payment (w w' : W) : Prop :=
| pay_transfer m tok to v : safeTransfer m w tok to v = Ok w' -> payment w w'
| pay_relayer m r v : relayer_withdraw m w r v = Ok w' -> payment w w'
| pay_native a b v : send_native w a b v = Ok w' -> payment w w'
| pay_mint m d a v : debt_mint m w d a v = Ok w' -> payment w w'
| pay_burn m d a v : debt_burn m w d a v = Ok w' -> payment w w'
| pay_stake m f a pid v : fairlaunch_deposit m w f a pid v = Ok w' -> payment w w'
| pay_unstake m f a pid v : fairlaunch_withdraw m w f a pid v = Ok w' -> payment w w'.

(** Paying changes neither the value of a position nor the terms of the vault. *)
Class PaymentLaws := {
  payment_health : forall w w' worker id, payment w w' -> worker_health w' worker id = worker_health w worker id;
  payment_config : forall w w' a, payment w w' -> vault_config w' a = vault_config w a
}.
Context `{!PaymentLaws}.

Abbreviation payments := (rtc payment).

Lemma payments_health w w' worker id : payments w w' -> worker_health w' worker id = worker_health w worker id.
Proof. induction 1 as [|w1 w2 w3 Hp _ IH]; [done|]. by rewrite IH, (payment_health w1 w2). Qed.

Lemma payments_config w w' a : payments w w' -> vault_config w' a = vault_config w a.
Proof. induction 1 as [|w1 w2 w3 Hp _ IH]; [done|]. by rewrite IH, (payment_config w1 w2). Qed.

Lemma smartSafeTransfer_payments m b w to v w' : smartSafeTransfer m b w to v = Ok w' -> payments w w'.
Proof.
  unfold smartSafeTransfer. intros Hr. apply bind_Ok in Hr as (c & _ & Hr).
  destruct (bool_decide _); [|by eapply rtc_once, pay_transfer].
  apply bind_Ok in Hr as (w1 & Hp1%pay_transfer & Hr). apply bind_Ok in Hr as (w2 & Hp2%pay_relayer & Hr).
  apply pay_native in Hr. eauto using rtc_l, rtc_refl.
Qed.

Lemma return_excess_payments m b w back less w' : return_excess m b w back less = Ok w' -> payments w w'.
Proof.
  unfold return_excess. intros Hr. destruct (_ <? _); [|by injection Hr as <-].
  inv_result. by eapply smartSafeTransfer_payments.
Qed.

Lemma fairLaunchDeposit_payments m b w id v w' : fairLaunchDeposit m b w id v = Ok w' -> payments w w'.
Proof.
  unfold fairLaunchDeposit. intros Hr. destruct (0 <? _); [|by injection Hr as <-].
  apply bind_Ok in Hr as (w1 & Hp1%pay_mint & Hr). apply bind_Ok in Hr as (c & _ & Hr%pay_stake).
  eauto using rtc_l, rtc_refl.
Qed.

Lemma fairLaunchWithdraw_payments m b w id w' : fairLaunchWithdraw m b w id = Ok w' -> payments w w'.
Proof.
  unfold fairLaunchWithdraw. intros Hr. destruct (0 <? _); [|by injection Hr as <-].
  apply bind_Ok in Hr as (c & _ & Hr). destruct (fairlaunch_withdraw _ _ _ _ _ _) as [w1|] eqn:E.
  - apply pay_unstake in E. apply pay_burn in Hr. eauto using rtc_l, rtc_refl.
  - by injection Hr as <-.
Qed.

(** What a position owes by the books. *)
Definition debt_value (b : Bank) (id : Z) : Z := debtShare (position b id) * vaultDebtVal b / vaultDebtShare b.

Lemma removeDebt_value b id b' v : debts_ok b -> removeDebt b id = Ok (b', v) -> v = debt_value b id.
Proof.
  intros Hb Hr. unfold removeDebt, debt_value in *. pose proof (position_le b id Hb).
  destruct (Z.ltb_spec 0 (debtShare (position b id))) as [Hpos|Hz].
  - apply bind_Ok in Hr as (d & Hd & Hr). apply debtShareToVal_Ok in Hd; [|done].
    rewrite (proj2 (Z.eqb_neq _ 0)) in Hd by lia. inv_result. by simplify_eq.
  - injection Hr as _ <-. pose proof (shares_nonneg b Hb id).
    assert (debtShare (position b id) = 0) as -> by lia. by rewrite Z.mul_0_l, Zdiv_0_l.
Qed.

(** A debt just recorded is owed up to the value of one share and one unit. *)
Lemma addDebt_value b id v b' :
  debts_ok b -> 0 < v < UINT256 -> debtShare (position b id) = 0 -> addDebt b id v = Ok b' ->
  debt_value b' id <= v /\ (v - debt_value b' id - 1) * vaultDebtShare b' < vaultDebtVal b'.
Proof.
  intros Hb Hv Hz Hadd. apply addDebt_spec in Hadd as (s & Hd & Hs0 & E & Hle & Hzs & Hs); [|done|lia].
  pose proof (total_nonneg b Hb). pose proof (val_range b Hb).
  assert (debtShare (position b' id) = s) as Ep.
  { rewrite E. change (position (with_debt (with_position b id ?p) _ _) id) with (position (with_position b id p) id).
    rewrite position_with, decide_True by done. cbn. lia. }
  assert (vaultDebtShare b' = vaultDebtShare b + s /\ vaultDebtVal b' = vaultDebtVal b + v) as [ES EV] by by rewrite E.
  unfold debt_value. rewrite Ep. rewrite ES, EV in *. 
  assert (0 < vaultDebtShare b + s) as Hpos by (destruct (Z.eq_dec (vaultDebtShare b) 0); [rewrite Hzs|]; lia).
  pose proof (div_bounds (s * (vaultDebtVal b + v)) (vaultDebtShare b + s) Hpos) as Hdiv.
  set (q := _ / _) in *. split; [nia|].
  destruct (Z.eq_dec (vaultDebtShare b) 0) as [Es|Hnz].
  { pose proof (no_dust b Hb Es). rewrite (Hzs Es) in *. nia. }
  specialize (Hs Hnz).
  lia.
Qed.

(** A debt just recorded is worth at most its value. *)
Lemma addDebt_worth b id v b' w :
  debts_ok b -> 0 <= v < UINT256 -> debtShare (position b id) = 0 -> addDebt b id v = Ok b' ->
  debtShareToVal b' (debtShare (position b' id)) = Ok w -> 0 < debtShare (position b' id) -> w <= v.
Proof.
  intros Hb Hv Hz Hadd Hw Hpos. apply addDebt_spec in Hadd as (s & Hd & Hs & E & Hle & _); [|done..].
  pose proof (position_le b' id Hd) as Hle'. apply debtShareToVal_Ok in Hw; [|done].
  rewrite (proj2 (Z.eqb_neq _ 0)) in Hw by lia.
  assert (debtShare (position b' id) = s) as Ep.
  { rewrite E. change (position (with_debt (with_position b id ?p) _ _) id) with (position (with_position b id p) id).
    rewrite position_with, decide_True by done. cbn. lia. }
  rewrite Ep, E in Hw. cbn in Hw. subst w. rewrite E in Hle'. cbn in Hle'.
  pose proof (total_nonneg b Hb). apply Z.div_le_upper_bound; [|lia].
  rewrite Ep in Hpos. lia.
Qed.

(** The last part of [work], seen from its end. *)
Lemma worked m origin msgValue b w id worker principal loan maxReturn data b' w' :
  idle b -> typed_call (Work id worker principal loan maxReturn data) ->
  work m origin msgValue (b, w) id worker principal loan maxReturn data = Ok (b', w') ->
  let id' := if id =? 0 then nextPositionID (vault b) else id in
  exists b1 w1 b3 w4 owed back b4 w5 g,
    entered m msgValue b w principal = Ok (b1, w1) /\
    run_worker m id worker principal loan data b1 w1 = Ok (b3, w4, id', owed, back) /\
    owed = debt_value b1 id' + loan /\
    let debt := owed - Z.min owed (Z.min back maxReturn) in
    debts_ok b3 /\ debtShare (position b3 id') = 0 /\ p_owner (position b3 id') = sender m /\
    p_worker (position b3 id') = worker /\ config (vault b3) = config (vault b) /\ 0 <= debt < UINT256 /\
    take_debt m b3 w4 id' worker debt = Ok (b4, w5) /\ payments w5 w' /\
    b' = with_guard (with_scope b4 NO_ID NO_ADDRESS) g.
Proof.
  intros Hb (_ & [Hp0 Hp] & [Hl0 Hl] & [Hr0 _]) Hr. cbv zeta.
  apply work_entered in Hr as (b1 & w1 & b2 & Hent & Hrun & ->). pose proof Hent as Hent'. unfold entered in Hent.
  apply bind_Ok in Hent as (w1' & _ & Hent). apply bind_Ok in Hent as (b0 & Hacc & Hent).
  apply bind_Ok in Hent as (g & _ & Hent). injection Hent as <- <-.
  assert (nextPositionID (vault b0) = nextPositionID (vault b) /\ config (vault b0) = config (vault b)) as [En Ec].
  { unfold accrue in Hacc. destruct (_ <? _); inv_result; by simplify_eq. }
  apply accrue_idle in Hacc; [|done].
  assert (debts_ok (with_guard b0 g)) as Hd by by apply (debts_ok_ext b0), idle_debts.
  apply work_body_spec in Hrun as (id' & b1 & removed & b5 & w2 & b3 & b4 & w4 & w6 & bal & back & c & strategy & w3 &
    Hsel & _ & _ & _ & _ & Hrem & _ & _ & Hcall & _ & Hback & Htake & Hret & -> & Hu & Hpre); [|done..].
  pose proof (select_position_books _ _ _ _ _ _ _ _ Hsel) as Hb1.
  assert (same_books (with_guard b0 g) (with_scope b1 id' strategy)) as Hs by (etrans; [done|apply scope_books]).
  pose proof (same_books_debts _ _ Hs Hd) as Hd1.
  pose proof (removeDebt_value _ _ _ _ Hd1 Hrem) as Hval. unfold debt_value in Hval.
  rewrite (sb_positions _ _ Hs), (sb_share _ _ Hs), (sb_val _ _ Hs) in Hval.
  pose proof (removeDebt_spec _ _ _ _ Hd1 Hrem) as (Hd2 & Hrem0 & _).
  pose proof (removeDebt_fields _ _ _ _ Hrem) as (Ev2 & _).
  pose proof (removeDebt_position _ _ _ _ id' Hrem) as (Ho2 & Hw2 & Hs2). rewrite decide_True in Hs2 by done.
  apply select_position_owner in Hsel as (Hown & Hwk & Eid & _). cbn in Eid. rewrite En in Eid. rewrite <-Eid.
  pose proof (f_equal p_owner (sbs_positions _ _ Hcall id')) as Ho3.
  pose proof (f_equal p_worker (sbs_positions _ _ Hcall id')) as Hw3. cbn in Ho3, Hw3.
  eexists _, _, b3, w4, _, back, b4, w6, _. split; [exact Hent'|]. split; [exact Hpre|].
  split; [by rewrite Hval|]. split_and!; [..|exact Htake| |done].
  - by eapply same_but_serial_debts.
  - rewrite (sbs_debtShare _ _ id' Hcall), Hs2. pose proof (shares_nonneg _ Hd1 id'). lia.
  - by rewrite Ho3, Ho2.
  - by rewrite Hw3, Hw2.
  - rewrite (sbs_vault _ _ Hcall), Ev2. apply same_books_vault in Hs as (_ & E & _). by rewrite E.
  - lia.
  - lia.
  - by eapply return_excess_payments.
Qed.

End Fresh.
