(* ===== verification/Strategies.v ===== *)
(** * What the strategies do with the funds they are sent

    [execute] of the six strategies of src/contracts/6/protocol/strategies/pancakeswapV2,
    over an exchange and tokens that are interfaces.  A worker has sent the strategy LP and
    base tokens; the strategy trades and sends back what it is left with. *)

From S2P Require Import Prelude Buffers MerkleTree BalanceTree Evm Uint HuskyMath Amm Lending Workers Bank.

Open Scope Z_scope.

(** ** The exchange, the farm and the rest of the token interface

    What PancakeSwap's router, pair and factory and its MasterChef offer, and the calls of
    SafeToken.sol and IERC20 that [Ledger] does not have.  The contract called comes after
    the state; the caller is [self m]. *)
Class Exchange (W : Type) := {
  safeApprove : Msg -> W -> address -> address -> Z -> result W;
  approve : Msg -> W -> address -> address -> Z -> result (bool * W);
  transfer : Msg -> W -> address -> address -> Z -> result (bool * W);
  pair_totalSupply : W -> address -> result Z;
  pair_getReserves : W -> address -> result (Z * Z);
  factory_getPair : W -> address -> address -> address -> result address;
  chef_amount : W -> address -> Z -> address -> result Z;      (* userInfo(pid, user).amount *)
  chef_deposit : Msg -> W -> address -> Z -> Z -> result W;
  chef_withdraw : Msg -> W -> address -> Z -> Z -> result W;
  swapExactTokensForTokens : Msg -> W -> address -> Z -> Z -> list address -> address -> Z -> result W;
  swapTokensForExactTokens : Msg -> W -> address -> Z -> Z -> list address -> address -> Z -> result W;
  addLiquidity : Msg -> W -> address -> address -> address -> Z -> Z -> Z -> Z -> address -> Z ->
    result (Z * W);                                             (* and the LP tokens minted *)
  removeLiquidity : Msg -> W -> address -> address -> address -> Z -> Z -> Z -> address -> Z -> result W
}.

(** A call by the contract that runs. *)
Definition call (m : Msg) (to : address) : Msg := {| sender := self m; self := to; block := block m |}.

Section Decode.
Context `{AbiCoder}.

Definition decode1 (data : Buffer) : result Z :=
  match abi_decode [TUint 256] data with Some [VUint x] => Ok x | _ => Err EmptyString end.

Definition decode2 (data : Buffer) : result (Z * Z) :=
  match abi_decode [TUint 256; TUint 256] data with
  | Some [VUint x; VUint y] => Ok (x, y) | _ => Err EmptyString
  end.

Definition decode3 (data : Buffer) : result (Z * Z * Z) :=
  match abi_decode [TUint 256; TUint 256; TUint 256] data with
  | Some [VUint x; VUint y; VUint z] => Ok (x, y, z) | _ => Err EmptyString
  end.
End Decode.

Section Execute.
Context `{Ethers} `{!AbiCoder} `{!Pancake} `{!OpenZeppelin}.
Context {W : Type} `{!Ledger W} `{!NativeRelayer W} `{!Exchange W}.

(** What every strategy asks first: the tokens of the worker that calls it and their pair. *)
Record Setting := {
  s_strategy : Strategy;
  s_base : address;
  s_farming : address
}.

Definition lp_of (s : Setting) (w : W) : result address :=
  factory_getPair w (st_factory (s_strategy s)) (s_farming s) (s_base s).

Definition holds (m : Msg) (w : W) (tok : address) : result Z := balanceOf w tok (self m).

(** The reserves of a pair as those of the base token and of the farming token. *)
Definition reserves (s : Setting) (w : W) (lp : address) : result (Z * Z) :=
  '(r0, r1) ← pair_getReserves w lp;
  token0 ← ask (pair_token0 lp);
  Ok (if bool_decide (token0 = s_base s) then (r0, r1) else (r1, r0)).

(** [addLiquidity] of all the strategy holds; the LP tokens go back to the worker. *)
Definition add_all_liquidity (m : Msg) (s : Setting) (lp : address) (minLPAmount : Z)
    (short failed : string) (w : W) : result W :=
  base ← holds m w (s_base s); farming ← holds m w (s_farming s);
  '(moreLPAmount, w) ← addLiquidity m w (st_router (s_strategy s)) (s_base s) (s_farming s)
                         base farming 0 0 (self m) (now m);
  require (minLPAmount <=? moreLPAmount) short ;;
  lpBalance ← holds m w lp;
  '(ok, w) ← transfer m w lp (sender m) lpBalance;
  require ok failed ;;
  Ok w.

(** [removeLiquidity] of [amount] LP tokens into the strategy. *)
Definition remove_liquidity (m : Msg) (s : Setting) (amount : Z) (w : W) : result W :=
  removeLiquidity m w (st_router (s_strategy s)) (s_base s) (s_farming s) amount 0 0 (self m) (now m).

(** ** PancakeswapV2AddBaseTokenOnly.sol *)

Definition AddBaseTokenOnly_execute (m : Msg) (s : Setting) (data : Buffer) (w : W) : result W :=
  minLPAmount ← decode1 data;
  lp ← lp_of s w;
  let router := st_router (s_strategy s) in
  w ← safeApprove m w (s_base s) router MAX_UINT256;
  w ← safeApprove m w (s_farming s) router MAX_UINT256;
  balance ← holds m w (s_base s);
  '(rIn, _) ← reserves s w lp;
  aIn ← addBaseToken_aIn balance rIn;
  w ← swapExactTokensForTokens m w router aIn 0 [s_base s; s_farming s] (self m) (now m);
  w ← add_all_liquidity m s lp minLPAmount
        "PancakeswapV2AddBaseTokenOnly::execute: insufficient LP tokens received"
        "PancakeswapV2AddBaseTokenOnly::execute: failed to transfer LP token to msg.sender" w;
  w ← safeApprove m w (s_base s) router 0;
  safeApprove m w (s_farming s) router 0.

(** ** PancakeswapV2Liquidate.sol *)

(** All the farming token is sold for the base token. *)
Definition sell_farming (m : Msg) (s : Setting) (w : W) : result W :=
  farming ← holds m w (s_farming s);
  swapExactTokensForTokens m w (st_router (s_strategy s)) farming 0 [s_farming s; s_base s]
    (self m) (now m).

Definition Liquidate_execute (m : Msg) (s : Setting) (data : Buffer) (w : W) : result W :=
  minBaseToken ← decode1 data;
  lp ← lp_of s w;
  let router := st_router (s_strategy s) in
  '(ok, w) ← approve m w lp router MAX_UINT256;
  require ok "PancakeswapV2Liquidate::execute: unable to approve LP token" ;;
  w ← safeApprove m w (s_farming s) router MAX_UINT256;
  lpBalance ← holds m w lp;
  w ← remove_liquidity m s lpBalance w;
  w ← sell_farming m s w;
  balance ← holds m w (s_base s);
  require (minBaseToken <=? balance) "PancakeswapV2Liquidate::execute: insufficient baseToken received" ;;
  w ← safeTransfer m w (s_base s) (sender m) balance;
  '(ok, w) ← approve m w lp router 0;
  require ok "PancakeswapV2Liquidate::execute: unable to reset LP token approval" ;;
  safeApprove m w (s_farming s) router 0.

(** ** PancakeswapV2PartialCloseLiquidate.sol *)

Definition PartialCloseLiquidate_execute (m : Msg) (s : Setting) (data : Buffer) (w : W) : result W :=
  '(returnLpToken, minBaseToken) ← decode2 data;
  lp ← lp_of s w;
  let router := st_router (s_strategy s) in
  lpBalance ← holds m w lp;
  require (returnLpToken <=? lpBalance)
    "PancakeswapV2PartialCloseLiquidate::execute: insufficient LP amount recevied from worker" ;;
  '(_, w) ← approve m w lp router MAX_UINT256;
  w ← safeApprove m w (s_farming s) router MAX_UINT256;
  w ← remove_liquidity m s returnLpToken w;
  w ← sell_farming m s w;
  balance ← holds m w (s_base s);
  require (minBaseToken <=? balance)
    "PancakeswapV2PartialCloseLiquidate::execute: insufficient baseToken received" ;;
  w ← safeTransfer m w (s_base s) (sender m) balance;
  lpLeft ← holds m w lp;
  '(_, w) ← transfer m w lp (sender m) lpLeft;
  '(_, w) ← approve m w lp router 0;
  safeApprove m w (s_farming s) router 0.

(** ** PancakeswapV2WithdrawMinimizeTrading.sol *)

(** Farming tokens are sold for what the base tokens lack of [debt].  The balance of the
    farming token is read first, as PartialCloseMinimizeTrading does. *)
Definition buy_debt (m : Msg) (s : Setting) (debt : Z) (w : W) : result W :=
  balance ← holds m w (s_base s);
  farming ← holds m w (s_farming s);
  if balance <? debt then
    remainingDebt ← sm_sub debt balance SUB_OVERFLOW;
    swapTokensForExactTokens m w (st_router (s_strategy s)) remainingDebt farming
      [s_farming s; s_base s] (self m) (now m)
  else Ok w.

(** What is left of the farming token goes to the user, as native currency when the token
    wraps it. *)
Definition farming_to_user (m : Msg) (s : Setting) (wbnb wNativeRelayer user : address) (minFarmingToken : Z)
    (short : string) (w : W) : result W :=
  remainingFarmingToken ← holds m w (s_farming s);
  require (minFarmingToken <=? remainingFarmingToken) short ;;
  if 0 <? remainingFarmingToken then
    if bool_decide (s_farming s = wbnb) then
      w ← safeTransfer m w (s_farming s) wNativeRelayer remainingFarmingToken;
      w ← relayer_withdraw m w wNativeRelayer remainingFarmingToken;
      send_native w (self m) user remainingFarmingToken
    else safeTransfer m w (s_farming s) user remainingFarmingToken
  else Ok w.

Definition WithdrawMinimizeTrading_execute (m : Msg) (s : Setting) (wbnb wNativeRelayer user : address)
    (debt : Z) (data : Buffer) (w : W) : result W :=
  minFarmingToken ← decode1 data;
  lp ← lp_of s w;
  let router := st_router (s_strategy s) in
  '(ok, w) ← approve m w lp router MAX_UINT256;
  require ok "PancakeswapV2WithdrawMinimizeTrading::execute: failed to approve LP token" ;;
  w ← safeApprove m w (s_farming s) router MAX_UINT256;
  lpBalance ← holds m w lp;
  w ← remove_liquidity m s lpBalance w;
  w ← buy_debt m s debt w;
  remainingBalance ← holds m w (s_base s);
  w ← safeTransfer m w (s_base s) (sender m) remainingBalance;
  w ← farming_to_user m s wbnb wNativeRelayer user minFarmingToken
        "PancakeswapV2WithdrawMinimizeTrading::execute: insufficient farming tokens received" w;
  '(ok, w) ← approve m w lp router 0;
  require ok "PancakeswapV2WithdrawMinimizeTrading::execute: unable to reset lp token approval" ;;
  safeApprove m w (s_farming s) router 0.

(** ** PancakeswapV2PartialCloseMinimizeTrading.sol *)

Definition PartialCloseMinimizeTrading_execute (m : Msg) (s : Setting) (wbnb wNativeRelayer user : address)
    (debt : Z) (data : Buffer) (w : W) : result W :=
  '(maxLpTokenToLiquidate, maxDebtRepayment, minFarmingToken) ← decode3 data;
  lp ← lp_of s w;
  let router := st_router (s_strategy s) in
  let lessDebt := Math_min debt maxDebtRepayment in
  lpBalance ← holds m w lp;
  let lpTokenToLiquidate := Math_min lpBalance maxLpTokenToLiquidate in
  w ← safeApprove m w lp router MAX_UINT256;
  w ← safeApprove m w (s_farming s) router MAX_UINT256;
  w ← remove_liquidity m s lpTokenToLiquidate w;
  w ← buy_debt m s lessDebt w;
  lpLeft ← holds m w lp;
  w ← safeTransfer m w lp (sender m) lpLeft;
  base ← holds m w (s_base s);
  w ← safeTransfer m w (s_base s) (sender m) base;
  w ← farming_to_user m s wbnb wNativeRelayer user minFarmingToken
        "PancakeswapV2PartialCloseMinimizeTrading::execute:: insufficient farming tokens received" w;
  w ← safeApprove m w lp router 0;
  safeApprove m w (s_farming s) router 0.

(** ** PancakeswapV2AddTwosidesOptimal.sol

    It calls the vault back, so it runs on the vault's storage too; [home] is the address of
    the vault whose storage that is.  Any other vault is outside of its own [work] and
    refuses. *)

Definition AddTwoSidesOptimal_execute (m : Msg) (s : Setting) (vault home : address) (data : Buffer)
    (b : Bank) (w : W) : result (Bank * W) :=
  '(farmingTokenAmount, minLPAmount, serialCode) ← decode3 data;
  lp ← lp_of s w;
  let router := st_router (s_strategy s) in
  w ← safeApprove m w (s_base s) router MAX_UINT256;
  w ← safeApprove m w (s_farming s) router MAX_UINT256;
  require (bool_decide (vault = home)) "Vault::inExec: not within execution scope" ;;
  '(b, w) ← requestFunds (call m vault) (b, w) (s_farming s) farmingTokenAmount;
  '(b, w) ← injectSerialCode (call m vault) (b, w) serialCode;
  baseTokenBalance ← holds m w (s_base s);
  '(baseTokenReserve, farmingTokenReserve) ← reserves s w lp;
  farmingBalance ← holds m w (s_farming s);
  '(swapAmt, isReversed) ← optimalDeposit baseTokenBalance farmingBalance baseTokenReserve farmingTokenReserve;
  let path := if (isReversed : bool) then [s_farming s; s_base s] else [s_base s; s_farming s] in
  w ← (if 0 <? swapAmt then swapExactTokensForTokens m w router swapAmt 0 path (self m) (now m) else Ok w);
  w ← add_all_liquidity m s lp minLPAmount
        "PancakeswapV2AddTwoSidesOptimal::execute: insufficient LP tokens received"
        "PancakeswapV2AddTwoSidesOptimal::execute: failed to transfer LP token to msg.sender" w;
  w ← safeApprove m w (s_farming s) router 0;
  w ← safeApprove m w (s_base s) router 0;
  Ok (b, w).

(** ** [execute], by the kind of the strategy *)

Definition run (m : Msg) (home : address) (s : Setting) (user : address) (debt : Z) (data : Buffer)
    (b : Bank) (w : W) : result (Bank * W) :=
  let alone (r : result W) := (w ← r; Ok (b, w)) in
  match st_kind (s_strategy s) with
  | PancakeswapV2AddBaseTokenOnly => alone (AddBaseTokenOnly_execute m s data w)
  | PancakeswapV2Liquidate => alone (Liquidate_execute m s data w)
  | PancakeswapV2WithdrawMinimizeTrading wbnb wNativeRelayer =>
      alone (WithdrawMinimizeTrading_execute m s wbnb wNativeRelayer user debt data w)
  | PancakeswapV2PartialCloseLiquidate => alone (PartialCloseLiquidate_execute m s data w)
  | PancakeswapV2PartialCloseMinimizeTrading wbnb wNativeRelayer =>
      alone (PartialCloseMinimizeTrading_execute m s wbnb wNativeRelayer user debt data w)
  | PancakeswapV2AddTwoSidesOptimal vault => AddTwoSidesOptimal_execute m s vault home data b w
  end.

(** A call back that succeeded. *)
Lemma inExec_Ok m (b : Bank) (w : W) (body : Bank -> W -> result (Bank * W)) b' w' :
  inExec m b w body = Ok (b', w') ->
  POSITION_ID b <> NO_ID /\ STRATEGY b = sender m /\ IN_EXEC_LOCK b = NOT_ENTERED /\
  exists b1, body (with_exec_lock b ENTERED) w = Ok (b1, w') /\ b' = with_exec_lock b1 NOT_ENTERED.
Proof.
  unfold inExec. intros Hr. apply bind_Ok in Hr as ([] & Hid%require_Ok & Hr).
  apply bind_Ok in Hr as ([] & Hsender%require_Ok & Hr). apply bind_Ok in Hr as ([] & Hlock%require_Ok & Hr).
  apply bind_Ok in Hr as ([b1 w1] & Hrun & Hr). injection Hr as <- <-. to_props.
  apply negb_true_iff, Z.eqb_neq in Hid. eauto 10.
Qed.
End Execute.
