(* ===== verification/Farm.v ===== *)
(** * The farm: workers at work

    The contracts of the protocol at their addresses, over a market that is not the
    protocol's, and the operations that move funds between them: PancakeswapV2Worker.sol
    (work, health, liquidate, reinvest), the dispatch to the strategies of Strategies.v,
    WNativeRelayer.sol's withdraw and WorkerConfig.sol's stability check. *)

From S2P Require Import Prelude Buffers MerkleTree BalanceTree Evm Uint HuskyMath Amm InterestModel.
From S2P Require Import Lending Workers Bank Strategies.

Open Scope Z_scope.

(** ** Contracts and their storage *)

(** A worker with its mutable state. *)
Record Farm `{OpenZeppelin} := {
  farm_worker : Worker;
  shares : gmap Z Z;
  totalShare : Z;
  farm_guard : Guard
}.

Record Executor `{OpenZeppelin} := { ex_strategy : Strategy; ex_guard : Guard }.
Record Relay `{OpenZeppelin} := { rl_relayer : WNativeRelayer; rl_guard : Guard }.

(** The storage slots of a configuration are unsigned. *)
Record TypedConfig := {
  tc_config : BasicVaultConfig;
  tc_typed : 0 <= minDebtSize tc_config /\ 0 <= getReservePoolBps tc_config /\
             0 <= getCloseBps tc_config /\ 0 <= getKillBps tc_config
}.

Record TypedWorkerConfig := {
  tw_config : WorkerConfig;
  tw_typed : forall a c, wc_workers tw_config !! a = Some c -> 0 <= workFactor c /\ 0 <= killFactor c
}.

Record TypedOracle := {
  to_oracle : SimplePriceOracle;
  to_typed : forall k d, store to_oracle !! k = Some d -> 0 <= price d
}.

(** The three deployed interest models. *)
Inductive Model := TripleSlope | HighInterestTripleSlope | LowInterestTripleSlope.

Definition slopes (m : Model) : Slopes :=
  match m with
  | TripleSlope => TripleSlopeModel
  | HighInterestTripleSlope => HighInterestTripleSlopeModel
  | LowInterestTripleSlope => LowInterestTripleSlopeModel
  end.

(** What only their owners and feeders change. *)
Record Terms := {
  vaultConfigs : gmap address TypedConfig;
  workerConfigs : gmap address TypedWorkerConfig;
  oracles : gmap address TypedOracle;
  interestModels : gmap address Model
}.

(** The market [M] holds the base and farming tokens, native currency, the exchange and its
    MasterChef; [R] the debt tokens, FairLaunch and HUSKI. *)
Record Protocol `{OpenZeppelin} {M R : Type} := {
  market : M;
  rewards : R;
  terms : Terms;
  home : address;                      (* the vault *)
  farms : gmap address Farm;
  executors : gmap address Executor;
  relays : gmap address Relay
}.
Arguments Protocol {_} M R.

(** The debt tokens and FairLaunch, as the vault uses them. *)
Class Rewards (R : Type) := {
  rw_debt_mint : Msg -> R -> address -> address -> Z -> result R;
  rw_debt_burn : Msg -> R -> address -> address -> Z -> result R;
  rw_deposit : Msg -> R -> address -> address -> Z -> Z -> result R;
  rw_withdraw : Msg -> R -> address -> address -> Z -> Z -> result R
}.

Section Setters.
Context `{OpenZeppelin} {M R : Type}.

Definition with_market (w : Protocol M R) (x : M) : Protocol M R :=
  {| market := x; rewards := rewards w; terms := terms w; home := home w; farms := farms w;
     executors := executors w; relays := relays w |}.

Definition with_rewards (w : Protocol M R) (r : R) : Protocol M R :=
  {| market := market w; rewards := r; terms := terms w; home := home w; farms := farms w;
     executors := executors w; relays := relays w |}.

Definition with_farm (w : Protocol M R) (a : address) (f : Farm) : Protocol M R :=
  {| market := market w; rewards := rewards w; terms := terms w; home := home w;
     farms := <[ a := f ]> (farms w); executors := executors w; relays := relays w |}.

Definition with_executor (w : Protocol M R) (a : address) (e : Executor) : Protocol M R :=
  {| market := market w; rewards := rewards w; terms := terms w; home := home w; farms := farms w;
     executors := <[ a := e ]> (executors w); relays := relays w |}.

Definition with_relay (w : Protocol M R) (a : address) (r : Relay) : Protocol M R :=
  {| market := market w; rewards := rewards w; terms := terms w; home := home w; farms := farms w;
     executors := executors w; relays := <[ a := r ]> (relays w) |}.

Definition with_shares (f : Farm) (s : gmap Z Z) (total : Z) : Farm :=
  {| farm_worker := farm_worker f; shares := s; totalShare := total; farm_guard := farm_guard f |}.

Definition with_farm_guard (f : Farm) (g : Guard) : Farm :=
  {| farm_worker := farm_worker f; shares := shares f; totalShare := totalShare f; farm_guard := g |}.

Definition with_ex_guard (e : Executor) (g : Guard) : Executor :=
  {| ex_strategy := ex_strategy e; ex_guard := g |}.

Definition with_rl_guard (r : Relay) (g : Guard) : Relay := {| rl_relayer := rl_relayer r; rl_guard := g |}.

(** A contract at an address: calling anything else reverts. *)
Definition farm_at (w : Protocol M R) (a : address) : result Farm := of_option (farms w !! a) EmptyString.
Definition executor_at (w : Protocol M R) (a : address) : result Executor :=
  of_option (executors w !! a) EmptyString.
Definition relay_at (w : Protocol M R) (a : address) : result Relay := of_option (relays w !! a) EmptyString.

Definition share_of (f : Farm) (id : Z) : Z := default 0 (shares f !! id).
End Setters.

(** ** Calls to the market *)

Section Market.
Context `{OpenZeppelin} {M R : Type} `{!Ledger M} `{!Exchange M}.

Definition lift (w : Protocol M R) (r : result M) : result (Protocol M R) := x ← r; Ok (with_market w x).

Definition lift2 {A} (w : Protocol M R) (r : result (A * M)) : result (A * Protocol M R) :=
  '(a, x) ← r; Ok (a, with_market w x).

#[export] Instance world_ledger : Ledger (Protocol M R) := {
  balanceOf w tok a := balanceOf (market w) tok a;
  safeTransfer m w tok to v := lift w (safeTransfer m (market w) tok to v);
  safeTransferFrom m w tok from to v := lift w (safeTransferFrom m (market w) tok from to v);
  send_native w from to v := lift w (send_native (market w) from to v);
  wrapped_deposit m w tok v := lift w (wrapped_deposit m (market w) tok v);
  wrapped_withdraw m w tok v := lift w (wrapped_withdraw m (market w) tok v)
}.

#[export] Instance world_exchange : Exchange (Protocol M R) := {
  safeApprove m w tok spender v := lift w (safeApprove m (market w) tok spender v);
  approve m w tok spender v := lift2 w (approve m (market w) tok spender v);
  transfer m w tok to v := lift2 w (transfer m (market w) tok to v);
  pair_totalSupply w p := pair_totalSupply (market w) p;
  pair_getReserves w p := pair_getReserves (market w) p;
  factory_getPair w f a b := factory_getPair (market w) f a b;
  chef_amount w c pid user := chef_amount (market w) c pid user;
  chef_deposit m w c pid v := lift w (chef_deposit m (market w) c pid v);
  chef_withdraw m w c pid v := lift w (chef_withdraw m (market w) c pid v);
  swapExactTokensForTokens m w r i o path to d :=
    lift w (swapExactTokensForTokens m (market w) r i o path to d);
  swapTokensForExactTokens m w r o i path to d :=
    lift w (swapTokensForExactTokens m (market w) r o i path to d);
  addLiquidity m w r a b x y x0 y0 to d := lift2 w (addLiquidity m (market w) r a b x y x0 y0 to d);
  removeLiquidity m w r a b l x0 y0 to d := lift w (removeLiquidity m (market w) r a b l x0 y0 to d)
}.

(** *** WNativeRelayer.sol *)

Definition WNativeRelayer_withdraw (m : Msg) (w : Protocol M R) (_amount : Z) : result (Protocol M R) :=
  r ← relay_at w (self m);
  require (default false (okCallers (rl_relayer r) !! sender m))
    "WNativeRelayer::onlyWhitelistedCaller: !okCaller" ;;
  g ← guard_enter (rl_guard r);
  let w := with_relay w (self m) (with_rl_guard r g) in
  w ← wrapped_withdraw m w (wnative (rl_relayer r)) _amount;
  w ← send_native w (self m) (sender m) _amount;
  Ok (with_relay w (self m) (with_rl_guard r (guard_leave g))).

#[export] Instance world_relayer : NativeRelayer (Protocol M R) := {
  relayer_withdraw m w relayer amount := WNativeRelayer_withdraw (call m relayer) w amount
}.
End Market.

(** ** PancakeswapV2Worker.sol *)

Section Worker.
Context `{Ethers} `{!AbiCoder} `{!Pancake} `{!OpenZeppelin} {M R : Type} `{!Ledger M} `{!Exchange M}.

(** *** The strategies' [execute], with its modifiers *)

Definition strategy_name (k : StrategyKind) : string :=
  match k with
  | PancakeswapV2AddBaseTokenOnly => "PancakeswapV2AddBaseTokenOnly"
  | PancakeswapV2Liquidate => "PancakeswapV2Liquidate"
  | PancakeswapV2WithdrawMinimizeTrading _ _ => "PancakeswapV2WithdrawMinimizeTrading"
  | PancakeswapV2PartialCloseLiquidate => "PancakeswapV2PartialCloseLiquidate"
  | PancakeswapV2PartialCloseMinimizeTrading _ _ => "PancakeswapV2PartialCloseMinimizeTrading"
  | PancakeswapV2AddTwoSidesOptimal _ => "PancakeswapV2AddTwoSidesOptimal"
  end.

Definition bad_worker (k : StrategyKind) : string :=
  (strategy_name k +:+ match k with
   | PancakeswapV2PartialCloseMinimizeTrading _ _ => "::onlyWhitelistedWorkers:: bad worker"
   | _ => "::onlyWhitelistedWorkers: bad worker"
   end)%string.

(** The worker that calls tells its tokens. *)
Definition execute (m : Msg) (bw : Bank * Protocol M R) (user : address) (debt : Z) (data : Buffer) :
    result (Bank * Protocol M R) :=
  let '(b, w) := bw in
  e ← executor_at w (self m);
  let s := ex_strategy e in
  require (default false (okWorkers s !! sender m)) (bad_worker (st_kind s)) ;;
  g ← guard_enter (ex_guard e);
  let w := with_executor w (self m) (with_ex_guard e g) in
  f ← farm_at w (sender m);
  '(b, w) ← run m (home w)
              {| s_strategy := s; s_base := baseToken (farm_worker f);
                 s_farming := farmingToken (farm_worker f) |} user debt data b w;
  Ok (b, with_executor w (self m) (with_ex_guard e (guard_leave g))).

(** *** Shares *)

Definition staked (w : Protocol M R) (a : address) (f : Farm) : result Z :=
  chef_amount w (masterChef (farm_worker f)) (pid (farm_worker f)) a.

Definition shareToBalance (w : Protocol M R) (a : address) (f : Farm) (share : Z) : result Z :=
  if totalShare f =? 0 then Ok share
  else totalBalance ← staked w a f; x ← sm_mul share totalBalance; sm_div x (totalShare f).

Definition balanceToShare (w : Protocol M R) (a : address) (f : Farm) (balance : Z) : result Z :=
  if totalShare f =? 0 then Ok balance
  else totalBalance ← staked w a f; x ← sm_mul balance (totalShare f); sm_div x totalBalance.

Definition addShare (m : Msg) (w : Protocol M R) (id : Z) : result (Protocol M R) :=
  f ← farm_at w (self m);
  let k := farm_worker f in
  balance ← balanceOf w (lpToken k) (self m);
  if 0 <? balance then
    w ← safeApprove m w (lpToken k) (masterChef k) MAX_UINT256;
    share ← balanceToShare w (self m) f balance;
    w ← chef_deposit m w (masterChef k) (pid k) balance;
    s ← sm_add (share_of f id) share;
    total ← sm_add (totalShare f) share;
    let w := with_farm w (self m) (with_shares f (<[ id := s ]> (shares f)) total) in
    safeApprove m w (lpToken k) (masterChef k) 0
  else Ok w.

Definition removeShare (m : Msg) (w : Protocol M R) (id : Z) : result (Protocol M R) :=
  f ← farm_at w (self m);
  let k := farm_worker f in
  let share := share_of f id in
  if 0 <? share then
    balance ← shareToBalance w (self m) f share;
    w ← chef_withdraw m w (masterChef k) (pid k) balance;
    total ← sm_sub (totalShare f) share SUB_OVERFLOW;
    Ok (with_farm w (self m) (with_shares f (<[ id := 0 ]> (shares f)) total))
  else Ok w.

(** *** The value of a position *)

Definition health (w : Protocol M R) (a : address) (id : Z) : result Z :=
  f ← farm_at w a;
  let k := farm_worker f in
  lpBalance ← shareToBalance w a f (share_of f id);
  lpSupply ← pair_totalSupply w (lpToken k);
  '(r0, r1) ← pair_getReserves w (lpToken k);
  token0 ← ask (pair_token0 (lpToken k));
  let '(totalBaseToken, totalFarmingToken) :=
    if bool_decide (token0 = baseToken k) then (r0, r1) else (r1, r0) in
  lpValue (fee k) (feeDenom k) lpBalance lpSupply totalBaseToken totalFarmingToken.

(** *** Functions for the operator and the bots *)

(** The modifier [nonReentrant]. *)
Definition guarded (m : Msg) (bw : Bank * Protocol M R)
    (body : Worker -> Bank * Protocol M R -> result (Bank * Protocol M R)) : result (Bank * Protocol M R) :=
  let '(b, w) := bw in
  f ← farm_at w (self m);
  g ← guard_enter (farm_guard f);
  '(b, w) ← body (farm_worker f) (b, with_farm w (self m) (with_farm_guard f g));
  f ← farm_at w (self m);
  Ok (b, with_farm w (self m) (with_farm_guard f (guard_leave g))).

Definition onlyOperator (m : Msg) (w : Protocol M R) : result unit :=
  f ← farm_at w (self m);
  require (bool_decide (sender m = operator (farm_worker f)))
    "PancakeswapV2Worker::onlyOperator: not operator".

(** All of a token that the worker holds. *)
Definition myBalance_of (m : Msg) (w : Protocol M R) (tok : address) : result Z := balanceOf w tok (self m).

Definition worker_run (m : Msg) (bw : Bank * Protocol M R) (id : Z) (user : address) (debt : Z)
    (data : Buffer) : result (Bank * Protocol M R) :=
  onlyOperator m bw.2 ;;
  guarded m bw (fun k '(b, w) =>
    w ← removeShare m w id;
    '(strat, ext) ← (match abi_decode [TAddress; TBytes] data with
                     | Some [VAddress s; VBytes d] => Ok (s, d) | _ => Err EmptyString end);
    require (default false (okStrats k !! strat)) "PancakeswapV2Worker::work: unapproved work strategy" ;;
    lp ← myBalance_of m w (lpToken k);
    '(ok, w) ← transfer m w (lpToken k) strat lp;
    require ok "PancakeswapV2Worker::work: unable to transfer lp to strat" ;;
    base ← myBalance_of m w (baseToken k);
    w ← safeTransfer m w (baseToken k) strat base;
    '(b, w) ← execute (call m strat) (b, w) user debt ext;
    w ← addShare m w id;
    base ← myBalance_of m w (baseToken k);
    w ← safeTransfer m w (baseToken k) (sender m) base;
    Ok (b, w)).

(** [abi.encode(0)] *)
Definition encode_0 : Buffer := abi_encode [TUint 256] [VUint 0].

(** The result of the pair's [transfer] is not looked at. *)
Definition liquidate (m : Msg) (bw : Bank * Protocol M R) (id : Z) : result (Bank * Protocol M R) :=
  onlyOperator m bw.2 ;;
  guarded m bw (fun k '(b, w) =>
    w ← removeShare m w id;
    lp ← myBalance_of m w (lpToken k);
    '(_, w) ← transfer m w (lpToken k) (liqStrat k) lp;
    '(b, w) ← execute (call m (liqStrat k)) (b, w) zero_address 0 encode_0;
    wad ← myBalance_of m w (baseToken k);
    w ← safeTransfer m w (baseToken k) (sender m) wad;
    Ok (b, w)).

(** A transaction of [origin].  When there is no reward it stops there, with the approvals
    it has given. *)
Definition reinvest (m : Msg) (origin : address) (bw : Bank * Protocol M R) : result (Bank * Protocol M R) :=
  require (bool_decide (sender m = origin)) "PancakeswapV2Worker::onlyEOA: not eoa" ;;
  f ← farm_at bw.2 (self m);
  require (default false (okReinvestors (farm_worker f) !! sender m))
    "PancakeswapV2Worker::onlyReinvestor: not reinvestor" ;;
  guarded m bw (fun k '(b, w) =>
    w ← safeApprove m w (cake k) (router k) MAX_UINT256;
    w ← safeApprove m w (lpToken k) (masterChef k) MAX_UINT256;
    w ← chef_withdraw m w (masterChef k) (pid k) 0;
    reward ← myBalance_of m w (cake k);
    if reward =? 0 then Ok (b, w) else
    x ← sm_mul reward (reinvestBountyBps k);
    let bounty := x / 10000 in
    w ← (if 0 <? bounty then safeTransfer m w (cake k) (sender m) bounty else Ok w);
    let path := if bool_decide (baseToken k = wNative k) then [cake k; wNative k]
                else [cake k; wNative k; baseToken k] in
    rest ← sm_sub reward bounty SUB_OVERFLOW;
    w ← swapExactTokensForTokens m w (router k) rest 0 path (self m) (now m);
    base ← myBalance_of m w (baseToken k);
    w ← safeTransfer m w (baseToken k) (addStrat k) base;
    '(b, w) ← execute (call m (addStrat k)) (b, w) zero_address 0 encode_0;
    lp ← myBalance_of m w (lpToken k);
    w ← chef_deposit m w (masterChef k) (pid k) lp;
    w ← safeApprove m w (cake k) (router k) 0;
    w ← safeApprove m w (lpToken k) (masterChef k) 0;
    Ok (b, w)).

(** ** WorkerConfig.sol: the stability of a worker *)

Definition config_of_worker (c : WorkerConfig) (worker : address) : Config :=
  default {| acceptDebt := false; workFactor := 0; killFactor := 0; maxPriceDiff := 0 |} (wc_workers c !! worker).

Definition SEVEN_DAYS : Z := 7 * 24 * 60 * 60.

(** [now - 7 days] is not checked. *)
Definition isStable (blk : Block) (w : Protocol M R) (c : WorkerConfig) (worker : address) : result bool :=
  f ← farm_at w worker;
  let lp := lpToken (farm_worker f) in
  token0 ← ask (pair_token0 lp);
  token1 ← ask (pair_token1 lp);
  '(r0, r1) ← pair_getReserves w lp;
  t0bal ← balanceOf w token0 lp;
  t1bal ← balanceOf w token1 lp;
  x ← sm_mul t0bal 100; y ← sm_mul r0 101;
  require (x <=? y) "WorkerConfig::isStable: bad t0 balance" ;;
  x ← sm_mul t1bal 100; y ← sm_mul r1 101;
  require (x <=? y) "WorkerConfig::isStable: bad t1 balance" ;;
  o ← of_option (oracles (terms w) !! oracle c) EmptyString;
  '(price, lastUpdate) ← getPrice (to_oracle o) token0 token1;
  require ((timestamp blk - SEVEN_DAYS) mod UINT256 <=? lastUpdate) "WorkerConfig::isStable: price too stale" ;;
  scaled ← sm_mul r1 (10 ^ 18); lpPrice ← sm_div scaled r0;
  let diff := maxPriceDiff (config_of_worker c worker) in
  p ← sm_mul price diff; high ← sm_div p 10000;
  require (lpPrice <=? high) "WorkerConfig::isStable: price too high" ;;
  p ← sm_mul price 10000; low ← sm_div p diff;
  require (low <=? lpPrice) "WorkerConfig::isStable: price too low" ;;
  Ok true.

(** [acceptDebt], [workFactor] and [killFactor] answer for a stable worker only. *)
Definition if_stable {A} (blk : Block) (w : Protocol M R) (c : WorkerConfig) (worker : address)
    (msg : string) (field : Config -> A) : result A :=
  stable ← isStable blk w c worker;
  require stable msg ;;
  Ok (field (config_of_worker c worker)).

Definition wc_at (w : Protocol M R) (a : address) : result WorkerConfig :=
  tw_config <$> of_option (workerConfigs (terms w) !! a) EmptyString.

Definition WorkerConfig_acceptDebt blk w a worker : result bool :=
  c ← wc_at w a; if_stable blk w c worker "WorkerConfig::acceptDebt: !stable" acceptDebt.
Definition WorkerConfig_workFactor blk w a worker : result Z :=
  c ← wc_at w a; if_stable blk w c worker "WorkerConfig::workFactor: !stable" workFactor.
Definition WorkerConfig_killFactor blk w a worker : result Z :=
  c ← wc_at w a; if_stable blk w c worker "WorkerConfig::killFactor: !stable" killFactor.

(** ** What the vault calls *)

Context `{!Rewards R}.

Definition on_rewards (w : Protocol M R) (r : result R) : result (Protocol M R) := x ← r; Ok (with_rewards w x).

#[export] Instance world_surroundings : Surroundings (Protocol M R) := {
  vault_config w a := tc_config <$> of_option (vaultConfigs (terms w) !! a) EmptyString;
  interest_rate w a debt floating :=
    k ← of_option (interestModels (terms w) !! a) EmptyString;
    getInterestRate (slopes k) debt floating;
  wc_acceptDebt blk w a worker := WorkerConfig_acceptDebt blk w a worker;
  wc_workFactor blk w a worker _ := WorkerConfig_workFactor blk w a worker;
  wc_killFactor blk w a worker _ := WorkerConfig_killFactor blk w a worker;
  worker_health w a id := health w a id;
  worker_work m bw a id user debt data := worker_run (call m a) bw id user debt data;
  worker_liquidate m bw a id := liquidate (call m a) bw id;
  debt_mint m w d to v := on_rewards w (rw_debt_mint m (rewards w) d to v);
  debt_burn m w d from v := on_rewards w (rw_debt_burn m (rewards w) d from v);
  fairlaunch_deposit m w f for_ p v := on_rewards w (rw_deposit m (rewards w) f for_ p v);
  fairlaunch_withdraw m w f for_ p v := on_rewards w (rw_withdraw m (rewards w) f for_ p v)
}.
End Worker.
