(* ===== verification/FarmTheory.v ===== *)
(** * The guarantees of the workers

    What a strategy can change, the shares of a worker as an invariant, and what working on
    one position leaves the others. *)

From S2P Require Import Prelude Buffers MerkleTree BalanceTree Evm Uint Sums HuskyMath Amm InterestModel.
From S2P Require Import Lending Workers Bank BankTheory Strategies Farm.

Open Scope Z_scope.

(** Takes a successful run apart, step by step. *)
Ltac unroll Hr :=
  cbv beta zeta in Hr;
  lazymatch type of Hr with
  | _ ≫= _ = Ok _ =>
      let x := fresh "x" in let D := fresh "D" in
      apply bind_Ok in Hr as (x & D & Hr);
      lazymatch type of x with (_ * _)%type => destruct x as [? ?] | _ => idtac end; unroll D; unroll Hr
  | (let '(_, _) := ?c in _) = Ok _ => destruct c; unroll Hr
  | (if ?c then _ else _) = Ok _ => destruct c; unroll Hr
  | Ok _ = Ok _ => simplify_eq
  | Err _ = Ok _ => discriminate Hr
  | _ => idtac
  end.

(** ** What a strategy can change *)

Section Deals.
Context `{OpenZeppelin} {W : Type} `{!Ledger W} `{!Exchange W}.

(** One call to the market, but for those to MasterChef. *)
Inductive deal (w w' : W) : Prop :=
| deal_transfer m tok to v : safeTransfer m w tok to v = Ok w' -> deal w w'
| deal_transferFrom m tok a to v : safeTransferFrom m w tok a to v = Ok w' -> deal w w'
| deal_native a to v : send_native w a to v = Ok w' -> deal w w'
| deal_wrap m tok v : wrapped_deposit m w tok v = Ok w' -> deal w w'
| deal_unwrap m tok v : wrapped_withdraw m w tok v = Ok w' -> deal w w'
| deal_safeApprove m tok a v : safeApprove m w tok a v = Ok w' -> deal w w'
| deal_approve m tok a v ok : approve m w tok a v = Ok (ok, w') -> deal w w'
| deal_pair_transfer m tok to v ok : transfer m w tok to v = Ok (ok, w') -> deal w w'
| deal_swap m r i o path to d : swapExactTokensForTokens m w r i o path to d = Ok w' -> deal w w'
| deal_swap_exact m r o i path to d : swapTokensForExactTokens m w r o i path to d = Ok w' -> deal w w'
| deal_add m r a b x y x0 y0 to d l : addLiquidity m w r a b x y x0 y0 to d = Ok (l, w') -> deal w w'
| deal_remove m r a b l x0 y0 to d : removeLiquidity m w r a b l x0 y0 to d = Ok w' -> deal w w'.

(** The vault through the calls back of a strategy: the serial codes of its positions, and
    nothing outside of [work]. *)
Definition called_back (b b' : Bank) : Prop := same_but_serial b b' /\ (POSITION_ID b = NO_ID -> b' = b).

Lemma called_back_refl b : called_back b b.
Proof. by split. Qed.

Lemma requestFunds_back m b (w : W) tok v b' w' :
  requestFunds m (b, w) tok v = Ok (b', w') -> called_back b b' /\ deal w w'.
Proof.
  unfold requestFunds. intros (Hid & _ & Hl & b1 & Hrun & ->)%inExec_Ok. inv_result. simplify_eq.
  split; [|by eapply deal_transferFrom]. destruct b. cbn in *. subst. by apply called_back_refl.
Qed.

Lemma injectSerialCode_back m b (w : W) code b' w' :
  injectSerialCode m (b, w) code = Ok (b', w') -> called_back b b' /\ w' = w.
Proof.
  unfold injectSerialCode. intros (Hid & _ & Hl & b1 & Hrun & ->)%inExec_Ok. simplify_eq.
  split; [|done]. split; [|done]. cbn in *. split; try done. intros id.
  change (with_serialCode (position (with_position b (POSITION_ID b)
    (with_serialCode (position b (POSITION_ID b)) code)) id) 0 = with_serialCode (position b id) 0).
  rewrite position_with. by case_decide; subst.
Qed.

Lemma called_back_trans b1 b2 b3 : called_back b1 b2 -> called_back b2 b3 -> called_back b1 b3.
Proof.
  intros [S1 N1] [S2 N2]. split; [by etrans|]. intros Hid. pose proof (N1 Hid) as ->. by apply N2.
Qed.
End Deals.

Section Strategies.
Context `{Ethers} `{!AbiCoder} `{!Pancake} `{!OpenZeppelin}.
Context {W : Type} `{!Ledger W} `{!NativeRelayer W} `{!Exchange W}.
(** Anything that single calls keep. *)
Context (K : W -> W -> Prop) `{!PreOrder K}.
Context (K_deal : forall w w', deal w w' -> K w w').
Context (K_relay : forall m w r v w', relayer_withdraw m w r v = Ok w' -> K w w').

(** Follows the calls of a strategy from the last state back to the first. *)
Ltac deals :=
  repeat match goal with
  | |- K ?w ?w => reflexivity
  | Hd : K _ ?w' |- K _ ?w' => etrans; [|exact Hd]
  | Hd : deal _ ?w' |- K _ ?w' => etrans; [|exact (K_deal _ _ Hd)]
  | Hd : _ = Ok ?w' |- K _ ?w' => etrans; [|eapply K_deal; econstructor; exact Hd]
  | Hd : _ = Ok (_, ?w') |- K _ ?w' => etrans; [|eapply K_deal; econstructor; exact Hd]
  | Hd : relayer_withdraw _ _ _ _ = Ok ?w' |- K _ ?w' => etrans; [|eapply K_relay; exact Hd]
  end.

Lemma add_all_liquidity_K m s lp least short failed w w' :
  add_all_liquidity m s lp least short failed w = Ok w' -> K w w'.
Proof. unfold add_all_liquidity. intros Hr. unroll Hr. deals. Qed.

Lemma farming_to_user_K m s wbnb relayer user least short w w' :
  farming_to_user m s wbnb relayer user least short w = Ok w' -> K w w'.
Proof. unfold farming_to_user. intros Hr. unroll Hr; deals. Qed.

(** The effect of the steps that have a lemma. *)
Ltac known :=
  repeat match goal with
  | Hd : add_all_liquidity _ _ _ _ _ _ _ = Ok _ |- _ => apply add_all_liquidity_K in Hd
  | Hd : farming_to_user _ _ _ _ _ _ _ _ = Ok _ |- _ => apply farming_to_user_K in Hd
  end.

Lemma execute_alone_K m s wbnb relayer user debt data w w' :
  AddBaseTokenOnly_execute m s data w = Ok w' \/
  Liquidate_execute m s data w = Ok w' \/
  PartialCloseLiquidate_execute m s data w = Ok w' \/
  WithdrawMinimizeTrading_execute m s wbnb relayer user debt data w = Ok w' \/
  PartialCloseMinimizeTrading_execute m s wbnb relayer user debt data w = Ok w' -> K w w'.
Proof.
  unfold AddBaseTokenOnly_execute, Liquidate_execute, PartialCloseLiquidate_execute,
    WithdrawMinimizeTrading_execute, PartialCloseMinimizeTrading_execute, sell_farming, buy_debt, remove_liquidity.
  intros [Hr|[Hr|[Hr|[Hr|Hr]]]]; unroll Hr; known; deals.
Qed.

Lemma AddTwoSidesOptimal_K m s vault home data b w b' w' :
  AddTwoSidesOptimal_execute m s vault home data b w = Ok (b', w') -> K w w' /\ called_back b b'.
Proof.
  unfold AddTwoSidesOptimal_execute. intros Hr. unroll Hr.
  all: match goal with A : requestFunds _ _ _ _ = _ |- _ => apply requestFunds_back in A as [Hb1 Hd1] end.
  all: match goal with A : injectSerialCode _ _ _ = _ |- _ => apply injectSerialCode_back in A as [Hb2 ->] end.
  all: split; [|by eapply called_back_trans]; known; deals.
Qed.

Lemma run_K m home s user debt data b w b' w' :
  run m home s user debt data b w = Ok (b', w') -> K w w' /\ called_back b b'.
Proof.
  unfold run. destruct (st_kind _) eqn:Ek; intros Hr; [..|by eapply AddTwoSidesOptimal_K].
  all: unroll Hr; split; [|apply called_back_refl]; eapply (execute_alone_K m s _ _ user debt data); eauto 6.
  Unshelve. all: exact zero_address.
Qed.
End Strategies.

(** ** What a worker's call changes in the world *)

Section Frames.
Context `{Ethers} `{!AbiCoder} `{!Pancake} `{!OpenZeppelin} {M R : Type} `{!Ledger M} `{!Exchange M}.

(** A strategy changes the market, by calls to it. *)
Record framed (w w' : Protocol M R) : Prop := {
  framed_farms : farms w' = farms w;
  framed_rewards : rewards w' = rewards w;
  framed_terms : terms w' = terms w;
  framed_home : home w' = home w;
  framed_market : rtc deal (market w) (market w')
}.

#[export] Instance framed_preorder : PreOrder framed.
Proof. split; [by split|]. intros w1 w2 w3 [] []. split; [congruence..|by etrans]. Qed.

Lemma lift_framed w (r : result M) w' : (forall x, r = Ok x -> deal (market w) x) -> lift w r = Ok w' -> framed w w'.
Proof. unfold lift. intros Hd Hr. inv_result. subst. split; cbn; auto using rtc_once. Qed.

Lemma lift2_framed {A} w (r : result (A * M)) a w' :
  (forall a x, r = Ok (a, x) -> deal (market w) x) -> lift2 w r = Ok (a, w') -> framed w w'.
Proof. unfold lift2. intros Hd Hr. inv_result. destruct x. simplify_eq. split; cbn; eauto using rtc_once. Qed.

Lemma deal_framed w w' : deal w w' -> framed w w'.
Proof.
  intros Hd. destruct Hd;
    match goal with Hd : _ = Ok _ |- _ => first [eapply lift_framed; [|exact Hd]|eapply lift2_framed; [|exact Hd]] end;
    intros.
  - by eapply deal_transfer.
  - by eapply deal_transferFrom.
  - by eapply deal_native.
  - by eapply deal_wrap.
  - by eapply deal_unwrap.
  - by eapply deal_safeApprove.
  - by eapply deal_approve.
  - by eapply deal_pair_transfer.
  - by eapply deal_swap.
  - by eapply deal_swap_exact.
  - by eapply deal_add.
  - by eapply deal_remove.
Qed.

Lemma with_relay_framed w a r : framed w (with_relay w a r).
Proof. by split. Qed.

Lemma relayer_framed m w v w' : WNativeRelayer_withdraw m w v = Ok w' -> framed w w'.
Proof.
  unfold WNativeRelayer_withdraw. intros Hr. apply bind_Ok in Hr as (r & _ & Hr).
  apply bind_Ok in Hr as (u & _ & Hr). apply bind_Ok in Hr as (g & _ & Hr).
  apply bind_Ok in Hr as (w1 & Hw1 & Hr). apply bind_Ok in Hr as (w2 & Hw2 & Hr). injection Hr as <-.
  etrans; [apply (with_relay_framed w)|]. etrans; [eapply deal_framed, deal_unwrap, Hw1|].
  etrans; [eapply deal_framed, deal_native, Hw2|]. apply with_relay_framed.
Qed.

Lemma execute_framed m b w user debt data b' w' :
  execute m (b, w) user debt data = Ok (b', w') -> framed w w' /\ called_back b b'.
Proof.
  unfold execute. intros Hr. apply bind_Ok in Hr as (e & _ & Hr). apply bind_Ok in Hr as (u & _ & Hr).
  apply bind_Ok in Hr as (g & _ & Hr). apply bind_Ok in Hr as (f & _ & Hr).
  apply bind_Ok in Hr as ([b1 w1] & Hrun & Hr). injection Hr as <- <-.
  apply (run_K framed) in Hrun as [[E1 E2 E3 E4 E5] Hb]; [|apply deal_framed|intros ????? Hd; exact (relayer_framed _ _ _ _ Hd)].
  split; [|done]. by split.
Qed.

(** A worker's call changes its own farm too. *)
Record worked_at (a : address) (w w' : Protocol M R) : Prop := {
  worked_farms : forall a', a' <> a -> farms w' !! a' = farms w !! a';
  worked_rewards : rewards w' = rewards w;
  worked_terms : terms w' = terms w;
  worked_home : home w' = home w
}.

#[export] Instance worked_at_preorder a : PreOrder (worked_at a).
Proof.
  split; [by split|]. intros w1 w2 w3 [F1] [F2]. split; try congruence. intros. by rewrite F2, F1.
Qed.

Lemma framed_worked a w w' : framed w w' -> worked_at a w w'.
Proof. intros []. split; try done. intros. congruence. Qed.

Lemma with_farm_worked a w f : worked_at a w (with_farm w a f).
Proof. split; try done. intros. cbn. by rewrite lookup_insert_ne. Qed.
End Frames.

(** ** The shares of a worker *)

Section Shares.
Context `{Ethers} `{!AbiCoder} `{!Pancake} `{!OpenZeppelin} {M R : Type} `{!Ledger M} `{!Exchange M}.

(** MasterChef keeps what is deposited, and nothing else changes a stake. *)
Class Chef := {
  chef_uint : forall w c p u v, chef_amount w c p u = Ok v -> uint256 v;
  chef_deposited : forall m w c p v w' x, chef_deposit m w c p v = Ok w' ->
    chef_amount w c p (self m) = Ok x -> chef_amount w' c p (self m) = Ok (x + v);
  chef_withdrawn : forall m w c p v w' x, chef_withdraw m w c p v = Ok w' ->
    chef_amount w c p (self m) = Ok x -> chef_amount w' c p (self m) = Ok (x - v);
  chef_untraded : forall w w' c p u, deal w w' -> chef_amount w' c p u = chef_amount w c p u;
  market_balance_uint : forall w tok a v, balanceOf w tok a = Ok v -> uint256 v
}.
Context `{!Chef}.

Record farm_ok (f : Farm) : Prop := {
  shares_total : totalShare f = map_sum (fun s => s) (shares f);
  share_nonneg : forall id, 0 <= share_of f id
}.

Lemma share_le f id : farm_ok f -> share_of f id <= totalShare f.
Proof. intros Hf. rewrite (shares_total f Hf). by apply (map_sum_le 0 (fun s => s)), Hf. Qed.

Lemma totalShare_nonneg f : farm_ok f -> 0 <= totalShare f.
Proof. intros Hf. rewrite (shares_total f Hf). apply (map_sum_nonneg 0), Hf. Qed.

(** One write of a position's shares with the total moved along. *)
Lemma farm_write f id s :
  farm_ok f -> 0 <= s ->
  farm_ok (with_shares f (<[ id := s ]> (shares f)) (totalShare f - share_of f id + s)).
Proof.
  intros Hf Hs. split.
  - cbn. rewrite (map_sum_insert 0 (fun s => s)), (shares_total f Hf) by done. done.
  - intros j. unfold share_of. cbn. destruct (decide (j = id)) as [->|]; [by rewrite lookup_insert_eq|].
    rewrite lookup_insert_ne by done. apply Hf.
Qed.

Lemma share_of_write f id s total j :
  share_of (with_shares f (<[ id := s ]> (shares f)) total) j = if decide (j = id) then s else share_of f j.
Proof.
  unfold share_of. cbn. case_decide; [subst; by rewrite lookup_insert_eq|by rewrite lookup_insert_ne].
Qed.

(** The farm at [a] and the LP tokens it has staked. *)
Definition farming_at (w : Protocol M R) (a : address) (f : Farm) (staked : Z) : Prop :=
  farms w !! a = Some f /\
  chef_amount (market w) (masterChef (farm_worker f)) (pid (farm_worker f)) a = Ok staked.

Lemma framed_farming w w' a f t : framed w w' -> farming_at w a f t -> farming_at w' a f t.
Proof.
  intros [E _ _ _ Hd] [Hf Ht]. split; [by rewrite E|]. rewrite <-Ht.
  clear Ht. induction Hd as [|x y z Hxy _ IH]; [done|]. by rewrite IH, (chef_untraded x y).
Qed.

(** What an operation on position [id] of the farm [f] with [t] staked may leave: its worker
    and the shares of the others, no fewer LP tokens per share. *)
Record fair (id : Z) (f : Farm) (t : Z) (f' : Farm) (t' : Z) : Prop := {
  fair_ok : farm_ok f';
  fair_worker : farm_worker f' = farm_worker f;
  fair_others : forall j, j <> id -> share_of f' j = share_of f j;
  fair_price : 0 < totalShare f -> t * totalShare f' <= t' * totalShare f
}.

Lemma fair_refl id f t : farm_ok f -> fair id f t f t.
Proof. by split. Qed.

(** Two fair steps are one as long as another position keeps the total up. *)
Lemma fair_trans id f1 t1 f2 t2 f3 t3 :
  0 < totalShare f2 -> 0 <= totalShare f3 ->
  fair id f1 t1 f2 t2 -> fair id f2 t2 f3 t3 -> fair id f1 t1 f3 t3.
Proof.
  intros Hpos Ht3 [O1 W1 S1 P1] [O2 W2 S2 P2]. split; [done|congruence| |].
  - intros j Hj. by rewrite S2, S1.
  - intros Ht1. specialize (P1 Ht1). specialize (P2 Hpos). apply Z.mul_le_mono_pos_l with (totalShare f2); [done|]. nia.
Qed.

Lemma shareToBalance_Ok w a f t s v :
  farming_at w a f t -> farm_ok f -> 0 <= s -> shareToBalance w a f s = Ok v ->
  v = if totalShare f =? 0 then s else s * t / totalShare f.
Proof.
  intros [_ Ht] Hf Hs Hr. pose proof (totalShare_nonneg f Hf). unfold shareToBalance, staked in Hr.
  destruct (_ =? 0); [by injection Hr as <-|]. cbn in Hr. rewrite Ht in Hr. inv_result. inv_uint. by subst.
Qed.

Lemma removeShare_spec m w id w' f t :
  farming_at w (self m) f t -> farm_ok f -> removeShare m w id = Ok w' ->
  exists f' t', farming_at w' (self m) f' t' /\ fair id f t f' t' /\ share_of f' id = 0 /\
    farm_guard f' = farm_guard f /\ worked_at (self m) w w'.
Proof.
  intros Hat Hf Hr. unfold removeShare, farm_at in Hr. destruct Hat as [Ef Et].
  rewrite Ef in Hr. cbn [of_option mbind result_bind] in Hr.
  pose proof (share_nonneg f Hf id) as Hn. pose proof (share_le f id Hf) as Hle.
  destruct (Z.ltb_spec 0 (share_of f id)) as [Hpos|Hz].
  2: { injection Hr as <-. exists f, t. split; [done|]. split; [by apply fair_refl|]. split; [lia|done]. }
  apply bind_Ok in Hr as (bal & Hbal & Hr). apply bind_Ok in Hr as (w1 & Hw1 & Hr).
  apply bind_Ok in Hr as (total & Htot & Hr). injection Hr as <-. inv_uint. pose proof (chef_uint _ _ _ _ _ Et) as [Ht0 _].
  eapply shareToBalance_Ok in Hbal; [|by split|done..]. rewrite (proj2 (Z.eqb_neq _ 0)) in Hbal by lia.
  cbn in Hw1. unfold lift in Hw1. apply bind_Ok in Hw1 as (x & Hx & Hw1). injection Hw1 as <-.
  pose proof (div_bounds (share_of f id * t) (totalShare f) ltac:(lia)) as Hd. rewrite <-Hbal in Hd.
  set (f' := with_shares f (<[id:=0]> (shares f)) (totalShare f - share_of f id)).
  assert (farm_ok f') as Hf'.
  { pose proof (farm_write f id 0 Hf ltac:(lia)) as Hw. by rewrite Z.add_0_r in Hw. }
  exists f', (t - bal). split_and!; [|split; [done..| |]| |done|].
  - split; [cbn; by rewrite lookup_insert_eq|]. cbn. by eapply chef_withdrawn.
  - intros j Hj. unfold f'. by rewrite share_of_write, decide_False.
  - cbn. lia.
  - unfold f'. by rewrite share_of_write, decide_True.
  - change (with_farm (with_market w x) (self m) f') with (with_market (with_farm w (self m) f') x).
    etrans; [apply (with_farm_worked (self m) w f')|]. by split.
Qed.

Lemma addShare_spec m w id w' f t :
  farming_at w (self m) f t -> farm_ok f -> addShare m w id = Ok w' ->
  exists f' t', farming_at w' (self m) f' t' /\ fair id f t f' t' /\
    farm_guard f' = farm_guard f /\ worked_at (self m) w w'.
Proof.
  intros Hat Hf Hr. pose proof Hat as [Ef Et]. unfold addShare, farm_at in Hr.
  rewrite Ef in Hr. cbn [of_option mbind result_bind] in Hr.
  pose proof (totalShare_nonneg f Hf) as Hn. pose proof (share_nonneg f Hf id) as Hs0.
  pose proof (chef_uint _ _ _ _ _ Et) as [Ht0 _].
  apply bind_Ok in Hr as (bal & Hbal & Hr). pose proof (market_balance_uint _ _ _ _ Hbal) as [Hb0 Hb1].
  destruct (Z.ltb_spec 0 bal) as [Hpos|_].
  2: { injection Hr as <-. exists f, t. split; [done|]. split; [by apply fair_refl|done]. }
  apply bind_Ok in Hr as (w1 & Hw1 & Hr). apply bind_Ok in Hr as (share & Hshare & Hr).
  apply bind_Ok in Hr as (w2 & Hw2 & Hr). apply bind_Ok in Hr as (s & Hs & Hr).
  apply bind_Ok in Hr as (total & Htot & Hr).
  pose proof (deal_framed _ _ (deal_safeApprove _ _ _ _ _ _ Hw1)) as F1.
  pose proof (framed_farming _ _ _ _ _ F1 Hat) as [Ef1 Et1].
  assert (0 <= share < UINT256 /\ (totalShare f <> 0 -> share * t <= bal * totalShare f)) as [Hsh Hprice].
  { unfold balanceToShare, staked in Hshare. destruct (Z.eqb_spec (totalShare f) 0) as [|Hnz]; [injection Hshare as <-; lia|].
    cbn in Hshare. rewrite Et1 in Hshare. inv_result.
    match goal with E : t = ?y |- _ => subst y end. inv_uint.
    pose proof (div_bounds (bal * totalShare f) t ltac:(lia)).
    assert (0 <= bal * totalShare f / t) by nonneg. nia. }
  inv_uint. set (f' := with_shares f (<[id:=share_of f id + share]> (shares f)) (totalShare f + share)) in *.
  assert (farm_ok f') as Hf'.
  { pose proof (farm_write f id (share_of f id + share) Hf ltac:(lia)) as Hw.
    replace (totalShare f - share_of f id + (share_of f id + share)) with (totalShare f + share) in Hw by lia. done. }
  cbn in Hw2. unfold lift in Hw2. apply bind_Ok in Hw2 as (x & Hx & Hw2). injection Hw2 as <-.
  pose proof (deal_framed _ _ (deal_safeApprove _ _ _ _ _ _ Hr)) as F2.
  exists f', (t + bal). split_and!; [|split; [done..| |]|done|].
  - apply (framed_farming _ _ _ _ _ F2). split; [cbn; by rewrite lookup_insert_eq|]. cbn. by eapply chef_deposited.
  - intros j Hj. unfold f'. by rewrite share_of_write, decide_False.
  - cbn. intros Hpos'. specialize (Hprice ltac:(lia)). lia.
  - etrans; [by apply framed_worked|]. etrans; [|by apply framed_worked].
    change (with_farm (with_market w1 x) (self m) f') with (with_market (with_farm w1 (self m) f') x).
    etrans; [apply (with_farm_worked (self m) w1 f')|]. by split.
Qed.

(** ** The calls of the operator and of the bots *)

(** A position keeps its shares, and a share its LP tokens. *)
Definition kept (j : Z) (f : Farm) (t : Z) (f' : Farm) (t' : Z) : Prop :=
  share_of f' j = share_of f j /\ (0 < share_of f j -> t * totalShare f' <= t' * totalShare f).

Lemma fair_kept id j f t f' t' : farm_ok f -> j <> id -> fair id f t f' t' -> kept j f t f' t'.
Proof.
  intros Hf Hj [_ _ Hs Hp]. split; [by apply Hs|]. intros Hpos. apply Hp.
  pose proof (share_le f j Hf). lia.
Qed.

Lemma farm_kept_trans j f1 t1 f2 t2 f3 t3 :
  farm_ok f2 -> 0 <= totalShare f1 -> 0 <= totalShare f3 ->
  kept j f1 t1 f2 t2 -> kept j f2 t2 f3 t3 -> kept j f1 t1 f3 t3.
Proof.
  intros Hf Ht1 Ht3 [S1 P1] [S2 P2]. split; [congruence|]. intros Hpos. specialize (P1 Hpos).
  rewrite S1 in P2. specialize (P2 Hpos). pose proof (share_le f2 j Hf).
  apply Z.mul_le_mono_pos_l with (totalShare f2); [lia|]. nia.
Qed.

(** What a kept position can redeem does not fall. *)
Lemma kept_worth j w w' a f t f' t' v v' :
  farming_at w a f t -> farming_at w' a f' t' -> farm_ok f -> farm_ok f' -> kept j f t f' t' ->
  shareToBalance w a f (share_of f j) = Ok v -> shareToBalance w' a f' (share_of f' j) = Ok v' -> v <= v'.
Proof.
  intros Hat Hat' Hf Hf' [Es Hp] Hv Hv'. rewrite Es in Hv'.
  pose proof (share_nonneg f Hf j) as Hn. pose proof (share_le f j Hf) as Hle.
  pose proof (share_le f' j Hf') as Hle'. rewrite Es in Hle'.
  pose proof (chef_uint _ _ _ _ _ (proj2 Hat')) as [Ht0' _].
  eapply shareToBalance_Ok in Hv; [|done..]. eapply shareToBalance_Ok in Hv'; [|done..].
  destruct (Z.eq_dec (share_of f j) 0) as [E|E].
  { rewrite E, Z.mul_0_l, Zdiv_0_l in *. subst v v'. by do 2 case_match. }
  rewrite (proj2 (Z.eqb_neq _ 0)) in Hv by lia. rewrite (proj2 (Z.eqb_neq _ 0)) in Hv' by lia.
  specialize (Hp ltac:(lia)). set (s := share_of f j) in *. subst v v'.
  apply Z.div_le_lower_bound; [lia|].
  pose proof (div_bounds (s * t) (totalShare f) ltac:(lia)) as Hd. set (q := _ / totalShare f) in *.
  apply Z.mul_le_mono_pos_l with (totalShare f); [lia|]. nia.
Qed.

Lemma guarded_spec m b w body b' w' f t :
  farming_at w (self m) f t -> farm_ok f -> guarded m (b, w) body = Ok (b', w') ->
  exists g w0 w1 f1, farming_at w0 (self m) (with_farm_guard f g) t /\ worked_at (self m) w w0 /\
    body (farm_worker f) (b, w0) = Ok (b', w1) /\ farms w1 !! self m = Some f1 /\
    w' = with_farm w1 (self m) (with_farm_guard f1 (guard_leave g)).
Proof.
  intros [Ef Et] Hf Hr. unfold guarded, farm_at in Hr. rewrite Ef in Hr. cbn [of_option mbind result_bind] in Hr.
  apply bind_Ok in Hr as (g & _ & Hr). apply bind_Ok in Hr as ([b1 w1] & Hrun & Hr).
  apply bind_Ok in Hr as (f1 & Ef1%of_option_Ok & Hr). injection Hr as <- <-.
  exists g, (with_farm w (self m) (with_farm_guard f g)), w1, f1.
  split; [split; [cbn; by rewrite lookup_insert_eq|done]|]. split; [apply with_farm_worked|done].
Qed.

(** A guarded body that leaves the farm to another fair owner does so as a whole. *)
Lemma guarded_kept m b w body b' w' f t (P : Z -> Prop) :
  farming_at w (self m) f t -> farm_ok f -> guarded m (b, w) body = Ok (b', w') ->
  (forall w0 f0, farming_at w0 (self m) f0 t -> farm_ok f0 -> farm_worker f0 = farm_worker f ->
     forall w1, body (farm_worker f) (b, w0) = Ok (b', w1) ->
     worked_at (self m) w0 w1 /\
     exists f1 t1, farming_at w1 (self m) f1 t1 /\ farm_ok f1 /\ farm_worker f1 = farm_worker f /\
       forall j, P j -> kept j f0 t f1 t1) ->
  worked_at (self m) w w' /\
  exists f' t', farming_at w' (self m) f' t' /\ farm_ok f' /\ farm_worker f' = farm_worker f /\
    forall j, P j -> kept j f t f' t'.
Proof.
  intros Hat Hf Hr Hbody.
  eapply guarded_spec in Hr as (g & w0 & w1 & f1 & Hat0 & Hw & Hrun & Ef1 & ->); [|done..].
  eapply Hbody in Hrun as (Hw1 & f2 & t2 & Hat2 & Hf2 & Hk & Hkept); [|done|by destruct Hf|done].
  pose proof (proj1 Hat2) as Ef2. rewrite Ef1 in Ef2. injection Ef2 as <-.
  split; [do 2 (etrans; [done|]); apply with_farm_worked|].
  exists (with_farm_guard f1 (guard_leave g)), t2. split_and!; [|by destruct Hf2|done|done].
  split; [cbn; by rewrite lookup_insert_eq|]. apply Hat2.
Qed.

Lemma worker_run_kept m b w id user debt data b' w' f t :
  farming_at w (self m) f t -> farm_ok f -> worker_run m (b, w) id user debt data = Ok (b', w') ->
  worked_at (self m) w w' /\
  exists f' t', farming_at w' (self m) f' t' /\ farm_ok f' /\ farm_worker f' = farm_worker f /\
    forall j, j <> id -> kept j f t f' t'.
Proof.
  intros Hat Hf Hr. unfold worker_run in Hr. apply bind_Ok in Hr as (u & _ & Hr).
  eapply guarded_kept in Hr; [exact Hr|done..|]. clear Hr Hat Hf w w'.
  intros w f0 Hat Hf Ek w' Hr. apply bind_Ok in Hr as (w1 & Hw1 & Hr).
  apply bind_Ok in Hr as ([strat ext] & _ & Hr). apply bind_Ok in Hr as (u1 & _ & Hr).
  apply bind_Ok in Hr as (lp & _ & Hr). apply bind_Ok in Hr as ([ok w2] & Hw2 & Hr).
  apply bind_Ok in Hr as (u2 & _ & Hr). apply bind_Ok in Hr as (base & _ & Hr).
  apply bind_Ok in Hr as (w3 & Hw3 & Hr). apply bind_Ok in Hr as ([b4 w4] & Hw4 & Hr).
  apply bind_Ok in Hr as (w5 & Hw5 & Hr). apply bind_Ok in Hr as (base' & _ & Hr).
  apply bind_Ok in Hr as (w6 & Hw6 & Hr). injection Hr as _ <-.
  eapply removeShare_spec in Hw1 as (f1 & t1 & Hat1 & Hfair1 & _ & _ & Hk1); [|done..].
  pose proof (deal_framed _ _ (deal_pair_transfer _ _ _ _ _ _ _ Hw2)) as F2.
  pose proof (deal_framed _ _ (deal_transfer _ _ _ _ _ _ Hw3)) as F3.
  apply execute_framed in Hw4 as [F4 _]. pose proof (fair_ok _ _ _ _ _ Hfair1) as Hf1.
  assert (framed w1 w4) as F14 by (do 2 (etrans; [done|]); done).
  eapply addShare_spec in Hw5 as (f5 & t5 & Hat5 & Hfair5 & _ & Hk5); [|by eapply framed_farming|done].
  pose proof (deal_framed _ _ (deal_transfer _ _ _ _ _ _ Hw6)) as F6.
  pose proof (fair_ok _ _ _ _ _ Hfair5) as Hf5.
  split.
  - etrans; [done|]. etrans; [by apply framed_worked|]. etrans; [done|]. by apply framed_worked.
  - exists f5, t5. split; [by eapply framed_farming|]. split; [done|].
    split; [by rewrite (fair_worker _ _ _ _ _ Hfair5), (fair_worker _ _ _ _ _ Hfair1)|].
    intros j Hj. eapply (farm_kept_trans j f0 t f1 t1); [done|by apply totalShare_nonneg..| |].
    + by eapply fair_kept.
    + by eapply fair_kept.
Qed.

Lemma liquidate_kept m b w id b' w' f t :
  farming_at w (self m) f t -> farm_ok f -> liquidate m (b, w) id = Ok (b', w') ->
  worked_at (self m) w w' /\
  exists f' t', farming_at w' (self m) f' t' /\ farm_ok f' /\ farm_worker f' = farm_worker f /\
    forall j, j <> id -> kept j f t f' t'.
Proof.
  intros Hat Hf Hr. unfold liquidate in Hr. apply bind_Ok in Hr as (u & _ & Hr).
  eapply guarded_kept in Hr; [exact Hr|done..|]. clear Hr Hat Hf w w'.
  intros w f0 Hat Hf Ek w' Hr. apply bind_Ok in Hr as (w1 & Hw1 & Hr).
  apply bind_Ok in Hr as (lp & _ & Hr). apply bind_Ok in Hr as ([ok w2] & Hw2 & Hr).
  apply bind_Ok in Hr as ([b3 w3] & Hw3 & Hr). apply bind_Ok in Hr as (wad & _ & Hr).
  apply bind_Ok in Hr as (w4 & Hw4 & Hr). injection Hr as _ <-.
  eapply removeShare_spec in Hw1 as (f1 & t1 & Hat1 & Hfair1 & _ & _ & Hk1); [|done..].
  pose proof (deal_framed _ _ (deal_pair_transfer _ _ _ _ _ _ _ Hw2)) as F2.
  apply execute_framed in Hw3 as [F3 _].
  pose proof (deal_framed _ _ (deal_transfer _ _ _ _ _ _ Hw4)) as F4.
  assert (framed w1 w4) as F14 by (do 2 (etrans; [done|]); done).
  split; [etrans; [done|by apply framed_worked]|].
  exists f1, t1. split; [by eapply framed_farming|]. split; [apply Hfair1|].
  split; [by rewrite (fair_worker _ _ _ _ _ Hfair1)|].
  intros j Hj. by eapply fair_kept.
Qed.

(** Reinvesting adds to what every share is worth. *)
Lemma reinvest_kept m origin b w b' w' f t :
  farming_at w (self m) f t -> farm_ok f -> reinvest m origin (b, w) = Ok (b', w') ->
  worked_at (self m) w w' /\
  exists f' t', farming_at w' (self m) f' t' /\ farm_ok f' /\ farm_worker f' = farm_worker f /\
    forall j, True -> kept j f t f' t'.
Proof.
  intros Hat Hf Hr. unfold reinvest in Hr. apply bind_Ok in Hr as (u & _ & Hr).
  apply bind_Ok in Hr as (fx & _ & Hr). apply bind_Ok in Hr as (u1 & _ & Hr).
  eapply guarded_kept in Hr; [exact Hr|done..|]. clear Hr Hat Hf w w'.
  intros w f0 Hat Hf Ek w' Hr. pose proof (totalShare_nonneg f0 Hf) as Hn.
  apply bind_Ok in Hr as (w1 & Hw1 & Hr). apply bind_Ok in Hr as (w2 & Hw2 & Hr).
  apply bind_Ok in Hr as (w3 & Hw3 & Hr). apply bind_Ok in Hr as (reward & _ & Hr).
  pose proof (deal_framed _ _ (deal_safeApprove _ _ _ _ _ _ Hw1)) as F1.
  pose proof (deal_framed _ _ (deal_safeApprove _ _ _ _ _ _ Hw2)) as F2.
  assert (farming_at w2 (self m) f0 t) as [Ef2 Et2]
    by exact (framed_farming _ _ _ _ _ (transitivity F1 F2) Hat).
  rewrite <-Ek in *. cbn in Hw3. unfold lift in Hw3. apply bind_Ok in Hw3 as (x & Hx & Hw3). injection Hw3 as <-.
  assert (farming_at (with_market w2 x) (self m) f0 t) as Hat3.
  { split; [done|]. cbn. rewrite (chef_withdrawn _ _ _ _ _ _ _ Hx Et2). f_equal. lia. }
  assert (worked_at (self m) w (with_market w2 x)) as K3.
  { etrans; [apply framed_worked; exact (transitivity F1 F2)|]. by split. }
  assert (forall w5 v, worked_at (self m) w w5 -> farming_at w5 (self m) f0 v -> t <= v ->
    worked_at (self m) w w5 /\ exists f' t', farming_at w5 (self m) f' t' /\ farm_ok f' /\
      farm_worker f' = farm_worker f0 /\ forall j, True -> kept j f0 t f' t') as Hend.
  { intros w5 v K5 Hat5 Hv. split; [done|]. exists f0, v. split_and!; [done..|].
    intros j _. split; [done|]. intros _. nia. }
  destruct (reward =? 0); [injection Hr as _ <-; by eapply (Hend _ t)|].
  apply bind_Ok in Hr as (y & _ & Hr). cbv zeta in Hr. apply bind_Ok in Hr as (w4 & Hw4 & Hr).
  apply bind_Ok in Hr as (rest & _ & Hr). apply bind_Ok in Hr as (w5 & Hw5 & Hr).
  apply bind_Ok in Hr as (base & _ & Hr). apply bind_Ok in Hr as (w6 & Hw6 & Hr).
  apply bind_Ok in Hr as ([b7 w7] & Hw7 & Hr). apply bind_Ok in Hr as (lp & Hlp & Hr).
  apply bind_Ok in Hr as (w8 & Hw8 & Hr). apply bind_Ok in Hr as (w9 & Hw9 & Hr).
  apply bind_Ok in Hr as (w10 & Hw10 & Hr). injection Hr as _ <-.
  pose proof (market_balance_uint _ _ _ _ Hlp) as [Hlp0 _].
  assert (framed (with_market w2 x) w4) as F4.
  { destruct (0 <? y / 10000); [|by injection Hw4 as <-]. exact (deal_framed _ _ (deal_transfer _ _ _ _ _ _ Hw4)). }
  pose proof (deal_framed _ _ (deal_swap _ _ _ _ _ _ _ _ _ Hw5)) as F5.
  pose proof (deal_framed _ _ (deal_transfer _ _ _ _ _ _ Hw6)) as F6.
  apply execute_framed in Hw7 as [F7 _].
  assert (framed (with_market w2 x) w7) as F37 by (do 3 (etrans; [done|]); done).
  destruct (framed_farming _ _ _ _ _ F37 Hat3) as [Ef7 Et7].
  cbn in Hw8. unfold lift in Hw8. apply bind_Ok in Hw8 as (z & Hz & Hw8). injection Hw8 as <-.
  pose proof (deal_framed _ _ (deal_safeApprove _ _ _ _ _ _ Hw9)) as F9.
  pose proof (deal_framed _ _ (deal_safeApprove _ _ _ _ _ _ Hw10)) as F10.
  apply (Hend _ (t + lp)); [|eapply framed_farming; [exact (transitivity F9 F10)|]|lia].
  - etrans; [exact K3|]. etrans; [by apply framed_worked|].
    trans (with_market w7 z); [by split|]. apply framed_worked. exact (transitivity F9 F10).
  - split; [done|]. by eapply chef_deposited.
Qed.

(** *** A worker as a state machine *)

Inductive WorkerCall :=
| RunWork (id : Z) (user : address) (debt : Z) (data : Buffer)
| RunLiquidate (id : Z)
| RunReinvest.

Definition worker_call (m : Msg) (origin : address) (bw : Bank * Protocol M R) (c : WorkerCall) :
    result (Bank * Protocol M R) :=
  match c with
  | RunWork id user debt data => worker_run m bw id user debt data
  | RunLiquidate id => liquidate m bw id
  | RunReinvest => reinvest m origin bw
  end.

(** The position a call is about. *)
Definition works_on (c : WorkerCall) (j : Z) : Prop :=
  match c with RunWork id _ _ _ | RunLiquidate id => j = id | RunReinvest => False end.

(** C8: a call of a worker -- working on a position, liquidating one, reinvesting the
    rewards -- keeps its books: the total of shares is the sum of the positions' shares.  And
    the other positions lose nothing: they keep their shares, and the LP tokens these can be
    redeemed for do not become fewer, whatever the strategy did.  The worker's other
    settings, the other workers and the terms of the vaults stay. *)
Theorem others_not_diluted m origin b w c b' w' f t :
  farming_at w (self m) f t -> farm_ok f -> worker_call m origin (b, w) c = Ok (b', w') ->
  worked_at (self m) w w' /\
  exists f' t', farming_at w' (self m) f' t' /\ farm_ok f' /\ farm_worker f' = farm_worker f /\
    forall j, ~ works_on c j -> share_of f' j = share_of f j /\
      forall v v', shareToBalance w (self m) f (share_of f j) = Ok v ->
        shareToBalance w' (self m) f' (share_of f' j) = Ok v' -> v <= v'.
Proof.
  intros Hat Hf Hr.
  assert (worked_at (self m) w w' /\ exists f' t', farming_at w' (self m) f' t' /\ farm_ok f' /\
    farm_worker f' = farm_worker f /\ forall j, ~ works_on c j -> kept j f t f' t')
    as (Hw & f' & t' & Hat' & Hf' & Hk & Hkept).
  { destruct c; cbn in *; [by eapply worker_run_kept|by eapply liquidate_kept|].
    eapply reinvest_kept in Hr as (? & f' & t' & ? & ? & ? & Hall); [|done..].
    split; [done|]. exists f', t'. split_and!; [done..|]. intros j _. by apply Hall. }
  split; [done|]. exists f', t'. split_and!; [done..|]. intros j Hj. split; [by apply Hkept|].
  intros v v'. eapply kept_worth; [done..|]. by apply Hkept.
Qed.
End Shares.
