(* ===== verification/Protocol.v ===== *)
(** * The vault over its workers

    The workers of Farm.v implement what the vault's theorems ask of its surroundings
    ([Lawful], [BaseToken], [PaymentLaws]), given the documented behaviour of the tokens, the
    exchange and its MasterChef; Staking.v implements the rewards.  With them, no debt is taken and no position is killed at a
    price that is away from the oracle's. *)

From S2P Require Import Prelude Buffers MerkleTree BalanceTree Evm Uint Sums HuskyMath Amm InterestModel.
From S2P Require Import HuskyToken FairLaunch Lending Staking.
From S2P Require Import Workers Bank BankTheory BankValue Strategies Farm FarmTheory.

Open Scope Z_scope.

(** ** FairLaunch and the debt tokens, as the vault calls them *)

#[export] Instance stakes_rewards `{OpenZeppelin} : Rewards Stakes := {
  rw_debt_mint m s d to v := on_debt s d (fun t => DebtToken_mint (call m d) t to v);
  rw_debt_burn m s d from v := on_debt s d (fun t => DebtToken_burn (call m d) t from v);
  rw_deposit m s f for_ pid v :=
    require (bool_decide (f = fair_address s)) EmptyString ;; Staking.deposit (call m f) s for_ pid v;
  rw_withdraw m s f for_ pid v :=
    require (bool_decide (f = fair_address s)) EmptyString ;; Staking.withdraw (call m f) s for_ pid v
}.

(** ** Results of checked arithmetic are unsigned *)

Lemma sm_add_nonneg a b c : sm_add a b = Ok c -> 0 <= c.
Proof.
  unfold sm_add. intros Hr. cbv zeta in Hr. inv_result. subst.
  by apply Z.mod_pos_bound.
Qed.

Lemma sm_mul_nonneg a b c : sm_mul a b = Ok c -> 0 <= c.
Proof.
  unfold sm_mul. destruct (_ =? 0); [by intros [= <-]|]. intros Hr. cbv zeta in Hr. inv_result. subst.
  by apply Z.mod_pos_bound.
Qed.

Lemma getInterestRate_nonneg k debt floating r : getInterestRate (slopes k) debt floating = Ok r -> 0 <= r.
Proof.
  assert (forall a, 0 <= a -> 0 <= a / YEAR) as Hyear by (intros; apply Z.div_pos; [done|reflexivity]).
  unfold getInterestRate. intros Hr. destruct (_ && _); [by injection Hr as <-|].
  apply bind_Ok in Hr as (total & Ht & Hr). apply bind_Ok in Hr as (x & Hx%sm_mul_nonneg & Hr).
  apply bind_Ok in Hr as (u & Hu & Hr). apply sm_div_Ok in Hu as [-> Htot].
  destruct (_ <? CEIL_SLOPE_1 _).
  { apply bind_Ok in Hr as (y & Hy%sm_mul_nonneg & Hr). apply bind_Ok in Hr as (z & Hz & Hr).
    apply sm_div_Ok in Hz as [-> Hc]. apply raw_div_Ok in Hr as [-> _]. apply Hyear, Z.div_pos; lia. }
  destruct (_ <? CEIL_SLOPE_2 _).
  { apply raw_div_Ok in Hr as [-> _]. apply Hyear. destruct k; vm_compute; discriminate. }
  destruct (_ <? CEIL_SLOPE_3 _).
  2: { apply raw_div_Ok in Hr as [-> _]. apply Hyear. destruct k; vm_compute; discriminate. }
  repeat (apply bind_Ok in Hr as (? & _ & Hr)). injection Hr as <-.
  by apply Hyear, Z.mod_pos_bound.
Qed.

Section Instances.
Context `{Ethers} `{!AbiCoder} `{!Pancake} `{!OpenZeppelin} {M R : Type} `{!Ledger M} `{!Exchange M}.
Context `{!Rewards R} `{!Chef}.

(** ** Workers call back only *)

Lemma guarded_back m b w body b' w' :
  (forall k w0 b1 w1, body k (b, w0) = Ok (b1, w1) -> called_back b b1) ->
  guarded (M := M) (R := R) m (b, w) body = Ok (b', w') -> called_back b b'.
Proof.
  intros Hbody Hr. unfold guarded in Hr. apply bind_Ok in Hr as (f & _ & Hr).
  apply bind_Ok in Hr as (g & _ & Hr). apply bind_Ok in Hr as ([b1 w1] & Hrun & Hr).
  apply bind_Ok in Hr as (f1 & _ & Hr). injection Hr as <- _. by eapply Hbody.
Qed.

Lemma worker_run_back m b (w : Protocol M R) id user debt data b' w' :
  worker_run m (b, w) id user debt data = Ok (b', w') -> called_back b b'.
Proof.
  unfold worker_run. intros Hr. apply bind_Ok in Hr as (u & _ & Hr). revert Hr. apply guarded_back.
  intros k w0 b1 w1 Hr. unroll Hr.
  match goal with Hx : execute _ _ _ _ _ = _ |- _ => by apply execute_framed in Hx as [_ ?] end.
Qed.

Lemma liquidate_back m b (w : Protocol M R) id b' w' :
  liquidate m (b, w) id = Ok (b', w') -> called_back b b'.
Proof.
  unfold liquidate. intros Hr. apply bind_Ok in Hr as (u & _ & Hr). revert Hr. apply guarded_back.
  intros k w0 b1 w1 Hr. unroll Hr.
  match goal with Hx : execute _ _ _ _ _ = _ |- _ => by apply execute_framed in Hx as [_ ?] end.
Qed.

Lemma if_stable_Ok {A} blk (w : Protocol M R) c worker msg (field : Config -> A) x :
  if_stable blk w c worker msg field = Ok x ->
  isStable blk w c worker = Ok true /\ x = field (config_of_worker c worker).
Proof. unfold if_stable. intros Hr. inv_result. by subst. Qed.

Lemma tw_nonneg (t : TypedWorkerConfig) worker :
  0 <= workFactor (config_of_worker (tw_config t) worker) /\ 0 <= killFactor (config_of_worker (tw_config t) worker).
Proof.
  unfold config_of_worker. destruct (_ !! worker) as [c|] eqn:E; [by apply (tw_typed t worker)|done].
Qed.

#[export] Instance world_lawful : Lawful (Protocol M R).
Proof.
  split.
  - intros m b w worker id user debt data b' w' Hr. by apply worker_run_back in Hr as [? _].
  - intros m b w worker id b' w' Hid Hr. apply liquidate_back in Hr as [_ Hb]. by apply Hb.
  - intros w model debt floating r Hr. cbn in Hr. inv_result. by eapply getInterestRate_nonneg.
  - intros w a c Hr. cbn in Hr. inv_result. subst. apply tc_typed.
  - intros w tok a v Hr. cbn in Hr. by eapply market_balance_uint.
  - intros w worker id h Hr. cbn in Hr. unfold health, lpValue in Hr. unroll Hr; by eapply sm_add_nonneg.
  - intros blk w c worker debt f [Hr|Hr]; cbn in Hr;
      unfold WorkerConfig_workFactor, WorkerConfig_killFactor, wc_at in Hr; inv_result; subst;
      match goal with Hs : if_stable _ _ _ _ _ _ = _ |- _ => apply if_stable_Ok in Hs as [_ ->] end;
      apply tw_nonneg.
Qed.

(** ** The base token *)

(** A token on the market whose balances move by what transfers say, seen from [me]. *)
Class PlainToken (tok me : address) := {
  plain_out : forall m (w : M) to v w' x, self m = me -> to <> me -> safeTransfer m w tok to v = Ok w' ->
    balanceOf w tok me = Ok x -> balanceOf w' tok me = Ok (x - v);
  plain_in : forall m (w : M) from v w' x, from <> me -> safeTransferFrom m w tok from me v = Ok w' ->
    balanceOf w tok me = Ok x -> balanceOf w' tok me = Ok (x + v);
  plain_wrap : forall m (w : M) v w' x, self m = me -> wrapped_deposit m w tok v = Ok w' ->
    balanceOf w tok me = Ok x -> balanceOf w' tok me = Ok (x + v);
  plain_unwrap : forall m (w : M) t v w', self m <> me -> wrapped_withdraw m w t v = Ok w' ->
    balanceOf w' tok me = balanceOf w tok me;
  plain_native : forall (w : M) a b v w', send_native w a b v = Ok w' -> balanceOf w' tok me = balanceOf w tok me
}.

Lemma world_moved (tok me : address) d (w w' : Protocol M R) :
  terms w' = terms w ->
  (forall x, balanceOf (market w) tok me = Ok x -> balanceOf (market w') tok me = Ok (x + d)) ->
  moved tok me d w w'.
Proof. intros Et Hb. split; [exact Hb|]. intros a. cbn. by rewrite Et. Qed.

(** A call of a worker leaves the terms. *)
Lemma lift_worked a (w : Protocol M R) (r : result M) w' : lift w r = Ok w' -> worked_at a w w'.
Proof. unfold lift. intros Hr. inv_result. subst. by split. Qed.

Lemma removeShare_worked m (w : Protocol M R) id w' : removeShare m w id = Ok w' -> worked_at (self m) w w'.
Proof.
  unfold removeShare. intros Hr. unroll Hr; [|done].
  etrans; [|apply with_farm_worked].
  match goal with Hd : chef_withdraw _ _ _ _ _ = Ok _ |- _ => exact (lift_worked _ _ _ _ Hd) end.
Qed.

Lemma addShare_worked m (w : Protocol M R) id w' : addShare m w id = Ok w' -> worked_at (self m) w w'.
Proof.
  unfold addShare. intros Hr. unroll Hr; [|done].
  repeat match goal with Hd : lift _ _ = Ok _ |- _ => apply (lift_worked (self m)) in Hd
    | Hd : chef_deposit _ _ _ _ _ = Ok _ |- _ => apply (lift_worked (self m)) in Hd
    | Hd : safeApprove _ _ _ _ _ = Ok _ |- _ => apply (lift_worked (self m)) in Hd end.
  etrans; [done|]. etrans; [done|]. etrans; [apply with_farm_worked|]. done.
Qed.

Lemma guarded_worked m b (w : Protocol M R) body b' w' :
  (forall k w0 w1, body k (b, w0) = Ok (b', w1) -> worked_at (self m) w0 w1) ->
  guarded m (b, w) body = Ok (b', w') -> worked_at (self m) w w'.
Proof.
  intros Hbody Hr. unfold guarded in Hr. apply bind_Ok in Hr as (f & _ & Hr).
  apply bind_Ok in Hr as (g & _ & Hr). apply bind_Ok in Hr as ([b1 w1] & Hrun & Hr).
  apply bind_Ok in Hr as (f1 & _ & Hr). injection Hr as <- <-. apply Hbody in Hrun.
  etrans; [apply with_farm_worked|]. etrans; [exact Hrun|]. apply with_farm_worked.
Qed.

(** The calls that a run consists of. *)
Ltac worked a :=
  repeat match goal with
  | Hd : removeShare _ _ _ = Ok _ |- _ => apply removeShare_worked in Hd
  | Hd : addShare _ _ _ = Ok _ |- _ => apply addShare_worked in Hd
  | Hd : execute _ _ _ _ _ = Ok _ |- _ => apply execute_framed in Hd as [Hd _]; apply (framed_worked a) in Hd
  | Hd : transfer _ _ _ _ _ = Ok _ |- _ =>
      apply (fun H => framed_worked a _ _ (deal_framed _ _ (deal_pair_transfer _ _ _ _ _ _ _ H))) in Hd
  | Hd : safeTransfer _ _ _ _ _ = Ok _ |- _ => apply (lift_worked a) in Hd
  end;
  repeat (etrans; [eassumption|]); try reflexivity.

Lemma worker_run_worked m b (w : Protocol M R) id user debt data b' w' :
  worker_run m (b, w) id user debt data = Ok (b', w') -> worked_at (self m) w w'.
Proof.
  unfold worker_run. intros Hr. apply bind_Ok in Hr as (u & _ & Hr). revert Hr. apply guarded_worked.
  intros k w0 w1 Hr. unroll Hr. worked (self m).
Qed.

Lemma liquidate_worked m b (w : Protocol M R) id b' w' :
  liquidate m (b, w) id = Ok (b', w') -> worked_at (self m) w w'.
Proof.
  unfold liquidate. intros Hr. apply bind_Ok in Hr as (u & _ & Hr). revert Hr. apply guarded_worked.
  intros k w0 w1 Hr. unroll Hr. worked (self m).
Qed.

Section Base.
Context (tok me : address) `{!PlainToken tok me}.

#[export] Instance world_base : BaseToken (W := Protocol M R) tok me.
Proof.
  split.
  - intros m w to v w' Hs Hto Hr. cbn in Hr. unfold lift in Hr. inv_result. subst.
    apply world_moved; [done|]. intros z Hz. rewrite Z.add_opp_r. by eapply plain_out.
  - intros m w from v w' Hfrom Hr. cbn in Hr. unfold lift in Hr. inv_result. subst.
    apply world_moved; [done|]. intros z Hz. by eapply plain_in.
  - intros m w v w' Hs Hr. cbn in Hr. unfold lift in Hr. inv_result. subst.
    apply world_moved; [done|]. intros z Hz. by eapply plain_wrap.
  - intros w a b v w' Hr. cbn in Hr. unfold lift in Hr. inv_result. subst.
    apply world_moved; [done|]. intros z Hz. rewrite Z.add_0_r, <-Hz. by eapply plain_native.
  - intros m w relayer v w' Hs Hrel Hr. cbn in Hr. unfold WNativeRelayer_withdraw in Hr. cbn in Hr.
    unfold lift in Hr. inv_result. subst. apply world_moved; [done|].
    intros z Hz. rewrite Z.add_0_r, <-Hz. cbn in *.
    match goal with A : send_native _ _ _ _ = _ |- _ => rewrite (plain_native _ _ _ _ _ A) end. cbn.
    match goal with A : wrapped_withdraw _ _ _ _ = _ |- _ => by rewrite (plain_unwrap (call m relayer) _ _ _ _ Hrel A) end.
  - intros m w d v w' _ _ [Hr|Hr]; cbn in Hr; unfold on_rewards in Hr; inv_result; subst;
      (apply world_moved; [done|]; intros z Hz; by rewrite Z.add_0_r).
  - intros m w f a p v w' _ _ [Hr|Hr]; cbn in Hr; unfold on_rewards in Hr; inv_result; subst;
      (apply world_moved; [done|]; intros z Hz; by rewrite Z.add_0_r).
  - intros m b w worker id user debt data b' w' Hr a. cbn in *.
    apply worker_run_worked in Hr. by rewrite (worked_terms _ _ _ Hr).
  - intros m b w worker id b' w' Hr a. cbn in *.
    apply liquidate_worked in Hr. by rewrite (worked_terms _ _ _ Hr).
Qed.
End Base.

(** ** Payments leave the pairs *)

(** Paying a token or native currency out, on the market. *)
Inductive pays (w w' : M) : Prop :=
| pays_token m tok to v : safeTransfer m w tok to v = Ok w' -> pays w w'
| pays_unwrap m tok v : wrapped_withdraw m w tok v = Ok w' -> pays w w'
| pays_native a b v : send_native w a b v = Ok w' -> pays w w'.

(** A pair's supply and its recorded reserves, 112-bit numbers, change when it is traded with
    only. *)
Class Pairs := {
  paid_supply : forall w w' p, pays w w' -> pair_totalSupply w' p = pair_totalSupply w p;
  paid_reserves : forall w w' p, pays w w' -> pair_getReserves w' p = pair_getReserves w p;
  reserves_uint : forall w p r0 r1, pair_getReserves w p = Ok (r0, r1) -> uint112 r0 /\ uint112 r1
}.
Context `{!Pairs}.

(** The same positions seen over the same pairs. *)
Record same_prices (w w' : Protocol M R) : Prop := {
  sp_farms : farms w' = farms w;
  sp_terms : terms w' = terms w;
  sp_supply : forall p, pair_totalSupply (market w') p = pair_totalSupply (market w) p;
  sp_reserves : forall p, pair_getReserves (market w') p = pair_getReserves (market w) p;
  sp_staked : forall c p u, chef_amount (market w') c p u = chef_amount (market w) c p u
}.

#[export] Instance same_prices_preorder : PreOrder same_prices.
Proof. split; [by split|]. intros w1 w2 w3 [] []. split; congruence. Qed.

Lemma pays_prices (w : Protocol M R) x : pays (market w) x -> same_prices w (with_market w x).
Proof.
  intros Hp. split; try done; intros; cbn; [by apply paid_supply|by apply paid_reserves|].
  apply chef_untraded. destruct Hp; by econstructor.
Qed.

Lemma payment_prices (w w' : Protocol M R) : payment w w' -> same_prices w w'.
Proof.
  assert (forall (v : Protocol M R) (r : result M) v', lift v r = Ok v' -> (forall x, r = Ok x -> pays (market v) x) ->
    same_prices v v') as Hlift.
  { unfold lift. intros v r v' Hr Hp. inv_result. subst. by apply pays_prices, Hp. }
  intros [m tok to v Hr|m r v Hr|a b v Hr|m d a v Hr|m d a v Hr|m f a p v Hr|m f a p v Hr]; cbn in Hr.
  - eapply Hlift; [exact Hr|]. intros. by eapply pays_token.
  - unfold WNativeRelayer_withdraw in Hr. inv_result. subst.
    match goal with A : wrapped_withdraw _ _ _ _ = _, B : send_native _ _ _ _ = Ok ?z |- _ =>
      trans z; [|by split]; eapply (transitivity (R := same_prices)); [|eapply Hlift; [exact B|];
        intros; by eapply pays_native];
      eapply (transitivity (R := same_prices)); [|eapply Hlift; [exact A|]; intros; by eapply pays_unwrap]
    end. by split.
  - eapply Hlift; [exact Hr|]. intros. by eapply pays_native.
  - unfold on_rewards in Hr. inv_result. subst. by split.
  - unfold on_rewards in Hr. inv_result. subst. by split.
  - unfold on_rewards in Hr. inv_result. subst. by split.
  - unfold on_rewards in Hr. inv_result. subst. by split.
Qed.

Lemma payments_prices (w w' : Protocol M R) : rtc payment w w' -> same_prices w w'.
Proof. induction 1 as [|w1 w2 w3 Hp _ IH]; [done|]. etrans; [by apply payment_prices|done]. Qed.

Lemma health_prices (w w' : Protocol M R) a id : same_prices w w' -> health w' a id = health w a id.
Proof.
  intros [Ef _ Es Er Ec]. unfold health, farm_at. rewrite Ef. destruct (farms w !! a) as [f|]; [|done]. cbn.
  unfold shareToBalance, staked. cbn. by rewrite Ec, Es, Er.
Qed.

#[export] Instance world_payments : PaymentLaws (W := Protocol M R).
Proof.
  split.
  - intros w w' worker id Hp%payment_prices. cbn. by apply health_prices.
  - intros w w' a Hp%payment_prices. cbn. by rewrite (sp_terms _ _ Hp).
Qed.

(** ** Debt at the oracle's price *)

(** The price of the worker's pair, as its reserves have it, is within the worker's
    [maxPriceDiff] of a price the oracle got in the last seven days, the divisions rounded
    down. *)
Definition at_oracle_price (blk : Block) (w : Protocol M R) (worker : address) : Prop :=
  exists f a c token0 token1 r0 r1 o price lastUpdate,
    let diff := maxPriceDiff (config_of_worker (tw_config c) worker) in
    farms w !! worker = Some f /\ workerConfigs (terms w) !! a = Some c /\
    pair_token0 (lpToken (farm_worker f)) = Some token0 /\
    pair_token1 (lpToken (farm_worker f)) = Some token1 /\
    pair_getReserves (market w) (lpToken (farm_worker f)) = Ok (r0, r1) /\
    oracles (terms w) !! oracle (tw_config c) = Some o /\
    getPrice (to_oracle o) token0 token1 = Ok (price, lastUpdate) /\
    (timestamp blk - SEVEN_DAYS) mod UINT256 <= lastUpdate /\
    0 < r0 /\ price * 10000 / diff <= r1 * 10 ^ 18 / r0 <= price * diff / 10000.

Lemma getPrice_nonneg o t0 t1 p last : getPrice (to_oracle o) t0 t1 = Ok (p, last) -> 0 <= p.
Proof.
  unfold getPrice. destruct (_ !! _) as [d|] eqn:E; cbn; [|done]. intros Hr. inv_result. subst.
  by eapply (to_typed o).
Qed.

Lemma isStable_price blk w a c worker :
  workerConfigs (terms w) !! a = Some c -> isStable blk w (tw_config c) worker = Ok true ->
  at_oracle_price blk w worker.
Proof.
  intros Hc Hr. unfold isStable in Hr. apply bind_Ok in Hr as (f & Hf%of_option_Ok & Hr).
  cbv zeta in Hr. apply bind_Ok in Hr as (token0 & Ht0%of_option_Ok & Hr).
  apply bind_Ok in Hr as (token1 & Ht1%of_option_Ok & Hr). apply bind_Ok in Hr as ([r0 r1] & Hres & Hr).
  cbn in Hres. destruct (reserves_uint _ _ _ _ Hres) as [[] []].
  apply bind_Ok in Hr as (b0 & Hb0 & Hr). apply bind_Ok in Hr as (b1 & Hb1 & Hr).
  do 6 (apply bind_Ok in Hr as (? & ? & Hr)). apply bind_Ok in Hr as (o & Ho%of_option_Ok & Hr).
  apply bind_Ok in Hr as ([p last] & Hp & Hr). pose proof (getPrice_nonneg _ _ _ _ _ Hp).
  apply bind_Ok in Hr as (u & Hlast%require_Ok & Hr). apply bind_Ok in Hr as (scaled & Hs & Hr).
  apply bind_Ok in Hr as (lpPrice & Hl & Hr). apply bind_Ok in Hr as (p1 & Hp1 & Hr).
  apply bind_Ok in Hr as (high & Hh & Hr). apply bind_Ok in Hr as (u1 & Hhi%require_Ok & Hr).
  apply bind_Ok in Hr as (p2 & Hp2 & Hr). apply bind_Ok in Hr as (low & Hlow & Hr).
  apply bind_Ok in Hr as (u2 & Hlo%require_Ok & Hr). to_props.
  apply sm_mul_inv in Hs as [-> _]; [|done]. apply sm_mul_inv in Hp1 as [-> _]; [|done].
  apply sm_mul_inv in Hp2 as [-> _]; [|done]. apply sm_div_Ok in Hl as [-> Hr0].
  apply sm_div_Ok in Hh as [-> _]. apply sm_div_Ok in Hlow as [-> Hdiff].
  exists f, a, c, token0, token1, r0, r1, o, p, last. cbv zeta. split_and!; done.
Qed.

Lemma oracle_price_same blk w w' worker :
  same_prices w w' -> at_oracle_price blk w worker -> at_oracle_price blk w' worker.
Proof.
  intros [Ef Et _ Er _] (f & a & c & t0 & t1 & r0 & r1 & o & p & last & Hp). cbv zeta in Hp.
  exists f, a, c, t0, t1, r0, r1, o, p, last. cbv zeta. by rewrite Ef, Et, Er.
Qed.

Lemma factor_stable blk w a worker f :
  WorkerConfig_workFactor blk w a worker = Ok f \/ WorkerConfig_killFactor blk w a worker = Ok f ->
  at_oracle_price blk w worker.
Proof.
  unfold WorkerConfig_workFactor, WorkerConfig_killFactor, wc_at. intros [Hr|Hr]; inv_result; subst;
    (match goal with Hs : if_stable _ _ _ _ _ _ = _ |- _ => apply if_stable_Ok in Hs as [Hs _] end);
    by eapply isStable_price.
Qed.

(** C14: the price of a pair decides over debt only while it agrees with the oracle: if
    [work] leaves a position with debt, or a position is killed, the price of the worker's
    pair was within the configured distance of a fresh oracle price -- for [work] in the
    state it ends in, for [kill] in the state it started from. *)
Theorem debt_at_oracle_price m origin b (w : Protocol M R) b' w' :
  idle b ->
  (forall msgValue id worker principal loan maxReturn data,
    typed_call (Work id worker principal loan maxReturn data) ->
    work m origin msgValue (b, w) id worker principal loan maxReturn data = Ok (b', w') ->
    let id' := if id =? 0 then nextPositionID (vault b) else id in
    0 < debtShare (position b' id') -> at_oracle_price (block m) w' worker) /\
  (forall id, kill m origin (b, w) id = Ok (b', w') ->
    at_oracle_price (block m) w (p_worker (position b id))).
Proof.
  intros Hb. split.
  - intros msgValue id worker principal loan maxReturn data Hc Hr id' Hpos.
    apply worked in Hr as (? & ? & b3 & w4 & ? & ? & b4 & w5 & g & _ & _ & _ &
      Hd3 & Hs3 & _ & _ & _ & Hdebt & Htake & Hpay & ->); [|done..].
    fold id' in Hs3, Htake. change (0 < debtShare (position b4 id')) in Hpos.
    apply take_debt_spec in Htake; [|done..].
    destruct Htake as [(_ & -> & _)|(c & h & fac & _ & _ & _ & _ & Hf & _ & _ & Hfl)]; [lia|].
    apply fairLaunchDeposit_payments in Hfl. cbn in Hf.
    eapply oracle_price_same; [|eapply factor_stable; left; exact Hf].
    apply payments_prices. by etrans.
  - intros id Hr. cbn in Hr. apply bind_Ok in Hr as (_ & _ & Hr). apply bind_Ok in Hr as (b1 & Hacc & Hr).
    assert (positions b1 = positions b) as Ep.
    { unfold accrue in Hacc. destruct (_ <? _); inv_result; by simplify_eq. }
    apply accrue_idle in Hacc; [|done].
    unfold nonReentrant in Hr. apply bind_Ok in Hr as (g & _ & Hr). apply bind_Ok in Hr as ([b2 w2] & Hr & _).
    apply kill_body_spec in Hr as (w1 & debt & h & c & fac & ? & ? & ? & ? & ? & ? & _ & Hfw & _ & _ & _ & Hf & _);
      [|apply (debts_ok_ext b1); try done; apply Hacc|apply Hacc].
    replace (position (with_guard b1 g) id) with (position b id) in Hf by (unfold position; cbn; by rewrite Ep).
    cbn in Hf. apply fairLaunchWithdraw_payments, payments_prices in Hfw.
    assert (at_oracle_price (block m) w1 (p_worker (position b id))) as Hat by (eapply factor_stable; right; exact Hf).
    eapply oracle_price_same; [|exact Hat]. destruct Hfw. by split.
Qed.
End Instances.
