(* ===== verification/Chain.v ===== *)
(** * The chain

    The contracts of the other files at their addresses, behind their proxies;
    the dispatch of calldata to their functions; and the external call, by which
    an account or the timelock reaches them.  Only the functions modelled in the
    other files are in the dispatch tables: a call to any other one reverts, except that
    PublicOffering accepts whatever names none of its functions. *)

From S2P Require Import Prelude Buffers MerkleTree BalanceTree MerkleDistributor Evm.
From S2P Require Import Timelock HuskyToken Shield Offering FairLaunch Lending Workers.

(** The code at an address, with its state. *)
Inductive Code `{OpenZeppelin} :=
| CTimelock (s : Timelock)
| CFairLaunch (f : FairLaunch)
| CHuskyToken (h : HuskyToken)
| CBasicVaultConfig (c : BasicVaultConfig)
| CWorkerConfig (c : WorkerConfig)
| CDebtToken (d : DebtToken)
| CVault (v : Vault)
| CWNativeRelayer (r : WNativeRelayer)
| CSimplePriceOracle (o : SimplePriceOracle)
| CWorker (w : Worker)
| CStrategy (s : Strategy)
| CProxyAdmin (owner : address)
| CShield (s : Shield)
| CPublicOfferingConfig (c : PublicOfferingConfig)
| CPublicOffering (o : PublicOffering)
| CMerkleDistributor (token : address) (d : Distributor)
| CLogic.    (* an implementation behind proxies, or a contract without state *)

(** [AdminUpgradeabilityProxy]: the two storage slots. *)
Record Proxy := { proxy_admin : address; implementation : address }.

Record Account `{OpenZeppelin} := { proxy : option Proxy; code : Code }.

Record Chain `{OpenZeppelin} := {
  accounts : gmap address Account;
  native : gmap address Z
}.

Section Accessors.
Context `{OpenZeppelin}.

Definition set_account (ch : Chain) (a : address) (c : Account) : Chain :=
  {| accounts := <[ a := c ]> (accounts ch); native := native ch |}.

Definition code_at (ch : Chain) (a : address) : option Code := code <$> accounts ch !! a.

(** Storage writes keep the proxy slots. *)
Definition set_code (ch : Chain) (a : address) (c : Code) : Chain :=
  set_account ch a {| proxy := accounts ch !! a ≫= proxy; code := c |}.

(** A contract type's view of an address; calls to anything else revert silently. *)
Definition get {A} (prj : Code -> option A) (ch : Chain) (a : address) : result A :=
  of_option (code_at ch a ≫= prj) EmptyString.

Definition as_Timelock c := match c with CTimelock s => Some s | _ => None end.
Definition as_FairLaunch c := match c with CFairLaunch s => Some s | _ => None end.
Definition as_HuskyToken c := match c with CHuskyToken s => Some s | _ => None end.
Definition as_BasicVaultConfig c := match c with CBasicVaultConfig s => Some s | _ => None end.
Definition as_WorkerConfig c := match c with CWorkerConfig s => Some s | _ => None end.
Definition as_DebtToken c := match c with CDebtToken s => Some s | _ => None end.
Definition as_Vault c := match c with CVault s => Some s | _ => None end.
Definition as_WNativeRelayer c := match c with CWNativeRelayer s => Some s | _ => None end.
Definition as_SimplePriceOracle c := match c with CSimplePriceOracle s => Some s | _ => None end.
Definition as_Worker c := match c with CWorker s => Some s | _ => None end.
Definition as_Strategy c := match c with CStrategy s => Some s | _ => None end.
Definition as_Shield c := match c with CShield s => Some s | _ => None end.
Definition as_PublicOfferingConfig c := match c with CPublicOfferingConfig s => Some s | _ => None end.
Definition as_PublicOffering c := match c with CPublicOffering s => Some s | _ => None end.

Definition owner_of (c : Code) : option address :=
  match c with
  | CTimelock _ | CMerkleDistributor _ _ | CLogic => None
  | CFairLaunch f => Some (fl_owner f)
  | CHuskyToken h => Some (husky_owner h)
  | CBasicVaultConfig c => Some (bvc_owner c)
  | CWorkerConfig c => Some (wc_owner c)
  | CDebtToken d => Some (dt_owner d)
  | CVault v => Some (v_owner v)
  | CWNativeRelayer r => Some (wnr_owner r)
  | CSimplePriceOracle o => Some (spo_owner o)
  | CWorker w => Some (wk_owner w)
  | CStrategy s => Some (st_owner s)
  | CProxyAdmin o => Some o
  | CShield s => Some (sh_owner s)
  | CPublicOfferingConfig c => Some (poc_owner c)
  | CPublicOffering p => Some (po_owner p)
  end.

(** [_owner = o] *)
Definition set_owner (c : Code) (o : address) : Code :=
  match c with
  | CTimelock _ | CMerkleDistributor _ _ | CLogic => c
  | CFairLaunch f => CFairLaunch (with_fl_owner f o)
  | CHuskyToken h => CHuskyToken (with_husky_owner h o)
  | CBasicVaultConfig c => CBasicVaultConfig
      {| bvc_owner := o; minDebtSize := minDebtSize c; getReservePoolBps := getReservePoolBps c;
         getCloseBps := getCloseBps c; getKillBps := getKillBps c; bvc_workers := bvc_workers c;
         interestModel := interestModel c; wrappedNative := wrappedNative c;
         wNativeRelayer := wNativeRelayer c; fairLaunch := fairLaunch c;
         maxKillBps := maxKillBps c |}
  | CWorkerConfig c =>
      CWorkerConfig {| wc_owner := o; oracle := oracle c; wc_workers := wc_workers c |}
  | CDebtToken d => CDebtToken (with_dt_owner d o)
  | CVault v => CVault
      {| v_owner := o; v_erc20 := v_erc20 v; v_name := v_name v; v_symbol := v_symbol v;
         v_decimals := v_decimals v; token := token v; debtToken := debtToken v;
         config := config v; nextPositionID := nextPositionID v;
         fairLaunchPoolId := fairLaunchPoolId v; lastAccrueTime := lastAccrueTime v |}
  | CWNativeRelayer r =>
      CWNativeRelayer {| wnr_owner := o; wnative := wnative r; okCallers := okCallers r |}
  | CSimplePriceOracle s =>
      CSimplePriceOracle {| spo_owner := o; feeder := feeder s; store := store s |}
  | CWorker w => CWorker (with_wk_owner w o)
  | CStrategy s => CStrategy (with_st_owner s o)
  | CProxyAdmin _ => CProxyAdmin o
  | CShield s => CShield (with_sh_owner s o)
  | CPublicOfferingConfig c => CPublicOfferingConfig (with_poc_owner c o)
  | CPublicOffering p => CPublicOffering (with_po_owner p o)
  end.

(** ** Token calls *)

(** The ERC-20 part of a token contract, and the contract with it replaced. *)
Definition erc20_of (c : Code) : option (Erc20 * (Erc20 -> Code)) :=
  match c with
  | CHuskyToken h => Some (husky_erc20 h, fun t => CHuskyToken (with_erc20 h t))
  | CDebtToken d => Some (dt_erc20 d, fun t => CDebtToken (with_dt_erc20 d t))
  | CVault v => Some (v_erc20 v, fun t => CVault
      {| v_owner := v_owner v; v_erc20 := t; v_name := v_name v; v_symbol := v_symbol v;
         v_decimals := v_decimals v; token := token v; debtToken := debtToken v;
         config := config v; nextPositionID := nextPositionID v;
         fairLaunchPoolId := fairLaunchPoolId v; lastAccrueTime := lastAccrueTime v |})
  | _ => None
  end.

Definition chain_balanceOf (ch : Chain) (tok holder : address) : result Z :=
  t ← get erc20_of ch tok; Ok (erc20_balanceOf t.1 holder).

(** SafeToken.sol [safeApprove], called by the contract [self m]: a low-level call,
    which succeeds on an address without code. *)
Definition safeApprove (ch : Chain) (m : Msg) (tok to : address) (amount : Z) : result Chain :=
  match code_at ch tok with
  | None => Ok ch
  | Some c =>
      match erc20_of c with
      | Some (t, put) =>
          match erc20_approve t (self m) to amount with
          | Ok t => Ok (set_code ch tok (put t))
          | Err _ => Err "!safeApprove"
          end
      | None => Err "!safeApprove"
      end
  end.

Definition chain_husky (f : Msg -> HuskyToken -> address -> Z -> result HuskyToken)
    (m : Msg) (ch : Chain) (a : address) (v : Z) : result Chain :=
  h ← get as_HuskyToken ch (self m);
  h ← f m h a v;
  Ok (set_code ch (self m) (CHuskyToken h)).

#[export] Instance chain_tokens : Tokens Chain := {
  token_balanceOf := chain_balanceOf;
  token_mint := chain_husky mint;
  token_lock := chain_husky lock;
  token_manualMint := chain_husky manualMint
}.

(** ** Calls between contracts *)

Definition getFairLaunchAddr (ch : Chain) (vaultConfig : address) : result address :=
  c ← get as_BasicVaultConfig ch vaultConfig; Ok (fairLaunch c).

(** [Vault.initialize] at the address [self m]. *)
Definition Vault_initialize (m : Msg) (ch : Chain) (_config _token : address)
    (_name _symbol : string) (_decimals : Z) (_debtToken : address) : result (Chain * Vault) :=
  fairLaunch ← getFairLaunchAddr ch _config;
  ch ← safeApprove ch m _debtToken fairLaunch MAX_UINT256;
  Ok (ch, new_Vault m _config _token _name _symbol _decimals _debtToken).

Definition setFairLaunchPoolId (m : Msg) (ch : Chain) (_poolId : Z) : result Chain :=
  v ← get as_Vault ch (self m);
  onlyOwner (v_owner v) m ;;
  fairLaunch ← getFairLaunchAddr ch (config v);
  ch ← safeApprove ch m (debtToken v) fairLaunch MAX_UINT256;
  v ← get as_Vault ch (self m);
  Ok (set_code ch (self m) (CVault (with_fairLaunchPoolId v (debtToken v) _poolId))).

Definition updateDebtToken (m : Msg) (ch : Chain) (_debtToken : address) (_newPid : Z) :
    result Chain :=
  v ← get as_Vault ch (self m);
  onlyOwner (v_owner v) m ;;
  require (bool_decide (_debtToken <> token v))
    "Vault::updateDebtToken: _debtToken must not be the same as token" ;;
  fairLaunch ← getFairLaunchAddr ch (config v);
  d ← get as_DebtToken ch _debtToken;
  d ← setOkHolders {| sender := self m; self := _debtToken; block := block m |} d
        [self m; fairLaunch] true;
  let ch := set_code ch _debtToken (CDebtToken d) in
  v ← get as_Vault ch (self m);
  let ch := set_code ch (self m) (CVault (with_fairLaunchPoolId v _debtToken _newPid)) in
  safeApprove ch m _debtToken fairLaunch MAX_UINT256.

(** A FairLaunch function, run on the contract's state and the rest of the chain. *)
Definition on_FairLaunch (m : Msg) (ch : Chain)
    (f : FairLaunch * Chain -> result (FairLaunch * Chain)) : result Chain :=
  s ← get as_FairLaunch ch (self m);
  '(s, ch) ← f (s, ch);
  Ok (set_code ch (self m) (CFairLaunch s)).

(** ** Proxies *)

Definition changeAdmin (ch : Chain) (a newAdmin : address) : result Chain :=
  c ← of_option (accounts ch !! a) EmptyString;
  p ← of_option (proxy c) EmptyString;
  require (bool_decide (newAdmin <> zero_address))
    "Cannot change the admin of a proxy to the zero address" ;;
  Ok (set_account ch a
        {| proxy := Some {| proxy_admin := newAdmin; implementation := implementation p |};
           code := code c |}).

Definition upgradeTo (ch : Chain) (a newImplementation : address) : result Chain :=
  c ← of_option (accounts ch !! a) EmptyString;
  p ← of_option (proxy c) EmptyString;
  require (bool_decide (is_Some (accounts ch !! newImplementation)))
    "Cannot set a proxy implementation to a non-contract address" ;;
  Ok (set_account ch a
        {| proxy := Some {| proxy_admin := proxy_admin p; implementation := newImplementation |};
           code := code c |}).

(** A proxy function guarded by [ifAdmin], called by the contract [self m].  When the
    caller is not the proxy's admin the call falls through to the implementation,
    and none of the modelled contracts has these functions. *)
Definition if_proxy_admin (m : Msg) (ch : Chain) (p : address) (f : result Chain) : result Chain :=
  c ← of_option (accounts ch !! p) EmptyString;
  slots ← of_option (proxy c) EmptyString;
  require (bool_decide (proxy_admin slots = self m)) EmptyString ;; f.
End Accessors.

(** ** Function tables *)

Section Dispatch.
Context `{AbiCoder} `{!OpenZeppelin}.

(** A function of a contract: its canonical signature, the types of its arguments,
    and what it does to the chain. *)
Record Method := {
  m_sig : string;
  m_types : list AbiType;
  m_run : Msg -> Chain -> list AbiValue -> result Chain
}.

Definition as_address (v : AbiValue) : option address :=
  match v with VAddress a => Some a | _ => None end.
Definition as_uint (v : AbiValue) : option Z :=
  match v with VUint z => Some z | _ => None end.
Definition as_config (v : AbiValue) : option Config :=
  match v with
  | VTuple [VBool b; VUint w; VUint k; VUint d] =>
      Some {| acceptDebt := b; workFactor := w; killFactor := k; maxPriceDiff := d |}
  | _ => None
  end.

(** The elements of an array argument. *)
Definition array {A} (f : AbiValue -> option A) (vs : list AbiValue) : result (list A) :=
  of_option (mapM f vs) EmptyString.

Definition CONFIG : AbiType := TTuple [TBool; TUint 64; TUint 64; TUint 64].

(** A function of one contract's own state. *)
Definition own {A} (prj : Code -> option A) (inj : A -> Code) (f : Msg -> A -> result A)
    (m : Msg) (ch : Chain) : result Chain :=
  s ← get prj ch (self m); s ← f m s; Ok (set_code ch (self m) (inj s)).

Definition m_transferOwnership : Method :=
  {| m_sig := "transferOwnership(address)"; m_types := [TAddress];
     m_run m ch vs := match vs with
       | [VAddress newOwner] =>
           c ← of_option (code_at ch (self m)) EmptyString;
           owner ← of_option (owner_of c) EmptyString;
           o ← transferOwnership owner m newOwner;
           Ok (set_code ch (self m) (set_owner c o))
       | _ => Err EmptyString end |}.

Definition m_renounceOwnership : Method :=
  {| m_sig := "renounceOwnership()"; m_types := [];
     m_run m ch vs :=
       c ← of_option (code_at ch (self m)) EmptyString;
       owner ← of_option (owner_of c) EmptyString;
       onlyOwner owner m ;;
       Ok (set_code ch (self m) (set_owner c zero_address)) |}.

Definition ownable : list Method := [m_transferOwnership; m_renounceOwnership].

Definition m_approve : Method :=
  {| m_sig := "approve(address,uint256)"; m_types := [TAddress; TUint 256];
     m_run m ch vs := match vs with
       | [VAddress spender; VUint amount] =>
           t ← get erc20_of ch (self m);
           t' ← erc20_approve t.1 (sender m) spender amount;
           Ok (set_code ch (self m) (t.2 t'))
       | _ => Err EmptyString end |}.

Definition m_setStrategyOk : Method :=
  {| m_sig := "setStrategyOk(address[],bool)"; m_types := [TArray TAddress; TBool];
     m_run m ch vs := match vs with
       | [VArray strats; VBool isOk] =>
           strats ← array as_address strats;
           own as_Worker CWorker (fun m w => setStrategyOk m w strats isOk) m ch
       | _ => Err EmptyString end |}.

Definition m_setReinvestorOk : Method :=
  {| m_sig := "setReinvestorOk(address[],bool)"; m_types := [TArray TAddress; TBool];
     m_run m ch vs := match vs with
       | [VArray reinvestors; VBool isOk] =>
           reinvestors ← array as_address reinvestors;
           own as_Worker CWorker (fun m w => setReinvestorOk m w reinvestors isOk) m ch
       | _ => Err EmptyString end |}.

Definition m_setCriticalStrategies : Method :=
  {| m_sig := "setCriticalStrategies(address,address)"; m_types := [TAddress; TAddress];
     m_run m ch vs := match vs with
       | [VAddress add; VAddress liq] =>
           own as_Worker CWorker (fun m w => setCriticalStrategies m w add liq) m ch
       | _ => Err EmptyString end |}.

Definition m_setReinvestBountyBps : Method :=
  {| m_sig := "setReinvestBountyBps(uint256)"; m_types := [TUint 256];
     m_run m ch vs := match vs with
       | [VUint bps] => own as_Worker CWorker (fun m w => setReinvestBountyBps m w bps) m ch
       | _ => Err EmptyString end |}.

Definition m_setMaxReinvestBountyBps : Method :=
  {| m_sig := "setMaxReinvestBountyBps(uint256)"; m_types := [TUint 256];
     m_run m ch vs := match vs with
       | [VUint bps] => own as_Worker CWorker (fun m w => setMaxReinvestBountyBps m w bps) m ch
       | _ => Err EmptyString end |}.

Definition m_setWorkersOk : Method :=
  {| m_sig := "setWorkersOk(address[],bool)"; m_types := [TArray TAddress; TBool];
     m_run m ch vs := match vs with
       | [VArray workers; VBool isOk] =>
           workers ← array as_address workers;
           own as_Strategy CStrategy (fun m s => setWorkersOk m s workers isOk) m ch
       | _ => Err EmptyString end |}.

Definition m_setParams : Method :=
  {| m_sig := "setParams(uint256,uint256,uint256,uint256,address,address,address,address)";
     m_types := [TUint 256; TUint 256; TUint 256; TUint 256; TAddress; TAddress; TAddress; TAddress];
     m_run m ch vs := match vs with
       | [VUint minDebt; VUint reserve; VUint close; VUint kill;
          VAddress model; VAddress wnative; VAddress relayer; VAddress fl] =>
           own as_BasicVaultConfig CBasicVaultConfig
             (fun m c => setParams m c minDebt reserve close kill model wnative relayer fl) m ch
       | _ => Err EmptyString end |}.

Definition m_setWorkers : Method :=
  {| m_sig := "setWorkers(address[],address[])"; m_types := [TArray TAddress; TArray TAddress];
     m_run m ch vs := match vs with
       | [VArray addrs; VArray configs] =>
           addrs ← array as_address addrs; configs ← array as_address configs;
           own as_BasicVaultConfig CBasicVaultConfig (fun m c => setWorkers m c addrs configs) m ch
       | _ => Err EmptyString end |}.

Definition m_setConfigs : Method :=
  {| m_sig := "setConfigs(address[],(bool,uint64,uint64,uint64)[])";
     m_types := [TArray TAddress; TArray CONFIG];
     m_run m ch vs := match vs with
       | [VArray addrs; VArray configs] =>
           addrs ← array as_address addrs; configs ← array as_config configs;
           own as_WorkerConfig CWorkerConfig (fun m c => setConfigs m c addrs configs) m ch
       | _ => Err EmptyString end |}.

Definition m_setOracle : Method :=
  {| m_sig := "setOracle(address)"; m_types := [TAddress];
     m_run m ch vs := match vs with
       | [VAddress o] => own as_WorkerConfig CWorkerConfig (fun m c => setOracle m c o) m ch
       | _ => Err EmptyString end |}.

Definition m_setOkHolders : Method :=
  {| m_sig := "setOkHolders(address[],bool)"; m_types := [TArray TAddress; TBool];
     m_run m ch vs := match vs with
       | [VArray holders; VBool isOk] =>
           holders ← array as_address holders;
           own as_DebtToken CDebtToken (fun m d => setOkHolders m d holders isOk) m ch
       | _ => Err EmptyString end |}.

Definition m_setCallerOk : Method :=
  {| m_sig := "setCallerOk(address[],bool)"; m_types := [TArray TAddress; TBool];
     m_run m ch vs := match vs with
       | [VArray callers; VBool isOk] =>
           callers ← array as_address callers;
           own as_WNativeRelayer CWNativeRelayer (fun m r => setCallerOk m r callers isOk) m ch
       | _ => Err EmptyString end |}.

Definition m_setFeeder : Method :=
  {| m_sig := "setFeeder(address)"; m_types := [TAddress];
     m_run m ch vs := match vs with
       | [VAddress a] =>
           own as_SimplePriceOracle CSimplePriceOracle (fun m o => setFeeder m o a) m ch
       | _ => Err EmptyString end |}.

Definition m_setPrices : Method :=
  {| m_sig := "setPrices(address[],address[],uint256[])";
     m_types := [TArray TAddress; TArray TAddress; TArray (TUint 256)];
     m_run m ch vs := match vs with
       | [VArray token0s; VArray token1s; VArray prices] =>
           token0s ← array as_address token0s; token1s ← array as_address token1s;
           prices ← array as_uint prices;
           own as_SimplePriceOracle CSimplePriceOracle
             (fun m o => setPrices m o token0s token1s prices) m ch
       | _ => Err EmptyString end |}.

Definition m_setFairLaunchPoolId : Method :=
  {| m_sig := "setFairLaunchPoolId(uint256)"; m_types := [TUint 256];
     m_run m ch vs := match vs with
       | [VUint pid] => setFairLaunchPoolId m ch pid
       | _ => Err EmptyString end |}.

Definition m_updateDebtToken : Method :=
  {| m_sig := "updateDebtToken(address,uint256)"; m_types := [TAddress; TUint 256];
     m_run m ch vs := match vs with
       | [VAddress d; VUint pid] => updateDebtToken m ch d pid
       | _ => Err EmptyString end |}.

Definition m_updateConfig : Method :=
  {| m_sig := "updateConfig(address)"; m_types := [TAddress];
     m_run m ch vs := match vs with
       | [VAddress c] => own as_Vault CVault (fun m v => updateConfig m v c) m ch
       | _ => Err EmptyString end |}.

Definition m_addPool : Method :=
  {| m_sig := "addPool(string,uint256,address,bool)";
     m_types := [TString; TUint 256; TAddress; TBool];
     m_run m ch vs := match vs with
       | [VString symbol; VUint alloc; VAddress tok; VBool update] =>
           on_FairLaunch m ch (fun fc => addPool m fc symbol alloc tok update)
       | _ => Err EmptyString end |}.

Definition m_setPool : Method :=
  {| m_sig := "setPool(uint256,uint256,bool)"; m_types := [TUint 256; TUint 256; TBool];
     m_run m ch vs := match vs with
       | [VUint pid; VUint alloc; VBool _] =>
           on_FairLaunch m ch (fun fc => setPool m fc (Z.to_nat pid) alloc)
       | _ => Err EmptyString end |}.

Definition m_setBonus : Method :=
  {| m_sig := "setBonus(uint256,uint256,uint256)"; m_types := [TUint 256; TUint 256; TUint 256];
     m_run m ch vs := match vs with
       | [VUint multiplier; VUint endBlock; VUint lockUp] =>
           own as_FairLaunch CFairLaunch (fun m f => setBonus m f multiplier endBlock lockUp) m ch
       | _ => Err EmptyString end |}.

Definition m_setDev : Method :=
  {| m_sig := "setDev(address)"; m_types := [TAddress];
     m_run m ch vs := match vs with
       | [VAddress dev] => own as_FairLaunch CFairLaunch (fun m f => setDev m f dev) m ch
       | _ => Err EmptyString end |}.

Definition m_setHuskyPerBlock : Method :=
  {| m_sig := "setHuskyPerBlock(uint256)"; m_types := [TUint 256];
     m_run m ch vs := match vs with
       | [VUint perBlock] =>
           own as_FairLaunch CFairLaunch (fun m f => setHuskyPerBlock m f perBlock) m ch
       | _ => Err EmptyString end |}.

Definition m_setBadgeRelayer : Method :=
  {| m_sig := "setBadgeRelayer(address)"; m_types := [TAddress];
     m_run m ch vs := match vs with
       | [VAddress relayer] =>
           own as_FairLaunch CFairLaunch (fun m f => setBadgeRelayer m f relayer) m ch
       | _ => Err EmptyString end |}.

Definition m_setBadgePoints : Method :=
  {| m_sig := "setBadgePoints(address,address)"; m_types := [TAddress; TAddress];
     m_run m ch vs := match vs with
       | [VAddress points; VAddress oracle] =>
           own as_FairLaunch CFairLaunch (fun m f => setBadgePoints m f points oracle) m ch
       | _ => Err EmptyString end |}.

(** FairLaunch's [manualMint], which mints through the token's function of that name. *)
Definition m_fl_manualMint : Method :=
  {| m_sig := "manualMint(address,uint256)"; m_types := [TAddress; TUint 256];
     m_run m ch vs := match vs with
       | [VAddress to; VUint amount] =>
           on_FairLaunch m ch (fun fc => fl_manualMint m fc to amount)
       | _ => Err EmptyString end |}.

Definition m_massUpdatePools : Method :=
  {| m_sig := "massUpdatePools()"; m_types := [];
     m_run m ch vs := on_FairLaunch m ch (massUpdatePools m) |}.

Definition m_mint : Method :=
  {| m_sig := "mint(address,uint256)"; m_types := [TAddress; TUint 256];
     m_run m ch vs := match vs with
       | [VAddress to; VUint amount] =>
           own as_HuskyToken CHuskyToken (fun m h => mint m h to amount) m ch
       | _ => Err EmptyString end |}.

Definition m_manualMint : Method :=
  {| m_sig := "manualMint(address,uint256)"; m_types := [TAddress; TUint 256];
     m_run m ch vs := match vs with
       | [VAddress to; VUint amount] =>
           own as_HuskyToken CHuskyToken (fun m h => manualMint m h to amount) m ch
       | _ => Err EmptyString end |}.

Definition m_lock : Method :=
  {| m_sig := "lock(address,uint256)"; m_types := [TAddress; TUint 256];
     m_run m ch vs := match vs with
       | [VAddress a; VUint amount] =>
           own as_HuskyToken CHuskyToken (fun m h => lock m h a amount) m ch
       | _ => Err EmptyString end |}.

Definition m_upgrade : Method :=
  {| m_sig := "upgrade(address,address)"; m_types := [TAddress; TAddress];
     m_run m ch vs := match vs with
       | [VAddress p; VAddress impl] =>
           c ← of_option (code_at ch (self m)) EmptyString;
           owner ← of_option (owner_of c) EmptyString;
           onlyOwner owner m ;;
           if_proxy_admin m ch p (upgradeTo ch p impl)
       | _ => Err EmptyString end |}.

Definition m_changeProxyAdmin : Method :=
  {| m_sig := "changeProxyAdmin(address,address)"; m_types := [TAddress; TAddress];
     m_run m ch vs := match vs with
       | [VAddress p; VAddress newAdmin] =>
           c ← of_option (code_at ch (self m)) EmptyString;
           owner ← of_option (owner_of c) EmptyString;
           onlyOwner owner m ;;
           if_proxy_admin m ch p (changeAdmin ch p newAdmin)
       | _ => Err EmptyString end |}.

Definition m_setPublicOffering : Method :=
  {| m_sig := "setPublicOffering(address,bool)"; m_types := [TAddress; TBool];
     m_run m ch vs := match vs with
       | [VAddress offering; VBool set] =>
           own as_PublicOfferingConfig CPublicOfferingConfig
             (fun m c => setPublicOffering m c offering set) m ch
       | _ => Err EmptyString end |}.

Definition m_setPublicOfferingState : Method :=
  {| m_sig := "setPublicOfferingState(bool)"; m_types := [TBool];
     m_run m ch vs := match vs with
       | [VBool set] =>
           own as_PublicOffering CPublicOffering (fun m o => setPublicOfferingState m o set) m ch
       | _ => Err EmptyString end |}.

(** The functions of a proxy that its admin reaches. *)
Definition m_changeAdmin : Method :=
  {| m_sig := "changeAdmin(address)"; m_types := [TAddress];
     m_run m ch vs := match vs with
       | [VAddress newAdmin] => changeAdmin ch (self m) newAdmin
       | _ => Err EmptyString end |}.

Definition m_upgradeTo : Method :=
  {| m_sig := "upgradeTo(address)"; m_types := [TAddress];
     m_run m ch vs := match vs with
       | [VAddress impl] => upgradeTo ch (self m) impl
       | _ => Err EmptyString end |}.

Definition proxy_methods : list Method := [m_changeAdmin; m_upgradeTo].

(** *** The timelock *)

Definition m_setDelay : Method :=
  {| m_sig := "setDelay(uint256)"; m_types := [TUint 256];
     m_run m ch vs := match vs with
       | [VUint d] => own as_Timelock CTimelock (fun m s => setDelay m s d) m ch
       | _ => Err EmptyString end |}.

Definition m_acceptAdmin : Method :=
  {| m_sig := "acceptAdmin()"; m_types := [];
     m_run m ch vs := own as_Timelock CTimelock acceptAdmin m ch |}.

Definition m_setPendingAdmin : Method :=
  {| m_sig := "setPendingAdmin(address)"; m_types := [TAddress];
     m_run m ch vs := match vs with
       | [VAddress a] => own as_Timelock CTimelock (fun m s => setPendingAdmin m s a) m ch
       | _ => Err EmptyString end |}.

(** A function that takes the five fields of a transaction. *)
Definition with_tx (f : Msg -> Chain -> Tx -> result Chain) (m : Msg) (ch : Chain)
    (vs : list AbiValue) : result Chain :=
  match vs with
  | [VAddress target; VUint value; VString signature; VBytes data; VUint eta] =>
      f m ch {| target := target; value := value; signature := signature;
                data := data; eta := eta |}
  | _ => Err EmptyString
  end.

Definition m_queueTransaction : Method :=
  {| m_sig := "queueTransaction(address,uint256,string,bytes,uint256)"; m_types := txTypes;
     m_run := with_tx (fun m ch t =>
       own as_Timelock CTimelock (fun m s => queueTransaction m s t) m ch) |}.

Definition m_cancelTransaction : Method :=
  {| m_sig := "cancelTransaction(address,uint256,string,bytes,uint256)"; m_types := txTypes;
     m_run := with_tx (fun m ch t =>
       own as_Timelock CTimelock (fun m s => cancelTransaction m s t) m ch) |}.

(** An external call: block, caller, callee, value, calldata. *)
Definition Call := Block -> address -> address -> Z -> Buffer -> Chain -> result Chain.

(** The calldata of a function call. *)
Definition encode_call (sig : string) (types : list AbiType) (vs : list AbiValue) : Buffer :=
  selector sig ++ abi_encode types vs.

(** [require(success, _getRevertMsg(returnData))] *)
Definition bubble (r : result Chain) : result Chain :=
  match r with
  | Ok ch => Ok ch
  | Err msg => Err (getRevertMsg msg)
  end.

Definition executeTransaction (call : Call) (m : Msg) (ch : Chain) (t : Tx) : result Chain :=
  s ← get as_Timelock ch (self m);
  s ← execute_begin m s t;
  let ch := set_code ch (self m) (CTimelock s) in
  ch ← bubble (call (block m) (self m) (target t) (value t) (callData t) ch);
  s ← get as_Timelock ch (self m);
  Ok (set_code ch (self m) (CTimelock (execute_end m s t))).

Definition m_executeTransaction (call : Call) : Method :=
  {| m_sig := "executeTransaction(address,uint256,string,bytes,uint256)"; m_types := txTypes;
     m_run := with_tx (executeTransaction call) |}.

(** *** Shield *)

(** A function of another contract, called by the contract [self m]: the compiler checks that
    there is code, and a revert of the callee passes on. *)
Definition external (call : Call) (m : Msg) (ch : Chain) (to : address) (sig : string)
    (types : list AbiType) (vs : list AbiValue) : result Chain :=
  require (bool_decide (is_Some (accounts ch !! to))) EmptyString ;;
  call (block m) (self m) to 0%Z (encode_call sig types vs) ch.

(** The owner's call [sig(vs)], forwarded to FairLaunch. *)
Definition forward (call : Call) (m : Msg) (ch : Chain) (sig : string) (types : list AbiType)
    (vs : list AbiValue) : result Chain :=
  s ← get as_Shield ch (self m);
  onlyOwner (sh_owner s) m ;;
  external call m ch (fairLaunchV1 s) sig types vs.

Definition m_sh_setHuskyPerBlock (call : Call) : Method :=
  {| m_sig := "setHuskyPerBlock(uint256)"; m_types := [TUint 256];
     m_run m ch vs := forward call m ch "setHuskyPerBlock(uint256)" [TUint 256] vs |}.

Definition m_sh_setBonus (call : Call) : Method :=
  {| m_sig := "setBonus(uint256,uint256,uint256)"; m_types := [TUint 256; TUint 256; TUint 256];
     m_run m ch vs := forward call m ch "setBonus(uint256,uint256,uint256)"
       [TUint 256; TUint 256; TUint 256] vs |}.

Definition m_mintWarchest (call : Call) : Method :=
  {| m_sig := "mintWarchest(address,uint256)"; m_types := [TAddress; TUint 256];
     m_run m ch vs := match vs with
       | [VAddress to; VUint amount] =>
           s ← get as_Shield ch (self m);
           onlyOwner (sh_owner s) m ;;
           mint_allowed s amount ;;
           ch ← external call m ch (fairLaunchV1 s) "manualMint(address,uint256)"
                  [TAddress; TUint 256] vs;
           s ← get as_Shield ch (self m);
           n ← sm_add (mintCount s) amount;
           Ok (set_code ch (self m) (CShield (with_mintCount s n)))
       | _ => Err EmptyString end |}.

(** Shield.sol calls the three-argument [addPool] of its interface IFairLaunchV1; the event it
    emits then reads the number of pools. *)
Definition m_sh_addPool (call : Call) : Method :=
  {| m_sig := "addPool(uint256,address,bool)"; m_types := [TUint 256; TAddress; TBool];
     m_run m ch vs :=
       ch ← forward call m ch "addPool(uint256,address,bool)" [TUint 256; TAddress; TBool] vs;
       s ← get as_Shield ch (self m);
       f ← get as_FairLaunch ch (fairLaunchV1 s);
       sm_sub (poolLength f) 1 SUB_OVERFLOW ;;
       Ok ch |}.

Definition m_sh_setPool (call : Call) : Method :=
  {| m_sig := "setPool(uint256,uint256,bool)"; m_types := [TUint 256; TUint 256; TBool];
     m_run m ch vs := forward call m ch "setPool(uint256,uint256,bool)"
       [TUint 256; TUint 256; TBool] vs |}.

Definition shield_methods (call : Call) : list Method :=
  [m_sh_setHuskyPerBlock call; m_sh_setBonus call; m_mintWarchest call; m_sh_addPool call;
   m_sh_setPool call].

Definition methods (call : Call) (c : Code) : list Method :=
  match c with
  | CTimelock _ => [m_setDelay; m_acceptAdmin; m_setPendingAdmin; m_queueTransaction;
                    m_cancelTransaction; m_executeTransaction call]
  | CFairLaunch _ => m_addPool :: m_setPool :: m_setBonus :: m_massUpdatePools ::
                     m_fl_manualMint :: m_setDev :: m_setHuskyPerBlock :: m_setBadgeRelayer ::
                     m_setBadgePoints :: ownable
  | CHuskyToken _ => m_mint :: m_manualMint :: m_lock :: m_approve :: ownable
  | CBasicVaultConfig _ => m_setParams :: m_setWorkers :: ownable
  | CWorkerConfig _ => m_setConfigs :: m_setOracle :: ownable
  | CDebtToken _ => m_setOkHolders :: m_approve :: ownable
  | CVault _ => m_setFairLaunchPoolId :: m_updateDebtToken :: m_updateConfig :: m_approve :: ownable
  | CWNativeRelayer _ => m_setCallerOk :: ownable
  | CSimplePriceOracle _ => m_setFeeder :: m_setPrices :: ownable
  | CWorker _ => m_setStrategyOk :: m_setReinvestorOk :: m_setCriticalStrategies ::
                 m_setReinvestBountyBps :: m_setMaxReinvestBountyBps :: ownable
  | CStrategy _ => m_setWorkersOk :: ownable
  | CProxyAdmin _ => m_upgrade :: m_changeProxyAdmin :: ownable
  | CShield _ => shield_methods call ++ ownable
  | CPublicOfferingConfig _ => m_setPublicOffering :: ownable
  | CPublicOffering _ => m_setPublicOfferingState :: ownable
  | CMerkleDistributor _ _ => []
  | CLogic => []
  end.

(** Only [executeTransaction] accepts native currency; empty calldata reaches the
    [receive] function of the contracts that have one. *)
Definition payable (mt : Method) : bool :=
  bool_decide (m_sig mt = "executeTransaction(address,uint256,string,bytes,uint256)").

Definition has_receive (c : Code) : bool :=
  match c with
  | CTimelock _ | CVault _ | CWNativeRelayer _ | CPublicOffering _ => true
  | CStrategy s =>
      match st_kind s with
      | PancakeswapV2WithdrawMinimizeTrading _ _ | PancakeswapV2PartialCloseMinimizeTrading _ _ => true
      | _ => false
      end
  | _ => false
  end.

(** The functions of PublicOffering.sol that are not in its table. *)
Definition offering_functions : list string :=
  ["deposit(uint256,uint80,bytes4)"; "withdraw(uint256)"; "emergencyWithdraw()";
   "getPrice()"; "getRoundData(uint80)"; "getInvestors()"; "getCode(address)";
   "getInvitees(address)"; "investorBalanceOf(address)"; "numberOfInvitations(bytes4)"].

(** A call that no function of the table serves reverts, for want of a [fallback] or because
    the function is not modelled; PublicOffering.sol has a payable [fallback] that does
    nothing. *)
Definition fallback_of (c : Code) (data : Buffer) : result unit :=
  match c with
  | CPublicOffering _ =>
      require (forallb (fun sig => negb (bool_decide (selector sig = take 4 data))) offering_functions) EmptyString
  | _ => Err EmptyString
  end.

(** [fallback] decides a call that no function of the table serves. *)
Definition dispatch (tbl : list Method) (receive : bool) (fallback : result unit) (m : Msg) (value : Z)
    (data : Buffer) (ch : Chain) : result Chain :=
  if bool_decide (data = []) && receive then Ok ch else
  match list_find (fun mt => selector (m_sig mt) = take 4 data) tbl with
  | Some (_, mt) =>
      require ((value =? 0)%Z || payable mt) EmptyString ;;
      vs ← of_option (abi_decode (m_types mt) (drop 4 data)) EmptyString;
      m_run mt m ch vs
  | None => fallback ;; Ok ch
  end.

(** [transfer_native]: the value sent along with a call. *)
Definition transfer_native (ch : Chain) (from to : address) (value : Z) : result Chain :=
  if (value =? 0)%Z then Ok ch else
  let bal a := default 0%Z (native ch !! a) in
  require (0 <=? value)%Z EmptyString ;;
  require (value <=? bal from)%Z EmptyString ;;
  let n := <[ from := (bal from - value)%Z ]> (native ch) in
  Ok {| accounts := accounts ch; native := <[ to := (default 0 (n !! to) + value)%Z ]> n |}.

(** The external call.  [depth] is the remaining call depth (the EVM allows 1024); a
    call to an address without code succeeds; a proxy serves its admin itself and
    delegates every other call. *)
Fixpoint call (depth : nat) (b : Block) (from to : address) (value : Z) (data : Buffer)
    (ch : Chain) : result Chain :=
  match depth with
  | 0 => Err EmptyString
  | S depth =>
      ch ← transfer_native ch from to value;
      match accounts ch !! to with
      | None => Ok ch
      | Some acc =>
          let m := {| sender := from; self := to; block := b |} in
          if bool_decide (proxy_admin <$> proxy acc = Some from)
          then dispatch proxy_methods false (Err "Cannot call fallback function from the proxy admin")
                 m value data ch
          else dispatch (methods (call depth) (code acc)) (has_receive (code acc))
                 (fallback_of (code acc) data) m value data ch
      end
  end.

(** The outermost call has depth 1024. *)
Definition INNER_DEPTH : nat := 1023.
Definition CALL_DEPTH : nat := S INNER_DEPTH.
End Dispatch.
