(* ===== verification/ChainTheory.v ===== *)
(** * Calls on the chain

    Encoding a call and dispatching it cancel out, so a call behaves as the
    function it names; and every call moves each timelock of the chain by the
    transitions of Timelock.v, so the safety of the timelock (TimelockTheory.v)
    holds of the timelock among the other contracts. *)

From S2P Require Import Prelude Buffers MerkleTree BalanceTree Evm.
From S2P Require Import Timelock TimelockTheory HuskyToken FairLaunch Lending Workers Chain.

(** ** Selectors *)

(** Every function signature of the development. *)
Definition signatures : list string :=
  ["transferOwnership(address)"; "renounceOwnership()"; "approve(address,uint256)";
   "setStrategyOk(address[],bool)"; "setReinvestorOk(address[],bool)";
   "setCriticalStrategies(address,address)"; "setReinvestBountyBps(uint256)";
   "setMaxReinvestBountyBps(uint256)"; "setWorkersOk(address[],bool)";
   "setParams(uint256,uint256,uint256,uint256,address,address,address,address)";
   "setWorkers(address[],address[])"; "setConfigs(address[],(bool,uint64,uint64,uint64)[])";
   "setOracle(address)"; "setOkHolders(address[],bool)"; "setCallerOk(address[],bool)";
   "setFeeder(address)"; "setPrices(address[],address[],uint256[])";
   "setFairLaunchPoolId(uint256)"; "updateDebtToken(address,uint256)"; "updateConfig(address)";
   "addPool(string,uint256,address,bool)"; "setPool(uint256,uint256,bool)";
   "setBonus(uint256,uint256,uint256)"; "massUpdatePools()"; "mint(address,uint256)";
   "manualMint(address,uint256)"; "lock(address,uint256)"; "upgrade(address,address)";
   "changeProxyAdmin(address,address)"; "changeAdmin(address)"; "upgradeTo(address)";
   "setDev(address)"; "setHuskyPerBlock(uint256)"; "setBadgeRelayer(address)";
   "setBadgePoints(address,address)"; "mintWarchest(address,uint256)";
   "addPool(uint256,address,bool)"; "setPublicOffering(address,bool)";
   "setPublicOfferingState(bool)"; "setDelay(uint256)"; "acceptAdmin()"; "setPendingAdmin(address)";
   "queueTransaction(address,uint256,string,bytes,uint256)";
   "cancelTransaction(address,uint256,string,bytes,uint256)";
   "executeTransaction(address,uint256,string,bytes,uint256)";
   (* signatures the setup scripts queue that no modelled contract has *)
   "setParams(uint256,uint256,uint256,address,address,address,address)";
   "resetApproval(address,address)";
   "migrateLP(address,uint256,address,address,address,address[],address[])"].

(** The selectors of these signatures differ, as the compiler checks per contract. *)
Class Selectors `{Ethers} : Prop :=
  selectors_distinct : NoDup (selector <$> signatures).

Section Calls.
Context `{AbiCoder} `{!OpenZeppelin} `{!Selectors}.

Lemma selector_inj s s' :
  s ∈ signatures -> s' ∈ signatures -> selector s = selector s' -> s = s'.
Proof.
  intros [i Hi]%list_elem_of_lookup [j Hj]%list_elem_of_lookup E.
  pose proof selectors_distinct as Hnd.
  assert (i = j) as ->; [|congruence].
  eapply NoDup_lookup; [exact Hnd| |].
  - rewrite list_lookup_fmap, Hi. done.
  - rewrite list_lookup_fmap, Hj. cbn. by rewrite E.
Qed.

(** A function table as a compiler emits it: known and distinct signatures. *)
Definition table_ok (tbl : list Method) : bool :=
  bool_decide (NoDup (m_sig <$> tbl)) && forallb (fun mt => bool_decide (m_sig mt ∈ signatures)) tbl.

Lemma table_sig tbl mt : table_ok tbl = true -> mt ∈ tbl -> m_sig mt ∈ signatures.
Proof.
  intros [_ Ht]%andb_true_iff Hin%list_elem_of_In. rewrite forallb_forall in Ht.
  by apply Ht, bool_decide_eq_true in Hin.
Qed.

Lemma table_find tbl mt :
  table_ok tbl = true -> mt ∈ tbl ->
  exists i, list_find (fun mt' => selector (m_sig mt') = selector (m_sig mt)) tbl = Some (i, mt).
Proof.
  intros Ht Hin. destruct (list_elem_of_lookup_1 _ _ Hin) as [i Hi]. exists i.
  apply list_find_Some. split_and!; [done|done|].
  intros j mt' Hj Hlt Hsel. assert (j = i) as ->; [|lia].
  apply selector_inj in Hsel; [|eapply table_sig; [done|by eapply list_elem_of_lookup_2]..].
  apply andb_true_iff in Ht as [Hnd%bool_decide_eq_true _].
  eapply NoDup_lookup; [exact Hnd|by rewrite list_lookup_fmap, Hj|].
  rewrite list_lookup_fmap, Hi. cbn. by rewrite Hsel.
Qed.

Lemma methods_table_ok cl c : table_ok (methods cl c) = true.
Proof. destruct c; vm_compute; reflexivity. Qed.

Lemma proxy_table_ok : table_ok proxy_methods = true.
Proof. vm_compute; reflexivity. Qed.

Lemma take_selector sig bs : take 4 (selector sig ++ bs) = selector sig.
Proof. by rewrite take_app_length' by (symmetry; apply selector_length). Qed.

Lemma drop_selector sig bs : drop 4 (selector sig ++ bs) = bs.
Proof. by rewrite drop_app_length' by (symmetry; apply selector_length). Qed.

Lemma encode_call_nonempty sig types vs : encode_call sig types vs <> [].
Proof.
  unfold encode_call. intros E%(f_equal length). rewrite length_app, selector_length in E. done.
Qed.

Lemma dispatch_method tbl rcv fb m mt vs ch :
  table_ok tbl = true -> mt ∈ tbl -> have_types vs (m_types mt) ->
  dispatch tbl rcv fb m 0 (encode_call (m_sig mt) (m_types mt) vs) ch = m_run mt m ch vs.
Proof.
  intros Ht Hin Hvs. unfold dispatch.
  rewrite bool_decide_eq_false_2 by apply encode_call_nonempty. cbn [andb].
  unfold encode_call. rewrite take_selector, drop_selector.
  destruct (table_find tbl mt Ht Hin) as [i ->]. cbn.
  by rewrite abi_decode_encode.
Qed.

Lemma dispatch_unknown tbl rcv fb m v sig bs ch :
  table_ok tbl = true -> sig ∈ signatures -> sig ∉ m_sig <$> tbl ->
  dispatch tbl rcv fb m v (selector sig ++ bs) ch = (fb ;; Ok ch).
Proof.
  intros Ht Hsig Hni. unfold dispatch.
  rewrite bool_decide_eq_false_2
    by (intros E%(f_equal length); rewrite length_app, selector_length in E; done).
  cbn [andb]. rewrite take_selector.
  destruct (list_find _ tbl) as [[i mt]|] eqn:E; [|done].
  apply list_find_Some in E as (Hi & Hsel & _). exfalso. apply Hni.
  apply list_elem_of_lookup_2 in Hi.
  apply selector_inj in Hsel; [|by eapply table_sig|done]. subst sig.
  by apply list_elem_of_fmap_2.
Qed.

(** Calling a function of a contract, through its proxy if it has one. *)
Lemma call_method depth b from to acc mt vs ch :
  accounts ch !! to = Some acc -> proxy_admin <$> proxy acc <> Some from ->
  mt ∈ methods (call depth) (code acc) -> have_types vs (m_types mt) ->
  call (S depth) b from to 0 (encode_call (m_sig mt) (m_types mt) vs) ch
  = m_run mt {| sender := from; self := to; block := b |} ch vs.
Proof.
  intros Hacc Hadm Hin Hvs. cbn. rewrite Hacc. rewrite bool_decide_eq_false_2 by done.
  apply dispatch_method; [apply methods_table_ok|done|done].
Qed.

(** Its administrator reaches the functions of the proxy itself. *)
Lemma call_proxy_method depth b from to acc mt vs ch :
  accounts ch !! to = Some acc -> proxy_admin <$> proxy acc = Some from ->
  mt ∈ proxy_methods -> have_types vs (m_types mt) ->
  call (S depth) b from to 0 (encode_call (m_sig mt) (m_types mt) vs) ch
  = m_run mt {| sender := from; self := to; block := b |} ch vs.
Proof.
  intros Hacc Hadm Hin Hvs. cbn. rewrite Hacc. rewrite bool_decide_eq_true_2 by done.
  apply dispatch_method; [apply proxy_table_ok|done|done].
Qed.

(** A function that the contract does not have reverts, unless a [fallback] takes it. *)
Lemma call_unknown depth b from to acc sig bs v ch :
  accounts ch !! to = Some acc -> as_PublicOffering (code acc) = None ->
  sig ∈ signatures -> sig ∉ m_sig <$> methods (call depth) (code acc) ->
  sig ∉ m_sig <$> proxy_methods ->
  is_ok (call (S depth) b from to v (selector sig ++ bs) ch) = false.
Proof.
  intros Hacc Hno Hsig Hni Hnp. cbn.
  assert (forall data, is_ok (fallback_of (code acc) data) = false) as Hfb by (intros data; by destruct (code acc)).
  destruct (transfer_native _ _ _ _) as [ch1|] eqn:Ht; cbn; [|done].
  assert (accounts ch1 = accounts ch) as ->.
  { unfold transfer_native in Ht. destruct (v =? 0)%Z; [by injection Ht as ->|]. inv_result. by subst. }
  rewrite Hacc. case_bool_decide.
  - rewrite dispatch_unknown; (done || apply proxy_table_ok).
  - rewrite dispatch_unknown; [|apply methods_table_ok|done..].
    specialize (Hfb (selector sig ++ bs)). by destruct (fallback_of _ _).
Qed.
End Calls.

(** ** Every call moves the timelocks by their transitions *)

(** The arguments of a function that has run are of the shape it expects. *)
Ltac args := repeat match goal with
  | H : match ?vs with _ => _ end = Ok _ |- _ => destruct vs; try discriminate H
  end.

Section Frame.
Context `{AbiCoder} `{!OpenZeppelin}.

Definition at_time (b : Block) (s : Timelock) (f : option Tx) : TlState :=
  {| now := timestamp b; contract := s; inflight := f |}.

(** Between [ch] and [ch'], timelocks stay timelocks and move by [tl_step] within the
    block, whatever external call is running; nothing else becomes a timelock. *)
Definition frame (b : Block) (ch ch' : Chain) : Prop := forall a,
  match code_at ch a with
  | Some (CTimelock s) => forall f, consistent s f -> exists s',
      code_at ch' a = Some (CTimelock s') /\ rtc tl_step (at_time b s f) (at_time b s' f)
  | _ => code_at ch' a ≫= as_Timelock = None
  end.

Lemma frame_refl b ch : frame b ch ch.
Proof.
  intros a. destruct (code_at ch a) as [[]|] eqn:E; try done.
  intros f _. eexists. split; [done|apply rtc_refl].
Qed.

Lemma frame_trans b ch1 ch2 ch3 : frame b ch1 ch2 -> frame b ch2 ch3 -> frame b ch1 ch3.
Proof.
  intros H12 H23 a. specialize (H12 a). specialize (H23 a).
  destruct (code_at ch1 a) as [[s| | | | | | | | | | | | | | | |]|] eqn:E; try
    (destruct (code_at ch2 a) as [[]|]; done).
  intros f Hc. destruct (H12 f Hc) as (s2 & E2 & Hs2). rewrite E2 in H23.
  destruct (H23 f) as (s3 & E3 & Hs3).
  { by apply (tl_steps_consistent _ _ Hs2). }
  exists s3. split; [done|]. by etrans.
Qed.

Definition no_timelock (c : Code) : Prop := as_Timelock c = None.

Lemma code_at_set_account ch x acc a :
  code_at (set_account ch x acc) a = if decide (a = x) then Some (code acc) else code_at ch a.
Proof.
  unfold code_at, set_account. cbn. case_decide as Ha.
  - subst. by rewrite lookup_insert_eq.
  - by rewrite lookup_insert_ne.
Qed.

Lemma code_at_set_code ch x c a :
  code_at (set_code ch x c) a = if decide (a = x) then Some c else code_at ch a.
Proof. apply code_at_set_account. Qed.

(** A write to a contract that is not a timelock. *)
Lemma frame_set_code b ch x c c' :
  code_at ch x = Some c -> no_timelock c -> no_timelock c' -> frame b ch (set_code ch x c').
Proof.
  intros Hx Hc Hc' a. rewrite code_at_set_code. case_decide as Ha.
  - subst. rewrite Hx. unfold no_timelock in *. destruct c; done.
  - apply (frame_refl b ch a).
Qed.

Lemma frame_set_account b ch x acc acc' :
  accounts ch !! x = Some acc -> code acc' = code acc -> frame b ch (set_account ch x acc').
Proof.
  intros Hx Hc a. rewrite code_at_set_account. case_decide as Ha.
  - subst. pose proof (frame_refl b ch x) as Hr. revert Hr. unfold code_at. rewrite Hx. cbn.
    by rewrite Hc.
  - apply (frame_refl b ch a).
Qed.

Lemma get_Ok {A} (prj : Code -> option A) ch a x :
  get prj ch a = Ok x -> exists c, code_at ch a = Some c /\ prj c = Some x.
Proof.
  unfold get. intros Hg%of_option_Ok. by apply bind_Some in Hg.
Qed.

Lemma frame_own {A} (prj : Code -> option A) inj f m ch ch' :
  (forall c x, prj c = Some x -> no_timelock c) -> (forall x, no_timelock (inj x)) ->
  own prj inj f m ch = Ok ch' -> frame (block m) ch ch'.
Proof.
  intros Hp Hi Hr. unfold own in Hr. inv_result. subst.
  match goal with E : get _ _ _ = _ |- _ => apply get_Ok in E as (c & Hc & Hx) end.
  eapply frame_set_code; eauto.
Qed.

(** The timelock's own functions, other than [executeTransaction]. *)
Lemma frame_own_timelock f m ch ch' :
  (forall s s' g, f m s = Ok s' -> tl_step (at_time (block m) s g) (at_time (block m) s' g)) ->
  own as_Timelock CTimelock f m ch = Ok ch' -> frame (block m) ch ch'.
Proof.
  intros Hf Hr a. unfold own in Hr. inv_result. subst.
  match goal with E : get _ _ _ = _ |- _ => apply get_Ok in E as (c & Hc & Hx) end.
  destruct c; try done. injection Hx as ->.
  rewrite code_at_set_code. case_decide as Ha; [|apply (frame_refl (block m) ch a)].
  subst. rewrite Hc. intros g _. eexists. split; [done|]. apply rtc_once. by apply Hf.
Qed.

Lemma frame_safeApprove b ch m tok to amount ch' :
  safeApprove ch m tok to amount = Ok ch' -> frame b ch ch'.
Proof.
  unfold safeApprove. destruct (code_at ch tok) as [c|] eqn:E; [|intros [= <-]; apply frame_refl].
  destruct (erc20_of c) as [[t put]|] eqn:Et; [|done].
  destruct (erc20_approve _ _ _ _) as [t'|]; [|done]. intros [= <-].
  eapply frame_set_code; [done|by destruct c|]. destruct c; try done; by simplify_eq/=.
Qed.

Lemma frame_chain_husky f m ch a v ch' b :
  chain_husky f m ch a v = Ok ch' -> frame b ch ch'.
Proof.
  unfold chain_husky. intros Hr. inv_result. subst.
  match goal with E : get _ _ _ = _ |- _ => apply get_Ok in E as (c & Hc & Hx) end.
  eapply frame_set_code; [done|by destruct c|done].
Qed.

(** A value read with [get] from a chain that has moved by [frame]. *)
Lemma frame_no_timelock b ch ch' a c :
  frame b ch ch' -> code_at ch a = Some c -> no_timelock c ->
  code_at ch' a ≫= as_Timelock = None.
Proof. intros Hf Hc Hn. specialize (Hf a). rewrite Hc in Hf. by destruct c. Qed.

(** A write to an address that holds no timelock. *)
Lemma frame_set_code' b ch x c' :
  code_at ch x ≫= as_Timelock = None -> no_timelock c' -> frame b ch (set_code ch x c').
Proof.
  intros Hx Hc' a. rewrite code_at_set_code. case_decide as Ha; [|apply (frame_refl b ch a)].
  subst. destruct (code_at ch x) as [[]|]; done.
Qed.

Lemma frame_on_FairLaunch m ch f ch' :
  (forall s c s' c', f (s, c) = Ok (s', c') -> frame (block m) c c') ->
  on_FairLaunch m ch f = Ok ch' -> frame (block m) ch ch'.
Proof.
  intros Hf Hr. unfold on_FairLaunch in Hr.
  apply bind_Ok in Hr as (s & Hs & Hr). apply bind_Ok in Hr as ([s' c'] & Hc & Hr).
  injection Hr as <-. apply Hf in Hc. eapply frame_trans; [done|].
  apply get_Ok in Hs as (c & Hc' & Hx). apply frame_set_code'; [|done].
  eapply frame_no_timelock; [done..|]. by destruct c.
Qed.

Lemma frame_calls b : R_calls (frame b) b.
Proof. split_and!; intros m w a v w' _; apply frame_chain_husky. Qed.

Lemma frame_setFairLaunchPoolId m ch pid ch' :
  setFairLaunchPoolId m ch pid = Ok ch' -> frame (block m) ch ch'.
Proof.
  unfold setFairLaunchPoolId. intros Hr. apply bind_Ok in Hr as (v & Hv & Hr).
  apply bind_Ok in Hr as (_ & _ & Hr). apply bind_Ok in Hr as (fl & _ & Hr).
  apply bind_Ok in Hr as (ch1 & Hs1 & Hr). apply bind_Ok in Hr as (v1 & Hv1 & Hr). injection Hr as <-.
  eapply frame_trans; [by eapply frame_safeApprove|].
  apply get_Ok in Hv1 as (c & Hc & Hx). eapply frame_set_code; [done|by destruct c|done].
Qed.

Lemma frame_updateDebtToken m ch d pid ch' :
  updateDebtToken m ch d pid = Ok ch' -> frame (block m) ch ch'.
Proof.
  unfold updateDebtToken. intros Hr. do 4 (apply bind_Ok in Hr as (? & _ & Hr)).
  apply bind_Ok in Hr as (dt & Hdt & Hr). apply bind_Ok in Hr as (dt' & _ & Hr).
  apply bind_Ok in Hr as (v & Hv & Hr).
  apply get_Ok in Hdt as (c & Hc & Hx). apply get_Ok in Hv as (c' & Hc' & Hx').
  eapply frame_trans; [|by eapply frame_safeApprove].
  apply (frame_trans _ _ (set_code ch d (CDebtToken dt'))).
  - eapply frame_set_code; [done|by destruct c|done].
  - eapply frame_set_code; [done|by destruct c'|done].
Qed.

Lemma frame_proxy b ch p ch' a :
  changeAdmin ch p a = Ok ch' \/ upgradeTo ch p a = Ok ch' -> frame b ch ch'.
Proof.
  intros [Hr|Hr]; [unfold changeAdmin in Hr|unfold upgradeTo in Hr];
    apply bind_Ok in Hr as (c & Hc%of_option_Ok & Hr); inv_result; subst;
    by eapply frame_set_account.
Qed.

(** A table all of whose functions move the timelocks by their transitions. *)
Definition frame_method (mt : Method) : Prop := forall m ch vs ch',
  have_types vs (m_types mt) -> m_run mt m ch vs = Ok ch' -> frame (block m) ch ch'.

Lemma frame_owner_write m ch c o :
  code_at ch (self m) = Some c -> is_Some (owner_of c) ->
  frame (block m) ch (set_code ch (self m) (set_owner c o)).
Proof. intros Hc Ho. eapply frame_set_code; [done|..]; destruct c; by destruct Ho. Qed.

Lemma frame_ownable mt : mt ∈ ownable -> frame_method mt.
Proof.
  intros [->|[->|[]%elem_of_nil]%elem_of_cons]%elem_of_cons m ch vs ch' _ Hr; cbn in Hr; args;
    inv_result; subst; by eapply frame_owner_write.
Qed.

Lemma frame_proxy_methods mt : mt ∈ proxy_methods -> frame_method mt.
Proof.
  intros [->|[->|[]%elem_of_nil]%elem_of_cons]%elem_of_cons m ch vs ch' _ Hr; cbn in Hr; args;
    eapply frame_proxy; eauto.
Qed.

(** The functions of one contract's own state. *)
Ltac own_method :=
  intros m ch vs ch' _ Hr; cbn in Hr; args; inv_result;
  eapply frame_own; [| |eassumption]; [by intros []|done].

Ltac fl_method :=
  intros m ch vs ch' _ Hr; cbn in Hr; args;
  eapply frame_on_FairLaunch; [|exact Hr]; cbv beta; intros ? ? ? ? Hf.

Lemma frame_FairLaunch_methods mt :
  mt ∈ [m_addPool; m_setPool; m_massUpdatePools; m_fl_manualMint] -> frame_method mt.
Proof.
  intros Hin. repeat (apply elem_of_cons in Hin as [->|Hin]); [| | | |by apply elem_of_nil in Hin].
  - fl_method. eapply (addPool_preserves (frame (block m)));
      [apply frame_refl|apply frame_trans|apply frame_calls|exact Hf].
  - fl_method. eapply (setPool_preserves (frame (block m)));
      [apply frame_refl|apply frame_trans|apply frame_calls|exact Hf].
  - fl_method. eapply (massUpdatePools_preserves (frame (block m)));
      [apply frame_refl|apply frame_trans|apply frame_calls|exact Hf].
  - fl_method. eapply (fl_manualMint_preserves (frame (block m))); [apply frame_calls|exact Hf].
Qed.

Lemma frame_own_methods mt :
  mt ∈ [m_mint; m_manualMint; m_lock; m_setParams; m_setWorkers; m_setConfigs; m_setOracle;
        m_setOkHolders; m_updateConfig; m_setCallerOk; m_setFeeder; m_setPrices;
        m_setStrategyOk; m_setReinvestorOk; m_setCriticalStrategies; m_setReinvestBountyBps;
        m_setMaxReinvestBountyBps; m_setWorkersOk; m_setBonus; m_setDev; m_setHuskyPerBlock;
        m_setBadgeRelayer; m_setBadgePoints; m_setPublicOffering; m_setPublicOfferingState] ->
  frame_method mt.
Proof.
  intros Hin. repeat (apply elem_of_cons in Hin as [->|Hin]; [own_method|]).
  by apply elem_of_nil in Hin.
Qed.

Lemma frame_other_methods mt :
  mt ∈ [m_approve; m_setFairLaunchPoolId; m_updateDebtToken; m_upgrade; m_changeProxyAdmin] ->
  frame_method mt.
Proof.
  intros Hin. repeat (apply elem_of_cons in Hin as [->|Hin]); [| | | | |by apply elem_of_nil in Hin];
    intros m ch vs ch' _ Hr; cbn in Hr; args.
  - inv_result. subst. destruct x as [t put].
    match goal with E : get _ _ _ = _ |- _ => apply get_Ok in E as (c & Hc & Hx) end.
    eapply frame_set_code; [done|by destruct c|]. destruct c; by simplify_eq/=.
  - by eapply frame_setFairLaunchPoolId.
  - by eapply frame_updateDebtToken.
  - unfold if_proxy_admin in Hr. inv_result. eapply frame_proxy; eauto.
  - unfold if_proxy_admin in Hr. inv_result. eapply frame_proxy; eauto.
Qed.

Definition frame_call (cl : Call) : Prop := forall b from to v d ch ch',
  cl b from to v d ch = Ok ch' -> frame b ch ch'.

Lemma with_tx_inv f m ch vs ch' :
  have_types vs txTypes -> with_tx f m ch vs = Ok ch' -> exists t, tx_ok t /\ f m ch t = Ok ch'.
Proof.
  intros Hvs Hr. unfold with_tx in Hr. args. eexists. split; [|exact Hr]. done.
Qed.

Lemma frame_executeTransaction cl m ch t ch' :
  frame_call cl -> tx_ok t -> executeTransaction cl m ch t = Ok ch' -> frame (block m) ch ch'.
Proof.
  intros Hcl Hok Hr. unfold executeTransaction in Hr.
  apply bind_Ok in Hr as (s & Hs & Hr). apply bind_Ok in Hr as (s1 & Hb & Hr).
  apply bind_Ok in Hr as (ch1 & Hc & Hr). apply bind_Ok in Hr as (s2 & Hs2 & Hr). injection Hr as <-.
  unfold bubble in Hc. destruct (cl _ _ _ _ _ _) as [ch2|] eqn:Ecl; [|done]. injection Hc as ->.
  apply Hcl in Ecl. apply get_Ok in Hs as (c & Hc & Hx), Hs2 as (c2 & Hc2 & Hx2).
  destruct c; try done. destruct c2; try done. simplify_eq/=.
  intros a. rewrite code_at_set_code. specialize (Ecl a). rewrite code_at_set_code in Ecl.
  case_decide as Ha; [|exact Ecl]. subst a. rewrite Hc. intros f Hcons.
  assert (f = None) as ->.
  { apply execute_begin_inv in Hb as (_ & _ & _ & g & Hg & _); [|done].
    destruct Hcons as [E _]. rewrite Hg in E. symmetry in E. by apply bool_decide_eq_true in E. }
  pose proof (step_begin m s t s1 None Hok Hb) as Hstep.
  destruct (Ecl (Some t)) as (s3 & E3 & Hsteps).
  { by apply (tl_step_consistent _ _ Hstep). }
  rewrite Hc2 in E3. injection E3 as <-.
  eexists. split; [done|]. eapply rtc_l; [exact Hstep|].
  eapply rtc_r; [exact Hsteps|]. apply step_end.
Qed.

Lemma frame_timelock_methods cl mt :
  frame_call cl ->
  mt ∈ [m_setDelay; m_acceptAdmin; m_setPendingAdmin; m_queueTransaction;
        m_cancelTransaction; m_executeTransaction cl] -> frame_method mt.
Proof.
  intros Hcl Hin.
  repeat (apply elem_of_cons in Hin as [->|Hin]); [| | | | | |by apply elem_of_nil in Hin];
    intros m ch vs ch' Hvs Hr; cbn in Hr.
  4-6: apply with_tx_inv in Hr as (t & Hok & Hr); [|done].
  1-3: args.
  - eapply frame_own_timelock; [|exact Hr]. intros ? ? ? Hf. eapply step_setDelay. exact Hf.
  - eapply frame_own_timelock; [|exact Hr]. intros ? ? ? Hf. eapply step_acceptAdmin. exact Hf.
  - eapply frame_own_timelock; [|exact Hr]. intros ? ? ? Hf. eapply step_setPendingAdmin. exact Hf.
  - eapply frame_own_timelock; [|exact Hr]. intros ? ? ? Hf. eapply step_queue; [exact Hok|exact Hf].
  - eapply frame_own_timelock; [|exact Hr]. intros ? ? ? Hf. eapply step_cancel; [exact Hok|exact Hf].
  - by eapply frame_executeTransaction.
Qed.

(** A write to the Shield at [self m], after a call. *)
Lemma frame_shield_write m ch s s' :
  get as_Shield ch (self m) = Ok s -> frame (block m) ch (set_code ch (self m) (CShield s')).
Proof. intros (c & Hc & Hx)%get_Ok. eapply frame_set_code; [done|by destruct c|done]. Qed.

Lemma frame_forward cl m ch sig types vs ch' :
  frame_call cl -> forward cl m ch sig types vs = Ok ch' -> frame (block m) ch ch'.
Proof. intros Hcl Hr. unfold forward, external in Hr. inv_result. by eapply Hcl. Qed.

Lemma frame_shield_methods cl mt : frame_call cl -> mt ∈ shield_methods cl -> frame_method mt.
Proof.
  intros Hcl Hin.
  repeat (apply elem_of_cons in Hin as [->|Hin]); [| | | | |by apply elem_of_nil in Hin];
    intros m ch vs ch' _ Hr; cbn in Hr; try (by eapply frame_forward).
  - args. unfold external in Hr. inv_result. subst. eapply frame_trans; [by eapply Hcl|].
    by eapply frame_shield_write.
  - inv_result. subst. by eapply frame_forward.
Qed.

Lemma frame_methods cl c mt : frame_call cl -> mt ∈ methods cl c -> frame_method mt.
Proof.
  intros Hcl Hin. destruct c; cbn [methods] in Hin.
  1: by eapply frame_timelock_methods.
  all: try (apply elem_of_app in Hin as [Hin|Hin]; [by eapply frame_shield_methods|]).
  all: repeat (apply elem_of_cons in Hin as [->|Hin];
    [first [apply frame_own_methods; in_list|apply frame_other_methods; in_list
           |apply frame_FairLaunch_methods; in_list|apply frame_ownable; in_list]|]).
  all: first [by apply frame_ownable|by apply elem_of_nil in Hin].
Qed.

(** What a dispatch that succeeds has run. *)
Lemma dispatch_inv tbl rcv fb m v d ch ch' :
  dispatch tbl rcv fb m v d ch = Ok ch' ->
  ch' = ch \/ exists mt vs, mt ∈ tbl /\ have_types vs (m_types mt) /\ m_run mt m ch vs = Ok ch'.
Proof.
  unfold dispatch. destruct (_ && _); [intros [= <-]; by left|].
  destruct (list_find _ _) as [[i mt]|] eqn:E.
  2: { intros Hr. left. by destruct fb; [injection Hr as <-|]. }
  intros Hr. right. apply list_find_Some in E as (Hi%list_elem_of_lookup_2 & _ & _).
  apply bind_Ok in Hr as (_ & _ & Hr). apply bind_Ok in Hr as (vs & Hvs%of_option_Ok & Hr).
  exists mt, vs. split; [done|split; [|done]]. by eapply abi_decode_typed.
Qed.

Lemma frame_dispatch tbl rcv fb m v d ch ch' :
  (forall mt, mt ∈ tbl -> frame_method mt) ->
  dispatch tbl rcv fb m v d ch = Ok ch' -> frame (block m) ch ch'.
Proof.
  intros Ht [->|(mt & vs & Hin & Hvs & Hr)]%dispatch_inv; [apply frame_refl|].
  by eapply Ht.
Qed.

Lemma frame_transfer b ch from to v ch' : transfer_native ch from to v = Ok ch' -> frame b ch ch'.
Proof.
  unfold transfer_native. destruct (v =? 0)%Z; [intros [= <-]; apply frame_refl|].
  intros Hr. inv_result. subst. apply (frame_refl b ch).
Qed.

(** Every external call moves every timelock by its own transitions. *)
Lemma call_frame depth : frame_call (call depth).
Proof.
  induction depth as [|depth IH]; [by intros|].
  intros b from to v d ch ch' Hr. cbn in Hr. apply bind_Ok in Hr as (ch1 & Ht & Hr).
  eapply frame_trans; [by eapply frame_transfer|].
  destruct (accounts ch1 !! to) as [acc|]; [|injection Hr as <-; apply frame_refl].
  set (m := {| sender := from; self := to; block := b |}) in *.
  change b with (block m). case_bool_decide.
  - eapply frame_dispatch; [|exact Hr]. apply frame_proxy_methods.
  - eapply frame_dispatch; [|exact Hr]. intros mt. by apply frame_methods.
Qed.

(** ** Sequences of transactions *)

(** A transaction in a block: from, to, value, calldata. *)
Definition Transaction : Type := Block * address * address * Z * Buffer.

(** A transaction that reverts leaves the chain as it is. *)
Definition transact (ch : Chain) (t : Transaction) : Chain :=
  let '(b, from, to, v, d) := t in
  match call CALL_DEPTH b from to v d ch with
  | Ok ch => ch
  | Err _ => ch
  end.

Definition block_of (t : Transaction) : Block := t.1.1.1.1.

(** Blocks follow each other: their timestamps do not decrease. *)
Fixpoint chronological (t0 : Z) (ts : list Transaction) : Prop :=
  match ts with
  | [] => True
  | t :: ts => (t0 <= timestamp (block_of t))%Z /\ uint256 (timestamp (block_of t)) /\
               chronological (timestamp (block_of t)) ts
  end.

Definition end_time (t0 : Z) (ts : list Transaction) : Z :=
  default t0 (timestamp ∘ block_of <$> last ts).

Lemma transact_frame ch t : frame (block_of t) ch (transact ch t).
Proof.
  destruct t as [[[[b from] to] v] d]. unfold transact, block_of. cbn [fst].
  destruct (call _ _ _ _ _ _ _) eqn:E; [by eapply call_frame|apply frame_refl].
Qed.

Lemma end_time_cons t0 t ts : end_time t0 (t :: ts) = end_time (timestamp (block_of t)) ts.
Proof. unfold end_time. rewrite last_cons. by destruct (last ts). Qed.

Lemma transact_steps ts ch a s t0 :
  code_at ch a = Some (CTimelock s) -> consistent s None -> chronological t0 ts ->
  exists s', code_at (foldl transact ch ts) a = Some (CTimelock s') /\
    rtc tl_step {| now := t0; contract := s; inflight := None |}
                {| now := end_time t0 ts; contract := s'; inflight := None |}.
Proof.
  revert ch s t0. induction ts as [|t ts IH]; intros ch s t0 Hs Hcons Hc; [by exists s|].
  destruct Hc as (Hle & Hu & Hc). rewrite end_time_cons. cbn [foldl].
  pose proof (transact_frame ch t a) as Hf. rewrite Hs in Hf.
  destruct (Hf None Hcons) as (s1 & Hs1 & Hsteps).
  destruct (IH (transact ch t) s1 (timestamp (block_of t)) Hs1) as (s2 & Hs2 & Hsteps2);
    [by apply (tl_steps_consistent _ _ Hsteps)|done|].
  exists s2. split; [done|]. eapply rtc_l; [by apply step_block|].
  etrans; [exact Hsteps|exact Hsteps2].
Qed.

(** C12: the chain refines the timelock.  Take any history of transactions, by anyone, to
    any of the modelled contracts, calls nested through the timelock included.  What it does
    to a timelock on the chain, no call of which was running, is a sequence of transitions of
    the abstract machine: from the state that the timelock had, at the time before the
    history, to the state it has after it, at the time of the last block, again with no call
    running.  In particular reachable states lead to reachable states, so everything proved
    of these (the delay, no replay) holds of it. *)
Theorem chain_refines_timelock ts ch a s t0 :
  code_at ch a = Some (CTimelock s) -> consistent s None -> chronological t0 ts -> exists s',
    code_at (foldl transact ch ts) a = Some (CTimelock s') /\ consistent s' None /\
    rtc tl_step {| now := t0; contract := s; inflight := None |}
                {| now := end_time t0 ts; contract := s'; inflight := None |} /\
    (tl_reachable {| now := t0; contract := s; inflight := None |} ->
     tl_reachable {| now := end_time t0 ts; contract := s'; inflight := None |}).
Proof.
  intros Hs Hcons Hc. destruct (transact_steps ts ch a s t0 Hs Hcons Hc) as (s' & Hs' & Hsteps).
  exists s'. split; [done|]. split; [by apply (tl_steps_consistent _ _ Hsteps)|].
  split; [done|]. intros Hr. by eapply tl_reachable_steps.
Qed.
End Frame.
