(* ===== verification/Watch.v ===== *)
(** * Watching two contracts

    A predicate on the chain that only looks at two addresses, neither of them a token, and
    which administrator of proxies has a say over them: no function of another contract
    changes it, whoever calls, but the two that make an external call -- the timelock's
    [executeTransaction] and those of Shield. *)

From S2P Require Import Prelude Buffers MerkleTree BalanceTree Evm.
From S2P Require Import Timelock TimelockTheory HuskyToken Shield FairLaunch Lending Workers.
From S2P Require Import Chain ChainTheory.

Section Watch.
Context `{AbiCoder} `{!OpenZeppelin}.
Variables (a pa : address) (hold : Chain -> Prop).
Hypothesis hold_write : forall ch x acc, x <> a -> x <> pa -> hold ch -> hold (set_account ch x acc).
Hypothesis hold_plain : forall ch x c, hold ch -> x = a \/ x = pa -> code_at ch x = Some c ->
  erc20_of c = None.
Hypothesis hold_admin : forall ch x acc who, hold ch -> x = a \/ x = pa ->
  accounts ch !! x = Some acc -> proxy_admin <$> proxy acc = Some who -> who = pa.

Definition stays (ch ch' : Chain) : Prop := hold ch -> hold ch'.

Lemma stays_refl ch : stays ch ch.
Proof. by intros Hh. Qed.

Lemma stays_trans ch1 ch2 ch3 : stays ch1 ch2 -> stays ch2 ch3 -> stays ch1 ch3.
Proof. unfold stays. auto. Qed.

Lemma stays_set_account ch x c : x <> a -> x <> pa -> stays ch (set_account ch x c).
Proof. intros Ha Hp Hh. by apply hold_write. Qed.

(** A write to a token. *)
Lemma stays_set_token ch x c c' :
  code_at ch x = Some c -> erc20_of c <> None -> stays ch (set_account ch x c').
Proof.
  intros Hc Ht Hh. apply hold_write; [intros ->..|exact Hh]; apply Ht;
    (eapply hold_plain; [exact Hh| |exact Hc]); auto.
Qed.

Lemma stays_set_kind {A} (prj : Code -> option A) ch x v c :
  (forall c, erc20_of c = None -> prj c = None) -> get prj ch x = Ok v ->
  stays ch (set_account ch x c).
Proof.
  intros Hk (c' & Hc & Hv)%get_Ok. eapply stays_set_token; [exact Hc|].
  intros E. by rewrite (Hk _ E) in Hv.
Qed.

Lemma stays_safeApprove ch m tok to amount ch' :
  safeApprove ch m tok to amount = Ok ch' -> stays ch ch'.
Proof.
  unfold safeApprove. destruct (code_at ch tok) as [c|] eqn:E; [|intros [= <-]; apply stays_refl].
  destruct (erc20_of c) as [[t put]|] eqn:Et; [|done].
  destruct (erc20_approve _ _ _ _) as [t'|]; [|done]. intros [= <-].
  eapply stays_set_token; [exact E|]. by rewrite Et.
Qed.

Lemma stays_chain_husky f m ch x v ch' : chain_husky f m ch x v = Ok ch' -> stays ch ch'.
Proof.
  unfold chain_husky. intros Hr. inv_result. subst.
  eapply (stays_set_kind as_HuskyToken); [by intros []|eassumption].
Qed.

Lemma stays_calls b : R_calls stays b.
Proof. split_and!; intros m w x v w' _; apply stays_chain_husky. Qed.

Lemma stays_own {A} (prj : Code -> option A) inj f m ch ch' :
  self m <> a -> self m <> pa -> own prj inj f m ch = Ok ch' -> stays ch ch'.
Proof. intros Ha Hp Hr. unfold own in Hr. inv_result. subst. by apply stays_set_account. Qed.

Lemma stays_on_FairLaunch m ch f ch' :
  self m <> a -> self m <> pa -> (forall s c s' c', f (s, c) = Ok (s', c') -> stays c c') ->
  on_FairLaunch m ch f = Ok ch' -> stays ch ch'.
Proof.
  intros Ha Hp Hf Hr. unfold on_FairLaunch in Hr.
  apply bind_Ok in Hr as (s & Hs & Hr). apply bind_Ok in Hr as ([s' c'] & Hc & Hr).
  injection Hr as <-. eapply stays_trans; [by eapply Hf|by apply stays_set_account].
Qed.

Lemma stays_setFairLaunchPoolId m ch pid ch' :
  setFairLaunchPoolId m ch pid = Ok ch' -> stays ch ch'.
Proof.
  unfold setFairLaunchPoolId. intros Hr. do 3 (apply bind_Ok in Hr as (? & _ & Hr)).
  apply bind_Ok in Hr as (ch1 & Hs1 & Hr). apply bind_Ok in Hr as (v1 & Hv1 & Hr). injection Hr as <-.
  eapply stays_trans; [by eapply stays_safeApprove|].
  eapply (stays_set_kind as_Vault); [by intros []|exact Hv1].
Qed.

Lemma stays_updateDebtToken m ch d pid ch' :
  updateDebtToken m ch d pid = Ok ch' -> stays ch ch'.
Proof.
  unfold updateDebtToken. intros Hr. do 4 (apply bind_Ok in Hr as (? & _ & Hr)).
  apply bind_Ok in Hr as (dt & Hdt & Hr). apply bind_Ok in Hr as (dt' & _ & Hr).
  apply bind_Ok in Hr as (v & Hv & Hr).
  eapply stays_trans; [|by eapply stays_safeApprove].
  eapply stays_trans; [eapply (stays_set_kind as_DebtToken); [by intros []|exact Hdt]|].
  eapply (stays_set_kind as_Vault); [by intros []|exact Hv].
Qed.

(** Another proxy administrator has no say over the two. *)
Lemma stays_if_proxy_admin m ch p f ch' :
  self m <> pa -> (f = Ok ch' -> p <> a -> p <> pa -> stays ch ch') ->
  if_proxy_admin m ch p f = Ok ch' -> stays ch ch'.
Proof.
  intros Hp Hf Hr Hh. unfold if_proxy_admin in Hr.
  apply bind_Ok in Hr as (c & Hc%of_option_Ok & Hr). apply bind_Ok in Hr as (sl & Hsl%of_option_Ok & Hr).
  apply bind_Ok in Hr as (_ & Hreq%require_Ok & Hr). apply bool_decide_eq_true in Hreq.
  assert (forall x, x = a \/ x = pa -> p <> x) as Hne.
  { intros x Hx ->. apply Hp. symmetry. rewrite <-Hreq.
    symmetry. eapply hold_admin; [exact Hh|exact Hx|exact Hc|]. by rewrite Hsl. }
  apply Hf; [exact Hr|apply Hne; auto|apply Hne; auto|exact Hh].
Qed.

Lemma stays_proxy ch p x ch' :
  p <> a -> p <> pa -> changeAdmin ch p x = Ok ch' \/ upgradeTo ch p x = Ok ch' -> stays ch ch'.
Proof.
  intros Ha Hp [Hr|Hr]; [unfold changeAdmin in Hr|unfold upgradeTo in Hr]; inv_result; subst;
    by apply stays_set_account.
Qed.
(** The functions of the other contracts, but the one that makes an external call. *)
Definition stays_method (mt : Method) : Prop := forall m ch vs ch',
  self m <> a -> self m <> pa -> m_run mt m ch vs = Ok ch' -> stays ch ch'.

Ltac own_stays :=
  intros m ch vs ch' Ha Hp Hr; cbn in Hr; args; inv_result;
  first [eapply stays_own; [exact Ha|exact Hp|eassumption]|subst; by apply stays_set_account].

Lemma stays_FairLaunch_methods mt :
  mt ∈ [m_addPool; m_setPool; m_massUpdatePools; m_fl_manualMint] -> stays_method mt.
Proof.
  intros Hin. repeat (apply elem_of_cons in Hin as [->|Hin]); [| | | |by apply elem_of_nil in Hin].
  all: intros m ch vs ch' Ha Hp Hr; cbn in Hr; args;
    eapply stays_on_FairLaunch; [exact Ha|exact Hp| |exact Hr]; cbv beta; intros ? ? ? ? Hf.
  - eapply (addPool_preserves stays); [apply stays_refl|apply stays_trans|apply stays_calls|exact Hf].
  - eapply (setPool_preserves stays); [apply stays_refl|apply stays_trans|apply stays_calls|exact Hf].
  - eapply (massUpdatePools_preserves stays);
      [apply stays_refl|apply stays_trans|apply stays_calls|exact Hf].
  - eapply (fl_manualMint_preserves stays); [apply stays_calls|exact Hf].
Qed.

Lemma stays_own_methods mt :
  mt ∈ m_mint :: m_manualMint :: m_lock :: m_approve :: m_setParams :: m_setWorkers :: m_setConfigs ::
       m_setOracle :: m_setOkHolders :: m_updateConfig :: m_setCallerOk :: m_setFeeder ::
       m_setPrices :: m_setStrategyOk :: m_setReinvestorOk :: m_setCriticalStrategies ::
       m_setReinvestBountyBps :: m_setMaxReinvestBountyBps :: m_setWorkersOk :: m_setBonus ::
       m_setDev :: m_setHuskyPerBlock :: m_setBadgeRelayer :: m_setBadgePoints ::
       m_setPublicOffering :: m_setPublicOfferingState :: ownable ->
  stays_method mt.
Proof.
  intros Hin. unfold ownable in Hin.
  repeat (apply elem_of_cons in Hin as [->|Hin]; [own_stays|]). by apply elem_of_nil in Hin.
Qed.

Lemma stays_other_methods mt :
  mt ∈ [m_setFairLaunchPoolId; m_updateDebtToken; m_upgrade; m_changeProxyAdmin] ->
  stays_method mt.
Proof.
  intros Hin. repeat (apply elem_of_cons in Hin as [->|Hin]); [| | | |by apply elem_of_nil in Hin];
    intros m ch vs ch' Ha Hp Hr; cbn in Hr; args.
  - by eapply stays_setFairLaunchPoolId.
  - by eapply stays_updateDebtToken.
  - inv_result. eapply stays_if_proxy_admin; [exact Hp| |eassumption]. intros. eapply stays_proxy; eauto.
  - inv_result. eapply stays_if_proxy_admin; [exact Hp| |eassumption]. intros. eapply stays_proxy; eauto.
Qed.

Lemma stays_proxy_methods mt m ch vs ch' :
  mt ∈ proxy_methods -> self m <> a -> self m <> pa -> m_run mt m ch vs = Ok ch' -> stays ch ch'.
Proof.
  intros [->|[->|[]%elem_of_nil]%elem_of_cons]%elem_of_cons Ha Hp Hr; cbn in Hr; args;
    eapply stays_proxy; eauto.
Qed.

Lemma stays_timelock_methods mt :
  mt ∈ [m_setDelay; m_acceptAdmin; m_setPendingAdmin; m_queueTransaction; m_cancelTransaction] ->
  stays_method mt.
Proof.
  intros Hin. repeat (apply elem_of_cons in Hin as [->|Hin]); [| | | | |by apply elem_of_nil in Hin].
  all: intros m ch vs ch' Ha Hp Hr; cbn in Hr; unfold with_tx in Hr; args;
    eapply stays_own; [exact Ha|exact Hp|exact Hr].
Qed.

(** Every function but [executeTransaction] and those of Shield. *)
Lemma stays_methods cl c mt :
  mt ∈ methods cl c ->
  mt = m_executeTransaction cl \/ mt ∈ shield_methods cl \/ stays_method mt.
Proof.
  intros Hin. destruct c; cbn [methods] in Hin.
  all: try (apply elem_of_app in Hin as [Hin|Hin]; [by right; left|]).
  all: repeat (apply elem_of_cons in Hin as [->|Hin];
    [first [by left
           |right; right; first [apply stays_own_methods; in_list|apply stays_FairLaunch_methods; in_list
                         |apply stays_other_methods; in_list|apply stays_timelock_methods; in_list]]|]).
  all: first [by apply elem_of_nil in Hin
             |right; right; apply stays_own_methods; do 26 right; exact Hin].
Qed.

Lemma stays_set_code ch x c : x <> a -> x <> pa -> stays ch (set_code ch x c).
Proof. apply stays_set_account. Qed.
End Watch.
