(* ===== verification/Governance.v ===== *)
(** * What the timelock owns

    A contract whose every function is for its owner, owned by the timelock and behind a
    proxy administrator that the timelock owns too, changes only when the timelock executes
    a transaction on one of the two: no history of other transactions touches it. *)

From S2P Require Import Prelude Buffers MerkleTree BalanceTree Evm.
From S2P Require Import Timelock TimelockTheory HuskyToken Shield FairLaunch Lending Workers.
From S2P Require Import Chain ChainTheory Watch.

Section Governance.
Context `{AbiCoder} `{!OpenZeppelin}.

(** ** The log of a timelock only grows *)

Lemma tl_step_events st st' :
  tl_step st st' -> exists evs, events (contract st') = evs ++ events (contract st).
Proof.
  intros Hstep. destruct Hstep as [| | | | | |m s tx s' f Hok Hb|m s tx]; cbn.
  all: open_operation; inv_result; subst; cbn; try (by exists []); try (by eexists [_]).
  apply execute_begin_inv in Hb as (_ & _ & _ & g & _ & ->); [|done]. by exists [].
Qed.

Lemma tl_steps_events st st' :
  rtc tl_step st st' -> exists evs, events (contract st') = evs ++ events (contract st).
Proof.
  induction 1 as [|st1 st2 st3 [evs1 E1]%tl_step_events _ (evs2 & E2)]; [by exists []|].
  exists (evs2 ++ evs1). by rewrite E2, E1, app_assoc.
Qed.

(** ** Functions that are for the owner only *)

Definition owner_only (c : Code) : bool :=
  match c with
  | CBasicVaultConfig _ | CWorkerConfig _ | CWNativeRelayer _ | CStrategy _
  | CProxyAdmin _ => true
  | _ => false
  end.

Lemma onlyOwner_denied o m : sender m <> o -> exists e, onlyOwner o m = Err e.
Proof. intros Hne. unfold onlyOwner. rewrite bool_decide_eq_false_2 by done. by eexists. Qed.

Lemma owner_only_denied cl c o mt m ch vs ch' :
  owner_only c = true -> owner_of c = Some o -> code_at ch (self m) = Some c -> sender m <> o ->
  mt ∈ methods cl c -> m_run mt m ch vs <> Ok ch'.
Proof.
  intros Hc Ho Ha Hne Hin Hr. destruct (onlyOwner_denied o m Hne) as [e He].
  destruct c; try discriminate Hc; cbn in Ho; injection Ho as <-; cbn [methods ownable] in Hin.
  all: repeat (apply elem_of_cons in Hin as [->|Hin]); try (by apply elem_of_nil in Hin).
  all: cbn in Hr; args.
  all: unfold own, get, transferOwnership, setParams, setWorkers, setConfigs, setOracle, setCallerOk,
    setWorkersOk in Hr; rewrite ?Ha in Hr; cbn in Hr; inv_result; simplify_eq/=; congruence.
Qed.

(** ** The contract and the administrator of its proxy *)

Section Holding.
Variables (tl pa a : address) (acc pacc : Account).
Hypothesis a_owner_only : owner_only (code acc) = true.
Hypothesis a_owner : owner_of (code acc) = Some tl.
Hypothesis a_admin : proxy_admin <$> proxy acc = None \/ proxy_admin <$> proxy acc = Some pa.
Hypothesis pa_code : code pacc = CProxyAdmin tl.
Hypothesis pa_proxy : proxy pacc = None.

(** The contract and the administrator of its proxy, as they were. *)
Definition hold (ch : Chain) : Prop := accounts ch !! a = Some acc /\ accounts ch !! pa = Some pacc.

Abbreviation stays := (stays hold).

Lemma hold_write ch x c : x <> a -> x <> pa -> hold ch -> hold (set_account ch x c).
Proof. intros Ha Hp [Ha1 Ha2]. by split; cbn; rewrite lookup_insert_ne. Qed.

Lemma hold_plain ch x c : hold ch -> x = a \/ x = pa -> code_at ch x = Some c -> erc20_of c = None.
Proof.
  unfold code_at. intros [Ha Hp] [->| ->] Hc.
  - rewrite Ha in Hc. injection Hc as <-. by destruct (code acc).
  - rewrite Hp in Hc. injection Hc as <-. by rewrite pa_code.
Qed.

Lemma hold_admin ch x c who : hold ch -> x = a \/ x = pa -> accounts ch !! x = Some c ->
  proxy_admin <$> proxy c = Some who -> who = pa.
Proof.
  intros [Ha Hp] [->| ->] Hc Hw.
  - rewrite Ha in Hc. injection Hc as <-. destruct a_admin; congruence.
  - rewrite Hp in Hc. injection Hc as <-. by rewrite pa_proxy in Hw.
Qed.

Lemma other_methods cl c mt : mt ∈ methods cl c ->
  mt = m_executeTransaction cl \/ mt ∈ shield_methods cl \/ stays_method a pa hold mt.
Proof. apply stays_methods; [apply hold_write|apply hold_plain|apply hold_admin]. Qed.

Lemma other_proxies mt m ch vs ch' :
  mt ∈ proxy_methods -> self m <> a -> self m <> pa -> m_run mt m ch vs = Ok ch' -> stays ch ch'.
Proof. apply stays_proxy_methods. apply hold_write. Qed.

Lemma governed_set_code ch x c : x <> a -> x <> pa -> stays ch (set_code ch x c).
Proof. intros Ha Hp Hh. by apply hold_write. Qed.

(** ** Through the timelock *)

(** A transaction on one of the two has been executed between [ch] and [ch']. *)
Definition executed (ch ch' : Chain) : Prop := exists s s' evs t1 tx,
  code_at ch tl = Some (CTimelock s) /\ code_at ch' tl = Some (CTimelock s') /\
  events s' = evs ++ events s /\ ExecuteTransaction t1 tx ∈ evs /\ target tx ∈ [a; pa].

Definition live (ch : Chain) (f : option Tx) : Prop := exists s,
  code_at ch tl = Some (CTimelock s) /\ consistent s f.

Definition grows (ch ch' : Chain) : Prop := forall s f,
  code_at ch tl = Some (CTimelock s) -> consistent s f ->
  exists s' evs, code_at ch' tl = Some (CTimelock s') /\ consistent s' f /\
    events s' = evs ++ events s.

Lemma frame_grows b ch ch' : frame b ch ch' -> grows ch ch'.
Proof.
  intros Hf s f Hs Hc. specialize (Hf tl). rewrite Hs in Hf. destruct (Hf f Hc) as (s' & Hs' & Hsteps).
  destruct (tl_steps_events _ _ Hsteps) as (evs & He). exists s', evs. split; [done|]. split; [|done].
  by apply (tl_steps_consistent _ _ Hsteps).
Qed.

Lemma grows_live ch ch' f : grows ch ch' -> live ch f -> live ch' f.
Proof.
  intros Hg (s & Hs & Hc). destruct (Hg s f Hs Hc) as (s' & _ & Hs' & Hc' & _). by exists s'.
Qed.

Lemma executed_later ch1 ch2 ch3 f :
  executed ch1 ch2 -> live ch2 f -> grows ch2 ch3 -> executed ch1 ch3.
Proof.
  intros (s & s' & evs & t1 & tx & Hs & Hs' & He & Hin & Ht) (s2 & Hs2 & Hc) Hg.
  rewrite Hs' in Hs2. injection Hs2 as <-.
  destruct (Hg s' f Hs' Hc) as (s3 & evs3 & Hs3 & _ & He3).
  exists s, s3, (evs3 ++ evs), t1, tx. split; [done|]. split; [done|].
  rewrite He3, He, app_assoc. split; [done|]. split; [|done]. apply elem_of_app. by right.
Qed.

Lemma executed_earlier ch1 ch2 ch3 f :
  grows ch1 ch2 -> live ch1 f -> executed ch2 ch3 -> executed ch1 ch3.
Proof.
  intros Hg (s & Hs & Hc) (s2 & s3 & evs & t1 & tx & Hs2 & Hs3 & He & Hin & Ht).
  destruct (Hg s f Hs Hc) as (s2' & evs2 & Hs2' & _ & He2).
  rewrite Hs2 in Hs2'. injection Hs2' as <-.
  exists s, s3, (evs ++ evs2), t1, tx. split; [done|]. split; [done|].
  rewrite He, He2, app_assoc. split; [done|]. split; [|done]. apply elem_of_app. by left.
Qed.

(** The timelock is neither of the two. *)
Lemma timelock_apart ch s : hold ch -> code_at ch tl = Some (CTimelock s) -> tl <> a /\ tl <> pa.
Proof.
  intros [Ha Hp] Hs. unfold code_at in Hs. split; intros E; rewrite E in Hs.
  - rewrite Ha in Hs. injection Hs as Hs. by rewrite Hs in a_owner_only.
  - rewrite Hp in Hs. injection Hs as Hs. congruence.
Qed.

Definition governed_call (cl : Call) : Prop := forall b from to v d ch ch' f,
  cl b from to v d ch = Ok ch' -> live ch f -> hold ch ->
  (from = tl -> to ∉ [a; pa]) -> from <> pa -> hold ch' \/ executed ch ch'.
(** The timelock's own execution: a call to one of the two leaves its mark in the log. *)
Lemma execute_self cl m ch t ch' f :
  governed_call cl -> frame_call cl -> tx_ok t -> self m = tl ->
  executeTransaction cl m ch t = Ok ch' -> live ch f -> hold ch -> hold ch' \/ executed ch ch'.
Proof.
  intros Hcl Hfr Hok Hm Hr (s & Hs & Hc) Hh. destruct (timelock_apart _ _ Hh Hs) as [Hta Htp].
  unfold executeTransaction in Hr. rewrite Hm in Hr. unfold get in Hr. rewrite Hs in Hr. cbn in Hr.
  apply bind_Ok in Hr as (s1 & Hb & Hr). apply bind_Ok in Hr as (ch1 & Hin & Hr).
  apply bind_Ok in Hr as (s2 & Hs2%of_option_Ok & Hr). injection Hr as <-.
  unfold bubble in Hin. destruct (cl _ _ _ _ _ _) as [ch2|] eqn:Ecl; [|done]. injection Hin as ->.
  pose proof (step_begin m s t s1 f Hok Hb) as Hstep.
  assert (events s1 = events s) as He1.
  { apply execute_begin_inv in Hb as (_ & _ & _ & g & _ & ->); done. }
  assert (live (set_code ch tl (CTimelock s1)) (Some t)) as Hl1.
  { exists s1. rewrite code_at_set_code, decide_True by done. split; [done|].
    by apply (tl_step_consistent _ _ Hstep). }
  destruct Hl1 as (s1' & Hs1 & Hc1). pose proof Hs1 as Hs1'.
  rewrite code_at_set_code, decide_True in Hs1' by done. injection Hs1' as <-.
  destruct (frame_grows _ _ _ (Hfr _ _ _ _ _ _ _ Ecl) _ _ Hs1 Hc1) as (s2' & evs & Hs2' & _ & He2).
  rewrite Hs2' in Hs2. cbn in Hs2. injection Hs2 as <-.
  set (s3 := execute_end m s2' t).
  assert (code_at (set_code ch1 tl (CTimelock s3)) tl = Some (CTimelock s3)) as Hs3
    by (by rewrite code_at_set_code, decide_True).
  assert (events s3 = (ExecuteTransaction (timestamp (block m)) t :: evs) ++ events s) as He3.
  { cbn. by rewrite He2, He1. }
  destruct (decide (target t ∈ [a; pa])) as [Ht|Ht].
  - right. exists s, s3, (ExecuteTransaction (timestamp (block m)) t :: evs), (timestamp (block m)), t.
    split; [done|split; [done|split; [done|split; [by left|done]]]].
  - destruct (Hcl _ _ _ _ _ _ _ (Some t) Ecl) as [Hh1|Hx]; [by exists s1|by apply governed_set_code|done|done| |].
    + left. by apply governed_set_code.
    + right. destruct Hx as (sa & sb & evx & t1 & tx & Ha & Hb' & Hex & Hinx & Htx).
      rewrite Hs1 in Ha. injection Ha as <-. rewrite Hs2' in Hb'. injection Hb' as <-.
      exists s, s3, (ExecuteTransaction (timestamp (block m)) t :: evx), t1, tx.
      split; [done|]. split; [done|]. split; [cbn; by rewrite Hex, He1|]. split; [by right|done].
Qed.

(** Another timelock's. *)
Lemma execute_other cl m ch t ch' f :
  governed_call cl -> frame_call cl -> self m <> tl -> self m <> a -> self m <> pa ->
  executeTransaction cl m ch t = Ok ch' -> live ch f -> hold ch -> hold ch' \/ executed ch ch'.
Proof.
  intros Hcl Hfr Hm Ha Hp Hr (s & Hs & Hc) Hh. unfold executeTransaction in Hr.
  apply bind_Ok in Hr as (sx & _ & Hr). apply bind_Ok in Hr as (s1 & _ & Hr).
  apply bind_Ok in Hr as (ch1 & Hin & Hr). apply bind_Ok in Hr as (s2 & _ & Hr). injection Hr as <-.
  unfold bubble in Hin. destruct (cl _ _ _ _ _ _) as [ch2|] eqn:Ecl; [|done]. injection Hin as ->.
  assert (forall c k, code_at (set_code c (self m) k) tl = code_at c tl) as Hkeep.
  { intros c k. rewrite code_at_set_code, decide_False by done. done. }
  destruct (Hcl _ _ _ _ _ _ _ f Ecl) as [Hh1|Hx]; [|by apply governed_set_code|done|done| |].
  - exists s. by rewrite Hkeep.
  - left. by apply governed_set_code.
  - right. destruct Hx as (sa & sb & evs & t1 & tx & H1x & H2x & Hrest).
    exists sa, sb, evs, t1, tx. rewrite Hkeep in *. done.
Qed.

(** A function of Shield: the call it forwards is not the timelock's. *)
Lemma shield_self m ch s f :
  get as_Shield ch (self m) = Ok s -> live ch f -> hold ch ->
  self m <> tl /\ self m <> a /\ self m <> pa.
Proof.
  intros (c & Hc & Hx)%get_Ok (t & Ht & _) [Ha Hp]. unfold code_at in *. split_and!; intros E.
  - rewrite E, Ht in Hc. injection Hc as <-. done.
  - rewrite E, Ha in Hc. injection Hc as <-. by destruct (code acc).
  - rewrite E, Hp in Hc. injection Hc as <-. by rewrite pa_code in Hx.
Qed.

Lemma forward_governed cl m ch sig types vs ch' f :
  governed_call cl -> forward cl m ch sig types vs = Ok ch' -> live ch f -> hold ch ->
  hold ch' \/ executed ch ch'.
Proof.
  intros Hcl Hr Hl Hh. unfold forward, external in Hr. apply bind_Ok in Hr as (s & Hs & Hr).
  destruct (shield_self _ _ _ _ Hs Hl Hh) as (Ht & _ & Hp). inv_result.
  by eapply Hcl.
Qed.

Lemma shield_governed cl mt m ch vs ch' f :
  governed_call cl -> mt ∈ shield_methods cl -> m_run mt m ch vs = Ok ch' ->
  live ch f -> hold ch -> hold ch' \/ executed ch ch'.
Proof.
  intros Hcl Hin Hr Hl Hh.
  repeat (apply elem_of_cons in Hin as [->|Hin]); [| | | | |by apply elem_of_nil in Hin];
    cbn in Hr; try (by eapply forward_governed).
  - args. apply bind_Ok in Hr as (s & Hs & Hr).
    destruct (shield_self _ _ _ _ Hs Hl Hh) as (Ht & Ha & Hp).
    apply bind_Ok in Hr as (_ & _ & Hr). apply bind_Ok in Hr as (_ & _ & Hr).
    apply bind_Ok in Hr as (ch1 & Hc & Hr). unfold external in Hc.
    apply bind_Ok in Hc as (_ & _ & Hc). inv_result. subst.
    destruct (Hcl _ _ _ _ _ _ _ f Hc Hl Hh) as [Hh1|Hx]; [done|done| |right].
    + left. by apply governed_set_code.
    + destruct Hx as (s1 & s2 & evs & t1 & tx & H1x & H2x & Hrest). exists s1, s2, evs, t1, tx.
      rewrite code_at_set_code, decide_False by done. done.
  - inv_result. subst. by eapply forward_governed.
Qed.

Lemma call_governed depth : governed_call (call depth).
Proof.
  induction depth as [|depth IH]; [by intros|].
  intros b from to v d ch ch' f Hr Hl Hh Hto Hfrom. cbn in Hr.
  apply bind_Ok in Hr as (ch1 & Ht & Hr).
  assert (accounts ch1 = accounts ch) as Hacc.
  { unfold transfer_native in Ht. destruct (v =? 0)%Z; [by injection Ht as ->|]. inv_result. by subst. }
  assert (hold ch1) as Hh1 by (unfold hold; by rewrite Hacc).
  assert (live ch1 f) as Hl1 by (unfold live, code_at; by rewrite Hacc).
  enough (hold ch' \/ executed ch1 ch') as He.
  { destruct He as [|He]; [by left|right]. by eapply executed_earlier; [eapply frame_grows, (frame_transfer b); exact Ht|exact Hl|done]. }
  destruct (accounts ch1 !! to) as [acc'|] eqn:Eto; [|injection Hr as <-; by left].
  set (m := {| sender := from; self := to; block := b |}) in *. case_bool_decide as Hadm.
  - apply dispatch_inv in Hr as [->|(mt & vs & Hin & _ & Hr)]; [by left|]. left.
    apply (other_proxies mt m ch1 vs ch' Hin); [..|exact Hr|exact Hh1]; intros E;
      cbn in E; subst to.
    + rewrite (proj1 Hh1) in Eto. injection Eto as <-. destruct a_admin; congruence.
    + rewrite (proj2 Hh1) in Eto. injection Eto as <-. by rewrite pa_proxy in Hadm.
  - apply dispatch_inv in Hr as [->|(mt & vs & Hin & Hvs & Hr)]; [by left|].
    assert (code_at ch1 to = Some (code acc')) as Hcode by (unfold code_at; by rewrite Eto).
    assert (to ∈ [a; pa] -> sender m <> tl) as Hnot by (intros Hin' E; by apply Hto).
    destruct (decide (to = a)) as [->|Hta].
    { rewrite (proj1 Hh1) in Eto. injection Eto as <-. exfalso.
      eapply (owner_only_denied _ _ _ mt m); [exact a_owner_only|exact a_owner|exact Hcode| |exact Hin|exact Hr].
      apply Hnot. by left. }
    destruct (decide (to = pa)) as [->|Htp].
    { rewrite (proj2 Hh1) in Eto. injection Eto as <-. exfalso. rewrite pa_code in Hin, Hcode.
      eapply (owner_only_denied _ (CProxyAdmin tl) tl mt m); [done|done|exact Hcode| |exact Hin|exact Hr].
      apply Hnot. right. by left. }
    destruct (other_methods _ _ _ Hin) as [->|[Hsh|Hst]].
    + cbn in Hr. apply with_tx_inv in Hr as (t & Hok & Hr); [|done].
      destruct (decide (to = tl)) as [Htl|Htl].
      * eapply (execute_self _ m); [exact IH|apply call_frame|exact Hok|exact Htl|exact Hr|exact Hl1|exact Hh1].
      * eapply (execute_other _ m); [exact IH|apply call_frame|exact Htl|exact Hta|exact Htp|exact Hr|exact Hl1|exact Hh1].
    + by eapply shield_governed.
    + left. exact (Hst m ch1 vs ch' Hta Htp Hr Hh1).
Qed.

(** ** Histories *)

Lemma history_grows ts ch f : live ch f -> grows ch (foldl transact ch ts).
Proof.
  revert ch. induction ts as [|t ts IH]; intros ch Hl s g Hs Hc.
  - by exists s, [].
  - cbn [foldl]. pose proof (frame_grows _ _ _ (transact_frame ch t)) as Hg.
    destruct (Hg s g Hs Hc) as (s1 & evs1 & Hs1 & Hc1 & He1).
    destruct (IH (transact ch t) (grows_live _ _ _ Hg Hl) s1 g Hs1 Hc1) as (s2 & evs2 & Hs2 & Hc2 & He2).
    exists s2, (evs2 ++ evs1). by rewrite He2, He1, app_assoc.
Qed.

(** Neither the timelock nor the administrator, both contracts, signs transactions. *)
Definition signed_by_others (ts : list Transaction) : Prop := forall b from to v d,
  (b, from, to, v, d) ∈ ts -> from <> tl /\ from <> pa.

Lemma history_governed ts ch f :
  live ch f -> hold ch -> signed_by_others ts ->
  hold (foldl transact ch ts) \/ executed ch (foldl transact ch ts).
Proof.
  revert ch. induction ts as [|t ts IH]; intros ch Hl Hh Hts; [by left|]. cbn [foldl].
  pose proof (frame_grows _ _ _ (transact_frame ch t)) as Hg.
  assert (hold (transact ch t) \/ executed ch (transact ch t)) as [Hh1|Hx].
  { destruct t as [[[[b from] to] v] d]. destruct (Hts b from to v d) as [Hn1 Hn2]; [by left|].
    unfold transact. destruct (call _ _ _ _ _ _ _) eqn:E; [|by left].
    eapply call_governed; [exact E|exact Hl|exact Hh|done|done]. }
  - destruct (IH (transact ch t)) as [|Hx]; [by eapply grows_live|done| |by left|].
    + intros b from to v d Hin. eapply Hts. by right.
    + right. by eapply executed_earlier.
  - right. eapply executed_later; [exact Hx|by eapply grows_live|].
    by eapply history_grows, grows_live.
Qed.
End Holding.

(** C1: governance.  A contract whose functions are all for its owner -- a vault or worker
    configuration, a relayer, a strategy -- is owned by the timelock; so is the
    administrator of its proxy.  After any history of transactions that others sign, to
    any of the modelled contracts and with any nesting of calls, both are exactly as they
    were, state, administrator and implementation, or the timelock has since executed a
    transaction on one of the two, which had been queued at least a day before (or its
    hash collides with that of a queued one). *)
Theorem timelock_governs ts ch tl pa a acc pacc s t0 :
  code_at ch tl = Some (CTimelock s) ->
  tl_reachable {| now := t0; contract := s; inflight := None |} ->
  accounts ch !! a = Some acc -> owner_only (code acc) = true -> owner_of (code acc) = Some tl ->
  proxy_admin <$> proxy acc = None \/ proxy_admin <$> proxy acc = Some pa ->
  accounts ch !! pa = Some pacc -> code pacc = CProxyAdmin tl -> proxy pacc = None ->
  chronological t0 ts -> signed_by_others tl pa ts ->
  let ch' := foldl transact ch ts in
  (accounts ch' !! a = Some acc /\ accounts ch' !! pa = Some pacc) \/
  exists s' evs t1 tx, code_at ch' tl = Some (CTimelock s') /\ events s' = evs ++ events s /\
    ExecuteTransaction t1 tx ∈ evs /\ target tx ∈ [a; pa] /\ delayed s' tx t1.
Proof.
  intros Hs Hr Ha Hoo Ho Hadm Hpa Hpc Hpp Hchr Hts ch'.
  pose proof (tl_reachable_inv _ Hr) as I.
  assert (consistent s None) as Hc by (split; [apply (inv_guard _ I)|apply (inv_leave _ I)]).
  destruct (history_governed tl pa a acc pacc Hoo Ho Hadm Hpc Hpp ts ch None) as [Hh|Hx];
    [by exists s|done|done|by left|right].
  destruct Hx as (s1 & s' & evs & t1 & tx & Hs1 & Hs' & He & Hin & Ht).
  rewrite Hs in Hs1. injection Hs1 as <-.
  destruct (transact_steps ts ch tl s t0 Hs Hc Hchr) as (s2 & Hs2 & Hsteps).
  rewrite Hs' in Hs2. injection Hs2 as <-.
  exists s', evs, t1, tx. split; [done|]. split; [done|]. split; [done|]. split; [done|].
  eapply (executed_delayed {| now := end_time t0 ts; contract := s'; inflight := None |}).
  - apply tl_reachable_inv. by eapply tl_reachable_steps.
  - cbn. rewrite He. apply elem_of_app. by left.
Qed.
End Governance.
