(* ===== verification/Script.v ===== *)
(** * Deployment scripts

    What the scripts of src/deploy run on: JavaScript values and their ABI
    coercion by ethers, the JSON configuration of src/deploy/results, the file
    service of src/deploy/utils, and a monad in which effects on the chain, the
    configuration and the files persist when a script throws half-way. *)

From S2P Require Import Prelude Buffers MerkleTree BalanceTree Evm.
From S2P Require Import Timelock HuskyToken FairLaunch Lending Workers Chain.

(** ** JavaScript values and numbers *)

Inductive JsValue :=
| JStr (s : string) | JNum (z : Z) | JBool (b : bool) | JBytes (b : Buffer)
| JArr (vs : list JsValue) | JObj (fields : list (string * JsValue)) | JUndefined.

(** A property that may be missing. *)
Definition js_opt (o : option string) : JsValue :=
  match o with Some s => JStr s | None => JUndefined end.

(** [BigNumber.from] and [parseEther] on decimal strings, with or without a fraction. *)
Class EthersNumbers `{Ethers} := {
  parseEther : string -> option Z;
  BigNumber_decimal : forall s z, decimal s = Some z -> BigNumber_from s = Some z;
  parseEther_decimal : forall s z, decimal s = Some z -> parseEther s = Some (z * 10 ^ 18)%Z;
  parseEther_fraction : forall a b x y, decimal a = Some x -> decimal b = Some y ->
    (Z.of_nat (String.length b) <= 18)%Z ->
    parseEther (a +:+ "." +:+ b) = Some (x * 10 ^ 18 + y * 10 ^ (18 - Z.of_nat (String.length b)))%Z
}.

Section Coercion.
Context `{AbiCoder}.

Definition to_uint (v : JsValue) : result Z :=
  match v with
  | JStr s => of_option (BigNumber_from s) "invalid BigNumber value"
  | JNum z => Ok z
  | _ => Err "invalid BigNumber value"
  end.

Definition truthy (v : JsValue) : bool :=
  match v with
  | JStr s => negb (bool_decide (s = EmptyString))
  | JNum z => negb (z =? 0)%Z
  | JBool b => b
  | JUndefined => false
  | _ => true
  end.

(** ethers' coders: addresses are checksummed, numbers are range-checked.  The fields
    of an object are listed in the order of the tuple's components. *)
Fixpoint coerce (t : AbiType) (v : JsValue) {struct v} : result AbiValue :=
  match t, v with
  | TAddress, JStr s => a ← of_option (getAddress s) "invalid address"; Ok (VAddress a)
  | TUint n, (JStr _ | JNum _) =>
      z ← to_uint v;
      require ((0 <=? z)%Z && (z <? 2 ^ n)%Z) "value out-of-bounds" ;; Ok (VUint z)
  | TBool, _ => Ok (VBool (truthy v))
  | TString, JStr s => Ok (VString s)
  | TBytes, JBytes b => Ok (VBytes b)
  | TArray t, JArr vs =>
      vs ← (fix go vs := match vs with
            | [] => Ok []
            | v :: vs => x ← coerce t v; xs ← go vs; Ok (x :: xs)
            end) vs;
      Ok (VArray vs)
  | TTuple ts, JObj fs =>
      vs ← (fix go (ts : list AbiType) (fs : list (string * JsValue)) {struct fs} :=
            match ts, fs with
            | [], [] => Ok []
            | t :: ts, (_, v) :: fs => x ← coerce t v; xs ← go ts fs; Ok (x :: xs)
            | _, _ => Err "types/value length mismatch"
            end) ts fs;
      Ok (VTuple vs)
  | _, _ => Err "invalid value"
  end.

Fixpoint coerce_all (ts : list AbiType) (vs : list JsValue) : result (list AbiValue) :=
  match ts, vs with
  | [], [] => Ok []
  | t :: ts, v :: vs => x ← coerce t v; xs ← coerce_all ts vs; Ok (x :: xs)
  | _, _ => Err "types/values length mismatch"
  end.

(** [ethers.utils.defaultAbiCoder.encode(types, values)] *)
Definition encode (types : list AbiType) (values : list JsValue) : result Buffer :=
  vs ← coerce_all types values; Ok (abi_encode types vs).
End Coercion.

(** ** The configuration: src/deploy/results/*.json *)

Record PoolEntry := { pe_id : Z; pe_stakingToken : string; pe_address : string }.

Record LpEntry := { lp_pId : Z; lp_name : string; lp_address : string }.

Record WorkerEntry := {
  we_name : string;
  we_address : string;
  we_config : option string;
  we_pId : Z
}.

Record VaultEntry := {
  ve_name : string;
  ve_symbol : string;
  ve_address : string;
  ve_baseToken : option string;
  ve_debtToken : string;
  ve_config : string;
  ve_tripleSlopeModel : option string;
  ve_StrategyAddTwoSidesOptimal : string;
  ve_workers : list WorkerEntry
}.

(** The keys that the modelled scripts read or write. *)
Record Json := {
  AdminAddress : string;
  NativeAddress : string;
  FeederAddress : string;
  js_Timelock : string;
  FairLaunch_address : string;
  FairLaunch_pools : list PoolEntry;
  Tokens_of : gmap string string;
  SharedConfig : gmap string string;
  SharedStrategies : gmap string string;
  Oracle : gmap string string;
  MasterChef : string;                   (* Exchanges.Pancakeswap *)
  RouterV2 : string;
  LpTokens : list LpEntry;
  Vaults : list VaultEntry
}.

Definition with_Timelock (j : Json) (a : string) : Json :=
  {| AdminAddress := AdminAddress j; NativeAddress := NativeAddress j;
     FeederAddress := FeederAddress j; js_Timelock := a;
     FairLaunch_address := FairLaunch_address j; FairLaunch_pools := FairLaunch_pools j;
     Tokens_of := Tokens_of j; SharedConfig := SharedConfig j;
     SharedStrategies := SharedStrategies j; Oracle := Oracle j; MasterChef := MasterChef j;
     RouterV2 := RouterV2 j; LpTokens := LpTokens j; Vaults := Vaults j |}.

Definition with_FairLaunch (j : Json) (a : string) (ps : list PoolEntry) : Json :=
  {| AdminAddress := AdminAddress j; NativeAddress := NativeAddress j;
     FeederAddress := FeederAddress j; js_Timelock := js_Timelock j; FairLaunch_address := a;
     FairLaunch_pools := ps; Tokens_of := Tokens_of j; SharedConfig := SharedConfig j;
     SharedStrategies := SharedStrategies j; Oracle := Oracle j; MasterChef := MasterChef j;
     RouterV2 := RouterV2 j; LpTokens := LpTokens j; Vaults := Vaults j |}.

Definition with_Tokens (j : Json) (ts : gmap string string) : Json :=
  {| AdminAddress := AdminAddress j; NativeAddress := NativeAddress j;
     FeederAddress := FeederAddress j; js_Timelock := js_Timelock j;
     FairLaunch_address := FairLaunch_address j; FairLaunch_pools := FairLaunch_pools j;
     Tokens_of := ts; SharedConfig := SharedConfig j; SharedStrategies := SharedStrategies j;
     Oracle := Oracle j; MasterChef := MasterChef j; RouterV2 := RouterV2 j;
     LpTokens := LpTokens j; Vaults := Vaults j |}.

Definition with_SharedConfig (j : Json) (k a : string) : Json :=
  {| AdminAddress := AdminAddress j; NativeAddress := NativeAddress j;
     FeederAddress := FeederAddress j; js_Timelock := js_Timelock j;
     FairLaunch_address := FairLaunch_address j; FairLaunch_pools := FairLaunch_pools j;
     Tokens_of := Tokens_of j; SharedConfig := <[ k := a ]> (SharedConfig j);
     SharedStrategies := SharedStrategies j; Oracle := Oracle j; MasterChef := MasterChef j;
     RouterV2 := RouterV2 j; LpTokens := LpTokens j; Vaults := Vaults j |}.

Definition with_SharedStrategies (j : Json) (k a : string) : Json :=
  {| AdminAddress := AdminAddress j; NativeAddress := NativeAddress j;
     FeederAddress := FeederAddress j; js_Timelock := js_Timelock j;
     FairLaunch_address := FairLaunch_address j; FairLaunch_pools := FairLaunch_pools j;
     Tokens_of := Tokens_of j; SharedConfig := SharedConfig j;
     SharedStrategies := <[ k := a ]> (SharedStrategies j); Oracle := Oracle j;
     MasterChef := MasterChef j; RouterV2 := RouterV2 j; LpTokens := LpTokens j;
     Vaults := Vaults j |}.

Definition with_Oracle (j : Json) (k a : string) : Json :=
  {| AdminAddress := AdminAddress j; NativeAddress := NativeAddress j;
     FeederAddress := FeederAddress j; js_Timelock := js_Timelock j;
     FairLaunch_address := FairLaunch_address j; FairLaunch_pools := FairLaunch_pools j;
     Tokens_of := Tokens_of j; SharedConfig := SharedConfig j;
     SharedStrategies := SharedStrategies j; Oracle := <[ k := a ]> (Oracle j);
     MasterChef := MasterChef j; RouterV2 := RouterV2 j; LpTokens := LpTokens j;
     Vaults := Vaults j |}.

Definition with_Vaults (j : Json) (vs : list VaultEntry) : Json :=
  {| AdminAddress := AdminAddress j; NativeAddress := NativeAddress j;
     FeederAddress := FeederAddress j; js_Timelock := js_Timelock j;
     FairLaunch_address := FairLaunch_address j; FairLaunch_pools := FairLaunch_pools j;
     Tokens_of := Tokens_of j; SharedConfig := SharedConfig j;
     SharedStrategies := SharedStrategies j; Oracle := Oracle j; MasterChef := MasterChef j;
     RouterV2 := RouterV2 j; LpTokens := LpTokens j; Vaults := vs |}.

(** ** The world a script runs in *)

(** A line [await timelock.executeTransaction(target, '0', sig, encode(types, args), eta)]
    that a script prints for the operator to run later. *)
Record Command := {
  cmd_target : string;
  cmd_value : JsValue;
  cmd_sig : string;
  cmd_types : list AbiType;
  cmd_args : list JsValue;
  cmd_eta : JsValue
}.

(** The network, the signer and the addresses of the contracts a run creates. *)
Class Network `{Ethers} := {
  network_name : string;
  signer : address;
  proxyAdmin : address;
  mined : nat -> Block;          (* the block of the n-th transaction *)
  created : nat -> address;      (* the address of the n-th created contract *)
  max_creations : nat;           (* the first of these addresses do not collide *)
  signer_ok : getAddress signer = Some signer;
  signer_nonzero : signer <> zero_address;
  created_ok : forall n, getAddress (created n) = Some (created n);
  created_nonzero : forall n, created n <> zero_address;
  created_inj : forall i j, i < max_creations -> j < max_creations ->
    created i = created j -> i = j;
  signer_proxyAdmin : signer <> proxyAdmin;
  mined_number : forall n, uint256 (number (mined n));
  mined_timestamp : forall n, uint256 (timestamp (mined n))
}.

Record World `{OpenZeppelin} := {
  chain : Chain;
  height : nat;                  (* transactions mined *)
  creations : nat;               (* contracts created *)
  MainnetConfig : Json;          (* the imported results/mainnet.json *)
  TestnetConfig : Json;
  files : gmap string Json;      (* results/<name>.json as written *)
  console : list Command         (* commands printed, in order *)
}.

(** A script: its effects stay when it throws. *)
Definition script `{OpenZeppelin} (A : Type) : Type := World -> World * result A.

Section Script.
Context `{AbiCoder} `{!OpenZeppelin} `{!Network}.

#[export] Instance script_ret : MRet script := fun A a w => (w, Ok a).
#[export] Instance script_bind : MBind script := fun A B f m w =>
  match m w with
  | (w, Ok a) => f a w
  | (w, Err e) => (w, Err e)
  end.

Definition throw {A} (e : string) : script A := fun w => (w, Err e).
Definition lift {A} (r : result A) : script A := fun w => (w, r).

(** [for (const x of l) { f(x) }] *)
Fixpoint for_each {A} (f : A -> script unit) (l : list A) : script unit :=
  match l with
  | [] => mret tt
  | x :: l => f x ;; for_each f l
  end.

Definition with_chain (w : World) (ch : Chain) : World :=
  {| chain := ch; height := S (height w); creations := creations w;
     MainnetConfig := MainnetConfig w; TestnetConfig := TestnetConfig w;
     files := files w; console := console w |}.

(** *** Configuration and files *)

(** [network.name === "mainnet" ? MainnetConfig : TestnetConfig] *)
Definition config_of (w : World) : Json :=
  if bool_decide (network_name = "mainnet") then MainnetConfig w else TestnetConfig w.

Definition get_config : script Json := fun w => (w, Ok (config_of w)).

(** The scripts mutate the imported object. *)
Definition with_config (w : World) (j : Json) : World :=
  let main := bool_decide (network_name = "mainnet") in
  {| chain := chain w; height := height w; creations := creations w;
     MainnetConfig := if main then j else MainnetConfig w;
     TestnetConfig := if main then TestnetConfig w else j;
     files := files w; console := console w |}.

Definition set_config (j : Json) : script unit := fun w => (with_config w j, Ok tt).

(** src/deploy/utils/file.ts *)
Definition write (fileName : string) (content : Json) : script unit := fun w =>
  ({| chain := chain w; height := height w; creations := creations w;
      MainnetConfig := MainnetConfig w; TestnetConfig := TestnetConfig w;
      files := <[ fileName := content ]> (files w); console := console w |}, Ok tt).

(** [FileService.write(network.name, config)] *)
Definition save_config : script unit := j ← get_config; write network_name j.

Definition print (c : Command) : script unit := fun w =>
  ({| chain := chain w; height := height w; creations := creations w;
      MainnetConfig := MainnetConfig w; TestnetConfig := TestnetConfig w;
      files := files w; console := console w ++ [c] |}, Ok tt).

(** *** Transactions *)

(** [await contract.method(...args)]: gas estimation throws when the call reverts, and
    nothing is sent; otherwise the transaction is mined before the next statement. *)
Definition send (to : JsValue) (sig : string) (types : list AbiType) (args : list JsValue) :
    script unit := fun w =>
  match (to ← coerce TAddress to; vs ← coerce_all types args; Ok (to, vs)) with
  | Ok (VAddress to, vs) =>
      match call CALL_DEPTH (mined (height w)) signer to 0
              (selector sig ++ abi_encode types vs) (chain w) with
      | Ok ch => (with_chain w ch, Ok tt)
      | Err e => (w, Err e)
      end
  | Ok _ => (w, Err "invalid address")
  | Err e => (w, Err e)
  end.

(** The same with an explicit [gasLimit]: no estimation, so a call that reverts is mined
    and reverts there, and the script does not notice. *)
Definition send_gasLimit (to : JsValue) (sig : string) (types : list AbiType)
    (args : list JsValue) : script unit := fun w =>
  match (to ← coerce TAddress to; vs ← coerce_all types args; Ok (to, vs)) with
  | Ok (VAddress to, vs) =>
      match call CALL_DEPTH (mined (height w)) signer to 0
              (selector sig ++ abi_encode types vs) (chain w) with
      | Ok ch => (with_chain w ch, Ok tt)
      | Err _ => (with_chain w (chain w), Ok tt)
      end
  | Ok _ => (w, Err "invalid address")
  | Err e => (w, Err e)
  end.

(** A view call on a contract of a given type. *)
Definition view {A B} (prj : Code -> option A) (to : JsValue) (f : A -> B) : script B := fun w =>
  match coerce TAddress to with
  | Ok (VAddress a) =>
      match get prj (chain w) a with
      | Ok s => (w, Ok (f s))
      | Err _ => (w, Err "call revert exception")
      end
  | _ => (w, Err "invalid address")
  end.

(** *** Creating contracts *)

Definition creating (w : World) (a : address) : Msg :=
  {| sender := signer; self := a; block := mined (height w) |}.

Definition with_created (w : World) (ch : Chain) : World :=
  {| chain := ch; height := S (height w); creations := S (creations w);
     MainnetConfig := MainnetConfig w; TestnetConfig := TestnetConfig w;
     files := files w; console := console w |}.

(** A contract is created at the next address, with the state its constructor leaves; a
    constructor that reverts makes the script throw.  The records by which hardhat-deploy
    and the upgrades plugin reuse an earlier deployment are not modelled. *)
Definition create (p : option Proxy) (constructor : Msg -> Chain -> result (Chain * Code)) :
    script address := fun w =>
  let a := created (creations w) in
  match constructor (creating w a) (chain w) with
  | Ok (ch, c) => (with_created w (set_account ch a {| proxy := p; code := c |}), Ok a)
  | Err e => (w, Err e)
  end.

(** hardhat-deploy's [deploy(name, {from: deployer, args})] and [factory.deploy(...args)] *)
Definition deploy := create None.

(** [upgrades.deployProxy(factory, args)]: the implementation, then a proxy for it whose
    constructor runs [initialize(...args)]. *)
Definition deployProxy (initialize : Msg -> Chain -> result (Chain * Code)) : script address :=
  impl ← deploy (fun _ ch => Ok (ch, CLogic));
  create (Some {| proxy_admin := proxyAdmin; implementation := impl |}) initialize.

(** [upgrades.prepareUpgrade(proxy, factory)]: deploys a new implementation only. *)
Definition prepareUpgrade : script address :=
  deploy (fun _ ch => Ok (ch, CLogic)).

(** A constructor or initializer called with JavaScript arguments. *)
Definition with_args (types : list AbiType) (args : list JsValue)
    (f : Msg -> Chain -> list AbiValue -> result (Chain * Code)) (m : Msg) (ch : Chain) :
    result (Chain * Code) :=
  vs ← coerce_all types args; f m ch vs.
End Script.
