(* ===== verification/ScriptTheory.v ===== *)
(** * Reasoning about scripts

    Coerced arguments have their ABI types, so a transaction a script sends is the
    function it names; the lemmas here read off the effect of the primitives. *)

From S2P Require Import Prelude Buffers MerkleTree BalanceTree Evm.
From S2P Require Import Timelock TimelockTheory HuskyToken FairLaunch Lending Workers Chain ChainTheory Script.

#[global] Arguments call : simpl never.

Section Coercion.
Context `{AbiCoder}.

Lemma coerce_typed v : forall t x, coerce t v = Ok x -> has_type x t.
Proof.
  revert v. fix IH 1. intros v t x Hr.
  destruct v as [s|z|b|b|vs|fs|]; destruct t as [|n| | | |t|ts]; cbn in Hr;
    try discriminate Hr; try (injection Hr as <-; constructor).
  - inv_result. subst. constructor. by eapply getAddress_idemp.
  - inv_result. to_props. subst. constructor. lia.
  - inv_result. to_props. subst. constructor. lia.
  - apply bind_Ok in Hr as (xs & Hxs & Hr). injection Hr as <-. constructor.
    revert xs Hxs. induction vs as [|v vs IHvs]; intros xs Hxs; cbn in Hxs.
    + injection Hxs as <-. by intros x ?%elem_of_nil.
    + apply bind_Ok in Hxs as (y & Hy & Hxs). apply bind_Ok in Hxs as (ys & Hys & Hxs).
      injection Hxs as <-. intros x [->|Hx]%elem_of_cons; [by eapply IH|by eapply IHvs].
  - apply bind_Ok in Hr as (xs & Hxs & Hr). injection Hr as <-. constructor.
    revert ts xs Hxs. induction fs as [|[k v] fs IHfs]; intros [|t ts] xs Hxs; cbn in Hxs;
      try discriminate Hxs.
    + injection Hxs as <-. constructor.
    + apply bind_Ok in Hxs as (y & Hy & Hxs). apply bind_Ok in Hxs as (ys & Hys & Hxs).
      injection Hxs as <-. constructor; [by eapply IH|by eapply IHfs].
Qed.

Lemma coerce_all_typed ts vs xs : coerce_all ts vs = Ok xs -> have_types xs ts.
Proof.
  revert vs xs. induction ts as [|t ts IH]; intros [|v vs] xs Hr; cbn in Hr; try discriminate Hr.
  - injection Hr as <-. constructor.
  - apply bind_Ok in Hr as (y & Hy & Hr). apply bind_Ok in Hr as (ys & Hys & Hr).
    injection Hr as <-. constructor; [by eapply coerce_typed|by eapply IH].
Qed.

(** *** Coercing concrete arguments *)

Lemma coerce_address s a : getAddress s = Some a -> coerce TAddress (JStr s) = Ok (VAddress a).
Proof. cbn. by intros ->. Qed.

Lemma in_range n z : (0 <= z < 2 ^ n)%Z -> ((0 <=? z) && (z <? 2 ^ n))%Z = true.
Proof. intros [Hl Hu]. apply andb_true_iff. by rewrite Z.leb_le, Z.ltb_lt. Qed.

Lemma coerce_num n z : (0 <= z < 2 ^ n)%Z -> coerce (TUint n) (JNum z) = Ok (VUint z).
Proof. intros Hz. cbn [coerce to_uint mbind result_bind]. by rewrite in_range. Qed.

Lemma coerce_num_Err n z : (z < 0)%Z -> is_ok (coerce (TUint n) (JNum z)) = false.
Proof.
  intros Hz. cbn [coerce to_uint mbind result_bind].
  by replace (0 <=? z)%Z with false by (symmetry; apply Z.leb_gt; lia).
Qed.

Lemma coerce_decimal `{!EthersNumbers} n s z :
  decimal s = Some z -> (0 <= z < 2 ^ n)%Z -> coerce (TUint n) (JStr s) = Ok (VUint z).
Proof.
  intros Hs Hz. cbn [coerce to_uint]. rewrite (BigNumber_decimal _ _ Hs).
  cbn [of_option mbind result_bind]. by rewrite in_range.
Qed.

Lemma coerce_addresses ss ts :
  Forall2 (fun s a => getAddress s = Some a) ss ts ->
  coerce (TArray TAddress) (JArr (JStr <$> ss)) = Ok (VArray (VAddress <$> ts)).
Proof.
  intros Hs. cbn. enough ((fix go vs := match vs with
            | [] => Ok []
            | v :: vs => x ← coerce TAddress v; xs ← go vs; Ok (x :: xs)
            end) (JStr <$> ss) = Ok (VAddress <$> ts)) as -> by done.
  induction Hs as [|s t ss ts Hs _ IH]; [done|]. cbn [fmap list_fmap coerce]. rewrite Hs.
  cbn. cbn in IH. by rewrite IH.
Qed.

Lemma coerce_all_cons t ts v vs x xs :
  coerce t v = Ok x -> coerce_all ts vs = Ok xs -> coerce_all (t :: ts) (v :: vs) = Ok (x :: xs).
Proof. intros Hx Hxs. cbn [coerce_all]. by rewrite Hx, Hxs. Qed.

Lemma coerce_tuple ts fs vs :
  coerce_all ts fs.*2 = Ok vs -> coerce (TTuple ts) (JObj fs) = Ok (VTuple vs).
Proof.
  intros Hvs. cbn [coerce]. enough ((fix go (ts : list AbiType) (fs : list (string * JsValue)) {struct fs} :=
            match ts, fs with
            | [], [] => Ok []
            | t :: ts, (_, v) :: fs => x ← coerce t v; xs ← go ts fs; Ok (x :: xs)
            | _, _ => Err "types/value length mismatch"
            end) ts fs = Ok vs) as -> by done.
  revert fs vs Hvs. induction ts as [|t ts IH]; intros [|[k v] fs] vs Hvs; try done.
  cbn [coerce_all fmap list_fmap snd] in Hvs.
  apply bind_Ok in Hvs as (x & -> & Hvs). apply bind_Ok in Hvs as (xs & Hxs & Hvs).
  by rewrite (IH _ _ Hxs).
Qed.

Lemma coerce_array_one t v x :
  coerce t v = Ok x -> coerce (TArray t) (JArr [v]) = Ok (VArray [x]).
Proof. intros Hv. cbn [coerce]. by rewrite Hv. Qed.

(** An argument that is not a value of its type makes the call throw. *)
Lemma coerce_all_Err ts vs i t v :
  ts !! i = Some t -> vs !! i = Some v -> is_ok (coerce t v) = false ->
  is_ok (coerce_all ts vs) = false.
Proof.
  revert ts vs. induction i as [|i IH]; intros [|t' ts] [|v' vs] Ht Hv Hc; try done; cbn in *.
  - simplify_eq. by destruct (coerce t v).
  - destruct (coerce t' v'); cbn; [|done]. specialize (IH ts vs Ht Hv Hc).
    by destruct (coerce_all ts vs).
Qed.
End Coercion.

Section Sending.
Context `{AbiCoder} `{!OpenZeppelin} `{!Network} `{!Selectors}.

(** The message a contract at [a] sees of the next transaction. *)
Definition next_msg (w : World) (a : address) : Msg :=
  {| sender := signer; self := a; block := mined (height w) |}.

(** A transaction to a function of a contract runs that function. *)
Lemma send_method w to a acc mt args vs :
  getAddress to = Some a -> accounts (chain w) !! a = Some acc ->
  proxy_admin <$> proxy acc <> Some signer ->
  mt ∈ methods (call INNER_DEPTH) (code acc) -> coerce_all (m_types mt) args = Ok vs ->
  send (JStr to) (m_sig mt) (m_types mt) args w
  = match m_run mt (next_msg w a) (chain w) vs with
    | Ok ch => (with_chain w ch, Ok tt)
    | Err e => (w, Err e)
    end.
Proof.
  intros Ha Hacc Hadm Hin Hvs. unfold send. cbn [coerce]. rewrite Ha. cbn. rewrite Hvs. cbn.
  pose proof (call_method INNER_DEPTH (mined (height w)) signer a acc mt vs (chain w) Hacc Hadm Hin
    (coerce_all_typed _ _ _ Hvs)) as E.
  unfold encode_call in E. unfold CALL_DEPTH. by rewrite E.
Qed.

Lemma send_gasLimit_method w to a acc mt args vs :
  getAddress to = Some a -> accounts (chain w) !! a = Some acc ->
  proxy_admin <$> proxy acc <> Some signer ->
  mt ∈ methods (call INNER_DEPTH) (code acc) -> coerce_all (m_types mt) args = Ok vs ->
  send_gasLimit (JStr to) (m_sig mt) (m_types mt) args w
  = match m_run mt (next_msg w a) (chain w) vs with
    | Ok ch => (with_chain w ch, Ok tt)
    | Err e => (with_chain w (chain w), Ok tt)
    end.
Proof.
  intros Ha Hacc Hadm Hin Hvs. unfold send_gasLimit. cbn [coerce]. rewrite Ha. cbn. rewrite Hvs. cbn.
  pose proof (call_method INNER_DEPTH (mined (height w)) signer a acc mt vs (chain w) Hacc Hadm Hin
    (coerce_all_typed _ _ _ Hvs)) as E.
  unfold encode_call in E. unfold CALL_DEPTH. by rewrite E.
Qed.

Lemma script_bind_Ok {A B} (f : script A) (g : A -> script B) w w' r :
  (f ≫= g) w = (w', r) ->
  (exists w1 a, f w = (w1, Ok a) /\ g a w1 = (w', r)) \/
  (exists e, f w = (w', Err e) /\ r = Err e).
Proof.
  unfold mbind, script_bind. destruct (f w) as [w1 [a|e]]; intros Hr; [left; eauto|right].
  injection Hr as -> <-. eauto.
Qed.

Lemma bind_run {A B} (f : script A) (g : A -> script B) w w1 a :
  f w = (w1, Ok a) -> (f ≫= g) w = g a w1.
Proof. unfold mbind, script_bind. by intros ->. Qed.

Lemma bind_throw {A B} (f : script A) (g : A -> script B) w w1 e :
  f w = (w1, Err e) -> (f ≫= g) w = (w1, Err e).
Proof. unfold mbind, script_bind. by intros ->. Qed.

(** *** The configuration and its file *)

(** The world after the configuration has been replaced and written out. *)
Definition saved (w : World) (j : Json) : World :=
  (write network_name j (with_config w j)).1.

Lemma config_of_with_config w j : config_of (with_config w j) = j.
Proof. unfold config_of, with_config. by destruct (bool_decide _). Qed.

Lemma config_of_saved w j : config_of (saved w j) = j.
Proof. apply config_of_with_config. Qed.

Lemma save_eq w j : (set_config j ;; save_config) w = (saved w j, Ok tt).
Proof.
  unfold saved, set_config, save_config, get_config, mbind, script_bind.
  by rewrite config_of_with_config.
Qed.

Lemma get_config_eq w : get_config w = (w, Ok (config_of w)).
Proof. done. Qed.

Lemma with_config_twice w j j' : with_config (with_config w j) j' = with_config w j'.
Proof. unfold with_config. cbn. by destruct (bool_decide _). Qed.

(** *** Creating contracts *)

Lemma deploy_eq w types args vs f ch c :
  coerce_all types args = Ok vs ->
  f (creating w (created (creations w))) (chain w) vs = Ok (ch, c) ->
  deploy (with_args types args f) w
  = (with_created w (set_account ch (created (creations w)) {| proxy := None; code := c |}),
     Ok (created (creations w))).
Proof.
  intros Hvs Hf. unfold deploy, create, with_args. rewrite Hvs. cbn [mbind result_bind].
  by rewrite Hf.
Qed.

(** The world after the implementation of a proxy has been deployed. *)
Definition with_impl (w : World) : World :=
  with_created w (set_account (chain w) (created (creations w))
                    {| proxy := None; code := CLogic |}).

Definition new_proxy (w : World) : Proxy :=
  {| proxy_admin := proxyAdmin; implementation := created (creations w) |}.

(** The address of the proxy that [deployProxy] creates. *)
Definition proxy_address (w : World) : address := created (S (creations w)).

Lemma deployProxy_eq w types args vs f ch c :
  coerce_all types args = Ok vs ->
  f (creating (with_impl w) (proxy_address w)) (chain (with_impl w)) vs = Ok (ch, c) ->
  deployProxy (with_args types args f) w
  = (with_created (with_impl w)
       (set_account ch (proxy_address w) {| proxy := Some (new_proxy w); code := c |}),
     Ok (proxy_address w)).
Proof.
  intros Hvs Hf. unfold deployProxy, deploy, create, with_args, mbind, script_bind.
  unfold with_impl, proxy_address in *. cbn [creations with_created].
  rewrite Hvs. cbn [result_bind]. by rewrite Hf.
Qed.

(** An argument that does not coerce: the implementation stays behind. *)
Lemma deployProxy_Err w types args f :
  is_ok (coerce_all types args) = false ->
  exists e, deployProxy (with_args types args f) w = (with_impl w, Err e).
Proof.
  intros Hc. unfold deployProxy, deploy, create, with_args, mbind, script_bind, with_impl.
  destruct (coerce_all types args) as [|e]; [done|]. by exists e.
Qed.
End Sending.
