(* ===== verification/Effects.v ===== *)
(** * Effects of transactions

    The effect of a run of transactions on the accounts of the chain, as a function per
    account, and the call of an owner's function by a script: with these the theorems on
    scripts compose what single transactions do. *)

From S2P Require Import Prelude Buffers MerkleTree BalanceTree Evm.
From S2P Require Import Timelock TimelockTheory HuskyToken FairLaunch Lending Workers Chain ChainTheory.
From S2P Require Import Script ScriptTheory.

Section Effects.
Context `{AbiCoder} `{!OpenZeppelin} `{!Network} `{!EthersNumbers} `{!Selectors}.

(** ** Effects *)

(** From [w] to [w'] every account has been changed by [f], and nothing else has. *)
Record effects (w w' : World) (f : address -> Account -> Account) : Prop := {
  ef_accounts : forall a, accounts (chain w') !! a = f a <$> accounts (chain w) !! a;
  ef_creations : creations w' = creations w;
  ef_config : config_of w' = config_of w;
  ef_files : files w' = files w
}.

Lemma effects_trans w1 w2 w3 f g :
  effects w1 w2 f -> effects w2 w3 g -> effects w1 w3 (fun a acc => g a (f a acc)).
Proof.
  intros [A1 C1 J1 F1] [A2 C2 J2 F2]. split; [|congruence..].
  intros a. rewrite A2, A1. by destruct (_ !! a).
Qed.

Lemma effects_ext w w' f g :
  (forall a acc, accounts (chain w) !! a = Some acc -> f a acc = g a acc) ->
  effects w w' f -> effects w w' g.
Proof.
  intros E [A C J F]. split; [|done..]. intros a. rewrite A.
  destruct (_ !! a) as [acc|] eqn:Ha; [|done]. cbn. by rewrite E.
Qed.

(** The code at [a] replaced by [g] of it. *)
Definition at_code (a : address) (g : Code -> Code) (b : address) (acc : Account) : Account :=
  if decide (b = a) then {| proxy := proxy acc; code := g (code acc) |} else acc.

Lemma at_code_eq a g p c : at_code a g a {| proxy := p; code := c |} = {| proxy := p; code := g c |}.
Proof. unfold at_code. by rewrite decide_True. Qed.

Lemma at_code_ne a g b acc : b <> a -> at_code a g b acc = acc.
Proof. intros. unfold at_code. by rewrite decide_False. Qed.

(** A transaction to a function of one contract's own state. *)
Lemma send_own {A} (prj : Code -> option A) (inj : A -> Code) (f : Msg -> A -> result A)
    w to a p c x x' mt args vs :
  getAddress to = Some a -> accounts (chain w) !! a = Some {| proxy := p; code := c |} ->
  proxy_admin <$> p <> Some signer -> mt ∈ methods (call INNER_DEPTH) c ->
  coerce_all (m_types mt) args = Ok vs ->
  (forall m ch, m_run mt m ch vs = own prj inj f m ch) ->
  prj c = Some x -> f (next_msg w a) x = Ok x' ->
  exists w', send (JStr to) (m_sig mt) (m_types mt) args w = (w', Ok tt) /\
    effects w w' (at_code a (fun _ => inj x')).
Proof.
  intros Hto Ha Hp Hmt Hvs Hrun Hx Hf.
  rewrite (send_method w to a _ mt args vs Hto Ha Hp Hmt Hvs), Hrun.
  unfold own, get, code_at. cbn [self next_msg]. rewrite Ha. cbn. rewrite Hx. cbn. rewrite Hf. cbn.
  eexists. split; [done|]. split; try done. intros b. cbn. rewrite Ha. cbn.
  unfold at_code. destruct (decide (b = a)) as [->|].
  - by rewrite lookup_insert_eq, Ha.
  - rewrite lookup_insert_ne by done. by destruct (_ !! b).
Qed.

(** ** The deployer's contracts *)

(** A contract of the deployer, reached through a proxy with another administrator. *)
Definition held (w : World) (a : address) (c : Code) : Prop :=
  exists p, accounts (chain w) !! a = Some {| proxy := p; code := c |} /\
    proxy_admin <$> p <> Some signer /\ owner_of c = Some signer.

Lemma held_effects w w' f a c c' :
  effects w w' f -> held w a c ->
  (forall p, f a {| proxy := p; code := c |} = {| proxy := p; code := c' |}) ->
  owner_of c' = Some signer -> held w' a c'.
Proof.
  intros E (p & Ha & Hp & _) Hf Ho. exists p. rewrite (ef_accounts _ _ _ E), Ha. cbn. by rewrite Hf.
Qed.

(** ** Arguments *)

(** An optional string that denotes an address. *)
Definition denotes (o : option string) (a : address) : Prop :=
  exists s, o = Some s /\ getAddress s = Some a.

Lemma coerce_denotes o a : denotes o a -> coerce TAddress (js_opt o) = Ok (VAddress a).
Proof. intros (s & -> & Hs). by apply coerce_address. Qed.

Lemma coerce_one_address s a :
  getAddress s = Some a -> coerce (TArray TAddress) (JArr [JStr s]) = Ok (VArray [VAddress a]).
Proof. intros Hs. apply (coerce_addresses [s] [a]). by repeat constructor. Qed.

Lemma coerce_all_denote os ts :
  Forall2 denotes os ts ->
  coerce (TArray TAddress) (JArr (js_opt <$> os)) = Ok (VArray (VAddress <$> ts)).
Proof.
  intros Hos. assert (exists ss, js_opt <$> os = JStr <$> ss /\
    Forall2 (fun s a => getAddress s = Some a) ss ts) as (ss & -> & Hss).
  { induction Hos as [|o t os ts (s & -> & Hs) _ (ss & E & Hss)]; [by exists []|].
    exists (s :: ss). cbn. rewrite E. split; [done|]. by constructor. }
  by apply coerce_addresses.
Qed.

Lemma array_addresses ts : array as_address (VAddress <$> ts) = Ok ts.
Proof.
  unfold array. assert (mapM as_address (VAddress <$> ts) = Some ts) as ->; [|done].
  induction ts as [|t ts IH]; [done|]. cbn in *. by rewrite IH.
Qed.
End Effects.
