(* ===== verification/TimelockScripts.v ===== *)
(** * The timelock setup scripts

    The scripts of src/deploy/setup that queue transactions on the timelock and
    print the command that executes them.  The constants are those of the files;
    each script is a function of the constants its operator edits. *)

From S2P Require Import Prelude Buffers MerkleTree BalanceTree Evm.
From S2P Require Import Timelock HuskyToken FairLaunch Lending Workers Chain Script.
From stdpp Require Import pretty.

(** A number as a template literal prints it: a string of digits reads back as a number. *)
Definition js_number (s : string) : JsValue :=
  match decimal s with Some z => JNum z | None => JUndefined end.

Definition js_strings (l : list string) : JsValue := JArr (JStr <$> l).

Definition ADDRESSES : AbiType := TArray TAddress.

Section Scripts.
Context `{AbiCoder} `{!OpenZeppelin} `{!Network} `{!EthersNumbers}.

(** [await timelock.queueTransaction(target, '0', signature, encode(types, args), eta)] *)
Definition queue (timelock target signature : string) (types : list AbiType)
    (args : list JsValue) (eta : string) : script unit :=
  data ← lift (encode types args);
  send (JStr timelock) (m_sig m_queueTransaction) txTypes
    [JStr target; JStr "0"; JStr signature; JBytes data; JStr eta].

(** [console.log(`await timelock.executeTransaction('target', '0', 'signature',
    ethers.utils.defaultAbiCoder.encode(types, args), eta)`)] *)
Definition print_execute (target signature : string) (types : list AbiType)
    (args : list JsValue) (eta : string) : script unit :=
  print {| cmd_target := target; cmd_value := JStr "0"; cmd_sig := signature;
           cmd_types := types; cmd_args := args; cmd_eta := js_number eta |}.

(** ** s001: enable a strategy on a worker *)

Definition s001_func (WORKER_ADDR STRATEGY_ADDR : string) (IS_ENABLE : bool)
    (TIMELOCK EXACT_ETA : string) : script unit :=
  let types := [ADDRESSES; TBool] in
  let args := [js_strings [STRATEGY_ADDR]; JBool IS_ENABLE] in
  queue TIMELOCK WORKER_ADDR "setStrategyOk(address[],bool)" types args EXACT_ETA ;;
  print_execute WORKER_ADDR "setStrategyOk(address[],bool)" types args EXACT_ETA.

Definition s001 : script unit :=
  s001_func "0xF3ECC0e5c238C7082fC59e682104DEA2f49A3787" "0xA4047bdA5288BC718E4a3De68781dA4D7e801e82" true
    "0x771F70042ebb6d2Cfc29b7BF9f3caf9F959385B8" "1615447380".

(** ** s007: upgrade a vault, and change its debt token *)

Definition s007_func (PROXY_ADMIN NEW_IMPL TO_BE_UPGRADE_VAULT TIMELOCK EXACT_ETA
    NEW_DEBT_TOKEN DEBT_PID : string) : script unit :=
  newImpl ← (if bool_decide (NEW_IMPL = EmptyString) then prepareUpgrade else mret NEW_IMPL);
  let types := [TAddress; TAddress] in
  let args := [JStr TO_BE_UPGRADE_VAULT; JStr newImpl] in
  queue TIMELOCK PROXY_ADMIN "upgrade(address,address)" types args EXACT_ETA ;;
  print_execute PROXY_ADMIN "upgrade(address,address)" types args EXACT_ETA ;;
  if bool_decide (NEW_DEBT_TOKEN <> EmptyString) then
    let types := [TAddress; TUint 256] in
    queue TIMELOCK TO_BE_UPGRADE_VAULT "updateDebtToken(address,uint256)" types
      [JStr NEW_DEBT_TOKEN; JStr DEBT_PID] EXACT_ETA ;;
    print_execute TO_BE_UPGRADE_VAULT "updateDebtToken(address,uint256)" types
      [JStr NEW_DEBT_TOKEN; js_number DEBT_PID] EXACT_ETA
  else mret tt.

Definition s007 : script unit :=
  s007_func "0x5379F32C8D5F663EACb61eeF63F722950294f452"
    "0x7EEAA96bf1aBaA206615046c0991E678a2b12Da1"
    "0x7C9e73d4C71dae564d41F78d56439bB4ba87592f"
    "0x2D5408f2287BF9F9B05404794459a846651D0a59" "1616574600"
    "0x02dA7035beD00ae645516bDb0c282A7fD4AA7442" "7".

(** ** s009: hand proxies over to the proxy admin *)

Definition s009_func (PROXY_ADDRESSES : list string) (PROXY_ADMIN TIMELOCK EXACT_ETA : string) :
    script unit :=
  for_each (fun p =>
    queue TIMELOCK p "changeAdmin(address)" [TAddress] [JStr PROXY_ADMIN] EXACT_ETA ;;
    print_execute p "changeAdmin(address)" [TAddress] [JStr PROXY_ADMIN] EXACT_ETA)
    PROXY_ADDRESSES.

Definition s009 : script unit :=
  s009_func
    ["0x166f56F2EDa9817cAB77118AE4FCAA0002A17eC7";
     "0xADaBC5FC5da42c85A84e66096460C769a151A8F8";
     "0x53dbb71303ad0F9AFa184B8f7147F9f12Bb5Dc01";
     "0xd7D069493685A581d27824Fc46EdA46B7EfC0063";
     "0xd7b805E88c5F52EDE71a9b93F7048c8d632DBEd4";
     "0x7C9e73d4C71dae564d41F78d56439bB4ba87592f"]
    "0x5379F32C8D5F663EACb61eeF63F722950294f452"
    "0x2D5408f2287BF9F9B05404794459a846651D0a59" "1615789200".

(** ** s010: new parameters for vault configurations *)

Record s010_Params := {
  s010_VAULT_NAME : string;
  s010_VAULT_CONFIG : string;
  s010_MIN_DEBT_SIZE : string;      (* in ether, the argument of [parseEther] *)
  s010_RESERVE_POOL_BPS : string;
  s010_KILL_PRIZE_BPS : string;
  s010_INTEREST_MODEL : string;
  s010_WBNB : string;
  s010_WNATIVE_RELAYER : string;
  s010_FAIRLAUNCH : string;
  s010_TIMELOCK : string;
  s010_EXACT_ETA : string
}.

Definition s010_SIGNATURE : string :=
  "setParams(uint256,uint256,uint256,address,address,address,address)".

Definition s010_func (NEW_PARAMS : list s010_Params) : script unit :=
  sizes ← lift (mapM (fun p =>
    of_option (parseEther (s010_MIN_DEBT_SIZE p)) "invalid decimal value") NEW_PARAMS);
  for_each (fun '(p, minDebt) =>
    let types := [TUint 256; TUint 256; TUint 256; TAddress; TAddress; TAddress; TAddress] in
    let args minDebt := [minDebt; JStr (s010_RESERVE_POOL_BPS p); JStr (s010_KILL_PRIZE_BPS p);
      JStr (s010_INTEREST_MODEL p); JStr (s010_WBNB p); JStr (s010_WNATIVE_RELAYER p);
      JStr (s010_FAIRLAUNCH p)] in
    queue (s010_TIMELOCK p) (s010_VAULT_CONFIG p) s010_SIGNATURE types (args (JNum minDebt))
      (s010_EXACT_ETA p) ;;
    print_execute (s010_VAULT_CONFIG p) s010_SIGNATURE types (args (JStr (pretty minDebt)))
      (s010_EXACT_ETA p))
    (zip NEW_PARAMS sizes).

Definition s010_NEW_PARAMS : list s010_Params :=
  [{| s010_VAULT_NAME := "BNB";
        s010_VAULT_CONFIG := "0x53dbb71303ad0F9AFa184B8f7147F9f12Bb5Dc01";
        s010_MIN_DEBT_SIZE := "2";
        s010_RESERVE_POOL_BPS := "1000";
        s010_KILL_PRIZE_BPS := "500";
        s010_INTEREST_MODEL := "0x375D32FadA30d7e6Fea242FCa221a22CC6d52B30";
        s010_WBNB := "0xbb4CdB9CBd36B01bD1cBaEBF2De08d9173bc095c";
        s010_WNATIVE_RELAYER := "0xE1D2CA01bc88F325fF7266DD2165944f3CAf0D3D";
        s010_FAIRLAUNCH := "0xA625AB01B08ce023B2a342Dbb12a16f2C8489A8F";
        s010_TIMELOCK := "0x2D5408f2287BF9F9B05404794459a846651D0a59";
        s010_EXACT_ETA := "1617926400" |};
   {| s010_VAULT_NAME := "BUSD";
        s010_VAULT_CONFIG := "0xd7b805E88c5F52EDE71a9b93F7048c8d632DBEd4";
        s010_MIN_DEBT_SIZE := "400";
        s010_RESERVE_POOL_BPS := "1000";
        s010_KILL_PRIZE_BPS := "500";
        s010_INTEREST_MODEL := "0x375D32FadA30d7e6Fea242FCa221a22CC6d52B30";
        s010_WBNB := "0xbb4CdB9CBd36B01bD1cBaEBF2De08d9173bc095c";
        s010_WNATIVE_RELAYER := "0xE1D2CA01bc88F325fF7266DD2165944f3CAf0D3D";
        s010_FAIRLAUNCH := "0xA625AB01B08ce023B2a342Dbb12a16f2C8489A8F";
        s010_TIMELOCK := "0x2D5408f2287BF9F9B05404794459a846651D0a59";
        s010_EXACT_ETA := "1617926400" |}].

Definition s010 : script unit := s010_func s010_NEW_PARAMS.

(** ** s011: new risk parameters for workers *)

Record s011_Update := {
  s011_WORKER_ADDRESS : string;
  s011_ACCEPT_DEBT : bool;
  s011_WORK_FACTOR : string;
  s011_KILL_FACTOR : string;
  s011_MAX_PRICE_DIFF : string
}.

(** The worker's configuration as an object literal; [num] is how its numbers are written. *)
Definition s011_config (num : string -> JsValue) (u : s011_Update) : JsValue :=
  JObj [("acceptDebt", JBool (s011_ACCEPT_DEBT u)); ("workFactor", num (s011_WORK_FACTOR u));
        ("killFactor", num (s011_KILL_FACTOR u)); ("maxPriceDiff", num (s011_MAX_PRICE_DIFF u))].

Definition s011_func (WORKER_CONFIG_ADDR : string) (UPDATES : list s011_Update)
    (TIMELOCK EXACT_ETA : string) : script unit :=
  for_each (fun u =>
    let types := [ADDRESSES; TArray CONFIG] in
    let args num := [js_strings [s011_WORKER_ADDRESS u]; JArr [s011_config num u]] in
    queue TIMELOCK WORKER_CONFIG_ADDR "setConfigs(address[],(bool,uint64,uint64,uint64)[])"
      types (args JStr) EXACT_ETA ;;
    print_execute WORKER_CONFIG_ADDR "setConfigs(address[],(bool,uint64,uint64,uint64)[])"
      types (args js_number) EXACT_ETA)
    UPDATES.

Definition s011 : script unit :=
  s011_func "0xADaBC5FC5da42c85A84e66096460C769a151A8F8"
    [{| s011_WORKER_ADDRESS := "0xC5954CA8988988362f60498d5aDEc67BA466492B"; s011_ACCEPT_DEBT := true;
        s011_WORK_FACTOR := "8600"; s011_KILL_FACTOR := "9200";
        s011_MAX_PRICE_DIFF := "11000" |}]
    "0x2D5408f2287BF9F9B05404794459a846651D0a59" "1622300700".

(** ** s012: disable strategies on workers *)

(** [OK_FLAG] is declared and never read; the flag sent is [false]. *)
Definition s012_OK_FLAG : bool := false.

Definition s012_func (STRATEGY : list string) (ADD_STRAT LIQ_STRAT : string)
    (WORKERS : list string) (TIMELOCK EXACT_ETA : string) : script unit :=
  for_each (fun worker =>
    (if truthy (JStr ADD_STRAT) && truthy (JStr LIQ_STRAT) then
       let types := [TAddress; TAddress] in
       let args := [JStr ADD_STRAT; JStr LIQ_STRAT] in
       queue TIMELOCK worker "setCriticalStrategies(address,address)" types args EXACT_ETA ;;
       print_execute worker "setCriticalStrategies(address,address)" types args EXACT_ETA
     else mret tt) ;;
    let types := [ADDRESSES; TBool] in
    let args := [js_strings STRATEGY; JBool false] in
    queue TIMELOCK worker "setStrategyOk(address[],bool)" types args EXACT_ETA ;;
    print_execute worker "setStrategyOk(address[],bool)" types args EXACT_ETA)
    WORKERS.

Definition s012 : script unit :=
  s012_func
    ["0xd80783De91fbEd9F7995A97D4C02917295F86F68";
     "0xE38EBFE8F314dcaD61d5aDCB29c1A26F41BEd0Be";
     "0xE574dc08aa579720Dfacd70D3DAE883d29874599";
     "0x95Ff1336985723aa46078995454d7A7Fd9F5401e"]
    EmptyString EmptyString ["0xeF1C5D2c20b22Ae50437a2F3bd258Ab1117D1BaD"]
    "0x2D5408f2287BF9F9B05404794459a846651D0a59" "1620561000".

(** ** s014: upgrade workers *)

Definition s014_func (PROXY_ADMIN NEW_IMPL : string) (TO_BE_UPGRADE_WORKERS : list string)
    (TIMELOCK EXACT_ETA : string) : script unit :=
  newImpl ← (if bool_decide (NEW_IMPL = EmptyString) then prepareUpgrade else mret NEW_IMPL);
  for_each (fun worker =>
    let types := [TAddress; TAddress] in
    let args := [JStr worker; JStr newImpl] in
    queue TIMELOCK PROXY_ADMIN "upgrade(address,address)" types args EXACT_ETA ;;
    print_execute PROXY_ADMIN "upgrade(address,address)" types args EXACT_ETA)
    TO_BE_UPGRADE_WORKERS.

Definition s014 : script unit :=
  s014_func "0x5379F32C8D5F663EACb61eeF63F722950294f452" "0xcac73A0f24968e201c2cc326edbC92A87666b430"
    ["0x7Af938f0EFDD98Dc513109F6A7E85106D26E16c4";
     "0x0aD12Bc160B523E7aBfBe3ABaDceE8F1b6116089";
     "0x831332f94C4A0092040b28ECe9377AfEfF34B25a";
     "0x05bDF33f03017eaFdEEccD68406E1281a1deF62d";
     "0xA1644132Ca692ba0657637A31CE0F6B99f052C5E";
     "0xDcd9f075B1Ff638e757226626a3b3606D7795f80";
     "0xBB77F1625c4C3374ea0BAF42FAC74F7b7Ae9E4c6";
     "0x2E7f32e38EA5a5fcb4494d9B626d2d393B176B1E";
     "0x4193D35D0cB598d92703ED69701f5d568aCa015c";
     "0xa726E9E5c007253fe7589879136FDf24dA6DA393";
     "0x9B13982d094b4fCca4aFF741A96834ff66E4d8bd";
     "0x730bce145a55A07C2D7363db7110466c5c26E472";
     "0xC5954CA8988988362f60498d5aDEc67BA466492B";
     "0x51782E39A0aF33f542443419c223434Bb4A5a695";
     "0x693430Fe5F1b0a61b232132d0567295c288eA482";
     "0xB82B93FcF1818513889c0E1F3628484Ce5017A14";
     "0xe632ac75f2d0A97F7b1ef3a8a16d653C4c82b1fb";
     "0xeBdECF3a21D95453A89440A4E32B9559E47073E7";
     "0x2C4a246e532542DFaE3d575003C7f5c6583BFD8c";
     "0xd6260DB3A84C7BfdAFcD82325397B8E70B39627f";
     "0xaA5c95181c02DfB8173813149e52c8C9E4E14124";
     "0xeF1C5D2c20b22Ae50437a2F3bd258Ab1117D1BaD"]
    "0x2D5408f2287BF9F9B05404794459a846651D0a59" "1620575100".

(** ** s015: migrate workers to new liquidity pools *)

Record IMigrateLPParams := {
  WORKER_NAME : string;
  WORKER_ADDR : string;
  ROUTER_V2 : string;
  NEW_POOL_ID : string;
  TWOSIDE_OPTIMAL_MIGRATION_STRAT_ADDR : string;
  ADD_STRAT : string;
  LIQ_STRAT : string;
  OK_STRATS : list string;
  DISABLE_STRATS : list string
}.

Definition s015_SIGNATURE : string :=
  "migrateLP(address,uint256,address,address,address,address[],address[])".

Definition s015_func (MIGRATIONS : list IMigrateLPParams) (TIMELOCK EXACT_ETA : string) :
    script unit :=
  for_each (fun migration =>
    let types := [TAddress; TUint 256; TAddress; TAddress; TAddress; ADDRESSES; ADDRESSES] in
    let args := [JStr (ROUTER_V2 migration); JStr (NEW_POOL_ID migration);
      JStr (TWOSIDE_OPTIMAL_MIGRATION_STRAT_ADDR migration); JStr (ADD_STRAT migration);
      JStr (LIQ_STRAT migration); js_strings (OK_STRATS migration);
      js_strings (DISABLE_STRATS migration)] in
    queue TIMELOCK (WORKER_ADDR migration) s015_SIGNATURE types args EXACT_ETA ;;
    print_execute (WORKER_ADDR migration) s015_SIGNATURE types args EXACT_ETA)
    MIGRATIONS.

Definition s015 : script unit :=
  s015_func
   [{| WORKER_NAME := "COMP-ETH Worker";
      WORKER_ADDR := "0xd6260DB3A84C7BfdAFcD82325397B8E70B39627f";
      ROUTER_V2 := "0x10ED43C718714eb63d5aA57B78B54704E256024E";
      NEW_POOL_ID := "300";
      TWOSIDE_OPTIMAL_MIGRATION_STRAT_ADDR := "0xb222b4Ebebcb9F264e8FF5C7661a52850e54E1eE";
      ADD_STRAT := "0xE38EBFE8F314dcaD61d5aDCB29c1A26F41BEd0Be";
      LIQ_STRAT := "0xE574dc08aa579720Dfacd70D3DAE883d29874599";
      OK_STRATS := ["0x95Ff1336985723aa46078995454d7A7Fd9F5401e";
           "0x74EEC507b01AAcc192B295B7b7EB6F5DaEE68b1B"];
      DISABLE_STRATS := ["0x1DBa79e73a7Ea9749fc28B921bc9431D09BEf2B5";
           "0xc7c025aA69F4b525E3F9f5186b524492ee1C86bB";
           "0xEb6e0B9839b297322a6FaEc0cEBC6d3e207b7480";
           "0x5e2911d70d7a659Da0dA26989F445aeCAC58f2E6"] |};
    {| WORKER_NAME := "SUSHI-ETH Worker";
      WORKER_ADDR := "0xaA5c95181c02DfB8173813149e52c8C9E4E14124";
      ROUTER_V2 := "0x10ED43C718714eb63d5aA57B78B54704E256024E";
      NEW_POOL_ID := "306";
      TWOSIDE_OPTIMAL_MIGRATION_STRAT_ADDR := "0xb222b4Ebebcb9F264e8FF5C7661a52850e54E1eE";
      ADD_STRAT := "0xE38EBFE8F314dcaD61d5aDCB29c1A26F41BEd0Be";
      LIQ_STRAT := "0xE574dc08aa579720Dfacd70D3DAE883d29874599";
      OK_STRATS := ["0x95Ff1336985723aa46078995454d7A7Fd9F5401e";
           "0x74EEC507b01AAcc192B295B7b7EB6F5DaEE68b1B"];
      DISABLE_STRATS := ["0x1DBa79e73a7Ea9749fc28B921bc9431D09BEf2B5";
           "0xc7c025aA69F4b525E3F9f5186b524492ee1C86bB";
           "0xEb6e0B9839b297322a6FaEc0cEBC6d3e207b7480";
           "0x5e2911d70d7a659Da0dA26989F445aeCAC58f2E6"] |}] "0x2D5408f2287BF9F9B05404794459a846651D0a59" "1619265600".

(** ** s016: reset token approvals of workers *)

Record IResetApprovalParams := {
  s016_WORKER_NAME : string;
  s016_WORKER_ADDR : string;
  s016_RESET_APPROVED : list (string * string)      (* TOKEN, SPENDER *)
}.

Definition s016_func (RESET_APPROVED : list IResetApprovalParams) (TIMELOCK EXACT_ETA : string) :
    script unit :=
  for_each (fun r =>
    for_each (fun ts : string * string =>
      let types := [TAddress; TAddress] in
      let args := [JStr ts.1; JStr ts.2] in
      queue TIMELOCK (s016_WORKER_ADDR r) "resetApproval(address,address)" types args EXACT_ETA ;;
      print_execute (s016_WORKER_ADDR r) "resetApproval(address,address)" types args EXACT_ETA)
      (s016_RESET_APPROVED r))
    RESET_APPROVED.

(** The list of the file, in two halves. *)
Definition s016_RESET_APPROVED_1 : list IResetApprovalParams :=
  [{| s016_WORKER_NAME := "CAKE-WBNB Worker"; s016_WORKER_ADDR := "0x7Af938f0EFDD98Dc513109F6A7E85106D26E16c4";
      s016_RESET_APPROVED :=
       [("0x0e09fabb73bd3ade0a17ecc321fd13a19e81ce82",
         "0x7F8BE608D72d5Eb51E231B1F9a3e25823fDe0900");
        ("0xa527a61703d82139f8a06bc30097cc9caa2df5a6",
         "0x2AD2C5314028897AEcfCF37FD923c079BeEb2C56");
        ("0xa527a61703d82139f8a06bc30097cc9caa2df5a6",
         "0x73feaa1eE314F8c655E354234017bE2193C9E24E")] |};
   {| s016_WORKER_NAME := "BTCB-WBNB Worker"; s016_WORKER_ADDR := "0x0aD12Bc160B523E7aBfBe3ABaDceE8F1b6116089";
      s016_RESET_APPROVED :=
       [("0x7130d2a12b9bcbfae4f2634d864a1ee1ce3ead9c",
         "0x7F8BE608D72d5Eb51E231B1F9a3e25823fDe0900");
        ("0x7561eee90e24f3b348e1087a005f78b4c8453524",
         "0x2AD2C5314028897AEcfCF37FD923c079BeEb2C56");
        ("0x7561eee90e24f3b348e1087a005f78b4c8453524",
         "0x73feaa1eE314F8c655E354234017bE2193C9E24E")] |};
   {| s016_WORKER_NAME := "ETH-WBNB Worker"; s016_WORKER_ADDR := "0x831332f94C4A0092040b28ECe9377AfEfF34B25a";
      s016_RESET_APPROVED :=
       [("0x2170ed0880ac9a755fd29b2688956bd959f933f8",
         "0x7F8BE608D72d5Eb51E231B1F9a3e25823fDe0900");
        ("0x70d8929d04b60af4fb9b58713ebcf18765ade422",
         "0x2AD2C5314028897AEcfCF37FD923c079BeEb2C56");
        ("0x70d8929d04b60af4fb9b58713ebcf18765ade422",
         "0x73feaa1eE314F8c655E354234017bE2193C9E24E")] |};
   {| s016_WORKER_NAME := "DOT-WBNB Worker"; s016_WORKER_ADDR := "0x05bDF33f03017eaFdEEccD68406E1281a1deF62d";
      s016_RESET_APPROVED :=
       [("0x7083609fce4d1d8dc0c979aab8c869ea2c873402",
         "0x7F8BE608D72d5Eb51E231B1F9a3e25823fDe0900");
        ("0xbCD62661A6b1DEd703585d3aF7d7649Ef4dcDB5c",
         "0x2AD2C5314028897AEcfCF37FD923c079BeEb2C56");
        ("0xbCD62661A6b1DEd703585d3aF7d7649Ef4dcDB5c",
         "0x73feaa1eE314F8c655E354234017bE2193C9E24E")] |};
   {| s016_WORKER_NAME := "UNI-WBNB Worker"; s016_WORKER_ADDR := "0xA1644132Ca692ba0657637A31CE0F6B99f052C5E";
      s016_RESET_APPROVED :=
       [("0xbf5140a22578168fd562dccf235e5d43a02ce9b1",
         "0x7F8BE608D72d5Eb51E231B1F9a3e25823fDe0900");
        ("0x4269e7F43A63CEA1aD7707Be565a94a9189967E9",
         "0x2AD2C5314028897AEcfCF37FD923c079BeEb2C56");
        ("0x4269e7F43A63CEA1aD7707Be565a94a9189967E9",
         "0x73feaa1eE314F8c655E354234017bE2193C9E24E")] |};
   {| s016_WORKER_NAME := "LINK-WBNB Worker"; s016_WORKER_ADDR := "0xDcd9f075B1Ff638e757226626a3b3606D7795f80";
      s016_RESET_APPROVED :=
       [("0xf8a0bf9cf54bb92f17374d9e9a321e6a111a51bd",
         "0x7F8BE608D72d5Eb51E231B1F9a3e25823fDe0900");
        ("0xaeBE45E3a03B734c68e5557AE04BFC76917B4686",
         "0x2AD2C5314028897AEcfCF37FD923c079BeEb2C56");
        ("0xaeBE45E3a03B734c68e5557AE04BFC76917B4686",
         "0x73feaa1eE314F8c655E354234017bE2193C9E24E")] |};
   {| s016_WORKER_NAME := "XVS-WBNB Worker"; s016_WORKER_ADDR := "0xBB77F1625c4C3374ea0BAF42FAC74F7b7Ae9E4c6";
      s016_RESET_APPROVED :=
       [("0xcf6bb5389c92bdda8a3747ddb454cb7a64626c63",
         "0x7F8BE608D72d5Eb51E231B1F9a3e25823fDe0900");
        ("0x41182c32F854dd97bA0e0B1816022e0aCB2fc0bb",
         "0x2AD2C5314028897AEcfCF37FD923c079BeEb2C56");
        ("0x41182c32F854dd97bA0e0B1816022e0aCB2fc0bb",
         "0x73feaa1eE314F8c655E354234017bE2193C9E24E")] |};
   {| s016_WORKER_NAME := "YFI-WBNB Worker"; s016_WORKER_ADDR := "0x2E7f32e38EA5a5fcb4494d9B626d2d393B176B1E";
      s016_RESET_APPROVED :=
       [("0x88f1a5ae2a3bf98aeaf342d26b30a79438c9142e",
         "0x7F8BE608D72d5Eb51E231B1F9a3e25823fDe0900");
        ("0x68Ff2ca47D27db5Ac0b5c46587645835dD51D3C1",
         "0x2AD2C5314028897AEcfCF37FD923c079BeEb2C56");
        ("0x68Ff2ca47D27db5Ac0b5c46587645835dD51D3C1",
         "0x73feaa1eE314F8c655E354234017bE2193C9E24E")] |};
   {| s016_WORKER_NAME := "ITAM-WBNB Worker"; s016_WORKER_ADDR := "0x4193D35D0cB598d92703ED69701f5d568aCa015c";
      s016_RESET_APPROVED :=
       [("0x04c747b40be4d535fc83d09939fb0f626f32800b",
         "0x7F8BE608D72d5Eb51E231B1F9a3e25823fDe0900");
        ("0xCdC53345192D0e31eEAD03D7E9e008Ee659FAEbE",
         "0x2AD2C5314028897AEcfCF37FD923c079BeEb2C56");
        ("0xCdC53345192D0e31eEAD03D7E9e008Ee659FAEbE",
         "0x73feaa1eE314F8c655E354234017bE2193C9E24E")] |}].

Definition s016_RESET_APPROVED_2 : list IResetApprovalParams :=
  [{| s016_WORKER_NAME := "USDT-BUSD Worker"; s016_WORKER_ADDR := "0xC5954CA8988988362f60498d5aDEc67BA466492B";
      s016_RESET_APPROVED :=
       [("0x55d398326f99059ff775485246999027b3197955",
         "0x7F8BE608D72d5Eb51E231B1F9a3e25823fDe0900");
        ("0xc15fa3e22c912a276550f3e5fe3b0deb87b55acd",
         "0x2AD2C5314028897AEcfCF37FD923c079BeEb2C56");
        ("0xc15fa3e22c912a276550f3e5fe3b0deb87b55acd",
         "0x73feaa1eE314F8c655E354234017bE2193C9E24E")] |};
   {| s016_WORKER_NAME := "WBNB-BUSD Worker"; s016_WORKER_ADDR := "0x51782E39A0aF33f542443419c223434Bb4A5a695";
      s016_RESET_APPROVED :=
       [("0xbb4CdB9CBd36B01bD1cBaEBF2De08d9173bc095c",
         "0x7F8BE608D72d5Eb51E231B1F9a3e25823fDe0900");
        ("0x1b96b92314c44b159149f7e0303511fb2fc4774f",
         "0x2AD2C5314028897AEcfCF37FD923c079BeEb2C56");
        ("0x1b96b92314c44b159149f7e0303511fb2fc4774f",
         "0x73feaa1eE314F8c655E354234017bE2193C9E24E")] |};
   {| s016_WORKER_NAME := "VAI-BUSD Worker"; s016_WORKER_ADDR := "0x693430Fe5F1b0a61b232132d0567295c288eA482";
      s016_RESET_APPROVED :=
       [("0x4bd17003473389a42daf6a0a729f6fdb328bbbd7",
         "0x7F8BE608D72d5Eb51E231B1F9a3e25823fDe0900");
        ("0xfF17ff314925Dff772b71AbdFF2782bC913B3575",
         "0x2AD2C5314028897AEcfCF37FD923c079BeEb2C56");
        ("0xfF17ff314925Dff772b71AbdFF2782bC913B3575",
         "0x73feaa1eE314F8c655E354234017bE2193C9E24E")] |};
   {| s016_WORKER_NAME := "USDC-BUSD Worker"; s016_WORKER_ADDR := "0xB82B93FcF1818513889c0E1F3628484Ce5017A14";
      s016_RESET_APPROVED :=
       [("0x8ac76a51cc950d9822d68b83fe1ad97b32cd580d",
         "0x7F8BE608D72d5Eb51E231B1F9a3e25823fDe0900");
        ("0x680Dd100E4b394Bda26A59dD5c119A391e747d18",
         "0x2AD2C5314028897AEcfCF37FD923c079BeEb2C56");
        ("0x680Dd100E4b394Bda26A59dD5c119A391e747d18",
         "0x73feaa1eE314F8c655E354234017bE2193C9E24E")] |};
   {| s016_WORKER_NAME := "DAI-BUSD Worker"; s016_WORKER_ADDR := "0xe632ac75f2d0A97F7b1ef3a8a16d653C4c82b1fb";
      s016_RESET_APPROVED :=
       [("0x1af3f329e8be154074d8769d1ffa4ee058b1dbc3",
         "0x7F8BE608D72d5Eb51E231B1F9a3e25823fDe0900");
        ("0x3aB77e40340AB084c3e23Be8e5A6f7afed9D41DC",
         "0x2AD2C5314028897AEcfCF37FD923c079BeEb2C56");
        ("0x3aB77e40340AB084c3e23Be8e5A6f7afed9D41DC",
         "0x73feaa1eE314F8c655E354234017bE2193C9E24E")] |};
   {| s016_WORKER_NAME := "UST-BUSD Worker"; s016_WORKER_ADDR := "0xeBdECF3a21D95453A89440A4E32B9559E47073E7";
      s016_RESET_APPROVED :=
       [("0x23396cf899ca06c4472205fc903bdb4de249d6fc",
         "0x7F8BE608D72d5Eb51E231B1F9a3e25823fDe0900");
        ("0xD1F12370b2ba1C79838337648F820a87eDF5e1e6",
         "0x2AD2C5314028897AEcfCF37FD923c079BeEb2C56");
        ("0xD1F12370b2ba1C79838337648F820a87eDF5e1e6",
         "0x73feaa1eE314F8c655E354234017bE2193C9E24E")] |};
   {| s016_WORKER_NAME := "COMP-ETH Worker"; s016_WORKER_ADDR := "0xd6260DB3A84C7BfdAFcD82325397B8E70B39627f";
      s016_RESET_APPROVED :=
       [("0x52ce071bd9b1c4b00a0b92d298c512478cad67e8",
         "0x7F8BE608D72d5Eb51E231B1F9a3e25823fDe0900");
        ("0x0392957571F28037607C14832D16f8B653eDd472",
         "0x2AD2C5314028897AEcfCF37FD923c079BeEb2C56");
        ("0x0392957571F28037607C14832D16f8B653eDd472",
         "0x73feaa1eE314F8c655E354234017bE2193C9E24E")] |};
   {| s016_WORKER_NAME := "SUSHI-ETH Worker"; s016_WORKER_ADDR := "0xaA5c95181c02DfB8173813149e52c8C9E4E14124";
      s016_RESET_APPROVED :=
       [("0x947950bcc74888a40ffa2593c5798f11fc9124c4",
         "0x7F8BE608D72d5Eb51E231B1F9a3e25823fDe0900");
        ("0x17580340F3dAEDAE871a8C21D15911742ec79e0F",
         "0x2AD2C5314028897AEcfCF37FD923c079BeEb2C56");
        ("0x17580340F3dAEDAE871a8C21D15911742ec79e0F",
         "0x73feaa1eE314F8c655E354234017bE2193C9E24E")] |}].

Definition s016 : script unit :=
  s016_func (s016_RESET_APPROVED_1 ++ s016_RESET_APPROVED_2) "0x2D5408f2287BF9F9B05404794459a846651D0a59" "1619231400".

(** ** s020: whitelist workers on shared strategies *)

Record ISetWhitelistedStratWorkers := {
  STRAT_NAME : string;
  STRAT_ADDR : string;
  WORKERS : list string
}.

Definition s020_func (WHITELISTED_STRATS_WORKERS : list ISetWhitelistedStratWorkers)
    (TIMELOCK EXACT_ETA : string) : script unit :=
  for_each (fun params =>
    let types := [ADDRESSES; TBool] in
    let args := [js_strings (WORKERS params); JBool true] in
    queue TIMELOCK (STRAT_ADDR params) "setWorkersOk(address[],bool)" types args EXACT_ETA ;;
    print_execute (STRAT_ADDR params) "setWorkersOk(address[],bool)" types args EXACT_ETA)
    WHITELISTED_STRATS_WORKERS.

(** The list is empty in the file. *)
Definition s020 : script unit :=
  s020_func [] "0x2D5408f2287BF9F9B05404794459a846651D0a59" "1619676000".
End Scripts.
