(* ===== verification/TimelockScriptTheory.v ===== *)
(** * What the timelock scripts achieve

    The commands a script prints are exactly the transactions it queued; run in
    time they make the queued call, and the commands of two scripts can never
    succeed, because no contract has the functions they name. *)

From stdpp Require Import pretty.
From S2P Require Import Prelude Buffers MerkleTree BalanceTree Evm.
From S2P Require Import Timelock TimelockTheory HuskyToken FairLaunch Lending Workers Chain ChainTheory.
From S2P Require Import Script ScriptTheory TimelockScripts.

Section Commands.
Context `{AbiCoder} `{!OpenZeppelin} `{!Network} `{!EthersNumbers} `{!Selectors}.

(** ** Transactions and commands *)

(** The transaction that arguments of queueTransaction or executeTransaction denote. *)
Definition js_tx (target : string) (value : JsValue) (sig : string) (types : list AbiType)
    (args : list JsValue) (eta : JsValue) : result Tx :=
  data ← encode types args;
  vs ← coerce_all txTypes [JStr target; value; JStr sig; JBytes data; eta];
  match vs with
  | [VAddress t; VUint v; VString s; VBytes d; VUint e] =>
      Ok {| Timelock.target := t; Timelock.value := v; signature := s;
            Timelock.data := d; Timelock.eta := e |}
  | _ => Err EmptyString
  end.

Definition command_tx (c : Command) : result Tx :=
  js_tx (cmd_target c) (cmd_value c) (cmd_sig c) (cmd_types c) (cmd_args c) (cmd_eta c).

(** The operator runs a printed command against the timelock at [tl]. *)
Definition run_command (tl : string) (c : Command) : script unit :=
  data ← lift (encode (cmd_types c) (cmd_args c));
  send (JStr tl) "executeTransaction(address,uint256,string,bytes,uint256)" txTypes
    [JStr (cmd_target c); cmd_value c; JStr (cmd_sig c); JBytes data; cmd_eta c].

Lemma js_tx_values target value sig types args eta tx :
  js_tx target value sig types args eta = Ok tx -> exists data,
    encode types args = Ok data /\
    coerce_all txTypes [JStr target; value; JStr sig; JBytes data; eta] = Ok (txValues tx) /\
    tx_ok tx.
Proof.
  unfold js_tx. intros Hr. apply bind_Ok in Hr as (data & Hd & Hr).
  apply bind_Ok in Hr as (vs & Hvs & Hr). exists data. split; [done|].
  pose proof (coerce_all_typed _ _ _ Hvs) as Ht.
  repeat match goal with
  | E : match ?x with _ => _ end = Ok _ |- _ => destruct x; try discriminate E
  end. by injection Hr as <-.
Qed.

Lemma js_tx_Err target value sig types args eta e :
  js_tx target value sig types args eta = Err e ->
  forall data, encode types args = Ok data ->
  is_ok (coerce_all txTypes [JStr target; value; JStr sig; JBytes data; eta]) = false.
Proof.
  unfold js_tx. intros Hr data Hd. rewrite Hd in Hr. cbn [mbind result_bind] in Hr.
  destruct (coerce_all _ _) as [vs|] eqn:Hvs; [|done]. exfalso.
  apply coerce_all_typed in Hvs. unfold txTypes in Hvs.
  repeat match goal with
  | X : have_types _ (_ :: _) |- _ => inversion X; clear X; subst
  | X : have_types _ [] |- _ => inversion X; clear X; subst
  | X : has_type _ _ |- _ => inversion X; clear X; subst
  end. discriminate Hr.
Qed.

(** A timelock deployed at [tla], the address [tl] denotes, that later deployments do
    not overwrite. *)
Definition timelock_at (w : World) (tl : string) (tla : address) (s : Timelock) : Prop :=
  getAddress tl = Some tla /\
  accounts (chain w) !! tla = Some {| proxy := None; code := CTimelock s |} /\
  forall n, creations w <= n -> created n <> tla.

Lemma with_tx_values f m ch tx : with_tx f m ch (txValues tx) = f m ch tx.
Proof. by destruct tx. Qed.

Lemma get_timelock ch tla s :
  accounts ch !! tla = Some {| proxy := None; code := CTimelock s |} ->
  get as_Timelock ch tla = Ok s.
Proof. intros E. unfold get, code_at. by rewrite E. Qed.

Lemma queue_eq w tl tla s target sig types args eta tx :
  timelock_at w tl tla s -> js_tx target (JStr "0") sig types args (JStr eta) = Ok tx ->
  queue tl target sig types args eta w
  = match queueTransaction (next_msg w tla) s tx with
    | Ok s' => (with_chain w (set_code (chain w) tla (CTimelock s')), Ok tt)
    | Err e => (w, Err e)
    end.
Proof.
  intros (Ha & Hacc & _) (data & Hd & Hvs & _)%js_tx_values.
  unfold queue, lift, mbind, script_bind. rewrite Hd.
  rewrite (send_method w tl tla _ m_queueTransaction _ (txValues tx) Ha Hacc); [|done|in_list|exact Hvs].
  cbn [m_run m_queueTransaction]. rewrite with_tx_values. unfold own.
  rewrite (get_timelock _ _ s) by done. cbn [mbind result_bind].
  by destruct (queueTransaction _ _ _).
Qed.

Lemma queue_Err w tl target sig types args eta e :
  js_tx target (JStr "0") sig types args (JStr eta) = Err e ->
  exists e', queue tl target sig types args eta w = (w, Err e').
Proof.
  intros Hj. unfold queue, lift, mbind, script_bind.
  destruct (encode types args) as [data|] eqn:Hd; [|eauto].
  apply (js_tx_Err _ _ _ _ _ _ _ Hj) in Hd. unfold send.
  destruct (coerce TAddress (JStr tl)); cbn [mbind result_bind]; [|eauto].
  change (m_types m_queueTransaction) with txTypes.
  destruct (coerce_all txTypes _); [done|]. eauto.
Qed.

Lemma run_command_Err w tl c e :
  command_tx c = Err e -> exists e', run_command tl c w = (w, Err e').
Proof.
  intros Hj. unfold run_command, lift, mbind, script_bind.
  destruct (encode _ _) as [data|] eqn:Hd; [|eauto].
  apply (js_tx_Err _ _ _ _ _ _ _ Hj) in Hd. unfold send.
  destruct (coerce TAddress (JStr tl)); cbn [mbind result_bind]; [|eauto].
  destruct (coerce_all txTypes _); [done|]. eauto.
Qed.

Lemma run_command_eq w tl tla s c tx :
  timelock_at w tl tla s -> command_tx c = Ok tx ->
  run_command tl c w
  = match executeTransaction (call INNER_DEPTH) (next_msg w tla) (chain w) tx with
    | Ok ch => (with_chain w ch, Ok tt)
    | Err e => (w, Err e)
    end.
Proof.
  intros (Ha & Hacc & _) (data & Hd & Hvs & _)%js_tx_values.
  unfold run_command, lift, mbind, script_bind. rewrite Hd.
  rewrite (send_method w tl tla _ (m_executeTransaction (call INNER_DEPTH)) _ (txValues tx) Ha Hacc);
    [|done|in_list|exact Hvs].
  cbn [m_run m_executeTransaction]. by rewrite with_tx_values.
Qed.

(** ** Printing exactly what is queued *)

(** [cs] are commands for the transactions queued between [s] and [s'], and for no others. *)
Definition commands_for (s s' : Timelock) (cs : list Command) : Prop :=
  (forall c, c ∈ cs -> exists t tx, command_tx c = Ok tx /\
     QueueTransaction t tx ∈ events s' /\ txHash tx ∈ queuedTransactions s') /\
  (forall t tx, QueueTransaction t tx ∈ events s' ->
     QueueTransaction t tx ∈ events s \/ exists c, c ∈ cs /\ command_tx c = Ok tx) /\
  queuedTransactions s ⊆ queuedTransactions s' /\ events s ⊆ events s' /\
  admin s' = admin s /\ delay s' = delay s /\ guard s' = guard s.

(** Whatever a script does with the timelock at [tl], even when it throws, the commands
    it has printed are those of the transactions it has queued. *)
Definition prints_queued {A} (tl : string) (sc : script A) : Prop :=
  forall w w' r tla s, timelock_at w tl tla s -> sc w = (w', r) -> exists s' cs,
    timelock_at w' tl tla s' /\ console w' = console w ++ cs /\ commands_for s s' cs.

Lemma commands_for_refl s : commands_for s s [].
Proof. repeat split; try done; [by intros c ?%elem_of_nil|by left]. Qed.

Lemma commands_for_trans s1 s2 s3 cs cs' :
  commands_for s1 s2 cs -> commands_for s2 s3 cs' -> commands_for s1 s3 (cs ++ cs').
Proof.
  intros (A1 & B1 & C1 & D1 & E1 & F1 & G1) (A2 & B2 & C2 & D2 & E2 & F2 & G2).
  split; [|split; [|split_and!; [set_solver|set_solver|congruence..]]].
  - intros c [Hc|Hc]%elem_of_app; [|by apply A2].
    destruct (A1 c Hc) as (t & tx & ? & ? & ?). exists t, tx. auto.
  - intros t tx Hq. destruct (B2 t tx Hq) as [Hq'|(c & ? & ?)].
    + destruct (B1 t tx Hq') as [?|(c & ? & ?)]; [by left|right]. exists c. set_solver.
    + right. exists c. set_solver.
Qed.

Lemma pq_ret {A} tl (a : A) : prints_queued tl (mret a).
Proof.
  intros w w' r tla s Ht Hr. injection Hr as <- _. exists s, [].
  split; [done|]. rewrite app_nil_r. split; [done|apply commands_for_refl].
Qed.

Lemma pq_lift {A} tl (x : result A) : prints_queued tl (lift x).
Proof.
  intros w w' r tla s Ht Hr. injection Hr as <- _. exists s, [].
  split; [done|]. rewrite app_nil_r. split; [done|apply commands_for_refl].
Qed.

Lemma pq_bind {A B} tl (f : script A) (g : A -> script B) :
  prints_queued tl f -> (forall a, prints_queued tl (g a)) -> prints_queued tl (f ≫= g).
Proof.
  intros Hf Hg w w' r tla s Ht Hr.
  apply script_bind_Ok in Hr as [(w1 & a & Hf1 & Hg1)|(e & Hf1 & _)].
  - destruct (Hf _ _ _ _ _ Ht Hf1) as (s1 & cs1 & Ht1 & Hc1 & Hq1).
    destruct (Hg a _ _ _ _ _ Ht1 Hg1) as (s2 & cs2 & Ht2 & Hc2 & Hq2).
    exists s2, (cs1 ++ cs2). split; [done|]. rewrite Hc2, Hc1, app_assoc.
    split; [done|by eapply commands_for_trans].
  - by eapply Hf.
Qed.

Lemma pq_assoc {A B C} tl (f : script A) (g : A -> script B) (h : B -> script C) :
  prints_queued tl ((f ≫= g) ≫= h) -> prints_queued tl (f ≫= fun a => g a ≫= h).
Proof.
  intros Hp w w' r tla s Ht Hr. apply (Hp w w' r tla s Ht). revert Hr.
  unfold mbind, script_bind. by destruct (f w) as [w1 [a|e]].
Qed.

Lemma pq_for_each {A} tl (f : A -> script unit) l :
  (forall x, x ∈ l -> prints_queued tl (f x)) -> prints_queued tl (for_each f l).
Proof.
  induction l as [|x l IH]; intros Hf; [apply pq_ret|]. cbn. apply pq_bind.
  - apply Hf. by left.
  - intros _. apply IH. intros y Hy. apply Hf. by right.
Qed.

Lemma pq_if {A} tl (b : bool) (f g : script A) :
  prints_queued tl f -> prints_queued tl g -> prints_queued tl (if b then f else g).
Proof. by destruct b. Qed.

(** A deployment that does not touch the timelock. *)
Lemma pq_prepareUpgrade tl : prints_queued tl prepareUpgrade.
Proof.
  intros w w' r tla s (Ha & Hacc & Hfresh) Hr. injection Hr as <- _. exists s, [].
  split; [|split; [by rewrite app_nil_r|apply commands_for_refl]].
  split; [done|split].
  - cbn. rewrite lookup_insert_ne; [done|]. by apply Hfresh.
  - intros n Hn. apply Hfresh. cbn in Hn. lia.
Qed.

Lemma js_tx_printed target sig types args printed eta z tx :
  coerce_all types printed = coerce_all types args -> decimal eta = Some z ->
  js_tx target (JStr "0") sig types args (JStr eta) = Ok tx ->
  js_tx target (JStr "0") sig types printed (js_number eta) = Ok tx.
Proof.
  intros Hp Hz <-. unfold js_tx, encode, js_number. rewrite Hp, Hz.
  destruct (coerce_all types args); [|done]. cbn. by rewrite (BigNumber_decimal _ _ Hz).
Qed.

(** One queued transaction, followed by its command. *)
Lemma pq_queue_print tl target sig types args printed eta z :
  coerce_all types printed = coerce_all types args -> decimal eta = Some z ->
  prints_queued tl (queue tl target sig types args eta ;;
                    print_execute target sig types printed eta).
Proof.
  intros Hp Hz w w' r tla s Ht Hr.
  destruct (js_tx target (JStr "0") sig types args (JStr eta)) as [tx|e] eqn:Htx.
  2: { destruct (queue_Err w tl _ _ _ _ _ _ Htx) as [e' E].
       unfold mbind, script_bind in Hr. rewrite E in Hr. injection Hr as <- _.
       exists s, []. rewrite app_nil_r. split; [done|split; [done|apply commands_for_refl]]. }
  unfold mbind, script_bind in Hr. rewrite (queue_eq w tl tla s _ _ _ _ _ tx Ht Htx) in Hr.
  destruct (queueTransaction (next_msg w tla) s tx) as [s'|e] eqn:Hq.
  2: { injection Hr as <- _. exists s, []. rewrite app_nil_r.
       split; [done|split; [done|apply commands_for_refl]]. }
  injection Hr as <- _. unfold queueTransaction in Hq. inv_result. subst s'.
  destruct Ht as (Ha & Hacc & Hfresh).
  eexists _, [_]. split; [|split; [reflexivity|]].
  - split; [done|split; [|done]]. cbn. rewrite lookup_insert_eq. by rewrite Hacc.
  - split; [|split; [|split_and!; cbn; [set_solver|set_solver|done..]]].
    + intros c [->|[]%elem_of_nil]%elem_of_cons. exists (timestamp (mined (height w))), tx.
      split; [by eapply js_tx_printed|]. cbn. split; [by left|set_solver].
    + intros t tx' [[= -> ->]|Hin]%elem_of_cons; [|by left]. right.
      eexists. split; [by left|]. by eapply js_tx_printed.
Qed.

(** ** The scripts *)

Definition TIMELOCK : string := "0x2D5408f2287BF9F9B05404794459a846651D0a59".

(** The timelock scripts, with the timelock each is written for. *)
Definition timelock_scripts : list (string * script unit) :=
  [("0x771F70042ebb6d2Cfc29b7BF9f3caf9F959385B8", s001); (TIMELOCK, s007); (TIMELOCK, s009);
   (TIMELOCK, s010); (TIMELOCK, s011); (TIMELOCK, s012); (TIMELOCK, s014); (TIMELOCK, s015);
   (TIMELOCK, s016); (TIMELOCK, s020)].

Lemma pq_lift_Ok {A B} tl (a : A) (f : A -> script B) :
  prints_queued tl (f a) -> prints_queued tl (lift (Ok a) ≫= f).
Proof. done. Qed.

(** A string of digits coerces to the number it spells. *)
Lemma coerce_number n s z : decimal s = Some z -> coerce (TUint n) (js_number s) = coerce (TUint n) (JStr s).
Proof. intros Hz. unfold js_number. rewrite Hz. cbn. by rewrite (BigNumber_decimal _ _ Hz). Qed.

Ltac queued := eapply pq_queue_print; [try reflexivity|vm_compute; reflexivity].

Lemma pq_s007 : prints_queued TIMELOCK s007.
Proof.
  unfold s007, s007_func. apply pq_bind; [apply pq_if; [apply pq_prepareUpgrade|apply pq_ret]|].
  intros newImpl. apply pq_assoc, pq_bind; [queued|intros _].
  apply pq_if; [|apply pq_ret]. queued.
  cbn [coerce_all]. by rewrite (coerce_number 256 "7" 7).
Qed.

(** The debt sizes of s010, parsed before anything is queued. *)
Lemma s010_sizes :
  mapM (fun p => of_option (parseEther (s010_MIN_DEBT_SIZE p)) "invalid decimal value")
    s010_NEW_PARAMS = Ok [2 * 10 ^ 18; 400 * 10 ^ 18]%Z.
Proof.
  unfold s010_NEW_PARAMS. cbn [mapM s010_MIN_DEBT_SIZE].
  by rewrite (parseEther_decimal "2" 2), (parseEther_decimal "400" 400).
Qed.

Lemma pq_s010 : prints_queued TIMELOCK s010.
Proof.
  unfold s010, s010_func. rewrite s010_sizes. apply pq_lift_Ok, pq_for_each. intros [p md] Hp.
  assert (decimal (pretty md) = Some md /\ s010_EXACT_ETA p = "1617926400" /\
    s010_TIMELOCK p = TIMELOCK) as (Hpretty & Heta & Htl).
  { repeat (apply elem_of_cons in Hp as [[= -> ->]|Hp]); [| |by apply elem_of_nil in Hp];
      (split; [vm_compute; reflexivity|done]). }
  rewrite Heta, Htl. queued.
  cbn [coerce_all]. cbn [coerce to_uint]. by rewrite (BigNumber_decimal _ _ Hpretty).
Qed.

Lemma pq_s011 : prints_queued TIMELOCK s011.
Proof.
  unfold s011, s011_func. apply pq_for_each. intros u [->|[]%elem_of_nil]%elem_of_cons. queued.
  cbn. unfold js_number. by repeat erewrite BigNumber_decimal by (vm_compute; reflexivity).
Qed.

(** C39: the printed commands are the queued transactions.  For every timelock script and
    every world it runs in, whether it finishes or throws half-way, each command it has
    printed denotes a transaction that is queued, and each transaction it queued has its
    command -- although some numbers are queued as strings or big numbers and printed as
    literals. *)
Theorem timelock_scripts_print_queued tl sc :
  (tl, sc) ∈ timelock_scripts -> prints_queued tl sc.
Proof.
  intros Hin. unfold timelock_scripts in Hin.
  repeat (apply elem_of_cons in Hin as [[= -> ->]|Hin]); [..|by apply elem_of_nil in Hin].
  - queued.
  - apply pq_s007.
  - apply pq_for_each. intros x _. queued.
  - apply pq_s010.
  - apply pq_s011.
  - apply pq_for_each. intros x _. apply pq_bind; [apply pq_if; [queued|apply pq_ret]|].
    intros _. queued.
  - apply pq_bind; [apply pq_if; [apply pq_prepareUpgrade|apply pq_ret]|]. intros newImpl.
    apply pq_for_each. intros x _. queued.
  - apply pq_for_each. intros x _. queued.
  - apply pq_for_each. intros x _. apply pq_for_each. intros y _. queued.
  - apply pq_ret.
Qed.

(** ** Running the commands *)

(** The chain while the external call of [tx] runs: the hash is consumed, the guard entered. *)
Definition consumed (ch : Chain) (tla : address) (s : Timelock) (tx : Tx) (g : Guard) : Chain :=
  set_code ch tla (CTimelock (set_queue s (queuedTransactions s ∖ {[ txHash tx ]}) g [])).

(** A command that is ready runs the queued call, and reverts exactly when that does. *)
Lemma run_ready w tl tla s c tx :
  timelock_at w tl tla s -> command_tx c = Ok tx -> ready (next_msg w tla) s tx ->
  exists g, guard_enter (guard s) = Ok g /\ run_command tl c w
  = match call INNER_DEPTH (mined (height w)) tla (target tx) (value tx) (callData tx)
            (consumed (chain w) tla s tx g) with
    | Ok ch => match get as_Timelock ch tla with
               | Ok s' => (with_chain w (set_code ch tla (CTimelock (execute_end (next_msg w tla) s' tx))), Ok tt)
               | Err e => (w, Err e)
               end
    | Err e => (w, Err (getRevertMsg e))
    end.
Proof.
  intros Ht Hc Hready. rewrite (run_command_eq w tl tla s c tx Ht Hc).
  destruct Ht as (_ & Hacc & _). pose proof Hc as (_ & _ & _ & Hok)%js_tx_values.
  destruct (execute_begin_ready _ _ _ Hok Hready) as (g & Hg & Hb). exists g. split; [done|].
  unfold executeTransaction. rewrite (get_timelock _ _ s) by done. cbn [mbind result_bind].
  rewrite Hb. cbn [mbind result_bind]. unfold consumed.
  cbn [block self next_msg].
  destruct (call INNER_DEPTH _ _ _ _ _ _) as [ch|e]; cbn [bubble mbind result_bind]; [|done].
  by destruct (get as_Timelock ch tla).
Qed.

Lemma INNER_DEPTH_S : exists d, INNER_DEPTH = S d.
Proof. by eexists. Qed.

(** *** Commands that cannot succeed *)

(** Everything a script prints satisfies [P]. *)
Definition prints {A} (P : Command -> Prop) (sc : script A) : Prop := forall w w' r,
  sc w = (w', r) -> exists cs, console w' = console w ++ cs /\ forall c, c ∈ cs -> P c.

Lemma prints_silent {A} P (sc : script A) :
  (forall w, console (sc w).1 = console w) -> prints P sc.
Proof.
  intros Hs w w' r Hr. exists []. rewrite app_nil_r. specialize (Hs w). rewrite Hr in Hs.
  split; [done|]. by intros c ?%elem_of_nil.
Qed.

Lemma prints_bind {A B} P (f : script A) (g : A -> script B) :
  prints P f -> (forall a, prints P (g a)) -> prints P (f ≫= g).
Proof.
  intros Hf Hg w w' r Hr. apply script_bind_Ok in Hr as [(w1 & a & Hf1 & Hg1)|(e & Hf1 & _)].
  - destruct (Hf _ _ _ Hf1) as (cs1 & E1 & P1), (Hg _ _ _ _ Hg1) as (cs2 & E2 & P2).
    exists (cs1 ++ cs2). rewrite E2, E1, app_assoc. split; [done|].
    intros c [?|?]%elem_of_app; auto.
  - by eapply Hf.
Qed.

Lemma prints_for_each {A} P (f : A -> script unit) l :
  (forall x, prints P (f x)) -> prints P (for_each f l).
Proof.
  intros Hf. induction l as [|x l IH]; [by apply prints_silent|]. by apply prints_bind.
Qed.

Lemma prints_print (P : Command -> Prop) c : P c -> prints P (print c).
Proof.
  intros Hc w w' r Hr. injection Hr as <- _. exists [c]. split; [done|].
  by intros c' [->|[]%elem_of_nil]%elem_of_cons.
Qed.

Lemma send_console w to sig types args : console (send to sig types args w).1 = console w.
Proof.
  unfold send. destruct (_ ≫= _) as [[[] vs]|]; try done. by destruct (call _ _ _ _ _ _ _).
Qed.

Lemma prints_queue P tl target sig types args eta :
  prints P (queue tl target sig types args eta).
Proof.
  apply prints_bind; [by apply prints_silent|]. intros d. apply prints_silent.
  intros w. apply send_console.
Qed.

Definition DEAD : list string := [s010_SIGNATURE; "resetApproval(address,address)"].

Lemma s010_prints_dead : prints (fun c => cmd_sig c ∈ DEAD) s010.
Proof.
  apply prints_bind; [by apply prints_silent|]. intros sizes. apply prints_for_each. intros [p md].
  apply prints_bind; [apply prints_queue|]. intros _. apply prints_print. cbn. in_list.
Qed.

Lemma s016_prints_dead : prints (fun c => cmd_sig c ∈ DEAD) s016.
Proof.
  apply prints_for_each. intros p. apply prints_for_each. intros q.
  apply prints_bind; [apply prints_queue|]. intros _. apply prints_print. cbn. in_list.
Qed.

Lemma dead_not_a_method cl code sig : sig ∈ DEAD -> sig ∉ m_sig <$> methods cl code.
Proof.
  intros Hs Hin. assert (forallb (fun mt => negb (bool_decide (m_sig mt ∈ DEAD))) (methods cl code) = true)
    as Hf by (destruct code; vm_compute; reflexivity).
  apply list_elem_of_fmap in Hin as (mt & -> & Hmt%list_elem_of_In).
  rewrite forallb_forall in Hf. apply Hf, negb_true_iff, bool_decide_eq_false in Hmt. done.
Qed.

Lemma dead_known sig : sig ∈ DEAD -> sig ∈ signatures.
Proof. intros [->|[->|[]%elem_of_nil]%elem_of_cons]%elem_of_cons; in_list. Qed.

Lemma dead_nonempty sig : sig ∈ DEAD -> sig <> EmptyString.
Proof. by intros [->|[->|[]%elem_of_nil]%elem_of_cons]%elem_of_cons. Qed.

Lemma dead_not_proxy sig : sig ∈ DEAD -> sig ∉ m_sig <$> proxy_methods.
Proof.
  intros Hs Hin. revert Hs Hin. intros [->|[->|[]%elem_of_nil]%elem_of_cons]%elem_of_cons;
    by intros [?|[?|[]%elem_of_nil]%elem_of_cons]%elem_of_cons.
Qed.

Lemma js_tx_fields target value sig types args eta tx :
  js_tx target value sig types args eta = Ok tx ->
  getAddress target = Some (Timelock.target tx) /\ signature tx = sig.
Proof.
  intros (data & _ & Hvs & _)%js_tx_values. cbn in Hvs.
  destruct (getAddress target) as [t|]; [|discriminate Hvs]. cbn in Hvs.
  apply bind_Ok in Hvs as (xs & Hvs & E). injection E as <- ->.
  apply bind_Ok in Hvs as (v & Hv & Hvs).
  apply bind_Ok in Hvs as (ys & Hvs & E). injection E as -> ->.
  apply bind_Ok in Hvs as (zs & _ & E). by injection E as -> _.
Qed.

Lemma executeTransaction_dead m ch tx acc :
  signature tx ∈ DEAD -> accounts ch !! target tx = Some acc -> as_PublicOffering (code acc) = None ->
  target tx <> self m -> is_ok (executeTransaction (call INNER_DEPTH) m ch tx) = false.
Proof.
  intros Hsig Hacc Hno Hne. unfold executeTransaction.
  destruct (get as_Timelock ch (self m)) as [s|]; cbn; [|done].
  destruct (execute_begin m s tx) as [s1|]; cbn; [|done].
  destruct INNER_DEPTH_S as [d ->].
  assert (is_ok (call (S d) (block m) (self m) (target tx) (value tx) (callData tx)
            (set_code ch (self m) (CTimelock s1))) = false) as Hc.
  { unfold callData. rewrite bool_decide_eq_false_2 by by apply dead_nonempty.
    eapply call_unknown; [|exact Hno|by apply dead_known|by apply dead_not_a_method|].
    - cbn. rewrite lookup_insert_ne by done. done.
    - by apply dead_not_proxy. }
  destruct (call _ _ _ _ _ _ _) as [ch1|e]; done.
Qed.

(** C40: the commands of s010 and s016 cannot do what they say.  They name functions --
    [setParams] with seven arguments, [resetApproval] -- that no contract of the
    development has: run at any time against a contract, each of them reverts and changes
    nothing.  The one contract that takes a call of any name is PublicOffering, by its
    [fallback], and it does nothing with it. *)
Theorem dead_commands_revert sc w0 w0' r cs c w tla s acc :
  sc = s010 \/ sc = s016 ->
  sc w0 = (w0', r) -> console w0' = console w0 ++ cs -> c ∈ cs ->
  timelock_at w TIMELOCK tla s ->
  getAddress (cmd_target c) ≫= (fun a => accounts (chain w) !! a) = Some acc ->
  as_PublicOffering (code acc) = None -> getAddress (cmd_target c) <> Some tla ->
  exists e, run_command TIMELOCK c w = (w, Err e).
Proof.
  intros Hsc Hr Hcs Hc Ht Hacc Hno Hne.
  assert (cmd_sig c ∈ DEAD) as Hdead.
  { assert (prints (fun c => cmd_sig c ∈ DEAD) sc) as Hp
      by (destruct Hsc as [->| ->]; [apply s010_prints_dead|apply s016_prints_dead]).
    destruct (Hp _ _ _ Hr) as (cs' & E & HP). apply HP.
    rewrite Hcs in E. by apply app_inv_head in E as <-. }
  destruct (command_tx c) as [tx|e] eqn:Htx.
  - rewrite (run_command_eq w TIMELOCK tla s c tx Ht Htx).
    apply js_tx_fields in Htx as [Hta Hsig]. rewrite Hta in Hacc, Hne.
    pose proof (executeTransaction_dead (next_msg w tla) (chain w) tx acc) as Hd.
    rewrite Hsig in Hd. specialize (Hd Hdead Hacc Hno).
    destruct (executeTransaction _ _ _ _); [|eauto]. exfalso.
    assert (true = false) by (apply Hd; cbn; congruence); done.
  - by eapply run_command_Err.
Qed.
End Commands.
