(* ===== verification/TimelockScriptRuns.v ===== *)
(** * Running the commands the timelock scripts print

    From a script to its effect on the chain: the command it prints, run in its
    window, makes the call the script spells out. *)

From S2P Require Import Prelude Buffers MerkleTree BalanceTree Evm.
From S2P Require Import Timelock TimelockTheory HuskyToken FairLaunch Lending Workers Chain ChainTheory.
From S2P Require Import Script ScriptTheory TimelockScripts TimelockScriptTheory.

Section Runs.
Context `{AbiCoder} `{!OpenZeppelin} `{!Network} `{!EthersNumbers} `{!Selectors}.

(** The calldata of a command's transaction. *)
Lemma command_callData c tx vs :
  command_tx c = Ok tx -> coerce_all (cmd_types c) (cmd_args c) = Ok vs ->
  cmd_sig c <> EmptyString ->
  getAddress (cmd_target c) = Some (target tx) /\
  callData tx = encode_call (cmd_sig c) (cmd_types c) vs.
Proof.
  intros Htx Hvs Hsig. pose proof Htx as (Hta & Hs)%js_tx_fields. split; [done|].
  apply js_tx_values in Htx as (data & Hd & Hv & _).
  unfold encode in Hd. rewrite Hvs in Hd. injection Hd as <-.
  unfold callData. rewrite bool_decide_eq_false_2 by (by rewrite Hs). rewrite Hs.
  unfold encode_call. f_equal. cbn in Hv. rewrite Hta in Hv. cbn in Hv.
  apply bind_Ok in Hv as (xs & Hv & E). injection E as ->.
  apply bind_Ok in Hv as (v & _ & Hv). apply bind_Ok in Hv as (ys & Hv & E). injection E as -> ->.
  apply bind_Ok in Hv as (zs & Hv & E). injection E as _ ->.
  apply bind_Ok in Hv as (us & _ & E). by injection E as -> _.
Qed.

(** The command of a transaction without native currency. *)
Lemma command_value c tx : command_tx c = Ok tx -> cmd_value c = JStr "0" -> value tx = 0%Z.
Proof.
  intros (data & _ & Hv & _)%js_tx_values E. rewrite E in Hv. cbn in Hv.
  destruct (getAddress _); cbn in Hv; [|done]. rewrite (BigNumber_decimal "0" 0) in Hv by done.
  cbn in Hv. inv_result. subst. congruence.
Qed.

(** A ready command calls the function it names, on the target as it is now. *)
Lemma run_ready_method w tl tla s c tx vs acc mt ch :
  timelock_at w tl tla s -> command_tx c = Ok tx -> ready (next_msg w tla) s tx ->
  cmd_value c = JStr "0" -> coerce_all (cmd_types c) (cmd_args c) = Ok vs ->
  cmd_sig c = m_sig mt -> cmd_types c = m_types mt -> m_sig mt <> EmptyString ->
  target tx <> tla -> accounts (chain w) !! target tx = Some acc ->
  proxy_admin <$> proxy acc <> Some tla ->
  (forall cl, mt ∈ methods cl (code acc)) ->
  (forall g, m_run mt {| sender := tla; self := target tx; block := mined (height w) |}
     (consumed (chain w) tla s tx g) vs = Ok (ch g)) ->
  (forall g, accounts (ch g) !! tla = accounts (consumed (chain w) tla s tx g) !! tla) ->
  exists g, guard_enter (guard s) = Ok g /\
    run_command tl c w
    = (with_chain w (set_code (ch g) tla (CTimelock (execute_end (next_msg w tla)
          (set_queue s (queuedTransactions s ∖ {[ txHash tx ]}) g []) tx))), Ok tt).
Proof.
  intros Ht Htx Hready Hval Hvs Hsig Htypes Hne Htgt Hacc Hadm Hin Hrun Hkeep.
  destruct (run_ready w tl tla s c tx Ht Htx Hready) as (g & Hg & ->). exists g. split; [done|].
  rewrite (command_value c tx Htx Hval).
  destruct (command_callData c tx vs Htx Hvs) as [_ ->]; [congruence|].
  rewrite Hsig, Htypes. destruct INNER_DEPTH_S as [d ->].
  rewrite (call_method d _ tla (target tx) acc mt vs).
  - rewrite Hrun. unfold get, code_at. rewrite Hkeep. unfold consumed, set_code, set_account.
    cbn. rewrite lookup_insert_eq. done.
  - unfold consumed, set_code, set_account. cbn. by rewrite lookup_insert_ne.
  - done.
  - apply Hin.
  - rewrite <-Htypes. by eapply coerce_all_typed.
Qed.

(** A queued transaction and its command, when the script that makes them succeeds. *)
Lemma queue_print_Ok w w' tl tla s target sig types args printed eta z :
  timelock_at w tl tla s -> coerce_all types printed = coerce_all types args ->
  decimal eta = Some z ->
  (queue tl target sig types args eta ;; print_execute target sig types printed eta) w
  = (w', Ok tt) ->
  exists c tx vs, console w' = console w ++ [c] /\ command_tx c = Ok tx /\
    cmd_target c = target /\ cmd_value c = JStr "0" /\ cmd_sig c = sig /\ cmd_types c = types /\
    coerce_all types args = Ok vs /\ coerce_all (cmd_types c) (cmd_args c) = Ok vs /\
    getAddress target = Some (Timelock.target tx).
Proof.
  intros Ht Hp Hz Hr.
  destruct (js_tx target (JStr "0") sig types args (JStr eta)) as [tx|e] eqn:Htx.
  2: { destruct (queue_Err w tl _ _ _ _ _ _ Htx) as [e' E].
       unfold mbind, script_bind in Hr. by rewrite E in Hr. }
  unfold mbind, script_bind in Hr. rewrite (queue_eq w tl tla s _ _ _ _ _ tx Ht Htx) in Hr.
  destruct (queueTransaction _ _ _) as [s'|e]; [|done]. injection Hr as <-.
  pose proof Htx as (data & Hd & _)%js_tx_values.
  unfold encode in Hd. apply bind_Ok in Hd as (vs & Hvs & _).
  pose proof Htx as [Hta _]%js_tx_fields.
  eexists _, tx, vs. split; [reflexivity|]. split; [by eapply js_tx_printed|].
  split_and!; try done. cbn. by rewrite Hp.
Qed.

(** The same for a loop of them: one command per iteration, in order. *)
Lemma for_each_queue_print {A} tl tla sig types (target eta : A -> string) args printed l z :
  (forall x, x ∈ l -> coerce_all types (printed x) = coerce_all types (args x) /\
     decimal (eta x) = Some (z x)) ->
  forall w w' s, timelock_at w tl tla s ->
  for_each (fun x => queue tl (target x) sig types (args x) (eta x) ;;
                     print_execute (target x) sig types (printed x) (eta x)) l w = (w', Ok tt) ->
  exists cs, console w' = console w ++ cs /\ Forall2 (fun x c => exists tx vs,
    command_tx c = Ok tx /\ cmd_value c = JStr "0" /\ cmd_sig c = sig /\ cmd_types c = types /\
    coerce_all types (args x) = Ok vs /\ coerce_all (cmd_types c) (cmd_args c) = Ok vs /\
    getAddress (target x) = Some (Timelock.target tx)) l cs.
Proof.
  induction l as [|x l IH]; intros Hl w w' s Ht Hr.
  - injection Hr as <-. exists []. by rewrite app_nil_r.
  - destruct (Hl x) as [Hp Hz]; [by left|]. cbn [for_each] in Hr.
    apply script_bind_Ok in Hr as [(w1 & [] & Hx & Hr)|(e & _ & ?)]; [|done].
    destruct (pq_queue_print tl _ _ _ _ _ _ _ Hp Hz _ _ _ _ _ Ht Hx) as (s1 & _ & Ht1 & _ & _).
    destruct (queue_print_Ok _ _ _ _ _ _ _ _ _ _ _ _ Ht Hp Hz Hx)
      as (c & tx & vs & Hc & Htx & _ & Hc').
    destruct (IH (fun y Hy => Hl y (list_elem_of_further _ _ _ Hy)) _ _ _ Ht1 Hr) as (cs & Hcs & Hall).
    exists (c :: cs). rewrite Hcs, Hc, <-app_assoc. split; [done|]. constructor; [|done].
    exists tx, vs. tauto.
Qed.

(** A ready command on a proxy that the timelock administers reaches the proxy itself. *)
Lemma run_ready_proxy w tl tla s c tx vs acc mt ch :
  timelock_at w tl tla s -> command_tx c = Ok tx -> ready (next_msg w tla) s tx ->
  cmd_value c = JStr "0" -> coerce_all (cmd_types c) (cmd_args c) = Ok vs ->
  cmd_sig c = m_sig mt -> cmd_types c = m_types mt -> m_sig mt <> EmptyString ->
  target tx <> tla -> accounts (chain w) !! target tx = Some acc ->
  proxy_admin <$> proxy acc = Some tla -> mt ∈ proxy_methods ->
  (forall g, m_run mt {| sender := tla; self := target tx; block := mined (height w) |}
     (consumed (chain w) tla s tx g) vs = Ok (ch g)) ->
  (forall g, accounts (ch g) !! tla = accounts (consumed (chain w) tla s tx g) !! tla) ->
  exists g, run_command tl c w
    = (with_chain w (set_code (ch g) tla (CTimelock (execute_end (next_msg w tla)
          (set_queue s (queuedTransactions s ∖ {[ txHash tx ]}) g []) tx))), Ok tt).
Proof.
  intros Ht Htx Hready Hval Hvs Hsig Htypes Hne Htgt Hacc Hadm Hin Hrun Hkeep.
  destruct (run_ready w tl tla s c tx Ht Htx Hready) as (g & Hg & ->). exists g.
  rewrite (command_value c tx Htx Hval).
  destruct (command_callData c tx vs Htx Hvs) as [_ ->]; [congruence|].
  rewrite Hsig, Htypes. destruct INNER_DEPTH_S as [d ->].
  assert (accounts (consumed (chain w) tla s tx g) !! target tx = Some acc) as Hacc'
    by (unfold consumed, set_code, set_account; cbn; by rewrite lookup_insert_ne).
  rewrite (call_proxy_method d _ tla (target tx) acc mt vs)
    by (done || (rewrite <-Htypes; by eapply coerce_all_typed)).
  rewrite Hrun. unfold get, code_at. rewrite Hkeep. unfold consumed, set_code, set_account.
  cbn. by rewrite lookup_insert_eq.
Qed.

(** Handing the proxies over, end to end.  When s009 finishes it has printed one
    command per proxy, in order; each of them, run while queued and in its window on a
    proxy that the timelock administers, makes the proxy admin the administrator of that
    proxy and leaves its implementation, its state and every other contract as they are. *)
Theorem s009_changes_admin w0 w1 tl ps padmin tla eta z s0 :
  timelock_at w0 tl tla s0 -> decimal eta = Some z ->
  s009_func ps padmin tl eta w0 = (w1, Ok tt) ->
  exists cs, console w1 = console w0 ++ cs /\ Forall2 (fun p c => exists tx adm pa,
    command_tx c = Ok tx /\ getAddress padmin = Some adm /\ getAddress p = Some pa /\
    forall w s slots cd, timelock_at w tl tla s -> pa <> tla -> adm <> zero_address ->
      accounts (chain w) !! pa = Some {| proxy := Some slots; code := cd |} ->
      proxy_admin slots = tla -> ready (next_msg w tla) s tx ->
      exists w', run_command tl c w = (w', Ok tt) /\
        accounts (chain w') !! pa
        = Some {| proxy := Some {| proxy_admin := adm; implementation := implementation slots |};
                  code := cd |} /\
        (forall a, a <> tla -> a <> pa ->
          accounts (chain w') !! a = accounts (chain w) !! a)) ps cs.
Proof.
  intros Ht0 Hz Hrun. unfold s009_func in Hrun.
  apply (for_each_queue_print tl tla _ _ (fun p => p) (fun _ => eta) (fun _ => [JStr padmin])
    (fun _ => [JStr padmin]) ps (fun _ => z) (fun _ _ => conj eq_refl Hz) _ _ _ Ht0)
    in Hrun as (cs & Hcs & Hall).
  exists cs. split; [done|]. eapply Forall2_impl; [done|]. cbn beta.
  intros p c (tx & vs & Htx & Hcv & Hsig & Hty & Hvs & Hcvs & Hta).
  cbn in Hvs. destruct (getAddress padmin) as [adm|]; [|done]. cbn in Hvs. injection Hvs as <-.
  exists tx, adm, (target tx). split_and!; [done..|].
  intros w s slots cd Ht Hne Hnz Hacc Hadm Hready.
  set (acc' := {| proxy := Some {| proxy_admin := adm; implementation := implementation slots |};
                  code := cd |}).
  destruct (run_ready_proxy w tl tla s c tx _ {| proxy := Some slots; code := cd |} m_changeAdmin
    (fun g => set_account (consumed (chain w) tla s tx g) (target tx) acc')
    Ht Htx Hready Hcv Hcvs Hsig Hty) as (g & Hrc); try done.
  - by cbn; rewrite Hadm.
  - in_list.
  - intros g. cbn. unfold changeAdmin. cbn. rewrite lookup_insert_ne by done. rewrite Hacc. cbn.
    by rewrite bool_decide_eq_true_2.
  - intros g. cbn. by rewrite lookup_insert_ne.
  - rewrite Hrc. eexists. split; [done|]. cbn. split.
    + by rewrite lookup_insert_ne, lookup_insert_eq.
    + intros a Ha Ha'. by rewrite !lookup_insert_ne.
Qed.

(** Enabling a strategy, end to end.  When s001 finishes it has printed one
    command; run while its transaction is queued and in its window, on a worker the
    timelock owns, it whitelists the strategy on that worker, and nothing else on the
    chain changes, the timelock's bookkeeping apart. *)
Theorem s001_enables_strategy w0 w1 w tl worker strat tla eta z s0 s wka k p :
  timelock_at w0 tl tla s0 -> decimal eta = Some z ->
  s001_func worker strat true tl eta w0 = (w1, Ok tt) ->
  timelock_at w tl tla s -> getAddress worker = Some wka -> wka <> tla ->
  accounts (chain w) !! wka = Some {| proxy := p; code := CWorker k |} ->
  proxy_admin <$> p <> Some tla -> wk_owner k = tla ->
  exists c tx sta, console w1 = console w0 ++ [c] /\ command_tx c = Ok tx /\
    getAddress strat = Some sta /\
    (ready (next_msg w tla) s tx -> exists w' k', run_command tl c w = (w', Ok tt) /\
       accounts (chain w') !! wka = Some {| proxy := p; code := CWorker k' |} /\
       okStrats k' = <[ sta := true ]> (okStrats k) /\
       wk_owner k' = wk_owner k /\ okReinvestors k' = okReinvestors k /\
       (forall a, a <> tla -> a <> wka ->
          accounts (chain w') !! a = accounts (chain w) !! a)).
Proof.
  intros Ht0 Hz Hrun Ht Hw Hne Hacc Hadm Hown. unfold s001_func in Hrun.
  apply (queue_print_Ok w0 w1 tl tla s0 _ _ _ _ _ _ z Ht0 eq_refl Hz) in Hrun
    as (c & tx & vs & Hc & Htx & Hct & Hcv & Hcs & Hcty & Hvs & Hcvs & Hta).
  cbn in Hvs. destruct (getAddress strat) as [sta|] eqn:Hsta; [|done].
  cbn in Hvs. injection Hvs as <-. rewrite Hw in Hta. injection Hta as ->.
  exists c, tx, sta. split_and!; [done..|]. intros Hready.
  set (k' := with_okStrats k (set_all (okStrats k) [sta] true)).  destruct (run_ready_method w tl tla s c tx _ {| proxy := p; code := CWorker k |} m_setStrategyOk
    (fun g => set_code (consumed (chain w) tla s tx g) (target tx) (CWorker k'))
    Ht Htx Hready Hcv Hcvs Hcs Hcty) as (g & _ & Hrc); try done.
  - intros cl. in_list.
  - intros g. cbn. unfold own, get, code_at. cbn.
    rewrite lookup_insert_ne by done. rewrite Hacc. cbn.
    unfold setStrategyOk. by rewrite onlyOwner_owner.
  - intros g. cbn. by rewrite lookup_insert_ne.
  - rewrite Hrc. eexists _, k'. split; [done|]. cbn.
    split_and!; try done.
    + rewrite lookup_insert_ne, lookup_insert_eq by done.
      by rewrite lookup_insert_ne, Hacc by done.
    + intros a Ha Ha'. by rewrite !lookup_insert_ne.
Qed.
End Runs.
