(* ===== verification/CoreScripts.v ===== *)
(** * The core deployment scripts

    src/deploy/scripts/001 to 007: the timelock, the token and the reward
    distributor, the interest models, the native relayer, the oracle and the worker
    configuration. *)

From S2P Require Import Prelude Buffers MerkleTree BalanceTree Evm.
From S2P Require Import Timelock HuskyToken FairLaunch Lending Workers Chain Script.

Section Scripts.
Context `{AbiCoder} `{!OpenZeppelin} `{!Network} `{!EthersNumbers}.

(** ** 001: the timelock *)

Definition DELAY_IN_DAYS : Z := 1.

Definition deploy_timelock : script unit :=
  config ← get_config;
  let ADMIN_ADDRESS := AdminAddress config in
  timelock ← deploy (with_args [TAddress; TUint 256]
    [JStr ADMIN_ADDRESS; JNum (DELAY_IN_DAYS * 24 * 60 * 60)]
    (fun m ch vs => match vs with
     | [VAddress admin_; VUint delay_] => s ← new_Timelock admin_ delay_; Ok (ch, CTimelock s)
     | _ => Err EmptyString
     end));
  set_config (with_Timelock config timelock) ;;
  save_config.

(** ** 002: the token and FairLaunch *)

Definition deploy_fairlaunch : script unit :=
  HUSKY_REWARD_PER_BLOCK ← lift (of_option (parseEther "10.9") "invalid decimal value");
  let BONUS_MULTIPLIER := 1%Z in
  let BONUS_END_BLOCK := "2" in
  let BONUS_LOCK_BPS := "0" in
  let START_BLOCK := "1" in
  let HUSKY_START_RELEASE := "1" in
  let HUSKY_END_RELEASE := "2" in
  config ← get_config;
  huskyToken ← deploy (with_args [TUint 256; TUint 256]
    [JStr HUSKY_START_RELEASE; JStr HUSKY_END_RELEASE]
    (fun m ch vs => match vs with
     | [VUint start; VUint end_] => h ← new_HuskyToken m start end_; Ok (ch, CHuskyToken h)
     | _ => Err EmptyString
     end));
  fairLaunch ← deploy (with_args [TAddress; TAddress; TUint 256; TUint 256; TUint 256; TUint 256]
    [JStr huskyToken; JStr signer; JNum HUSKY_REWARD_PER_BLOCK; JStr START_BLOCK;
     JStr BONUS_LOCK_BPS; JStr BONUS_END_BLOCK]
    (fun m ch vs => match vs with
     | [VAddress husky; VAddress dev; VUint perBlock; VUint start; VUint lock; VUint end_] =>
         Ok (ch, CFairLaunch (new_FairLaunch m husky dev perBlock start lock end_))
     | _ => Err EmptyString
     end));
  send_gasLimit (JStr huskyToken) "transferOwnership(address)" [TAddress] [JStr fairLaunch] ;;
  send_gasLimit (JStr fairLaunch) "setBonus(uint256,uint256,uint256)" [TUint 256; TUint 256; TUint 256]
    [JNum BONUS_MULTIPLIER; JStr BONUS_END_BLOCK; JStr BONUS_LOCK_BPS] ;;
  set_config (with_Tokens config (<[ "HUSKY" := huskyToken ]> (Tokens_of config))) ;;
  config ← get_config;
  set_config (with_FairLaunch config fairLaunch (FairLaunch_pools config)) ;;
  save_config.

(** ** 004: the interest models, which have no state of their own *)

Definition deploy_model : script address := deploy (fun _ ch => Ok (ch, CLogic)).

Definition set_shared (key a : string) : script unit :=
  config ← get_config; set_config (with_SharedConfig config key a).

Definition deploy_models : script unit :=
  triple ← deploy_model;
  low ← deploy_model;
  high ← deploy_model;
  set_shared "TripleSlopeModel" triple ;;
  set_shared "LowInterestTripleSlopeModel" low ;;
  set_shared "HighInterestTripleSlopeModel" high ;;
  save_config.

(** ** 005: the native relayer *)

Definition deploy_relayer : script unit :=
  config ← get_config;
  let WNATIVE_ADDR := NativeAddress config in
  relayer ← deploy (with_args [TAddress] [JStr WNATIVE_ADDR]
    (fun m ch vs => match vs with
     | [VAddress wnative] => Ok (ch, CWNativeRelayer (new_WNativeRelayer m wnative))
     | _ => Err EmptyString
     end));
  set_shared "WNativeRelayer" relayer ;;
  save_config.

(** ** 006: the price oracle *)

Definition deploy_oracle : script unit :=
  config ← get_config;
  let FEEDER_ADDR := FeederAddress config in
  simplePriceOracle ← deployProxy (with_args [TAddress] [JStr FEEDER_ADDR]
    (fun m ch vs => match vs with
     | [VAddress feeder] => Ok (ch, CSimplePriceOracle (SimplePriceOracle_initialize m feeder))
     | _ => Err EmptyString
     end));
  set_config (with_Oracle config "SimpleOracle" simplePriceOracle) ;;
  save_config.

(** ** 007: the worker configuration *)

Definition deploy_worker_config : script unit :=
  config ← get_config;
  let SIMPLE_ORACLE_ADDR := Oracle config !! "SimpleOracle" in
  workerConfig ← deployProxy (with_args [TAddress] [js_opt SIMPLE_ORACLE_ADDR]
    (fun m ch vs => match vs with
     | [VAddress oracle] => Ok (ch, CWorkerConfig (WorkerConfig_initialize m oracle))
     | _ => Err EmptyString
     end));
  set_shared "WorkerConfig" workerConfig ;;
  save_config.
End Scripts.
