(* ===== verification/VaultScripts.v ===== *)
(** * The vault deployment scripts

    src/deploy/scripts/010-1 to 010-8 deploy a vault configuration each and append
    it to the list of vaults; 011-1 to 011-8 deploy a vault and its debt token,
    register both with FairLaunch and the native relayer, and record them.  The eight
    files of either kind differ in their constants only. *)

From S2P Require Import Prelude Buffers MerkleTree BalanceTree Evm.
From S2P Require Import Timelock HuskyToken FairLaunch Lending Workers Chain Script.

Section Scripts.
Context `{AbiCoder} `{!OpenZeppelin} `{!Network} `{!EthersNumbers}.

(** ** 010: a vault configuration *)

Definition config_types : list AbiType :=
  [TUint 256; TUint 256; TUint 256; TUint 256; TAddress; TAddress; TAddress; TAddress].

Definition init_config (m : Msg) (ch : Chain) (vs : list AbiValue) : result (Chain * Code) :=
  match vs with
  | [VUint minDebt; VUint reserve; VUint close; VUint kill;
     VAddress model; VAddress wnative; VAddress relayer; VAddress fl] =>
      c ← BasicVaultConfig_initialize m minDebt reserve close kill model wnative relayer fl;
      Ok (ch, CBasicVaultConfig c)
  | _ => Err EmptyString
  end.

Definition config_func (SYMBOL MODEL : string) : script unit :=
  config ← get_config;
  let FAIR_LAUNCH_ADDR := FairLaunch_address config in
  let WNATV_ADDR := NativeAddress config in
  let WNATV_RLY_ADDR := SharedConfig config !! "WNativeRelayer" in
  MIN_DEBT_SIZE ← lift (of_option (parseEther "100") "invalid decimal value");
  let RESERVE_POOL_BPS := "1600" in
  let CLOSE_PRIZE_BPS := "4" in
  let KILL_PRIZE_BPS := "500" in
  let INTEREST_MODEL := SharedConfig config !! MODEL in
  basicVaultConfig ← deployProxy (with_args config_types
    [JNum MIN_DEBT_SIZE; JStr RESERVE_POOL_BPS; JStr CLOSE_PRIZE_BPS; JStr KILL_PRIZE_BPS;
     js_opt INTEREST_MODEL; JStr WNATV_ADDR; js_opt WNATV_RLY_ADDR; JStr FAIR_LAUNCH_ADDR]
    init_config);
  let vaultConfig :=
    {| ve_name := EmptyString; ve_symbol := SYMBOL; ve_address := EmptyString;
       ve_baseToken := None; ve_debtToken := EmptyString; ve_config := basicVaultConfig;
       ve_tripleSlopeModel := INTEREST_MODEL;
       ve_StrategyAddTwoSidesOptimal := EmptyString; ve_workers := [] |} in
  set_config (with_Vaults config (Vaults config ++ [vaultConfig])) ;;
  save_config.

Definition config_huski := config_func "ibHUSKI" "HighInterestTripleSlopeModel".
Definition config_busd := config_func "ibBUSD" "HighInterestTripleSlopeModel".
Definition config_bnb := config_func "ibBNB" "HighInterestTripleSlopeModel".
Definition config_usdt := config_func "ibUSDT" "LowInterestTripleSlopeModel".
Definition config_cake := config_func "ibCAKE" "HighInterestTripleSlopeModel".
Definition config_eth := config_func "ibETH" "LowInterestTripleSlopeModel".
Definition config_btcb := config_func "ibBTCB" "LowInterestTripleSlopeModel".
Definition config_usdc := config_func "ibUSDC" "LowInterestTripleSlopeModel".

(** ** 011: a vault *)

Definition init_debtToken (m : Msg) (ch : Chain) (vs : list AbiValue) : result (Chain * Code) :=
  match vs with
  | [VString name; VString symbol; VAddress timelock] =>
      Ok (ch, CDebtToken (DebtToken_initialize m name symbol timelock))
  | _ => Err EmptyString
  end.

Definition init_vault (m : Msg) (ch : Chain) (vs : list AbiValue) : result (Chain * Code) :=
  match vs with
  | [VAddress config; VAddress token; VString name; VString symbol; VUint decimals;
     VAddress debtToken] =>
      '(ch, v) ← Vault_initialize m ch config token name symbol decimals debtToken;
      Ok (ch, CVault v)
  | _ => Err EmptyString
  end.

(** [config.FairLaunch.pools.push({id, stakingToken, address})] *)
Definition push_pool (id : Z) (stakingToken address : string) : script unit :=
  config ← get_config;
  set_config (with_FairLaunch config (FairLaunch_address config)
    (FairLaunch_pools config ++
       [{| pe_id := id; pe_stakingToken := stakingToken; pe_address := address |}])).

Definition recorded (NAME SYMBOL vault debtToken : string) (BASE_TOKEN_ADDR : option string)
    (v : VaultEntry) : VaultEntry :=
  {| ve_name := NAME; ve_symbol := SYMBOL; ve_address := vault;
     ve_baseToken := BASE_TOKEN_ADDR; ve_debtToken := debtToken; ve_config := ve_config v;
     ve_tripleSlopeModel := ve_tripleSlopeModel v;
     ve_StrategyAddTwoSidesOptimal := ve_StrategyAddTwoSidesOptimal v;
     ve_workers := ve_workers v |}.

(** The final loop: every vault of that symbol is updated in place, and the file is
    written after each. *)
Definition record_vault (NAME SYMBOL vault debtToken : string) (BASE_TOKEN_ADDR : option string) :
    script unit :=
  config ← get_config;
  for_each (fun i =>
    config ← get_config;
    match Vaults config !! i with
    | Some v =>
        if bool_decide (ve_symbol v = SYMBOL) then
          set_config (with_Vaults config
            (<[ i := recorded NAME SYMBOL vault debtToken BASE_TOKEN_ADDR v ]> (Vaults config))) ;;
          save_config
        else mret tt
    | None => mret tt
    end) (seq 0 (length (Vaults config))).

Definition vault_func (vaultIndex : nat) (NAME : string)
    (ALLOC_POINT_FOR_DEPOSIT ALLOC_POINT_FOR_OPEN_POSITION : Z) (BASE_TOKEN : string) :
    script unit :=
  config ← get_config;
  let BASE_TOKEN_ADDR := Tokens_of config !! BASE_TOKEN in
  let FAIR_LAUNCH_ADDR := FairLaunch_address config in
  entry ← lift (of_option (Vaults config !! vaultIndex) "Cannot read properties of undefined");
  let CONFIG_ADDR := ve_config entry in
  let SYMBOL := ve_symbol entry in
  let WNATIVE_RELAYER_ADDR := SharedConfig config !! "WNativeRelayer" in
  let TIMELOCK := js_Timelock config in
  let debtSYMBOL := "debt" +:+ SYMBOL in
  debtToken ← deployProxy (with_args [TString; TString; TAddress]
    [JStr (debtSYMBOL +:+ "_V2"); JStr (debtSYMBOL +:+ "_V2"); JStr TIMELOCK] init_debtToken);
  vault ← deployProxy (with_args [TAddress; TAddress; TString; TString; TUint 8; TAddress]
    [JStr CONFIG_ADDR; js_opt BASE_TOKEN_ADDR; JStr NAME; JStr SYMBOL; JNum 18; JStr debtToken]
    init_vault);
  send (JStr debtToken) "setOkHolders(address[],bool)" [TArray TAddress; TBool]
    [JArr [JStr vault; JStr FAIR_LAUNCH_ADDR]; JBool true] ;;
  send (JStr debtToken) "transferOwnership(address)" [TAddress] [JStr vault] ;;
  send (JStr FAIR_LAUNCH_ADDR) "addPool(string,uint256,address,bool)"
    [TString; TUint 256; TAddress; TBool]
    [JStr debtSYMBOL; JNum ALLOC_POINT_FOR_OPEN_POSITION; JStr debtToken; JBool true] ;;
  length1 ← view as_FairLaunch (JStr FAIR_LAUNCH_ADDR) poolLength;
  let fairLaunchDebtPid := (length1 - 1)%Z in
  send_gasLimit (JStr vault) "setFairLaunchPoolId(uint256)" [TUint 256] [JNum fairLaunchDebtPid] ;;
  push_pool fairLaunchDebtPid debtSYMBOL debtToken ;;
  send (JStr FAIR_LAUNCH_ADDR) "addPool(string,uint256,address,bool)"
    [TString; TUint 256; TAddress; TBool]
    [JStr SYMBOL; JNum ALLOC_POINT_FOR_DEPOSIT; JStr vault; JBool true] ;;
  length2 ← view as_FairLaunch (JStr FAIR_LAUNCH_ADDR) poolLength;
  let fairLaunchPid := (length2 - 1)%Z in
  push_pool fairLaunchPid SYMBOL vault ;;
  send (js_opt WNATIVE_RELAYER_ADDR) "setCallerOk(address[],bool)" [TArray TAddress; TBool]
    [JArr [JStr vault]; JBool true] ;;
  record_vault NAME SYMBOL vault debtToken BASE_TOKEN_ADDR.

Definition vault_huski := vault_func 1 "Interest Bearing HUSKI" 0 0 "HUSKY".
Definition vault_busd := vault_func 2 "Interest Bearing BUSD" 200 300 "BUSD".
Definition vault_bnb := vault_func 3 "Interest Bearing WBNB" 200 300 "WBNB".
Definition vault_usdt := vault_func 4 "Interest Bearing USDT" 100 100 "USDT".
Definition vault_cake := vault_func 5 "Interest Bearing CAKE" 0 0 "CAKE".
Definition vault_eth := vault_func 6 "Interest Bearing ETH" 100 100 "ETH".
Definition vault_btcb := vault_func 7 "Interest Bearing BTCB" 100 50 "BTCB".
Definition vault_usdc := vault_func 8 "Interest Bearing USDC" 100 100 "USDC".
End Scripts.
