(* ===== verification/WorkerScripts.v ===== *)
(** * The strategy and worker deployment scripts

    src/deploy/scripts/012 deploys the five strategies that all vaults share and 013 one
    more for each vault; 014-1 to 014-8 deploy the workers of a vault, whitelist them and
    record them. *)

From S2P Require Import Prelude Buffers MerkleTree BalanceTree Evm.
From S2P Require Import Timelock HuskyToken FairLaunch Lending Workers Chain Script.

Section Scripts.
Context `{AbiCoder} `{!OpenZeppelin} `{!Network} `{!EthersNumbers} `{!Pancake}.

(** ** 012: the shared strategies *)

(** [initialize(router)], and [initialize(router, wbnb, wNativeRelayer)]. *)
Definition init_strategy (kind : StrategyKind) (m : Msg) (ch : Chain) (vs : list AbiValue) :
    result (Chain * Code) :=
  match vs with
  | [VAddress router] => s ← Strategy_initialize m kind router; Ok (ch, CStrategy s)
  | _ => Err EmptyString
  end.

Definition init_strategy_native (kind : address -> address -> StrategyKind) (m : Msg) (ch : Chain)
    (vs : list AbiValue) : result (Chain * Code) :=
  match vs with
  | [VAddress router; VAddress wbnb; VAddress relayer] =>
      s ← Strategy_initialize m (kind wbnb relayer) router; Ok (ch, CStrategy s)
  | _ => Err EmptyString
  end.

Definition set_strategy (key a : string) : script unit :=
  config ← get_config; set_config (with_SharedStrategies config key a).

Definition deploy_strategies : script unit :=
  config ← get_config;
  let ROUTER_V2 := RouterV2 config in
  let WBNB := Tokens_of config !! "WBNB" in
  let WNATIVE_RELAYER := SharedConfig config !! "WNativeRelayer" in
  add ← deployProxy (with_args [TAddress] [JStr ROUTER_V2]
    (init_strategy PancakeswapV2AddBaseTokenOnly));
  liquidate ← deployProxy (with_args [TAddress] [JStr ROUTER_V2]
    (init_strategy PancakeswapV2Liquidate));
  withdraw ← deployProxy (with_args [TAddress; TAddress; TAddress]
    [JStr ROUTER_V2; js_opt WBNB; js_opt WNATIVE_RELAYER]
    (init_strategy_native PancakeswapV2WithdrawMinimizeTrading));
  send (js_opt WNATIVE_RELAYER) "setCallerOk(address[],bool)" [TArray TAddress; TBool]
    [JArr [JStr withdraw]; JBool true] ;;
  partialLiquidate ← deployProxy (with_args [TAddress] [JStr ROUTER_V2]
    (init_strategy PancakeswapV2PartialCloseLiquidate));
  partialMinimize ← deployProxy (with_args [TAddress; TAddress; TAddress]
    [JStr ROUTER_V2; js_opt WBNB; js_opt WNATIVE_RELAYER]
    (init_strategy_native PancakeswapV2PartialCloseMinimizeTrading));
  send (js_opt WNATIVE_RELAYER) "setCallerOk(address[],bool)" [TArray TAddress; TBool]
    [JArr [JStr partialMinimize]; JBool true] ;;
  set_strategy "StrategyAddBaseTokenOnly" add ;;
  set_strategy "StrategyLiquidate" liquidate ;;
  set_strategy "StrategyWithdrawMinimizeTrading" withdraw ;;
  set_strategy "StrategyPartialCloseLiquidate" partialLiquidate ;;
  set_strategy "StrategyPartialCloseMinimizeTrading" partialMinimize ;;
  save_config.

(** ** 013: the strategy of each vault *)

Definition init_two_sides (m : Msg) (ch : Chain) (vs : list AbiValue) : result (Chain * Code) :=
  match vs with
  | [VAddress router; VAddress vault] =>
      s ← Strategy_initialize m (PancakeswapV2AddTwoSidesOptimal vault) router;
      Ok (ch, CStrategy s)
  | _ => Err EmptyString
  end.

Definition with_two_sides (a : string) (v : VaultEntry) : VaultEntry :=
  {| ve_name := ve_name v; ve_symbol := ve_symbol v; ve_address := ve_address v;
     ve_baseToken := ve_baseToken v; ve_debtToken := ve_debtToken v; ve_config := ve_config v;
     ve_tripleSlopeModel := ve_tripleSlopeModel v; ve_StrategyAddTwoSidesOptimal := a;
     ve_workers := ve_workers v |}.

(** The loop starts at the vault of index 3.  The list [NEW_PARAMS] of the file is not used,
    but evaluating it reads the first vault. *)
Definition deploy_vault_strategies : script unit :=
  config ← get_config;
  lift (of_option (Vaults config !! 0) "Cannot read properties of undefined") ;;
  for_each (fun i =>
    config ← get_config;
    v ← lift (of_option (Vaults config !! i) "Cannot read properties of undefined");
    twoSides ← deployProxy (with_args [TAddress; TAddress]
      [JStr (RouterV2 config); JStr (ve_address v)] init_two_sides);
    set_config (with_Vaults config (alter (with_two_sides twoSides) i (Vaults config))) ;;
    save_config) (seq 3 (length (Vaults config) - 3)).

(** ** 014: the workers of a vault *)

Record WorkerParams := {
  wp_NAME : string;
  wp_POOL_ID : Z;
  wp_REINVEST_BOUNTY_BPS : string;
  wp_WORK_FACTOR : string;
  wp_KILL_FACTOR : string;
  wp_MAX_PRICE_DIFF : string;
  wp_REINVEST_BOT : string;
  wp_BASE_TOKEN_ADDR : option string;
  wp_VAULT_CONFIG_ADDR : string;
  wp_WORKER_CONFIG_ADDR : option string;
  wp_VAULT_ADDR : string;
  wp_MASTER_CHEF_ADDR : string;
  wp_PANCAKESWAP_ROUTER_ADDR : string;
  wp_ADD_STRAT_ADDR : option string;
  wp_LIQ_STRAT_ADDR : option string;
  wp_STRATS : list (option string)
}.

(** An element of [WORKERS] by its name, pool and factors: within a file the elements
    differ in nothing else, and between the files in the base token. *)
Definition worker_params (config : Json) (vault : VaultEntry) (BASE_TOKEN : string)
    (row : string * Z * string * string) : WorkerParams :=
  let '(NAME, POOL_ID, WORK_FACTOR, KILL_FACTOR) := row in
  {| wp_NAME := NAME;
     wp_POOL_ID := POOL_ID;
     wp_REINVEST_BOUNTY_BPS := "200";
     wp_WORK_FACTOR := WORK_FACTOR;
     wp_KILL_FACTOR := KILL_FACTOR;
     wp_MAX_PRICE_DIFF := "11000";
     wp_REINVEST_BOT := AdminAddress config;
     wp_BASE_TOKEN_ADDR := Tokens_of config !! BASE_TOKEN;
     wp_VAULT_CONFIG_ADDR := ve_config vault;
     wp_WORKER_CONFIG_ADDR := SharedConfig config !! "WorkerConfig";
     wp_VAULT_ADDR := ve_address vault;
     wp_MASTER_CHEF_ADDR := MasterChef config;
     wp_PANCAKESWAP_ROUTER_ADDR := RouterV2 config;
     wp_ADD_STRAT_ADDR := SharedStrategies config !! "StrategyAddBaseTokenOnly";
     wp_LIQ_STRAT_ADDR := SharedStrategies config !! "StrategyLiquidate";
     wp_STRATS :=
       [SharedStrategies config !! "StrategyPartialCloseLiquidate";
        SharedStrategies config !! "StrategyPartialCloseMinimizeTrading";
        SharedStrategies config !! "StrategyWithdrawMinimizeTrading";
        Some (ve_StrategyAddTwoSidesOptimal vault)] |}.

Definition worker_types : list AbiType :=
  [TAddress; TAddress; TAddress; TAddress; TUint 256; TAddress; TAddress; TUint 256].

Definition init_worker (m : Msg) (ch : Chain) (vs : list AbiValue) : result (Chain * Code) :=
  match vs with
  | [VAddress operator; VAddress baseToken; VAddress chef; VAddress router; VUint pid;
     VAddress add; VAddress liq; VUint bounty] =>
      w ← Worker_initialize m operator baseToken chef router pid add liq bounty;
      Ok (ch, CWorker w)
  | _ => Err EmptyString
  end.

Definition deploy_worker (p : WorkerParams) : script address :=
  deployProxy (with_args worker_types
    [JStr (wp_VAULT_ADDR p); js_opt (wp_BASE_TOKEN_ADDR p); JStr (wp_MASTER_CHEF_ADDR p);
     JStr (wp_PANCAKESWAP_ROUTER_ADDR p); JNum (wp_POOL_ID p); js_opt (wp_ADD_STRAT_ADDR p);
     js_opt (wp_LIQ_STRAT_ADDR p); JStr (wp_REINVEST_BOUNTY_BPS p)] init_worker).

(** [strat.setWorkersOk([worker], true)] *)
Definition whitelist (worker : string) (strat : option string) : script unit :=
  send (js_opt strat) "setWorkersOk(address[],bool)" [TArray TAddress; TBool]
    [JArr [JStr worker]; JBool true].

(** The transactions that follow the deployment. *)
Definition configure_worker (p : WorkerParams) (worker : string) : script unit :=
  send (JStr worker) "setReinvestorOk(address[],bool)" [TArray TAddress; TBool]
    [JArr [JStr (wp_REINVEST_BOT p)]; JBool true] ;;
  send (JStr worker) "setStrategyOk(address[],bool)" [TArray TAddress; TBool]
    [JArr (js_opt <$> wp_STRATS p); JBool true] ;;
  whitelist worker (wp_ADD_STRAT_ADDR p) ;;
  whitelist worker (wp_LIQ_STRAT_ADDR p) ;;
  for_each (whitelist worker) (wp_STRATS p) ;;
  send (js_opt (wp_WORKER_CONFIG_ADDR p)) "setConfigs(address[],(bool,uint64,uint64,uint64)[])"
    [TArray TAddress; TArray CONFIG]
    [JArr [JStr worker];
     JArr [JObj [("acceptDebt", JBool true); ("workFactor", JStr (wp_WORK_FACTOR p));
                 ("killFactor", JStr (wp_KILL_FACTOR p));
                 ("maxPriceDiff", JStr (wp_MAX_PRICE_DIFF p))]]] ;;
  send (JStr (wp_VAULT_CONFIG_ADDR p)) "setWorkers(address[],address[])"
    [TArray TAddress; TArray TAddress]
    [JArr [JStr worker]; JArr [js_opt (wp_WORKER_CONFIG_ADDR p)]].

Definition with_worker (e : WorkerEntry) (v : VaultEntry) : VaultEntry :=
  {| ve_name := ve_name v; ve_symbol := ve_symbol v; ve_address := ve_address v;
     ve_baseToken := ve_baseToken v; ve_debtToken := ve_debtToken v; ve_config := ve_config v;
     ve_tripleSlopeModel := ve_tripleSlopeModel v;
     ve_StrategyAddTwoSidesOptimal := ve_StrategyAddTwoSidesOptimal v;
     ve_workers := ve_workers v ++ [e] |}.

Definition worker_entry (p : WorkerParams) (worker : string) : WorkerEntry :=
  {| we_name := wp_NAME p; we_address := worker; we_config := wp_WORKER_CONFIG_ADDR p;
     we_pId := wp_POOL_ID p |}.

(** [config.Vaults[vaultIndex].workers.push(worker)] *)
Definition push_worker (vaultIndex : nat) (p : WorkerParams) (worker : string) : script unit :=
  config ← get_config;
  set_config (with_Vaults config (alter (with_worker (worker_entry p worker)) vaultIndex
    (Vaults config))).

(** The array [WORKERS], evaluated before the loop. *)
Definition worker_list (vaultIndex : nat) (BASE_TOKEN : string)
    (rows : list (string * Z * string * string)) : script (list WorkerParams) :=
  config ← get_config;
  vault ← lift (of_option (Vaults config !! vaultIndex) "Cannot read properties of undefined");
  mret (worker_params config vault BASE_TOKEN <$> rows).

(** 014-3 to 014-8: a worker is recorded as soon as it is deployed. *)
Definition workers_func (vaultIndex : nat) (BASE_TOKEN : string) (first : nat)
    (rows : list (string * Z * string * string)) : script unit :=
  WORKERS ← worker_list vaultIndex BASE_TOKEN rows;
  for_each (fun p =>
    worker ← deploy_worker p;
    push_worker vaultIndex p worker ;; save_config ;;
    configure_worker p worker) (drop first WORKERS).

(** 014-2: once it is configured. *)
Definition workers_func_late (vaultIndex : nat) (BASE_TOKEN : string) (first : nat)
    (rows : list (string * Z * string * string)) : script unit :=
  WORKERS ← worker_list vaultIndex BASE_TOKEN rows;
  for_each (fun p =>
    worker ← deploy_worker p;
    configure_worker p worker ;;
    push_worker vaultIndex p worker ;; save_config) (drop first WORKERS).

(** 014-1: likewise, and the file is written once, after the loop. *)
Definition workers_func_once (vaultIndex : nat) (BASE_TOKEN : string) (first : nat)
    (rows : list (string * Z * string * string)) : script unit :=
  WORKERS ← worker_list vaultIndex BASE_TOKEN rows;
  for_each (fun p =>
    worker ← deploy_worker p;
    configure_worker p worker ;;
    push_worker vaultIndex p worker) (drop first WORKERS) ;;
  save_config.

(** The rows of the files, and the index at which each file's loop starts. *)

Definition rows_huski : list (string * Z * string * string) :=
  [("BUSD-HUSKI Worker", (-1)%Z, "5500", "7000")].

Definition rows_busd_1 : list (string * Z * string * string) :=
  [("CAKE-BUSD Worker", 389%Z, "7000", "8000");
   ("BNB-BUSD Worker", 252%Z, "7000", "8000");
   ("USDT-BUSD Worker", 258%Z, "8600", "9100");
   ("USDC-BUSD Worker", 283%Z, "7800", "8900");
   ("DAI-BUSD Worker", 282%Z, "7800", "8900")].

Definition rows_busd_2 : list (string * Z * string * string) :=
  [("TRX-BUSD Worker", 442%Z, "7000", "8000");
   ("BTT-BUSD Worker", 443%Z, "7000", "8000")].

Definition rows_bnb_1 : list (string * Z * string * string) :=
  [("CAKE-BNB Worker", 251%Z, "7000", "8000");
   ("BUSD-BNB Worker", 252%Z, "7000", "8000");
   ("USDT-BNB Worker", 264%Z, "7000", "8000");
   ("ETH-BNB Worker", 261%Z, "7000", "8000");
   ("BTCB-BNB Worker", 262%Z, "7000", "8000")].

Definition rows_bnb_2 : list (string * Z * string * string) :=
  [("DOT-BNB Worker", 255%Z, "7000", "8000");
   ("ADA-BNB Worker", 253%Z, "7000", "8000");
   ("UNI-BNB Worker", 268%Z, "7000", "8000");
   ("LINK-BNB Worker", 257%Z, "7000", "8000");
   ("XVS-BNB Worker", 260%Z, "7000", "8000")].

Definition rows_bnb_3 : list (string * Z * string * string) :=
  [("DOT-BNB Worker", 255%Z, "7000", "8000");
   ("AXS-BNB Worker", 430%Z, "7000", "8000");
   ("DODO-BNB Worker", 305%Z, "7000", "8000")].

Definition rows_usdt : list (string * Z * string * string) :=
  [("CAKE-USDT Worker", 422%Z, "7000", "8000");
   ("BNB-USDT Worker", 264%Z, "7000", "8000");
   ("BUSD-USDT Worker", 258%Z, "8600", "9100");
   ("USDC-USDT Worker", 423%Z, "7800", "8900")].

Definition rows_cake : list (string * Z * string * string) :=
  [("BNB-CAKE Worker", 21%Z, "7000", "8000");
   ("USDT-CAKE Worker", 57%Z, "7000", "8000");
   ("BUSD-CAKE Worker", 49%Z, "7000", "8000")].

Definition rows_eth : list (string * Z * string * string) :=
  [("BNB-ETH Worker", 261%Z, "7000", "8000");
   ("SUSHI-ETH Worker", 306%Z, "7000", "8000")].

Definition rows_btcb : list (string * Z * string * string) :=
  [("BNB-BTCB Worker", 262%Z, "5500", "7000");
   ("BUSD-BTCB Worker", 365%Z, "5500", "7000")].

Definition rows_usdc : list (string * Z * string * string) :=
  [("BUSD-USDC Worker", 283%Z, "7800", "8900");
   ("USDT-USDC Worker", 423%Z, "7800", "8900")].

Definition workers_huski := workers_func_once 1 "HUSKY" 0 rows_huski.
Definition workers_busd := workers_func_late 2 "BUSD" 5 (rows_busd_1 ++ rows_busd_2).
Definition workers_bnb := workers_func 3 "WBNB" 12
  (rows_bnb_1 ++ rows_bnb_2 ++ rows_bnb_3).
Definition workers_usdt := workers_func 4 "USDT" 1 rows_usdt.
Definition workers_cake := workers_func 5 "CAKE" 0 rows_cake.
Definition workers_eth := workers_func 6 "ETH" 0 rows_eth.
Definition workers_btcb := workers_func 7 "BTCB" 0 rows_btcb.
Definition workers_usdc := workers_func 8 "USDC" 0 rows_usdc.
End Scripts.
