(* ===== verification/OwnerScripts.v ===== *)
(** * The setup scripts that act as the owner

    The scripts of src/deploy/setup in which the deployer, still the owner, calls the
    contracts directly: s004 hands contracts over to the timelock, s005 adds a pool, s008
    enables strategies, h001 names the price feeder and h003 sets the parameters of a vault
    configuration. *)

From S2P Require Import Prelude Buffers MerkleTree BalanceTree Evm.
From S2P Require Import Timelock HuskyToken FairLaunch Lending Workers Chain Script TimelockScripts.

Section Scripts.
Context `{AbiCoder} `{!OpenZeppelin} `{!Network} `{!EthersNumbers}.

(** ** s004: hand contracts over to the timelock *)

Definition s004_func (TIMELOCK_ADDRESS : string) (TO_BE_LOCKED : list string) : script unit :=
  for_each (fun a =>
    send (JStr a) "transferOwnership(address)" [TAddress] [JStr TIMELOCK_ADDRESS]) TO_BE_LOCKED.

Definition s004_TIMELOCK_ADDRESS : string := "0x2D5408f2287BF9F9B05404794459a846651D0a59".

Definition s004_TO_BE_LOCKED : list string :=
  ["0x6cc80Df354415fA0FfeF78555a06C1DdE7549FB8"; "0x08FC9Ba2cAc74742177e0afC3dC8Aed6961c24e7"].

Definition s004 : script unit := s004_func s004_TIMELOCK_ADDRESS s004_TO_BE_LOCKED.

(** ** s005: add a pool to FairLaunch, with an explicit gas limit *)

Definition s005_func (FAIR_LAUNCH_ADDR STAKING_TOKEN_ADDR ALLOC_POINT SYMBOL : string) :
    script unit :=
  send_gasLimit (JStr FAIR_LAUNCH_ADDR) "addPool(string,uint256,address,bool)"
    [TString; TUint 256; TAddress; TBool]
    [JStr SYMBOL; JStr ALLOC_POINT; JStr STAKING_TOKEN_ADDR; JBool false].

Definition s005 : script unit :=
  s005_func "0x1e31E59da8BC065DB817db8A9cB066A76FafEE9D"
    "0xb9e6c485de9d56b6cbd481d497af56780798d2ce" "300" "ibETH".

(** ** s008: enable strategies on a worker *)

Definition s008_func (WORKER_ADDR : string) (STRATEGY_ADDRS : list string) : script unit :=
  send (JStr WORKER_ADDR) "setStrategyOk(address[],bool)" [ADDRESSES; TBool]
    [js_strings STRATEGY_ADDRS; JBool true].

Definition s008 : script unit :=
  s008_func "0x7D0ea848563F5FA0Ae5C2aF2d8207C01Ea45B0D2"
    ["0xE38EBFE8F314dcaD61d5aDCB29c1A26F41BEd0Be"; "0xE574dc08aa579720Dfacd70D3DAE883d29874599"].

(** ** h001: the feeder of the price oracle *)

Definition h001_FEEDER_ADDR : string := "0x73d7f40c3adc7e6eb693a99a7a5d41757e0a8a74".

Definition h001 : script unit :=
  config ← get_config;
  send (js_opt (Oracle config !! "SimpleOracle")) "setFeeder(address)" [TAddress]
    [JStr h001_FEEDER_ADDR].

(** ** h003: the parameters of a vault configuration *)

Definition h003_VAULT_CONFIG_ADDR : string := "0x2BE54c7feA2b0aF959a25B740d701eAa564Aa838".

Definition h003 : script unit :=
  config ← get_config;
  MIN_DEBT_SIZE ← lift (of_option (parseEther "100") "invalid decimal value");
  let RESERVE_POOL_BPS := "1600" in
  let CLOSE_PRIZE_BPS := "4" in
  let KILL_PRIZE_BPS := "500" in
  let FAIR_LAUNCH_ADDR := FairLaunch_address config in
  let WNATV_ADDR := NativeAddress config in
  let WNATV_RLY_ADDR := SharedConfig config !! "WNativeRelayer" in
  let INTEREST_MODEL := SharedConfig config !! "HighInterestTripleSlopeModel" in
  send (JStr h003_VAULT_CONFIG_ADDR)
    "setParams(uint256,uint256,uint256,uint256,address,address,address,address)"
    [TUint 256; TUint 256; TUint 256; TUint 256; TAddress; TAddress; TAddress; TAddress]
    [JNum MIN_DEBT_SIZE; JStr RESERVE_POOL_BPS; JStr CLOSE_PRIZE_BPS; JStr KILL_PRIZE_BPS;
     js_opt INTEREST_MODEL; JStr WNATV_ADDR; js_opt WNATV_RLY_ADDR; JStr FAIR_LAUNCH_ADDR].
End Scripts.
