(* ===== verification/ProductScripts.v ===== *)
(** * The scripts of other products

    Scripts 020 to 023 of src/deploy/scripts and s003 of src/deploy/setup: Shield and the
    hand-over of FairLaunch to it, the public offering and a Merkle distributor; two scripts
    that send nothing. *)

From S2P Require Import Prelude Buffers MerkleTree BalanceTree MerkleDistributor Evm.
From S2P Require Import Timelock HuskyToken Shield Offering FairLaunch Lending Workers Chain Script TimelockScripts.

Section Scripts.
Context `{AbiCoder} `{!OpenZeppelin} `{!Network} `{!EthersNumbers}.

(** ** 020: the factory of StronkHusky is loaded, nothing is deployed *)

Definition deploy_stronk : script unit := mret tt.

(** ** 021: Shield, and the command that hands FairLaunch over to it *)

Definition deploy_shield (TIMELOCK FAIRLAUNCHV1 : string) : script address :=
  deploy (with_args [TAddress; TAddress] [JStr TIMELOCK; JStr FAIRLAUNCHV1]
    (fun m ch vs => match vs with
     | [VAddress owner; VAddress fairLaunch] =>
         s ← new_Shield m owner fairLaunch; Ok (ch, CShield s)
     | _ => Err EmptyString
     end)).

Definition s021_func (TIMELOCK FAIRLAUNCHV1 TIMELOCK_TRANSFEROWNERSHIP_ETA : string) : script unit :=
  shield ← deploy_shield TIMELOCK FAIRLAUNCHV1;
  queue TIMELOCK FAIRLAUNCHV1 "transferOwnership(address)" [TAddress] [JStr shield]
    TIMELOCK_TRANSFEROWNERSHIP_ETA ;;
  print_execute FAIRLAUNCHV1 "transferOwnership(address)" [TAddress] [JStr shield]
    TIMELOCK_TRANSFEROWNERSHIP_ETA.

Definition s021 : script unit :=
  s021_func "0x2D5408f2287BF9F9B05404794459a846651D0a59"
    "0xA625AB01B08ce023B2a342Dbb12a16f2C8489A8F" "1617102000".

(** ** 022: the public offering *)

(** A transaction whose promise is not awaited: a rejection goes unnoticed.  The signer's
    transactions are mined in the order they are sent. *)
Definition send_unawaited (to : JsValue) (sig : string) (types : list AbiType)
    (args : list JsValue) : script unit := fun w => ((send to sig types args w).1, Ok tt).

Definition deploy_offering (config token feed : string) : script address :=
  deploy (with_args [TAddress; TAddress; TAddress] [JStr config; JStr token; JStr feed]
    (fun m ch vs => match vs with
     | [VAddress config; VAddress token; VAddress feed] =>
         Ok (ch, CPublicOffering (new_PublicOffering m config token feed))
     | _ => Err EmptyString
     end)).

(** One offering, allowed by the configuration. *)
Definition open_offering (config token feed : string) : script address :=
  offering ← deploy_offering config token feed;
  send_unawaited (JStr config) "setPublicOffering(address,bool)" [TAddress; TBool]
    [JStr offering; JBool true] ;;
  mret offering.

Definition s022_func (ETH USDT USDC ETH_FEED USDT_FEED USDC_FEED : string) : script unit :=
  config ← deploy (fun m ch => Ok (ch, CPublicOfferingConfig (new_PublicOfferingConfig m)));
  open_offering config ETH ETH_FEED ;;
  open_offering config USDT USDT_FEED ;;
  open_offering config USDC USDC_FEED ;;
  mret tt.

Definition s022 : script unit :=
  s022_func "0x0000000000000000000000000000000000000000"
    "0x1484a6020a0f08400f6f56715016d2c80e26cdc1" "0x7079f3762805cff9c979a5bdc6f5648bcfee76c8"
    "0x9326BFA02ADD2366b30bacB125260Af641031331" "0x2ca5A90D34cA333661083F89D831f757A9A50148"
    "0x9211c6b3BF41A10F78539810Cf5c64e1BB78Ec60".

(** ** 023: a Merkle distributor *)

(** ethers' coder for [bytes32]: 64 hexadecimal digits. *)
Definition to_bytes32 (s : string) : result Buffer :=
  match s with
  | String _ (String _ digits) =>
      let b := from_hex digits in
      require (bool_decide (length b = 32 /\ String.length digits = 64)) "incorrect data length" ;; Ok b
  | _ => Err "invalid arrayify value"
  end.

Definition s023_func (MERKLE_ROOT FEATURE_TOKEN_ADDRESS : string) : script unit :=
  deploy (fun m ch =>
    token ← coerce TAddress (JStr FEATURE_TOKEN_ADDRESS);
    root ← to_bytes32 MERKLE_ROOT;
    match token with
    | VAddress token => Ok (ch, CMerkleDistributor token (new_Distributor (Evm.self m) root))
    | _ => Err EmptyString
    end) ;;
  mret tt.

Definition s023 : script unit :=
  s023_func "0x6448eaef682da62f86be2b8c5dbb098b1d2f40cc9b1615b2302c0ef1e619ffda"
    "0x04c747b40be4d535fc83d09939fb0f626f32800b".

(** ** s003: the call of setParams is commented out *)

Definition s003 : script unit :=
  MIN_DEBT_SIZE ← lift (of_option (parseEther "1") "invalid decimal value");
  mret tt.
End Scripts.
