(* ===== verification/Validate.v ===== *)
(** * The validation scripts

    src/validate: validate_vaults_config.ts compares the deployed workers with the
    configuration file, validate_oracles_config.ts asks the oracle for the price of every
    pair.  Their printed lines are the values these definitions return. *)

From S2P Require Import Prelude Buffers MerkleTree BalanceTree Evm.
From S2P Require Import Timelock HuskyToken FairLaunch Lending Workers Chain Script.
From Stdlib Require Import Strings.Ascii.

(** [toLocaleLowerCase], on the characters of addresses. *)
Definition lower_ascii (c : ascii) : ascii :=
  let n := nat_of_ascii c in
  if (65 <=? n) && (n <=? 90) then ascii_of_nat (n + 32) else c.

Fixpoint toLowerCase (s : string) : string :=
  match s with
  | EmptyString => EmptyString
  | String c s => String (lower_ascii c) (toLowerCase s)
  end.

Section Scripts.
Context `{AbiCoder} `{!OpenZeppelin} `{!Network} `{!EthersNumbers} `{!Pancake}.

(** [expect(...).to.be...] *)
Definition expect (b : bool) : script unit := lift (require b "AssertionError").

(** [try { ... } catch (e) { console.log(e) }]: the outcome of the block. *)
Definition caught (f : script unit) : script (result unit) := fun w =>
  let '(w', r) := f w in (w', Ok r).

(** ** validate_vaults_config.ts *)

Definition expect_strategy (worker : JsValue) (strategy : JsValue) : script unit :=
  a ← lift (coerce TAddress strategy);
  match a with
  | VAddress a =>
      ok ← view as_Worker worker (fun k => default false (okStrats k !! a));
      expect ok
  | _ => throw "invalid address"
  end.

(** The block that checks a worker. *)
Definition validate_worker (config : Json) (v : VaultEntry) (e : WorkerEntry) : script unit :=
  let worker := JStr (we_address e) in
  operator ← view as_Worker worker operator;
  expect (bool_decide (toLowerCase (ve_address v) = toLowerCase operator)) ;;
  base ← lift (of_option (ve_baseToken v) "Cannot read properties of undefined");
  baseToken ← view as_Worker worker baseToken;
  expect (bool_decide (toLowerCase base = toLowerCase baseToken)) ;;
  pid ← view as_Worker worker pid;
  expect (we_pId e =? pid)%Z ;;
  token ← view as_Vault (JStr (ve_address v)) token;
  expect (bool_decide (baseToken = token)) ;;
  fee ← view as_Worker worker fee;
  expect (fee =? 9975)%Z ;;
  feeDenom ← view as_Worker worker feeDenom;
  expect (feeDenom =? 10000)%Z ;;
  expect_strategy worker (js_opt (SharedStrategies config !! "StrategyAddBaseTokenOnly")) ;;
  expect_strategy worker (js_opt (SharedStrategies config !! "StrategyLiquidate")) ;;
  expect_strategy worker (js_opt (SharedStrategies config !! "StrategyWithdrawMinimizeTrading")) ;;
  expect_strategy worker (js_opt (SharedStrategies config !! "StrategyPartialCloseLiquidate")) ;;
  expect_strategy worker (js_opt (SharedStrategies config !! "StrategyPartialCloseMinimizeTrading")) ;;
  expect_strategy worker (JStr (ve_StrategyAddTwoSidesOptimal v)).

(** [expect(await vault.owner(), config.Timelock)]: the second argument is the message of
    an assertion that is never made. *)
Definition validate_owner (v : VaultEntry) : script unit :=
  view owner_of (JStr (ve_address v)) (fun _ => tt).

(** A vault's lines: itself, then its workers. *)
Definition validate_vault (config : Json) (v : VaultEntry) : script (list (string * result unit)) :=
  view owner_of (JStr (ve_config v)) (fun _ => tt) ;;
  r ← caught (validate_owner v);
  rs ← mapM (fun e =>
    r ← caught (validate_worker config v e); mret (we_name e, r)) (ve_workers v);
  mret ((ve_name v, r) :: rs).

(** The vaults from index 1 on. *)
Definition validate_vaults : script (list (list (string * result unit))) :=
  config ← get_config;
  mapM (validate_vault config) (drop 1 (Vaults config)).

(** ** validate_oracles_config.ts *)

Definition queryOraclePrice (config : Json) (name : string) (token0 token1 : address) :
    script (string * (Z * Z)) :=
  p ← view as_SimplePriceOracle (js_opt (Oracle config !! "SimpleOracle"))
        (fun o => getPrice o token0 token1);
  p ← lift p;
  mret (name, p).

(** The tokens of a pair, through a view call each. *)
Definition pair_tokens (lp : LpEntry) : script (address * address) :=
  a ← lift (coerce TAddress (JStr (lp_address lp)));
  match a with
  | VAddress a =>
      token0 ← lift (ask (pair_token0 a)); token1 ← lift (ask (pair_token1 a));
      mret (token0, token1)
  | _ => throw "invalid address"
  end.

(** Every round waits for the queries made so far, so the first that fails ends the run. *)
Definition validate_oracles : script (list (string * (Z * Z))) :=
  config ← get_config;
  mapM (fun lp =>
    ts ← pair_tokens lp;
    queryOraclePrice config (lp_name lp) ts.2 ts.1) (LpTokens config).
End Scripts.
