(* ===== verification/CoreScriptTheory.v ===== *)
(** * What the core deployment scripts leave behind

    The contracts, with their owners and parameters, and the configuration file that
    records them, for the scripts of CoreScripts.v and the vault configurations of
    VaultScripts.v. *)

From S2P Require Import Prelude Buffers MerkleTree BalanceTree Evm.
From S2P Require Import Timelock TimelockTheory HuskyToken FairLaunch Lending Workers Chain ChainTheory.
From S2P Require Import Script ScriptTheory CoreScripts VaultScripts.

Section Theory.
Context `{AbiCoder} `{!OpenZeppelin} `{!Network} `{!EthersNumbers} `{!Selectors}.

(** ** 001: the timelock *)

Lemma deploy_timelock_eq w a :
  getAddress (AdminAddress (config_of w)) = Some a ->
  exists s, new_Timelock a 86400 = Ok s /\
    let tl := created (creations w) in
    deploy_timelock w
    = (saved (with_created w (set_account (chain w) tl {| proxy := None; code := CTimelock s |}))
         (with_Timelock (config_of w) tl), Ok tt).
Proof.
  intros Ha. destruct (new_Timelock a 86400) as [s|] eqn:Hs; [|done]. exists s. split; [done|].
  unfold deploy_timelock. rewrite (bind_run _ _ _ _ _ (get_config_eq w)).
  assert (coerce_all [TAddress; TUint 256]
    [JStr (AdminAddress (config_of w)); JNum (DELAY_IN_DAYS * 24 * 60 * 60)]
    = Ok [VAddress a; VUint 86400]) as Hvs.
  { apply coerce_all_cons; [by apply coerce_address|].
    apply coerce_all_cons; [by apply coerce_num|done]. }
  erewrite bind_run; [|eapply deploy_eq; [exact Hvs|cbv beta iota; rewrite Hs; reflexivity]].
  apply save_eq.
Qed.

(** Script 001, and what it buys.  It deploys a timelock with the configured
    administrator and a delay of one day and records its address in the configuration and
    in the file.  Whatever transactions anyone sends afterwards, the contract at the
    recorded address is still a timelock and in a reachable state. *)
Theorem deployed_timelock_safe w a :
  getAddress (AdminAddress (config_of w)) = Some a ->
  exists w' tl s, deploy_timelock w = (w', Ok tt) /\
    config_of w' = with_Timelock (config_of w) tl /\
    files w' !! network_name = Some (config_of w') /\
    code_at (chain w') tl = Some (CTimelock s) /\ admin s = a /\ delay s = 86400%Z /\
    let t0 := timestamp (mined (height w)) in
    forall ts, chronological t0 ts -> exists s',
      code_at (foldl transact (chain w') ts) tl = Some (CTimelock s') /\
      tl_reachable {| now := end_time t0 ts; contract := s'; inflight := None |}.
Proof.
  intros Ha. destruct (deploy_timelock_eq w a Ha) as (s & Hs & Hrun).
  pose proof (reach_new a 86400 s _ (mined_timestamp (height w)) Hs) as Hr.
  pose proof (tl_reachable_inv _ Hr) as I.
  eexists _, _, s. split; [exact Hrun|].
  set (ch := set_account (chain w) (created (creations w))
               {| proxy := None; code := CTimelock s |}).
  assert (code_at ch (created (creations w)) = Some (CTimelock s)) as Hcode
    by (unfold ch; rewrite code_at_set_account; by rewrite decide_True).
  split_and!.
  - apply config_of_saved.
  - rewrite config_of_saved. apply lookup_insert_eq.
  - exact Hcode.
  - unfold new_Timelock in Hs. inv_result. by subst.
  - unfold new_Timelock in Hs. inv_result. by subst.
  - intros t0 ts Hc. destruct (transact_steps ts ch _ s t0 Hcode) as (s' & Hs' & Hsteps);
      [|exact Hc|].
    { split; [apply (inv_guard _ I)|apply (inv_leave _ I)]. }
    exists s'. split; [exact Hs'|]. by eapply tl_reachable_steps.
Qed.

(** ** 002: the token and FairLaunch *)

(** The chain right after [deploy]. *)
Lemma accounts_created w ch acc a :
  accounts (chain (with_created w (set_account ch (created (creations w)) acc))) !! a
  = if decide (a = created (creations w)) then Some acc else accounts ch !! a.
Proof.
  cbn. case_decide as E; [by rewrite E, lookup_insert_eq|by rewrite lookup_insert_ne].
Qed.

Lemma created_neq i j :
  i <> j -> i < max_creations -> j < max_creations -> created i <> created j.
Proof. intros Hij Hi Hj E. by apply Hij, created_inj. Qed.

(** The next [k] contracts get addresses of their own. *)
Definition room (w : World) (k : nat) : Prop := creations w + k <= max_creations.

Definition reward_per_block : Z := 109 * 10 ^ 17.

Lemma parse_reward : parseEther "10.9" = Some reward_per_block.
Proof. by rewrite (parseEther_fraction "10" "9" 10 9). Qed.

(** The call of 002 to [setBonus] reverts whatever the block. *)
Lemma setBonus_one_reverts m f e l : is_ok (setBonus m f 1 e l) = false.
Proof.
  unfold setBonus. destruct (onlyOwner _ _); cbn; [|done]. by destruct (_ <? _)%Z.
Qed.

Definition fairlaunch_of (m : Msg) (husky : address) : FairLaunch :=
  new_FairLaunch m husky signer reward_per_block 1 0 2.

Definition bonus_call (fairLaunch : address) : script unit :=
  send_gasLimit (JStr fairLaunch) "setBonus(uint256,uint256,uint256)" [TUint 256; TUint 256; TUint 256]
    [JNum 1; JStr "2"; JStr "0"].

Lemma bonus_call_eq w fl f :
  getAddress fl = Some fl ->
  accounts (chain w) !! fl = Some {| proxy := None; code := CFairLaunch f |} ->
  bonus_call fl w = (with_chain w (chain w), Ok tt).
Proof.
  intros Hfl Hacc. unfold bonus_call.
  assert (coerce_all [TUint 256; TUint 256; TUint 256] [JNum 1; JStr "2"; JStr "0"]
    = Ok [VUint 1; VUint 2; VUint 0]) as Hvs.
  { apply coerce_all_cons; [by apply coerce_num|].
    apply coerce_all_cons; [by apply coerce_decimal|].
    by apply coerce_all_cons; [apply coerce_decimal|]. }
  rewrite (send_gasLimit_method w fl fl _ m_setBonus _ [VUint 1; VUint 2; VUint 0] Hfl Hacc); [|done|in_list|exact Hvs].
  cbn [m_run m_setBonus]. unfold own, get, code_at. cbn [self next_msg].
  rewrite Hacc. cbn. pose proof (setBonus_one_reverts (next_msg w fl) f 2 0) as Hb.
  by destruct (setBonus _ _ _ _ _).
Qed.

Definition ownership_call (token newOwner : address) : script unit :=
  send_gasLimit (JStr token) "transferOwnership(address)" [TAddress] [JStr newOwner].

Lemma ownership_call_eq w tok h a :
  getAddress tok = Some tok -> getAddress a = Some a -> a <> zero_address ->
  accounts (chain w) !! tok = Some {| proxy := None; code := CHuskyToken h |} ->
  husky_owner h = signer ->
  ownership_call tok a w
  = (with_chain w (set_code (chain w) tok (CHuskyToken (with_husky_owner h a))), Ok tt).
Proof.
  intros Htok Ha Hnz Hacc Hown. unfold ownership_call.
  assert (coerce_all [TAddress] [JStr a] = Ok [VAddress a]) as Hvs
    by (apply coerce_all_cons; [by apply coerce_address|done]).
  rewrite (send_gasLimit_method w tok tok _ m_transferOwnership _ [VAddress a] Htok Hacc);
    [|done|cbn; in_list|exact Hvs].
  cbn [m_run m_transferOwnership]. unfold code_at. cbn [self next_msg]. rewrite Hacc. cbn.
  unfold transferOwnership. rewrite onlyOwner_owner by done. cbn.
  by rewrite bool_decide_eq_true_2.
Qed.

Lemma deploy_fairlaunch_eq w :
  room w 2 ->
  let husky := created (creations w) in let fl := created (S (creations w)) in
  exists h w1, husky_owner h = signer /\
    erc20_balanceOf (husky_erc20 h) signer = (250000 * 10 ^ 18)%Z /\
    let f := fairlaunch_of (creating w1 fl) husky in
    let ch1 := set_account (chain w) husky {| proxy := None; code := CHuskyToken h |} in
    let ch2 := set_account ch1 fl {| proxy := None; code := CFairLaunch f |} in
    let ch3 := set_code ch2 husky (CHuskyToken (with_husky_owner h fl)) in
    let j := with_Tokens (config_of w) (<[ "HUSKY" := husky ]> (Tokens_of (config_of w))) in
    exists w3, chain w3 = ch3 /\ creations w3 = S (S (creations w)) /\
      files w3 = files w /\ config_of w3 = config_of w /\
      deploy_fairlaunch w = (saved w3 (with_FairLaunch j fl (FairLaunch_pools j)), Ok tt).
Proof.
  unfold room. intros Hroom.
  cbv zeta. set (husky := created (creations w)). set (fl := created (S (creations w))).
  destruct (new_HuskyToken_Ok (creating w husky) 1 2 signer_nonzero) as (h & Hh & Hown & Hbal);
    [done|].
  set (w1 := with_created w (set_account (chain w) husky {| proxy := None; code := CHuskyToken h |})).
  exists h, w1. split; [done|]. split; [done|].
  assert (husky <> fl) as Hne by (apply created_neq; lia).
  assert (coerce_all [TUint 256; TUint 256] [JStr "1"; JStr "2"] = Ok [VUint 1; VUint 2]) as Hv1.
  { apply coerce_all_cons; [by apply coerce_decimal|].
    by apply coerce_all_cons; [apply coerce_decimal|]. }
  assert (coerce_all [TAddress; TAddress; TUint 256; TUint 256; TUint 256; TUint 256]
    [JStr husky; JStr signer; JNum reward_per_block; JStr "1"; JStr "0"; JStr "2"]
    = Ok [VAddress husky; VAddress signer; VUint reward_per_block; VUint 1; VUint 0; VUint 2]) as Hv2.
  { apply coerce_all_cons; [apply coerce_address, created_ok|].
    apply coerce_all_cons; [apply coerce_address, signer_ok|].
    apply coerce_all_cons; [by apply coerce_num|].
    do 2 (apply coerce_all_cons; [by apply coerce_decimal|]).
    by apply coerce_all_cons; [apply coerce_decimal|]. }
  eexists. split; [|split; [|split; [|split]]]; cycle 4.
  - unfold deploy_fairlaunch. rewrite parse_reward. cbn [of_option].
    rewrite (bind_run (lift (Ok reward_per_block)) _ _ _ _ eq_refl).
    rewrite (bind_run _ _ _ _ _ (get_config_eq w)).
    erewrite bind_run; [|eapply deploy_eq; [exact Hv1|cbv beta iota; fold husky; rewrite Hh; reflexivity]].
    fold husky. fold w1.
    erewrite bind_run; [|eapply deploy_eq; [exact Hv2|reflexivity]].
    change (created (creations w1)) with fl.
    erewrite bind_run; [|apply (ownership_call_eq _ husky h fl);
      [apply created_ok|apply created_ok|apply created_nonzero| |done]].
    2: { cbn. rewrite lookup_insert_ne by done. by rewrite lookup_insert_eq. }
    erewrite bind_run; [|eapply (bonus_call_eq _ fl); [apply created_ok|]].
    2: { cbn. rewrite lookup_insert_ne by done. by rewrite lookup_insert_eq. }
    erewrite bind_run; [|reflexivity]. rewrite (bind_run _ _ _ _ _ (get_config_eq _)).
    rewrite config_of_with_config, save_eq. unfold saved. rewrite with_config_twice. reflexivity.
  - reflexivity.
  - reflexivity.
  - reflexivity.
  - reflexivity.
Qed.

(** Script 002 never sets the bonus.  In every world with room for two contracts the
    script finishes without an
    error and records both addresses, the token has been handed to FairLaunch and the
    deployer holds the premint; but its call to setBonus has reverted, unnoticed because
    of the explicit gas limit: the multiplier is still zero. *)
Theorem fairlaunch_bonus_never_set w :
  room w 2 ->
  exists w' husky fl h f, deploy_fairlaunch w = (w', Ok tt) /\
    Tokens_of (config_of w') !! "HUSKY" = Some husky /\
    FairLaunch_address (config_of w') = fl /\
    files w' !! network_name = Some (config_of w') /\
    accounts (chain w') !! husky = Some {| proxy := None; code := CHuskyToken h |} /\
    husky_owner h = fl /\ erc20_balanceOf (husky_erc20 h) signer = (250000 * 10 ^ 18)%Z /\
    accounts (chain w') !! fl = Some {| proxy := None; code := CFairLaunch f |} /\
    fl_owner f = signer /\ FairLaunch.husky f = husky /\ poolInfo f = [] /\
    huskyPerBlock f = (109 * 10 ^ 17)%Z /\ bonusMultiplier f = 0%Z.
Proof.
  intros Hroom.
  destruct (deploy_fairlaunch_eq w Hroom) as (h & w1 & Hown & Hbal & w3 & Hch & _ & Hf & Hj & Hrun).
  assert (created (creations w) <> created (S (creations w))) as Hne
    by (unfold room in Hroom; apply created_neq; lia).
  eexists _, _, _, _, _. split; [exact Hrun|]. rewrite config_of_saved.
  split; [apply lookup_insert_eq|]. split; [reflexivity|]. split; [apply lookup_insert_eq|].
  change (chain (saved w3 _)) with (chain w3). rewrite Hch.
  split; [|split; [|split; [|split]]].
  - cbn. rewrite lookup_insert_eq. rewrite lookup_insert_ne by done. by rewrite lookup_insert_eq.
  - reflexivity.
  - exact Hbal.
  - cbn. rewrite lookup_insert_ne by done. by rewrite lookup_insert_eq.
  - done.
Qed.
End Theory.
