(* ===== verification/PipelineTheory.v ===== *)
(** * The deployment pipeline up to the vault configurations

    Scripts 001 to 007 and 010-1 to 010-8, run in the order of their file names as
    hardhat-deploy does: each finds in the configuration what the earlier ones left
    there, and none disturbs a contract of another. *)

From S2P Require Import Prelude Buffers MerkleTree BalanceTree Evm.
From S2P Require Import Timelock TimelockTheory HuskyToken FairLaunch Lending Workers Chain ChainTheory.
From S2P Require Import Script ScriptTheory CoreScripts VaultScripts CoreScriptTheory.

Section Theory.
Context `{AbiCoder} `{!OpenZeppelin} `{!Network} `{!EthersNumbers} `{!Selectors}.

(** ** Existing contracts are kept *)

(** No address that is still to be created. *)
Definition settled (w : World) (a : address) : Prop :=
  forall n, creations w <= n < max_creations -> created n <> a.

Definition kept (w w' : World) : Prop :=
  creations w <= creations w' /\
  forall a, settled w a -> accounts (chain w') !! a = accounts (chain w) !! a.

Lemma kept_refl w : kept w w.
Proof. done. Qed.

Lemma settled_le w w' a : creations w <= creations w' -> settled w a -> settled w' a.
Proof. intros Hle Hs n Hn. apply Hs. lia. Qed.

Lemma kept_trans w1 w2 w3 : kept w1 w2 -> kept w2 w3 -> kept w1 w3.
Proof.
  intros [L1 K1] [L2 K2]. split; [lia|]. intros a Ha. rewrite K2, K1; [done|done|].
  by eapply settled_le.
Qed.

Lemma settled_created w n : n < creations w -> creations w <= max_creations -> settled w (created n).
Proof. intros Hn Hle m Hm E. apply created_inj in E; lia. Qed.

Lemma kept_created w acc :
  room w 1 -> kept w (with_created w (set_account (chain w) (created (creations w)) acc)).
Proof.
  unfold room. intros Hroom. split; [cbn; lia|].
  intros a Ha. rewrite accounts_created, decide_False; [done|].
  intros ->. apply (Ha (creations w)); [lia|done].
Qed.

Lemma kept_saved w j : kept w (saved w j).
Proof. done. Qed.

(** ** 004 to 007 *)

Lemma deploy_models_eq w :
  let w3 := with_impl (with_impl (with_impl w)) in
  let n := creations w in
  deploy_models w
  = (saved w3 (with_SharedConfig (with_SharedConfig (with_SharedConfig (config_of w)
       "TripleSlopeModel" (created n)) "LowInterestTripleSlopeModel" (created (S n)))
       "HighInterestTripleSlopeModel" (created (S (S n)))), Ok tt).
Proof.
  cbv zeta. unfold deploy_models.
  do 3 (erewrite bind_run; [|reflexivity]).
  unfold set_shared. do 2 (erewrite bind_run;
    [|erewrite bind_run; [reflexivity|apply get_config_eq]]).
  rewrite !config_of_with_config. rewrite with_config_twice.
  erewrite bind_run; [|erewrite bind_run; [reflexivity|apply get_config_eq]].
  rewrite !config_of_with_config, with_config_twice.
  unfold save_config. erewrite bind_run; [|apply get_config_eq].
  rewrite config_of_with_config. reflexivity.
Qed.

Lemma set_shared_save w k a :
  (set_shared k a ;; save_config) w = (saved w (with_SharedConfig (config_of w) k a), Ok tt).
Proof.
  unfold set_shared. erewrite bind_run; [|erewrite bind_run; [reflexivity|apply get_config_eq]].
  unfold save_config. erewrite bind_run; [|apply get_config_eq].
  rewrite config_of_with_config. reflexivity.
Qed.

Definition with_contract (w : World) (p : option Proxy) (c : Code) : World :=
  with_created w (set_account (chain w) (created (creations w)) {| proxy := p; code := c |}).

Lemma deploy_relayer_eq w nat :
  getAddress (NativeAddress (config_of w)) = Some nat ->
  let a := created (creations w) in
  deploy_relayer w
  = (saved (with_contract w None (CWNativeRelayer (new_WNativeRelayer (creating w a) nat)))
       (with_SharedConfig (config_of w) "WNativeRelayer" a), Ok tt).
Proof.
  intros Hn a. unfold deploy_relayer. erewrite bind_run; [|apply get_config_eq].
  erewrite bind_run; [|eapply deploy_eq;
    [apply coerce_all_cons; [by apply coerce_address|reflexivity]|reflexivity]].
  rewrite set_shared_save. reflexivity.
Qed.

Lemma deploy_oracle_eq w fd :
  getAddress (FeederAddress (config_of w)) = Some fd ->
  let a := proxy_address w in
  deploy_oracle w
  = (saved (with_contract (with_impl w) (Some (new_proxy w))
              (CSimplePriceOracle (SimplePriceOracle_initialize (creating (with_impl w) a) fd)))
       (with_Oracle (config_of w) "SimpleOracle" a), Ok tt).
Proof.
  intros Hn a. unfold deploy_oracle. erewrite bind_run; [|apply get_config_eq].
  erewrite bind_run; [|eapply deployProxy_eq;
    [apply coerce_all_cons; [by apply coerce_address|reflexivity]|reflexivity]].
  apply save_eq.
Qed.

Lemma deploy_worker_config_eq w s o :
  Oracle (config_of w) !! "SimpleOracle" = Some s -> getAddress s = Some o ->
  let a := proxy_address w in
  deploy_worker_config w
  = (saved (with_contract (with_impl w) (Some (new_proxy w))
              (CWorkerConfig (WorkerConfig_initialize (creating (with_impl w) a) o)))
       (with_SharedConfig (config_of w) "WorkerConfig" a), Ok tt).
Proof.
  intros Hs Ho a. unfold deploy_worker_config. erewrite bind_run; [|apply get_config_eq].
  cbv beta zeta. rewrite Hs. cbn [js_opt].
  erewrite bind_run; [|eapply deployProxy_eq;
    [apply coerce_all_cons; [by apply coerce_address|reflexivity]|reflexivity]].
  rewrite set_shared_save. reflexivity.
Qed.

(** ** 010: the vault configurations *)

(** The configuration's [key] denotes the address [a]. *)
Definition shared (j : Json) (key : string) (a : address) : Prop :=
  exists s, SharedConfig j !! key = Some s /\ getAddress s = Some a.

(** What scripts 010 read in the configuration. *)
Record resolved (j : Json) (nat fl relayer high low : address) : Prop := {
  res_native : getAddress (NativeAddress j) = Some nat;
  res_fairLaunch : getAddress (FairLaunch_address j) = Some fl;
  res_relayer : shared j "WNativeRelayer" relayer;
  res_high : shared j "HighInterestTripleSlopeModel" high;
  res_low : shared j "LowInterestTripleSlopeModel" low
}.

(** The parameters every vault configuration is deployed with. *)
Definition vault_config (model nat relayer fl : address) : BasicVaultConfig :=
  {| bvc_owner := signer; minDebtSize := 100 * 10 ^ 18; getReservePoolBps := 1600;
     getCloseBps := 4; getKillBps := 500; bvc_workers := ∅; interestModel := model;
     wrappedNative := nat; wNativeRelayer := relayer; fairLaunch := fl; maxKillBps := 500 |}.

Definition config_entry (SYMBOL model config : string) : VaultEntry :=
  {| ve_name := EmptyString; ve_symbol := SYMBOL; ve_address := EmptyString;
     ve_baseToken := None; ve_debtToken := EmptyString; ve_config := config;
     ve_tripleSlopeModel := Some model; ve_StrategyAddTwoSidesOptimal := EmptyString;
     ve_workers := [] |}.

Lemma config_func_eq w SYMBOL MODEL nat fl relayer model ms :
  let j := config_of w in
  getAddress (NativeAddress j) = Some nat -> getAddress (FairLaunch_address j) = Some fl ->
  shared j "WNativeRelayer" relayer ->
  SharedConfig j !! MODEL = Some ms -> getAddress ms = Some model ->
  config_func SYMBOL MODEL w
  = (saved (with_contract (with_impl w) (Some (new_proxy w))
              (CBasicVaultConfig (vault_config model nat relayer fl)))
       (with_Vaults j (Vaults j ++ [config_entry SYMBOL ms (proxy_address w)])), Ok tt).
Proof.
  intros j Hnat Hfl (rs & Hrs & Hr) Hms Hm. unfold config_func.
  erewrite bind_run; [|apply get_config_eq]. cbv beta zeta.
  rewrite (parseEther_decimal "100" 100) by done. cbn [of_option].
  erewrite bind_run; [|reflexivity]. fold j. rewrite Hrs, Hms. cbn [js_opt].
  assert (coerce_all config_types [JNum (100 * 10 ^ 18); JStr "1600"; JStr "4"; JStr "500";
     JStr ms; JStr (NativeAddress j); JStr rs; JStr (FairLaunch_address j)]
    = Ok [VUint (100 * 10 ^ 18); VUint 1600; VUint 4; VUint 500; VAddress model; VAddress nat;
          VAddress relayer; VAddress fl]) as Hvs.
  { apply coerce_all_cons; [by apply coerce_num|].
    do 3 (apply coerce_all_cons; [by apply coerce_decimal|]).
    do 3 (apply coerce_all_cons; [by apply coerce_address|]).
    by apply coerce_all_cons; [apply coerce_address|]. }
  erewrite bind_run; [|eapply deployProxy_eq; [exact Hvs|]].
  2: { cbv beta iota delta [init_config]. unfold BasicVaultConfig_initialize, setParams.
       rewrite onlyOwner_owner by done. reflexivity. }
  apply save_eq.
Qed.

(** A recorded vault configuration: the entry and the contract behind it. *)
Definition config_deployed (ch : Chain) (j : Json) (SYMBOL MODEL : string)
    (model nat relayer fl : address) (e : VaultEntry) : Prop :=
  exists ms impl, SharedConfig j !! MODEL = Some ms /\ getAddress ms = Some model /\
    e = config_entry SYMBOL ms (ve_config e) /\
    accounts ch !! ve_config e
    = Some {| proxy := Some {| proxy_admin := proxyAdmin; implementation := impl |};
              code := CBasicVaultConfig (vault_config model nat relayer fl) |}.

Lemma room_next w w' k l : room w (k + l) -> creations w' = k + creations w -> room w' l.
Proof. unfold room. lia. Qed.

Lemma kept_proxy w p c : room w 2 -> kept w (with_contract (with_impl w) p c).
Proof.
  unfold room. intros Hr. eapply kept_trans; apply kept_created; unfold room; cbn; lia.
Qed.

Lemma proxy_account w p c :
  accounts (chain (with_contract (with_impl w) p c)) !! proxy_address w
  = Some {| proxy := p; code := c |}.
Proof.
  unfold with_contract. rewrite accounts_created. by rewrite decide_True.
Qed.

(** Any number of vault configurations, one after the other. *)
Lemma config_funcs_run l nat fl relayer (model : string -> address) w :
  room w (2 * length l) ->
  getAddress (NativeAddress (config_of w)) = Some nat ->
  getAddress (FairLaunch_address (config_of w)) = Some fl ->
  shared (config_of w) "WNativeRelayer" relayer ->
  (forall p, p ∈ l -> shared (config_of w) p.2 (model p.2)) ->
  exists w' es, for_each (fun p => config_func p.1 p.2) l w = (w', Ok tt) /\
    creations w' = 2 * length l + creations w /\ kept w w' /\
    config_of w' = with_Vaults (config_of w) (Vaults (config_of w) ++ es) /\
    (l <> [] -> files w' !! network_name = Some (config_of w')) /\
    NoDup (ve_config <$> es) /\ Forall (fun e => exists n, creations w <= n < creations w' /\
      ve_config e = created n) es /\
    Forall2 (fun p e => config_deployed (chain w') (config_of w) p.1 p.2 (model p.2) nat relayer fl e)
      l es.
Proof.
  revert w. induction l as [|p l IH]; intros w Hroom Hnat Hfl Hrel Hm.
  { exists w, []. split; [done|]. split; [done|]. split; [apply kept_refl|]. rewrite app_nil_r.
    split; [by destruct (config_of w)|]. split; [done|]. repeat constructor. }
  destruct (Hm p) as (ms & Hms & Hmodel); [by left|].
  replace (2 * length (p :: l)) with (2 + 2 * length l) in Hroom by (cbn [length]; lia).
  pose proof (config_func_eq w p.1 p.2 nat fl relayer _ ms Hnat Hfl Hrel Hms Hmodel) as Hrun.
  set (c := CBasicVaultConfig _) in Hrun. set (e := config_entry _ _ _) in Hrun.
  set (w1 := with_contract _ _ _) in Hrun. set (j1 := with_Vaults _ _) in Hrun.
  destruct (IH (saved w1 j1)) as (w' & es & Hrest & Hn & Hkept & Hj & Hfiles & Hnd & Hnew & Hall);
    rewrite ?config_of_saved; try done.
  { by eapply room_next. }
  { intros q Hq. apply Hm. by right. }
  rewrite config_of_saved in Hj, Hall. destruct Hkept as [Hle Hkept].
  assert (creations w1 = S (S (creations w))) as Hn1 by done.
  change (creations (saved w1 j1)) with (creations w1) in *. rewrite Hn1 in Hle, Hn.
  setoid_rewrite Hn1 in Hnew. unfold room in Hroom.
  exists w', (e :: es). cbn [for_each]. rewrite (bind_run _ _ _ _ _ Hrun). split; [exact Hrest|].
  split; [cbn [length]; lia|]. split; [|split; [|split; [|split; [|split]]]].
  - eapply kept_trans; [apply kept_proxy; unfold room; lia|]. split; [cbn; lia|exact Hkept].
  - rewrite Hj. unfold j1. cbn. by rewrite <-app_assoc.
  - intros _. destruct l as [|q l]; [|by apply Hfiles]. injection Hrest as <-.
    rewrite config_of_saved. apply lookup_insert_eq.
  - cbn. constructor; [|done]. intros Hin. apply list_elem_of_fmap in Hin as (e' & He' & Hin).
    rewrite Forall_forall in Hnew. destruct (Hnew _ Hin) as (n & Hn' & E).
    rewrite E in He'. cbn in He'. apply created_inj in He'; lia.
  - constructor.
    + exists (S (creations w)). split; [lia|done].
    + eapply Forall_impl; [exact Hnew|]. intros e' (n & Hn' & E). exists n. split; [lia|done].
  - constructor; [|exact Hall]. exists ms, (created (creations w)). split_and!; try done.
    cbn [ve_config e config_entry]. rewrite Hkept; [apply proxy_account|].
    intros n Hn' E. change (creations w1 <= n < max_creations) in Hn'. apply created_inj in E; lia.
Qed.

(** ** The whole pipeline *)

Definition deploy_core : script unit :=
  deploy_timelock ;; deploy_fairlaunch ;; deploy_models ;; deploy_relayer ;; deploy_oracle ;;
  deploy_worker_config.

(** The symbols and the interest models of the eight files. *)
Definition CONFIGS : list (string * string) :=
  let high := "HighInterestTripleSlopeModel" in
  let low := "LowInterestTripleSlopeModel" in
  [("ibHUSKI", high); ("ibBUSD", high); ("ibBNB", high); ("ibUSDT", low); ("ibCAKE", high);
   ("ibETH", low); ("ibBTCB", low); ("ibUSDC", low)].

Definition deploy_configs : script unit :=
  for_each (fun s => s)
    [config_huski; config_busd; config_bnb; config_usdt; config_cake; config_eth; config_btcb;
     config_usdc].

Lemma deploy_configs_eq : deploy_configs = for_each (fun p => config_func p.1 p.2) CONFIGS.
Proof. reflexivity. Qed.

Definition has_contract (w : World) (a : address) (c : Code) : Prop :=
  getAddress a = Some a /\ settled w a /\
  accounts (chain w) !! a = Some {| proxy := None; code := c |}.

Lemma has_contract_kept w w' a c : kept w w' -> has_contract w a c -> has_contract w' a c.
Proof.
  intros [Hle Hk] (Ha & Hs & Hacc). split; [done|]. split; [by eapply settled_le|].
  by rewrite Hk.
Qed.

Lemma has_contract_created w n c :
  n < creations w -> room w 0 -> accounts (chain w) !! created n = Some {| proxy := None; code := c |} ->
  has_contract w (created n) c.
Proof.
  intros Hn Hroom Hacc. split; [apply created_ok|]. split; [|done].
  apply settled_created; [done|]. unfold room in Hroom. lia.
Qed.

Lemma fairlaunch_run w :
  room w 2 -> exists w' h f, let husky := created (creations w) in let fl := created (S (creations w)) in
    deploy_fairlaunch w = (w', Ok tt) /\ creations w' = 2 + creations w /\ kept w w' /\
    config_of w' = with_FairLaunch (with_Tokens (config_of w)
      (<[ "HUSKY" := husky ]> (Tokens_of (config_of w)))) fl (FairLaunch_pools (config_of w)) /\
    has_contract w' husky (CHuskyToken h) /\ husky_owner h = fl /\
    has_contract w' fl (CFairLaunch f) /\ fl_owner f = signer /\ poolInfo f = [] /\
    totalAllocPoint f = 0%Z /\ FairLaunch.husky f = husky.
Proof.
  intros Hroom. destruct (deploy_fairlaunch_eq w Hroom) as (h & w1 & Hown & _ & w3 & Hch & Hn & _ & Hj & Hrun).
  unfold room in Hroom.
  assert (created (creations w) <> created (S (creations w))) as Hne by (apply created_neq; lia).
  eexists _, _, _. cbv zeta. split; [exact Hrun|]. split; [cbn; lia|].
  split; [|split; [|split; [|split; [|split]]]].
  - split; [cbn; lia|]. intros a Ha. change (chain (saved w3 _)) with (chain w3). rewrite Hch. cbn.
    pose proof (Ha (creations w) ltac:(lia)). pose proof (Ha (S (creations w)) ltac:(lia)).
    by rewrite !lookup_insert_ne.
  - by rewrite config_of_saved.
  - apply has_contract_created; [cbn; lia|unfold room; cbn; lia|]. change (chain (saved w3 _)) with (chain w3). rewrite Hch. cbn.
    rewrite lookup_insert_eq. rewrite lookup_insert_ne by done. by rewrite lookup_insert_eq.
  - reflexivity.
  - apply has_contract_created; [cbn; lia|unfold room; cbn; lia|]. change (chain (saved w3 _)) with (chain w3). rewrite Hch. cbn.
    rewrite lookup_insert_ne by done. by rewrite lookup_insert_eq.
  - done.
Qed.

(** The other scripts in the same form: what they add to the configuration and the chain. *)
Lemma timelock_run w adm :
  room w 1 ->
  getAddress (AdminAddress (config_of w)) = Some adm ->
  exists w' tl, deploy_timelock w = (w', Ok tt) /\ creations w' = 1 + creations w /\
    kept w w' /\
    config_of w' = with_Timelock (config_of w) tl.
Proof.
  intros Hroom Ha. destruct (deploy_timelock_eq w adm Ha) as (s & _ & Hr).
  eexists _, _. split; [exact Hr|]. split; [done|]. split; [by apply kept_created|].
  apply config_of_saved.
Qed.

Lemma models_run w :
  room w 3 -> exists w' triple low high, deploy_models w = (w', Ok tt) /\
    creations w' = 3 + creations w /\ kept w w' /\
    getAddress low = Some low /\ getAddress high = Some high /\
    config_of w' = with_SharedConfig (with_SharedConfig (with_SharedConfig (config_of w)
      "TripleSlopeModel" triple) "LowInterestTripleSlopeModel" low)
      "HighInterestTripleSlopeModel" high.
Proof.
  unfold room. intros Hroom. eexists _, _, _, _. split; [apply deploy_models_eq|].
  split; [done|]. split.
  { eapply kept_trans; [|apply kept_saved].
    do 2 (eapply kept_trans; [apply kept_created; unfold room; cbn; lia|]).
    apply kept_created. unfold room. cbn. lia. }
  split; [apply created_ok|split; [apply created_ok|]]. apply config_of_saved.
Qed.

Lemma relayer_run w nat :
  room w 1 ->
  getAddress (NativeAddress (config_of w)) = Some nat ->
  exists w' relayer, deploy_relayer w = (w', Ok tt) /\
    creations w' = 1 + creations w /\ kept w w' /\
    config_of w' = with_SharedConfig (config_of w) "WNativeRelayer" relayer /\
    has_contract w' relayer (CWNativeRelayer
      {| wnr_owner := signer; wnative := nat; okCallers := ∅ |}).
Proof.
  unfold room. intros Hroom Hn. eexists _, _. split; [by apply deploy_relayer_eq|].
  split; [done|]. split; [by apply kept_created|].
  split; [apply config_of_saved|].
  apply has_contract_created; [cbn; lia|unfold room; cbn; lia|].
  change (chain (saved ?x _)) with (chain x). unfold with_contract. rewrite accounts_created.
  by rewrite decide_True.
Qed.

Lemma oracle_run w fd :
  room w 2 ->
  getAddress (FeederAddress (config_of w)) = Some fd ->
  exists w' o, deploy_oracle w = (w', Ok tt) /\ creations w' = 2 + creations w /\ kept w w' /\
    getAddress o = Some o /\
    config_of w' = with_Oracle (config_of w) "SimpleOracle" o.
Proof.
  intros Hroom Hn. eexists _, _. split; [by apply deploy_oracle_eq|]. split; [done|].
  split; [by apply kept_proxy|].
  split; [apply created_ok|apply config_of_saved].
Qed.

Lemma worker_config_run w o :
  room w 2 ->
  Oracle (config_of w) !! "SimpleOracle" = Some o -> getAddress o = Some o ->
  exists w' c, deploy_worker_config w = (w', Ok tt) /\
    creations w' = 2 + creations w /\ kept w w' /\
    config_of w' = with_SharedConfig (config_of w) "WorkerConfig" c.
Proof.
  intros Hroom Hs Ho. eexists _, _. split; [by eapply deploy_worker_config_eq|].
  split; [done|]. split; [by apply kept_proxy|apply config_of_saved].
Qed.

Lemma core_run w adm nat fd :
  room w 11 ->
  getAddress (AdminAddress (config_of w)) = Some adm ->
  getAddress (NativeAddress (config_of w)) = Some nat ->
  getAddress (FeederAddress (config_of w)) = Some fd ->
  exists w' fl relayer high low f husky h,
    deploy_core w = (w', Ok tt) /\ creations w' = 11 + creations w /\ kept w w' /\
    Vaults (config_of w') = Vaults (config_of w) /\
    FairLaunch_pools (config_of w') = FairLaunch_pools (config_of w) /\
    resolved (config_of w') nat fl relayer high low /\ FairLaunch_address (config_of w') = fl /\
    has_contract w' fl (CFairLaunch f) /\
    has_contract w' relayer (CWNativeRelayer
      {| wnr_owner := signer; wnative := nat; okCallers := ∅ |}) /\
    has_contract w' husky (CHuskyToken h) /\ husky_owner h = fl /\
    fl_owner f = signer /\ poolInfo f = [] /\ totalAllocPoint f = 0%Z /\
    FairLaunch.husky f = husky.
Proof.
  unfold room. intros Hroom Hadm Hnat Hfd.
  destruct (timelock_run w adm) as (w1 & tl & R1 & N1 & K1 & J1); [unfold room; lia|done|].
  destruct (fairlaunch_run w1)
    as (w2 & h & f & R2 & N2 & K2 & J2 & Hhusky & Hho & Hfl & Hfo & Hfp & Hft & Hfh);
    [unfold room; lia|].
  destruct (models_run w2) as (w3 & triple & low & high & R3 & N3 & K3 & Hlow & Hhigh & J3);
    [unfold room; lia|].
  rewrite J2, J1 in J3.
  destruct (relayer_run w3 nat) as (w4 & relayer & R4 & N4 & K4 & J4 & Hrel);
    [unfold room; lia|by rewrite J3|].
  rewrite J3 in J4.
  destruct (oracle_run w4 fd) as (w5 & o & R5 & N5 & K5 & Ho & J5);
    [unfold room; lia|by rewrite J4|].
  rewrite J4 in J5.
  destruct (worker_config_run w5 o) as (w6 & c & R6 & N6 & K6 & J6);
    [unfold room; lia|rewrite J5; apply lookup_insert_eq|done|].
  rewrite J5 in J6.
  assert (kept w4 w6) as K46 by (eapply kept_trans; eassumption).
  assert (kept w2 w6) as K26 by (eapply kept_trans; [|eapply kept_trans]; eassumption).
  exists w6, (created (S (creations w1))), relayer, high, low, f, (created (creations w1)), h.
  split; [|split; [|split; [|split; [|split; [|split; [|split; [|split; [|split; [|split]]]]]]]]].
  - unfold deploy_core. erewrite bind_run by exact R1. erewrite bind_run by exact R2.
    erewrite bind_run by exact R3. erewrite bind_run by exact R4.
    erewrite bind_run by exact R5. exact R6.
  - lia.
  - eapply kept_trans; [exact K1|]. eapply kept_trans; [exact K2|exact K26].
  - by rewrite J6.
  - by rewrite J6.
  - rewrite J6. pose proof Hrel as (Hrel' & _). constructor; [exact Hnat|apply created_ok|..].
    + exists relayer. split; [cbn; by simplify_map_eq|done].
    + exists high. split; [cbn; by simplify_map_eq|done].
    + exists low. split; [cbn; by simplify_map_eq|done].
  - by rewrite J6.
  - by eapply has_contract_kept.
  - exact (has_contract_kept _ _ _ _ K46 Hrel).
  - by eapply has_contract_kept.
  - done.
Qed.

(** C11: the deployment pipeline.  From any world with room for the 27 contracts and whose
    configuration holds valid
    administrator, native and feeder addresses, scripts 001, 002, 004 to 007 and 010-1 to
    010-8, run one after the other, all finish.  Eight entries have been appended to the
    vaults, in the order of the files, each with a contract of its own: a proxy of
    BasicVaultConfig with the parameters of its file, the interest model of its risk class,
    and the relayer and FairLaunch the earlier scripts deployed; the file on disk is the
    configuration in memory. *)
Theorem pipeline_configs w adm nat fd :
  room w 27 ->
  getAddress (AdminAddress (config_of w)) = Some adm ->
  getAddress (NativeAddress (config_of w)) = Some nat ->
  getAddress (FeederAddress (config_of w)) = Some fd ->
  exists w' fl relayer high low f es, (deploy_core ;; deploy_configs) w = (w', Ok tt) /\
    Vaults (config_of w') = Vaults (config_of w) ++ es /\ NoDup (ve_config <$> es) /\
    Forall2 (fun p e => config_deployed (chain w') (config_of w') p.1 p.2
      (if bool_decide (p.2 = "HighInterestTripleSlopeModel") then high else low)
      nat relayer fl e) CONFIGS es /\
    files w' !! network_name = Some (config_of w') /\
    resolved (config_of w') nat fl relayer high low /\
    has_contract w' fl (CFairLaunch f) /\ fl_owner f = signer /\ poolInfo f = [] /\
    has_contract w' relayer (CWNativeRelayer
      {| wnr_owner := signer; wnative := nat; okCallers := ∅ |}).
Proof.
  unfold room. intros Hroom Hadm Hnat Hfd.
  destruct (core_run w adm nat fd ltac:(unfold room; lia) Hadm Hnat Hfd)
    as (w1 & fl & relayer & high & low & f & husky & h & R1 & N1 & K1 & Hv & _ & Hres & _ & Hfl & Hrel
        & _ & _ & Hfo & Hfp & _).
  pose proof Hres as [Hn Hf Hr Hhi Hlo].
  destruct (config_funcs_run CONFIGS nat fl relayer
    (fun m => if bool_decide (m = "HighInterestTripleSlopeModel") then high else low) w1
    ltac:(unfold room; cbn; lia) Hn Hf Hr) as (w2 & es & R2 & _ & K2 & J2 & Hfiles & Hnd & _ & Hall).
  { intros p Hp. repeat (apply elem_of_cons in Hp as [->|Hp]; [done|]). by apply elem_of_nil in Hp. }
  exists w2, fl, relayer, high, low, f, es.
  split; [by erewrite bind_run by exact R1; rewrite deploy_configs_eq|].
  split; [by rewrite J2, <-Hv|]. split; [done|]. split; [by rewrite J2|].
  split; [by apply Hfiles|]. split; [by rewrite J2; constructor|].
  split; [by eapply has_contract_kept|]. do 2 (split; [done|]). by eapply has_contract_kept.
Qed.
End Theory.
