(* ===== verification/WorkerTheory.v ===== *)
(** * What the worker scripts do

    Deploying, configuring and whitelisting one worker, as effects on the accounts. *)

From S2P Require Import Prelude Buffers MerkleTree BalanceTree Evm.
From S2P Require Import Timelock TimelockTheory HuskyToken FairLaunch Lending Workers Chain ChainTheory.
From S2P Require Import Script ScriptTheory Effects WorkerScripts CoreScriptTheory PipelineTheory.

Section Theory.
Context `{AbiCoder} `{!OpenZeppelin} `{!Network} `{!EthersNumbers} `{!Selectors} `{!Pancake}.

(** ** Whitelisting a worker on strategies *)

Definition whitelisted (wk : address) (acc : Account) : Account :=
  {| proxy := proxy acc;
     code := match code acc with
             | CStrategy st => CStrategy (with_okWorkers st (<[ wk := true ]> (okWorkers st)))
             | c => c
             end |}.

Definition whitelist_at (wk : address) (L : list address) (b : address) (acc : Account) : Account :=
  if decide (b ∈ L) then whitelisted wk acc else acc.

Definition strategy_ready (w : World) (a : address) : Prop := exists st, held w a (CStrategy st).

Lemma whitelisted_twice wk acc : whitelisted wk (whitelisted wk acc) = whitelisted wk acc.
Proof.
  destruct acc as [p c]. unfold whitelisted. cbn [proxy code]. f_equal.
  destruct c; try done. do 2 f_equal. cbn. apply insert_insert_eq.
Qed.

Lemma whitelist_at_ready w w' wk L a :
  effects w w' (whitelist_at wk L) -> strategy_ready w a -> strategy_ready w' a.
Proof.
  intros E (st & p & Ha & Hp & Ho). unfold strategy_ready, held.
  rewrite (ef_accounts _ _ _ E), Ha. cbn. unfold whitelist_at, whitelisted. cbn.
  case_decide; [|eauto]. eexists _, p. by repeat split.
Qed.

Lemma whitelist_run w wk o a :
  getAddress wk = Some wk -> denotes o a -> strategy_ready w a ->
  exists w', whitelist wk o w = (w', Ok tt) /\ effects w w' (whitelist_at wk [a]).
Proof.
  intros Hwk (s & -> & Hs) (st & p & Ha & Hp & Ho). injection Ho as Ho.
  destruct (send_own as_Strategy CStrategy (fun m x => setWorkersOk m x [wk] true)
    w s a p (CStrategy st) st (with_okWorkers st (<[ wk := true ]> (okWorkers st))) m_setWorkersOk
    [JArr [JStr wk]; JBool true] [VArray [VAddress wk]; VBool true])
    as (w' & Hr & E); try done.
  - cbn. in_list.
  - apply coerce_all_cons; [by apply coerce_one_address|done].
  - unfold setWorkersOk. by rewrite onlyOwner_owner.
  - exists w'. split; [exact Hr|]. eapply effects_ext, E. intros b acc Hb.
    unfold at_code, whitelist_at. destruct (decide (b = a)) as [->|Hne].
    + rewrite decide_True by set_solver. rewrite Ha in Hb. by injection Hb as <-.
    + rewrite decide_False by set_solver. done.
Qed.

Lemma whitelist_at_cons wk a L b acc :
  whitelist_at wk L b (whitelist_at wk [a] b acc) = whitelist_at wk (a :: L) b acc.
Proof.
  unfold whitelist_at. repeat case_decide; try set_solver. apply whitelisted_twice.
Qed.

Lemma whitelist_all_run wk os L : forall w,
  getAddress wk = Some wk -> Forall2 denotes os L -> (forall a, a ∈ L -> strategy_ready w a) ->
  exists w', for_each (whitelist wk) os w = (w', Ok tt) /\ effects w w' (whitelist_at wk L).
Proof.
  intros w Hwk Hos. revert w. induction Hos as [|o a os L Ho Hos IH]; intros w HL.
  - exists w. split; [done|]. split; try done. intros b.
    destruct (_ !! b); [|done]. cbn. unfold whitelist_at. by rewrite decide_False by set_solver.
  - destruct (whitelist_run w wk o a Hwk Ho) as (w1 & Hr1 & E1); [by apply HL; left|].
    destruct (IH w1) as (w' & Hr & E).
    { intros b Hb. eapply whitelist_at_ready, HL; [exact E1|by right]. }
    exists w'. cbn [for_each]. rewrite (bind_run _ _ _ _ _ Hr1). split; [exact Hr|].
    eapply effects_ext, effects_trans; [|exact E1|exact E].
    intros b acc _. apply whitelist_at_cons.
Qed.

(** ** Where a worker is deployed *)

(** The contracts that the parameters of a worker denote, and its factors. *)
Record WorkerSite := {
  ws_vault : address;
  ws_base : address;
  ws_chef : address;
  ws_router : address;
  ws_add : address;
  ws_liq : address;
  ws_strats : list address;
  ws_bot : address;
  ws_config : address;          (* the worker configuration *)
  ws_vault_config : address;
  ws_work : Z;
  ws_kill : Z
}.

Definition ws_all (s : WorkerSite) : list address := ws_add s :: ws_liq s :: ws_strats s.

Definition uint64 (z : Z) : Prop := (0 <= z < 2 ^ 64)%Z.

Record params_denote (p : WorkerParams) (s : WorkerSite) : Prop := {
  pd_vault : getAddress (wp_VAULT_ADDR p) = Some (ws_vault s);
  pd_base : denotes (wp_BASE_TOKEN_ADDR p) (ws_base s);
  pd_chef : getAddress (wp_MASTER_CHEF_ADDR p) = Some (ws_chef s);
  pd_router : getAddress (wp_PANCAKESWAP_ROUTER_ADDR p) = Some (ws_router s);
  pd_add : denotes (wp_ADD_STRAT_ADDR p) (ws_add s);
  pd_liq : denotes (wp_LIQ_STRAT_ADDR p) (ws_liq s);
  pd_strats : Forall2 denotes (wp_STRATS p) (ws_strats s);
  pd_bot : getAddress (wp_REINVEST_BOT p) = Some (ws_bot s);
  pd_config : denotes (wp_WORKER_CONFIG_ADDR p) (ws_config s);
  pd_vault_config : getAddress (wp_VAULT_CONFIG_ADDR p) = Some (ws_vault_config s);
  pd_bounty : wp_REINVEST_BOUNTY_BPS p = "200";
  pd_diff : wp_MAX_PRICE_DIFF p = "11000";
  pd_work : decimal (wp_WORK_FACTOR p) = Some (ws_work s) /\ uint64 (ws_work s);
  pd_kill : decimal (wp_KILL_FACTOR p) = Some (ws_kill s) /\ uint64 (ws_kill s)
}.

(** What the exchange must answer for the pool: a pair of the base token and another. *)
Record Pool := { pl_native : address; pl_factory : address; pl_lp : address;
                 pl_farming : address; pl_cake : address }.

Record pool_listed (s : WorkerSite) (id : Z) (pl : Pool) : Prop := {
  pl_id : uint256 id;
  pl_native_eq : router_WETH (ws_router s) = Some (pl_native pl);
  pl_factory_eq : router_factory (ws_router s) = Some (pl_factory pl);
  pl_lp_eq : chef_lpToken (ws_chef s) id = Some (pl_lp pl);
  pl_cake_eq : chef_cake (ws_chef s) = Some (pl_cake pl);
  pl_tokens :
    (pair_token0 (pl_lp pl) = Some (ws_base s) /\ pair_token1 (pl_lp pl) = Some (pl_farming pl)) \/
    (pair_token0 (pl_lp pl) = Some (pl_farming pl) /\ pair_token1 (pl_lp pl) = Some (ws_base s) /\
     pl_farming pl <> ws_base s)
}.

(** The worker as its initialiser leaves it, and as the script configures it. *)
Definition new_worker (s : WorkerSite) (id : Z) (pl : Pool) : Worker :=
  {| wk_owner := signer; operator := ws_vault s; baseToken := ws_base s; masterChef := ws_chef s;
     router := ws_router s; factory := pl_factory pl; wNative := pl_native pl; pid := id;
     lpToken := pl_lp pl; farmingToken := pl_farming pl; cake := pl_cake pl;
     okStrats := <[ ws_liq s := true ]> (<[ ws_add s := true ]> ∅); okReinvestors := ∅;
     addStrat := ws_add s; liqStrat := ws_liq s; reinvestBountyBps := 200;
     maxReinvestBountyBps := 500; fee := 9975; feeDenom := 10000 |}.

Definition configured_worker (s : WorkerSite) (id : Z) (pl : Pool) : Worker :=
  let k := new_worker s id pl in
  with_okStrats (with_okReinvestors k (<[ ws_bot s := true ]> ∅))
    (set_all (okStrats k) (ws_strats s) true).

Lemma Worker_initialize_eq m s id pl :
  sender m = signer -> pool_listed s id pl ->
  Worker_initialize m (ws_vault s) (ws_base s) (ws_chef s) (ws_router s) id (ws_add s) (ws_liq s) 200
  = Ok (new_worker s id pl).
Proof.
  intros Hm [? Hn Hf Hl Hc Ht]. unfold Worker_initialize. rewrite Hn, Hf, Hl, Hc. cbn.
  destruct Ht as [[-> ->]|(-> & -> & Hne)]; cbn.
  - rewrite (bool_decide_eq_true_2 (ws_base s = ws_base s)) by done. cbn.
    rewrite (bool_decide_eq_true_2 (pl_farming pl = pl_farming pl)) by done.
    rewrite orb_true_r. cbn. by rewrite Hm.
  - rewrite (bool_decide_eq_false_2 (pl_farming pl = ws_base s)) by done.
    rewrite (bool_decide_eq_true_2 (pl_farming pl = pl_farming pl)) by done.
    rewrite (bool_decide_eq_true_2 (ws_base s = ws_base s)) by done.
    rewrite orb_true_r. cbn. by rewrite Hm.
Qed.

Lemma deploy_worker_eq p s pl w :
  params_denote p s -> pool_listed s (wp_POOL_ID p) pl ->
  deploy_worker p w
  = (with_contract (with_impl w) (Some (new_proxy w)) (CWorker (new_worker s (wp_POOL_ID p) pl)),
     Ok (proxy_address w)).
Proof.
  intros [] Hpl. pose proof (pl_id _ _ _ Hpl) as Hid. unfold deploy_worker. eapply deployProxy_eq.
  - rewrite pd_bounty0. unfold worker_types.
    apply coerce_all_cons; [by apply coerce_address|].
    apply coerce_all_cons; [by apply coerce_denotes|].
    do 2 (apply coerce_all_cons; [by apply coerce_address|]).
    apply coerce_all_cons; [by apply coerce_num|].
    do 2 (apply coerce_all_cons; [by apply coerce_denotes|]).
    apply coerce_all_cons; [by apply coerce_decimal|done].
  - cbv beta iota delta [init_worker]. rewrite (Worker_initialize_eq _ s _ pl); done.
Qed.

(** ** Configuring it *)

Record site_ready (w : World) (s : WorkerSite) : Prop := {
  sr_strats : forall a, a ∈ ws_all s -> strategy_ready w a;
  sr_config : exists c, held w (ws_config s) (CWorkerConfig c);
  sr_vault_config : exists c, held w (ws_vault_config s) (CBasicVaultConfig c)
}.

(** The factors of the worker in the worker configuration. *)
Definition worker_config (s : WorkerSite) : Config :=
  {| acceptDebt := true; workFactor := ws_work s; killFactor := ws_kill s; maxPriceDiff := 11000 |}.

Definition set_config_of (s : WorkerSite) (wk : address) (c : Code) : Code :=
  match c with
  | CWorkerConfig c => CWorkerConfig (with_wc_workers c (<[ wk := worker_config s ]> (wc_workers c)))
  | c => c
  end.

Definition link_of (s : WorkerSite) (wk : address) (c : Code) : Code :=
  match c with
  | CBasicVaultConfig c =>
      CBasicVaultConfig (with_bvc_workers c (<[ wk := ws_config s ]> (bvc_workers c)))
  | c => c
  end.

(** What configuring the worker at [wk] does to the account at [b]. *)
Definition configured (s : WorkerSite) (id : Z) (pl : Pool) (wk b : address) (acc : Account) : Account :=
  at_code (ws_vault_config s) (link_of s wk) b
    (at_code (ws_config s) (set_config_of s wk) b
      (whitelist_at wk (ws_all s) b
        (at_code wk (fun _ => CWorker (configured_worker s id pl)) b acc))).

Lemma setConfigs_run w p s wk :
  params_denote p s -> getAddress wk = Some wk -> (exists c, held w (ws_config s) (CWorkerConfig c)) ->
  exists w', send (js_opt (wp_WORKER_CONFIG_ADDR p)) "setConfigs(address[],(bool,uint64,uint64,uint64)[])"
    [TArray TAddress; TArray CONFIG]
    [JArr [JStr wk];
     JArr [JObj [("acceptDebt", JBool true); ("workFactor", JStr (wp_WORK_FACTOR p));
                 ("killFactor", JStr (wp_KILL_FACTOR p));
                 ("maxPriceDiff", JStr (wp_MAX_PRICE_DIFF p))]]] w = (w', Ok tt) /\
    effects w w' (at_code (ws_config s) (set_config_of s wk)).
Proof.
  intros P Hwk (c & q & Ha & Hq & Ho). injection Ho as Ho.
  destruct (pd_config _ _ P) as (cs & -> & Hcs). rewrite (pd_diff _ _ P).
  destruct (pd_work _ _ P) as [Hw Hw64], (pd_kill _ _ P) as [Hk Hk64].
  destruct (send_own as_WorkerConfig CWorkerConfig (fun m c => setConfigs m c [wk] [worker_config s])
    w cs (ws_config s) q (CWorkerConfig c) c
    (with_wc_workers c (<[ wk := worker_config s ]> (wc_workers c))) m_setConfigs
    [JArr [JStr wk];
     JArr [JObj [("acceptDebt", JBool true); ("workFactor", JStr (wp_WORK_FACTOR p));
                 ("killFactor", JStr (wp_KILL_FACTOR p)); ("maxPriceDiff", JStr "11000")]]]
    [VArray [VAddress wk];
     VArray [VTuple [VBool true; VUint (ws_work s); VUint (ws_kill s); VUint 11000]]])
    as (w' & Hr & E); try done.
  - cbn. in_list.
  - apply coerce_all_cons; [by apply coerce_one_address|].
    apply coerce_all_cons; [|done].
    apply coerce_array_one, coerce_tuple. cbn [fmap list_fmap snd].
    apply coerce_all_cons; [done|].
    do 2 (apply coerce_all_cons; [by apply coerce_decimal|]).
    apply coerce_all_cons; [by apply coerce_decimal|done].
  - unfold setConfigs. by rewrite onlyOwner_owner.
  - exists w'. split; [exact Hr|]. eapply effects_ext, E. intros b acc Hb.
    unfold at_code. case_decide as Hd; [|done]. subst b. rewrite Ha in Hb. by injection Hb as <-.
Qed.

Lemma setWorkers_run w p s wk :
  params_denote p s -> getAddress wk = Some wk ->
  (exists c, held w (ws_vault_config s) (CBasicVaultConfig c)) ->
  exists w', send (JStr (wp_VAULT_CONFIG_ADDR p)) "setWorkers(address[],address[])"
    [TArray TAddress; TArray TAddress]
    [JArr [JStr wk]; JArr [js_opt (wp_WORKER_CONFIG_ADDR p)]] w = (w', Ok tt) /\
    effects w w' (at_code (ws_vault_config s) (link_of s wk)).
Proof.
  intros P Hwk (c & q & Ha & Hq & Ho). injection Ho as Ho.
  destruct (send_own as_BasicVaultConfig CBasicVaultConfig
    (fun m c => setWorkers m c [wk] [ws_config s])
    w (wp_VAULT_CONFIG_ADDR p) (ws_vault_config s) q (CBasicVaultConfig c) c
    (with_bvc_workers c (<[ wk := ws_config s ]> (bvc_workers c))) m_setWorkers
    [JArr [JStr wk]; JArr [js_opt (wp_WORKER_CONFIG_ADDR p)]]
    [VArray [VAddress wk]; VArray [VAddress (ws_config s)]]) as (w' & Hr & E); try done.
  - apply (pd_vault_config _ _ P).
  - cbn. in_list.
  - apply coerce_all_cons; [by apply coerce_one_address|]. apply coerce_all_cons; [|done].
    apply coerce_array_one, coerce_denotes, (pd_config _ _ P).
  - unfold setWorkers. by rewrite onlyOwner_owner.
  - exists w'. split; [exact Hr|]. eapply effects_ext, E. intros b acc Hb.
    unfold at_code. case_decide as Hd; [|done]. subst b. rewrite Ha in Hb. by injection Hb as <-.
Qed.

(** The two functions of the worker itself that the script calls. *)
Lemma worker_own_run w p s pl wk :
  params_denote p s -> getAddress wk = Some wk ->
  held w wk (CWorker (new_worker s (wp_POOL_ID p) pl)) ->
  exists w1 w2,
    send (JStr wk) "setReinvestorOk(address[],bool)" [TArray TAddress; TBool]
      [JArr [JStr (wp_REINVEST_BOT p)]; JBool true] w = (w1, Ok tt) /\
    send (JStr wk) "setStrategyOk(address[],bool)" [TArray TAddress; TBool]
      [JArr (js_opt <$> wp_STRATS p); JBool true] w1 = (w2, Ok tt) /\
    effects w w2 (at_code wk (fun _ => CWorker (configured_worker s (wp_POOL_ID p) pl))).
Proof.
  intros P Hwk (q & Ha & Hq & Ho). set (k := new_worker s (wp_POOL_ID p) pl) in *.
  set (k1 := with_okReinvestors k (<[ ws_bot s := true ]> ∅)).
  destruct (send_own as_Worker CWorker (fun m x => setReinvestorOk m x [ws_bot s] true)
    w wk wk q (CWorker k) k k1 m_setReinvestorOk [JArr [JStr (wp_REINVEST_BOT p)]; JBool true]
    [VArray [VAddress (ws_bot s)]; VBool true]) as (w1 & Hr1 & E1); try done.
  { cbn. in_list. }
  { apply coerce_all_cons; [|done]. apply coerce_one_address, (pd_bot _ _ P). }
  { unfold setReinvestorOk. by rewrite onlyOwner_owner. }
  assert (accounts (chain w1) !! wk = Some {| proxy := q; code := CWorker k1 |}) as Ha1.
  { rewrite (ef_accounts _ _ _ E1), Ha. cbn. by rewrite at_code_eq. }
  destruct (send_own as_Worker CWorker (fun m x => setStrategyOk m x (ws_strats s) true)
    w1 wk wk q (CWorker k1) k1 (configured_worker s (wp_POOL_ID p) pl) m_setStrategyOk
    [JArr (js_opt <$> wp_STRATS p); JBool true]
    [VArray (VAddress <$> ws_strats s); VBool true]) as (w2 & Hr2 & E2); try done.
  { cbn. in_list. }
  { apply coerce_all_cons; [|done]. apply coerce_all_denote, (pd_strats _ _ P). }
  { intros m ch. cbn [m_run m_setStrategyOk]. by rewrite array_addresses. }
  { unfold setStrategyOk. by rewrite onlyOwner_owner. }
  exists w1, w2. split; [exact Hr1|]. split; [exact Hr2|].
  eapply effects_ext, effects_trans; [|exact E1|exact E2].
  intros b acc _. unfold at_code. by repeat case_decide.
Qed.

Lemma configure_run w p s pl wk :
  params_denote p s -> getAddress wk = Some wk -> site_ready w s ->
  held w wk (CWorker (new_worker s (wp_POOL_ID p) pl)) ->
  exists w', configure_worker p wk w = (w', Ok tt) /\
    effects w w' (configured s (wp_POOL_ID p) pl wk).
Proof.
  intros P Hwk [Hst (c & Hc) (vc & Hvc)] Hk.
  assert (forall a c, held w a c -> as_Worker c = None -> a <> wk) as Hne.
  { intros a c' (q & Ha & _) Hn ->. destruct Hk as (q' & Ha' & _). rewrite Ha in Ha'.
    by injection Ha' as _ ->. }
  destruct (worker_own_run w p s pl wk P Hwk Hk) as (w1 & w2 & Hr1 & Hr2 & E2).
  assert (forall a c, held w a c -> as_Worker c = None -> held w2 a c) as K2.
  { intros a c' Ha Hn. eapply held_effects; [exact E2|exact Ha| |by destruct Ha as (? & _ & _ & ?)].
    intros q. apply at_code_ne. by eapply Hne. }
  assert (forall a, a ∈ ws_all s -> strategy_ready w2 a) as Hst2.
  { intros a Ha. destruct (Hst a Ha) as [st Hs]. exists st. by apply K2. }
  destruct (whitelist_run w2 wk _ _ Hwk (pd_add _ _ P)) as (w3 & Hr3 & E3); [apply Hst2; in_list|].
  destruct (whitelist_run w3 wk _ _ Hwk (pd_liq _ _ P)) as (w4 & Hr4 & E4).
  { eapply whitelist_at_ready, Hst2; [exact E3|in_list]. }
  destruct (whitelist_all_run wk _ _ w4 Hwk (pd_strats _ _ P)) as (w5 & Hr5 & E5).
  { intros a Ha. eapply whitelist_at_ready; [exact E4|]. eapply whitelist_at_ready; [exact E3|].
    apply Hst2. by do 2 right. }
  assert (effects w2 w5 (whitelist_at wk (ws_all s))) as E25.
  { eapply effects_ext, effects_trans, effects_trans; [|exact E3|exact E4|exact E5].
    intros b acc _. cbv beta. by rewrite !whitelist_at_cons. }
  assert (forall a c, held w2 a c -> as_Strategy c = None -> held w5 a c) as K5.
  { intros a c' Ha Hn. eapply held_effects; [exact E25|exact Ha| |by destruct Ha as (? & _ & _ & ?)].
    intros q. unfold whitelist_at, whitelisted. case_decide; [|done]. by destruct c'. }
  destruct (setConfigs_run w5 p s wk P Hwk) as (w6 & Hr6 & E6).
  { exists c. apply K5; [|done]. by apply K2. }
  destruct (setWorkers_run w6 p s wk P Hwk) as (w' & Hr7 & E7).
  { exists vc. eapply held_effects; [exact E6|apply K5; [by apply K2|done]| |by destruct Hvc as (? & _ & _ & ?)].
    intros q. unfold at_code. by case_decide. }
  exists w'. split.
  - unfold configure_worker. rewrite (bind_run _ _ _ _ _ Hr1), (bind_run _ _ _ _ _ Hr2).
    rewrite (bind_run _ _ _ _ _ Hr3), (bind_run _ _ _ _ _ Hr4), (bind_run _ _ _ _ _ Hr5).
    rewrite (bind_run _ _ _ _ _ Hr6). exact Hr7.
  - eapply effects_ext, effects_trans, E7; [|eapply effects_trans, E6; eapply effects_trans, E25; exact E2].
    done.
Qed.
End Theory.
