(* ===== verification/WorkerRuns.v ===== *)
(** * Deploying the workers of a vault

    What running one of the scripts 014 amounts to: every worker of its list is live --
    deployed, configured, whitelisted by the strategies, known to the two configurations
    -- and recorded; and how the script of the HUSKI vault fails instead. *)

From S2P Require Import Prelude Buffers MerkleTree BalanceTree Evm.
From S2P Require Import Timelock TimelockTheory HuskyToken FairLaunch Lending Workers Chain ChainTheory.
From S2P Require Import Script ScriptTheory Effects WorkerScripts CoreScriptTheory PipelineTheory WorkerTheory.

Section Theory.
Context `{AbiCoder} `{!OpenZeppelin} `{!Network} `{!EthersNumbers} `{!Selectors} `{!Pancake}.

(** ** The configuration function, by kind of contract *)

Section Configured.
Variables (s : WorkerSite) (id : Z) (pl : Pool) (wk : address).

Definition site_addrs : list address := ws_config s :: ws_vault_config s :: ws_all s.

(** What configuring the worker does to the contracts that were there before it: the
    strategies whitelist it, the worker configuration has its factors, and the vault's
    configuration refers it there. *)
Definition enlist (b : address) (acc : Account) : Account :=
  at_code (ws_vault_config s) (link_of s wk) b
    (at_code (ws_config s) (set_config_of s wk) b (whitelist_at wk (ws_all s) b acc)).

Lemma configured_enlist b acc : b <> wk -> configured s id pl wk b acc = enlist b acc.
Proof. intros Hb. unfold configured, enlist. by rewrite (at_code_ne wk). Qed.

Lemma enlist_other b acc : b ∉ site_addrs -> enlist b acc = acc.
Proof.
  unfold site_addrs. intros Hs. unfold enlist, whitelist_at.
  rewrite decide_False by set_solver. rewrite !at_code_ne; set_solver.
Qed.

Lemma configured_self q k :
  configured s id pl wk wk {| proxy := q; code := CWorker k |}
  = {| proxy := q; code := CWorker (configured_worker s id pl) |}.
Proof.
  unfold configured. rewrite at_code_eq. unfold whitelist_at, whitelisted, at_code.
  by repeat case_decide.
Qed.

Lemma configured_strategy b q st :
  b <> wk -> configured s id pl wk b {| proxy := q; code := CStrategy st |}
  = {| proxy := q; code := CStrategy (if decide (b ∈ ws_all s)
         then with_okWorkers st (<[ wk := true ]> (okWorkers st)) else st) |}.
Proof.
  intros Hb. unfold configured. rewrite (at_code_ne wk) by done.
  unfold whitelist_at, whitelisted, at_code. by repeat case_decide.
Qed.

Lemma configured_config b q c :
  b <> wk -> configured s id pl wk b {| proxy := q; code := CWorkerConfig c |}
  = {| proxy := q; code := CWorkerConfig (if decide (b = ws_config s)
         then with_wc_workers c (<[ wk := worker_config s ]> (wc_workers c)) else c) |}.
Proof.
  intros Hb. unfold configured. rewrite (at_code_ne wk) by done.
  unfold whitelist_at, whitelisted, at_code. by repeat case_decide.
Qed.

Lemma configured_vault_config b q c :
  b <> wk -> configured s id pl wk b {| proxy := q; code := CBasicVaultConfig c |}
  = {| proxy := q; code := CBasicVaultConfig (if decide (b = ws_vault_config s)
         then with_bvc_workers c (<[ wk := ws_config s ]> (bvc_workers c)) else c) |}.
Proof.
  intros Hb. unfold configured. rewrite (at_code_ne wk) by done.
  unfold whitelist_at, whitelisted, at_code. by repeat case_decide.
Qed.

Lemma configured_worker_code b q k :
  b <> wk -> configured s id pl wk b {| proxy := q; code := CWorker k |}
  = {| proxy := q; code := CWorker k |}.
Proof.
  intros Hb. unfold configured. rewrite (at_code_ne wk) by done.
  unfold whitelist_at, whitelisted, at_code. by repeat case_decide.
Qed.

End Configured.

(** ** Live workers *)

(** The worker at [a] is deployed as configured, and the contracts around know it. *)
Record worker_live (ch : Chain) (s : WorkerSite) (id : Z) (a : address) : Prop := {
  wl_worker : exists px pl, pool_listed s id pl /\ proxy_admin px = proxyAdmin /\
    accounts ch !! a = Some {| proxy := Some px; code := CWorker (configured_worker s id pl) |};
  wl_strats : forall b, b ∈ ws_all s -> exists q st,
    accounts ch !! b = Some {| proxy := q; code := CStrategy st |} /\ okWorkers st !! a = Some true;
  wl_config : exists q c, accounts ch !! ws_config s = Some {| proxy := q; code := CWorkerConfig c |} /\
    wc_workers c !! a = Some (worker_config s);
  wl_vault_config : exists q c,
    accounts ch !! ws_vault_config s = Some {| proxy := q; code := CBasicVaultConfig c |} /\
    bvc_workers c !! a = Some (ws_config s)
}.

(** What one round of the loop does to the chain. *)
Record worker_added (w w' : World) (s : WorkerSite) (id : Z) (a : address) : Prop := {
  wa_live : worker_live (chain w') s id a;
  wa_ready : site_ready w' s;
  wa_keeps : forall s' id' a', settled w a' -> (forall b, b ∈ site_addrs s' -> settled w b) ->
    worker_live (chain w) s' id' a' -> worker_live (chain w') s' id' a';
  wa_rest : forall b, settled w b -> accounts (chain w') !! b = enlist s a b <$> accounts (chain w) !! b
}.

Section Added.
Variables (w w' : World) (s : WorkerSite) (id : Z) (pl : Pool).
Let wk := proxy_address w.
Hypothesis Hroom : room w 2.
Hypothesis Hready : site_ready w s.
Hypothesis Hpool : pool_listed s id pl.
Hypothesis Hsettled : forall b, b ∈ site_addrs s -> settled w b.
Let w1 := with_contract (with_impl w) (Some (new_proxy w)) (CWorker (new_worker s id pl)).
Hypothesis Heff : forall b, accounts (chain w') !! b
  = configured s id pl wk b <$> accounts (chain w1) !! b.

Lemma wk_not_settled : ~ settled w wk.
Proof. unfold room in Hroom. intros Hs. apply (Hs (S (creations w))); [lia|done]. Qed.

Lemma settled_account b : settled w b ->
  b <> wk /\ accounts (chain w') !! b = configured s id pl wk b <$> accounts (chain w) !! b.
Proof.
  intros Hb. split; [intros ->; by apply wk_not_settled|].
  rewrite Heff. f_equal. by apply kept_proxy.
Qed.

Lemma wk_account : accounts (chain w') !! wk
  = Some {| proxy := Some (new_proxy w); code := CWorker (configured_worker s id pl) |}.
Proof.
  rewrite Heff. unfold w1, wk. rewrite proxy_account. cbn. by rewrite configured_self.
Qed.

Lemma added_strategy b st q :
  settled w b -> accounts (chain w) !! b = Some {| proxy := q; code := CStrategy st |} ->
  exists st', accounts (chain w') !! b = Some {| proxy := q; code := CStrategy st' |} /\
    st_owner st' = st_owner st /\ (b ∈ ws_all s -> okWorkers st' !! wk = Some true) /\
    (forall a, a <> wk -> okWorkers st' !! a = okWorkers st !! a).
Proof.
  intros Hb Ha. destruct (settled_account b Hb) as [Hne ->]. rewrite Ha. cbn.
  rewrite configured_strategy by done. eexists. split; [done|]. case_decide; [|done].
  split; [done|]. cbn. split; [intros _; apply lookup_insert_eq|].
  intros a ?. by rewrite lookup_insert_ne.
Qed.

Lemma added_config b c q :
  settled w b -> accounts (chain w) !! b = Some {| proxy := q; code := CWorkerConfig c |} ->
  exists c', accounts (chain w') !! b = Some {| proxy := q; code := CWorkerConfig c' |} /\
    wc_owner c' = wc_owner c /\ (b = ws_config s -> wc_workers c' !! wk = Some (worker_config s)) /\
    (forall a, a <> wk -> wc_workers c' !! a = wc_workers c !! a).
Proof.
  intros Hb Ha. destruct (settled_account b Hb) as [Hne ->]. rewrite Ha. cbn.
  rewrite configured_config by done. eexists. split; [done|]. case_decide; [|done].
  split; [done|]. cbn. split; [intros _; apply lookup_insert_eq|].
  intros a ?. by rewrite lookup_insert_ne.
Qed.

Lemma added_vault_config b c q :
  settled w b -> accounts (chain w) !! b = Some {| proxy := q; code := CBasicVaultConfig c |} ->
  exists c', accounts (chain w') !! b = Some {| proxy := q; code := CBasicVaultConfig c' |} /\
    bvc_owner c' = bvc_owner c /\
    (b = ws_vault_config s -> bvc_workers c' !! wk = Some (ws_config s)) /\
    (forall a, a <> wk -> bvc_workers c' !! a = bvc_workers c !! a).
Proof.
  intros Hb Ha. destruct (settled_account b Hb) as [Hne ->]. rewrite Ha. cbn.
  rewrite configured_vault_config by done. eexists. split; [done|]. case_decide; [|done].
  split; [done|]. cbn. split; [intros _; apply lookup_insert_eq|].
  intros a ?. by rewrite lookup_insert_ne.
Qed.

Lemma added_live : worker_live (chain w') s id wk.
Proof.
  destruct Hready as [Hst (c & qc & Hc & _) (vc & qv & Hv & _)].
  constructor.
  - exists (new_proxy w), pl. split_and!; [done..|]. apply wk_account.
  - intros b Hb. destruct (Hst b Hb) as (st & q & Ha & _).
    destruct (added_strategy b st q) as (st' & Ha' & _ & Hok & _);
      [apply Hsettled; by do 2 right|done|]. exists q, st'. eauto.
  - destruct (added_config (ws_config s) c qc) as (c' & Ha' & _ & Hok & _);
      [apply Hsettled; by left|done|]. exists qc, c'. eauto.
  - destruct (added_vault_config (ws_vault_config s) vc qv) as (c' & Ha' & _ & Hok & _);
      [apply Hsettled; right; by left|done|]. exists qv, c'. eauto.
Qed.

Lemma added_ready : site_ready w' s.
Proof.
  destruct Hready as [Hst (c & qc & Hc & Hpc & Hoc) (vc & qv & Hv & Hpv & Hov)].
  injection Hoc as Hoc. injection Hov as Hov.
  constructor.
  - intros b Hb. destruct (Hst b Hb) as (st & q & Ha & Hp & Ho). injection Ho as Ho.
    destruct (added_strategy b st q) as (st' & Ha' & Ho' & _);
      [apply Hsettled; by do 2 right|done|]. exists st', q. cbn. by rewrite Ho', Ho.
  - destruct (added_config (ws_config s) c qc) as (c' & Ha' & Ho' & _);
      [apply Hsettled; by left|done|]. exists c', qc. cbn. by rewrite Ho', Hoc.
  - destruct (added_vault_config (ws_vault_config s) vc qv) as (c' & Ha' & Ho' & _);
      [apply Hsettled; right; by left|done|]. exists c', qv. cbn. by rewrite Ho', Hov.
Qed.

Lemma added_keeps s' id' a' :
  settled w a' -> (forall b, b ∈ site_addrs s' -> settled w b) ->
  worker_live (chain w) s' id' a' -> worker_live (chain w') s' id' a'.
Proof.
  intros Ha Hs' [(px & pl' & Hpl & Hpx & Hk) Hst (qc & c & Hc & Hc') (qv & v & Hv & Hv')].
  destruct (settled_account a' Ha) as [Hne Hacc]. constructor.
  - exists px, pl'. split_and!; [done..|]. rewrite Hacc, Hk. cbn. by rewrite configured_worker_code.
  - intros b Hb. destruct (Hst b Hb) as (q & st & Hb' & Hok).
    destruct (added_strategy b st q) as (st' & Ha' & _ & _ & Hsame);
      [apply Hs'; by do 2 right|done|]. exists q, st'. by rewrite Hsame.
  - destruct (added_config (ws_config s') c qc) as (c2 & Ha' & _ & _ & Hsame);
      [apply Hs'; by left|done|]. exists qc, c2. by rewrite Hsame.
  - destruct (added_vault_config (ws_vault_config s') v qv) as (c2 & Ha' & _ & _ & Hsame);
      [apply Hs'; right; by left|done|]. exists qv, c2. by rewrite Hsame.
Qed.

Lemma added : worker_added w w' s id wk.
Proof.
  constructor; [apply added_live|apply added_ready|apply added_keeps|].
  intros b Hb. destruct (settled_account b Hb) as [Hne ->].
  destruct (_ !! b); [|done]. cbn. by rewrite configured_enlist.
Qed.
End Added.

(** ** One round of the loop, in the three orders the files have *)

Definition body_early (vaultIndex : nat) (p : WorkerParams) : script unit :=
  worker ← deploy_worker p;
  push_worker vaultIndex p worker ;; save_config ;;
  configure_worker p worker.

Definition body_late (vaultIndex : nat) (p : WorkerParams) : script unit :=
  worker ← deploy_worker p;
  configure_worker p worker ;;
  push_worker vaultIndex p worker ;; save_config.

Definition body_once (vaultIndex : nat) (p : WorkerParams) : script unit :=
  worker ← deploy_worker p;
  configure_worker p worker ;;
  push_worker vaultIndex p worker.

(** A round deploys and configures one worker, records it, and perhaps writes the file. *)
Definition round (vaultIndex : nat) (saves : Prop) (body : WorkerParams -> script unit) : Prop :=
  forall w p s pl,
    room w 2 -> params_denote p s -> pool_listed s (wp_POOL_ID p) pl -> site_ready w s ->
    (forall b, b ∈ site_addrs s -> settled w b) ->
    exists w', body p w = (w', Ok tt) /\ creations w' = 2 + creations w /\
      config_of w' = with_Vaults (config_of w)
        (alter (with_worker (worker_entry p (proxy_address w))) vaultIndex (Vaults (config_of w))) /\
      (saves -> files w' !! network_name = Some (config_of w')) /\
      worker_added w w' s (wp_POOL_ID p) (proxy_address w).

Definition pushed_worker (vaultIndex : nat) (p : WorkerParams) (a : address) (w : World) : World :=
  with_config w (with_Vaults (config_of w)
    (alter (with_worker (worker_entry p a)) vaultIndex (Vaults (config_of w)))).

Lemma push_worker_eq i p a w : push_worker i p a w = (pushed_worker i p a w, Ok tt).
Proof. unfold push_worker. by rewrite (bind_run _ _ _ _ _ (get_config_eq w)). Qed.

Lemma push_save_eq {A} i p a w (k : script A) :
  (push_worker i p a ;; save_config ;; k) w = k (saved w (config_of (pushed_worker i p a w))).
Proof.
  rewrite (bind_run _ _ _ _ _ (push_worker_eq i p a w)).
  assert (save_config (pushed_worker i p a w) = (saved w (config_of (pushed_worker i p a w)), Ok tt))
    as E.
  { unfold pushed_worker. rewrite config_of_with_config. apply save_eq. }
  by rewrite (bind_run _ _ _ _ _ E).
Qed.

(** The deployed worker is held by the deployer, and the site is still ready. *)
Lemma deployed_ready w s c :
  room w 2 -> site_ready w s -> (forall b, b ∈ site_addrs s -> settled w b) ->
  owner_of c = Some signer ->
  let w1 := with_contract (with_impl w) (Some (new_proxy w)) c in
  site_ready w1 s /\ held w1 (proxy_address w) c.
Proof.
  intros Hroom [Hst Hc Hv] Hs Ho w1.
  assert (forall b c, b ∈ site_addrs s -> held w b c -> held w1 b c) as Hk.
  { intros b c' Hb (q & Ha & Hq). exists q. split; [|done]. rewrite <-Ha. apply kept_proxy; auto. }
  split; [constructor|].
  - intros b Hb. destruct (Hst b Hb) as [st Hx]. exists st. apply Hk; [by do 2 right|done].
  - destruct Hc as [x Hx]. exists x. apply Hk; [by left|done].
  - destruct Hv as [x Hx]. exists x. apply Hk; [right; by left|done].
  - exists (Some (new_proxy w)). split; [apply proxy_account|]. split; [|done].
    cbn. intros [= E]. by apply signer_proxyAdmin.
Qed.

Lemma site_ready_chain w w' s : chain w' = chain w -> site_ready w s -> site_ready w' s.
Proof.
  intros E [Hst Hc Hv]. unfold strategy_ready, held in *. constructor; unfold strategy_ready, held;
    by rewrite E.
Qed.

Lemma held_chain w w' a c : chain w' = chain w -> held w a c -> held w' a c.
Proof. unfold held. by intros ->. Qed.

Lemma round_early i : round i True (body_early i).
Proof.
  intros w p s pl Hroom P Hpl Hready Hset. set (wk := proxy_address w).
  unfold body_early. rewrite (bind_run _ _ _ _ _ (deploy_worker_eq p s pl w P Hpl)).
  set (w1 := with_contract _ _ _). rewrite push_save_eq. set (w2 := saved w1 _).
  destruct (deployed_ready w s (CWorker (new_worker s (wp_POOL_ID p) pl)) Hroom Hready Hset eq_refl) as [Hr1 Hh1].
  destruct (configure_run w2 p s pl wk P (created_ok _)) as (w' & Hrun & E).
  { eapply site_ready_chain, Hr1. done. }
  { eapply held_chain, Hh1. done. }
  exists w'. split; [exact Hrun|]. split; [by rewrite (ef_creations _ _ _ E)|].
  assert (config_of w' = config_of (pushed_worker i p wk w1)) as Hj.
  { rewrite (ef_config _ _ _ E). apply config_of_saved. }
  split; [by rewrite Hj; apply config_of_with_config|]. split.
  - intros _. rewrite (ef_files _ _ _ E), Hj. apply lookup_insert_eq.
  - eapply added; try done. apply (ef_accounts _ _ _ E).
Qed.

(** The other two orders up to the recording. *)
Lemma configured_first w p s pl {A} (k : address -> script A) :
  room w 2 -> params_denote p s -> pool_listed s (wp_POOL_ID p) pl -> site_ready w s ->
  (forall b, b ∈ site_addrs s -> settled w b) ->
  exists w2, (worker ← deploy_worker p; configure_worker p worker ;; k worker) w
             = k (proxy_address w) w2 /\
    creations w2 = 2 + creations w /\ config_of w2 = config_of w /\
    forall w', chain w' = chain w2 -> worker_added w w' s (wp_POOL_ID p) (proxy_address w).
Proof.
  intros Hroom P Hpl Hready Hset. set (wk := proxy_address w).
  rewrite (bind_run _ _ _ _ _ (deploy_worker_eq p s pl w P Hpl)).
  set (w1 := with_contract _ _ _).
  destruct (deployed_ready w s (CWorker (new_worker s (wp_POOL_ID p) pl)) Hroom Hready Hset eq_refl) as [Hr1 Hh1].
  destruct (configure_run w1 p s pl wk P (created_ok _) Hr1 Hh1) as (w2 & Hrun & E).
  exists w2. rewrite (bind_run _ _ _ _ _ Hrun). split; [done|].
  split; [by rewrite (ef_creations _ _ _ E)|]. split; [by rewrite (ef_config _ _ _ E)|].
  intros w' Hc. eapply added; try done. rewrite Hc. apply (ef_accounts _ _ _ E).
Qed.

Lemma round_late i : round i True (body_late i).
Proof.
  intros w p s pl Hroom P Hpl Hready Hset.
  destruct (configured_first w p s pl (fun a => push_worker i p a ;; save_config)
    Hroom P Hpl Hready Hset) as (w2 & Hrun & Hn & Hj & Hadd).
  assert ((push_worker i p (proxy_address w) ;; save_config) w2
    = (saved w2 (config_of (pushed_worker i p (proxy_address w) w2)), Ok tt)) as Hs'.
  { rewrite (bind_run _ _ _ _ _ (push_worker_eq _ _ _ _)).
    unfold pushed_worker. rewrite config_of_with_config. apply save_eq. }
  eexists. split; [unfold body_late; rewrite Hrun; exact Hs'|]. split; [exact Hn|].
  assert (config_of (pushed_worker i p (proxy_address w) w2) = with_Vaults (config_of w)
    (alter (with_worker (worker_entry p (proxy_address w))) i (Vaults (config_of w)))) as Hp.
  { unfold pushed_worker. by rewrite config_of_with_config, Hj. }
  rewrite config_of_saved. split; [exact Hp|]. split; [|by apply Hadd].
  intros _. apply lookup_insert_eq.
Qed.

Lemma round_once i : round i False (body_once i).
Proof.
  intros w p s pl Hroom P Hpl Hready Hset.
  destruct (configured_first w p s pl (push_worker i p) Hroom P Hpl Hready Hset)
    as (w2 & Hrun & Hn & Hj & Hadd).
  eexists. split; [unfold body_once; rewrite Hrun; apply push_worker_eq|]. split; [exact Hn|].
  split; [unfold pushed_worker; by rewrite config_of_with_config, Hj|].
  split; [done|by apply Hadd].
Qed.

(** ** The loop *)

Definition with_factors (s : WorkerSite) (work kill : Z) : WorkerSite :=
  {| ws_vault := ws_vault s; ws_base := ws_base s; ws_chef := ws_chef s; ws_router := ws_router s;
     ws_add := ws_add s; ws_liq := ws_liq s; ws_strats := ws_strats s; ws_bot := ws_bot s;
     ws_config := ws_config s; ws_vault_config := ws_vault_config s;
     ws_work := work; ws_kill := kill |}.

(** The site with the factors of one worker. *)
Definition site_for (s : WorkerSite) (p : WorkerParams) : WorkerSite :=
  with_factors s (default 0%Z (decimal (wp_WORK_FACTOR p))) (default 0%Z (decimal (wp_KILL_FACTOR p))).

Definition with_workers (es : list WorkerEntry) (v : VaultEntry) : VaultEntry :=
  {| ve_name := ve_name v; ve_symbol := ve_symbol v; ve_address := ve_address v;
     ve_baseToken := ve_baseToken v; ve_debtToken := ve_debtToken v; ve_config := ve_config v;
     ve_tripleSlopeModel := ve_tripleSlopeModel v;
     ve_StrategyAddTwoSidesOptimal := ve_StrategyAddTwoSidesOptimal v;
     ve_workers := ve_workers v ++ es |}.

(** The accounts that were there before the loop, the workers [l] added. *)
Definition enlisted (s : WorkerSite) (b : address) (l : list (WorkerParams * address)) (acc : Account) : Account :=
  fold_left (fun acc '(p, wk) => enlist (site_for s p) wk b acc) l acc.

Lemma enlisted_other s b l acc : b ∉ site_addrs s -> enlisted s b l acc = acc.
Proof.
  intros Hb. revert acc. induction l as [|[p wk] l IH]; intros acc; [done|].
  change (enlisted s b l (enlist (site_for s p) wk b acc) = acc).
  by rewrite (enlist_other (site_for s p)), IH.
Qed.

Lemma site_ready_factors w s z k : site_ready w s <-> site_ready w (with_factors s z k).
Proof. by split; intros []; constructor. Qed.

Lemma pool_listed_factors s z k id pl : pool_listed s id pl -> pool_listed (with_factors s z k) id pl.
Proof. by intros []; constructor. Qed.

Section Loop.
Variables (i : nat) (saves : Prop) (body : WorkerParams -> script unit) (s : WorkerSite).
Hypothesis Hround : round i saves body.

Lemma rounds_run l : forall w,
  room w (2 * length l) -> site_ready w s -> (forall b, b ∈ site_addrs s -> settled w b) ->
  (forall p, p ∈ l -> params_denote p (site_for s p) /\ exists pl, pool_listed s (wp_POOL_ID p) pl) ->
  exists w' us, for_each body l w = (w', Ok tt) /\
    config_of w' = with_Vaults (config_of w)
      (alter (with_workers (zip_with worker_entry l us)) i (Vaults (config_of w))) /\
    (saves -> l <> [] -> files w' !! network_name = Some (config_of w')) /\
    NoDup us /\ Forall (fun a => ~ settled w a /\ getAddress a = Some a) us /\
    Forall2 (fun p a => worker_live (chain w') (site_for s p) (wp_POOL_ID p) a) l us /\
    (forall s' id a, settled w a -> (forall b, b ∈ site_addrs s' -> settled w b) ->
      worker_live (chain w) s' id a -> worker_live (chain w') s' id a) /\
    (forall b, settled w b ->
      accounts (chain w') !! b = enlisted s b (zip l us) <$> accounts (chain w) !! b).
Proof.
  induction l as [|p l IH]; intros w Hroom Hready Hset Hl.
  { exists w, []. split; [done|]. split.
    2: { split; [done|]. split; [apply NoDup_nil_2|]. split; [apply Forall_nil_2|].
         split; [apply Forall2_nil_2|]. split; [done|]. intros b _. by destruct (_ !! b). }
    destruct (config_of w) as [? ? ? ? ? ? ? ? ? ? ? ? ? vs]. unfold with_Vaults. cbn. f_equal.
    rewrite <-(list_alter_id id vs i) at 1; [|done]. apply list_alter_ext; [|done].
    intros v _. destruct v. unfold with_workers. cbn. by rewrite app_nil_r. }
  destruct (Hl p) as (P & pl & Hpl); [by left|]. cbn [length] in Hroom.
  destruct (Hround w p (site_for s p) pl) as (w1 & Hrun & Hn & Hj & Hf & [Live Ready Keeps Rest]);
    [unfold room in *; lia|done|by apply pool_listed_factors|by apply site_ready_factors|done|].
  assert (forall b, settled w b -> settled w1 b) as Hmono
    by (intros b; apply settled_le; lia).
  assert (settled w1 (proxy_address w)) as Hold.
  { apply settled_created; unfold room in Hroom; lia. }
  destruct (IH w1) as (w' & us & Hrest & Hj' & Hf' & Hnd & Hnew & Hall & Hkeep & Hsame).
  { unfold room in *. lia. }
  { by eapply site_ready_factors. }
  { intros b Hb. by apply Hmono, Hset. }
  { intros q Hq. apply Hl. by right. }
  exists w', (proxy_address w :: us). cbn [for_each]. rewrite (bind_run _ _ _ _ _ Hrun).
  split; [exact Hrest|]. split; [|split; [|split; [|split; [|split; [|split]]]]].
  - rewrite Hj', Hj. unfold with_Vaults. cbn. f_equal. rewrite list_alter_alter_eq.
    apply list_alter_ext; [|done]. intros v _. unfold with_workers, with_worker. cbn.
    by rewrite <-app_assoc.
  - intros Hs _. destruct l as [|q l]; [|by apply Hf'].
    cbn in Hrest. injection Hrest as <-. by apply Hf.
  - constructor; [|done]. intros Hin. rewrite Forall_forall in Hnew. by apply (Hnew _ Hin).
  - constructor.
    + split; [apply wk_not_settled; unfold room in *; lia|apply created_ok].
    + eapply Forall_impl; [exact Hnew|]. intros a [Ha Hc]. split; [|done]. intros Hs. by apply Ha, Hmono.
  - constructor; [|exact Hall]. apply Hkeep; [done| |exact Live]. intros b Hb. apply Hmono, Hset, Hb.
  - intros s' id a Ha Hb HL. apply Hkeep; [auto|auto|]. by apply Keeps.
  - intros b Hb. rewrite Hsame, Rest by auto. by destruct (_ !! b).
Qed.
End Loop.

(** ** The scripts *)

Abbreviation Row := (string * Z * string * string)%type.

Definition row_id (r : Row) : Z := r.1.1.2.

(** The contracts the configuration names for the workers of a vault; the deployer owns
    those that the script calls. *)
Record workers_pre (w : World) (vaultIndex : nat) (BASE_TOKEN : string) (s : WorkerSite)
    (v : VaultEntry) : Prop := {
  wp_entry : Vaults (config_of w) !! vaultIndex = Some v;
  wp_vault : getAddress (ve_address v) = Some (ws_vault s);
  wp_base : denotes (Tokens_of (config_of w) !! BASE_TOKEN) (ws_base s);
  wp_chef : getAddress (MasterChef (config_of w)) = Some (ws_chef s);
  wp_router : getAddress (RouterV2 (config_of w)) = Some (ws_router s);
  wp_add : denotes (SharedStrategies (config_of w) !! "StrategyAddBaseTokenOnly") (ws_add s);
  wp_liq : denotes (SharedStrategies (config_of w) !! "StrategyLiquidate") (ws_liq s);
  wp_strats : Forall2 denotes
    [SharedStrategies (config_of w) !! "StrategyPartialCloseLiquidate";
     SharedStrategies (config_of w) !! "StrategyPartialCloseMinimizeTrading";
     SharedStrategies (config_of w) !! "StrategyWithdrawMinimizeTrading";
     Some (ve_StrategyAddTwoSidesOptimal v)] (ws_strats s);
  wp_bot : getAddress (AdminAddress (config_of w)) = Some (ws_bot s);
  wp_config : denotes (SharedConfig (config_of w) !! "WorkerConfig") (ws_config s);
  wp_vault_config : getAddress (ve_config v) = Some (ws_vault_config s);
  wp_ready : site_ready w s;
  wp_settled : forall b, b ∈ site_addrs s -> settled w b
}.

Definition factor_ok (f : string) : bool :=
  match decimal f with Some z => (0 <=? z)%Z && (z <? 2 ^ 64)%Z | None => false end.

Definition row_ok (r : Row) : bool := factor_ok r.1.2 && factor_ok r.2.

Lemma factor_ok_true f : factor_ok f = true ->
  decimal f = Some (default 0%Z (decimal f)) /\ uint64 (default 0%Z (decimal f)).
Proof. unfold factor_ok, uint64. destruct (decimal f); [|done]. cbn. intros. split; [done|lia]. Qed.

Lemma row_denotes w i BASE s v r :
  workers_pre w i BASE s v -> row_ok r = true ->
  let p := worker_params (config_of w) v BASE r in params_denote p (site_for s p).
Proof.
  intros [] Hr p. destruct r as [[[n id] wf] kf].
  apply andb_true_iff in Hr as [Hw Hk]. cbn in Hw, Hk.
  apply factor_ok_true in Hw, Hk. by constructor.
Qed.

(** The seven scripts with usable pools: 014-2 to 014-8. *)
Definition worker_scripts : list (script unit * nat * string * list Row) :=
  [(workers_busd, 2, "BUSD", drop 5 (rows_busd_1 ++ rows_busd_2));
   (workers_bnb, 3, "WBNB", drop 12 (rows_bnb_1 ++ rows_bnb_2 ++ rows_bnb_3));
   (workers_usdt, 4, "USDT", drop 1 rows_usdt);
   (workers_cake, 5, "CAKE", rows_cake);
   (workers_eth, 6, "ETH", rows_eth);
   (workers_btcb, 7, "BTCB", rows_btcb);
   (workers_usdc, 8, "USDC", rows_usdc)].

Lemma worker_list_eq i BASE rows w v :
  Vaults (config_of w) !! i = Some v ->
  worker_list i BASE rows w = (w, Ok (worker_params (config_of w) v BASE <$> rows)).
Proof.
  intros Hv. unfold worker_list. rewrite (bind_run _ _ _ _ _ (get_config_eq w)).
  unfold lift. rewrite Hv. done.
Qed.

Lemma workers_func_eq i BASE first rows w v :
  Vaults (config_of w) !! i = Some v ->
  workers_func i BASE first rows w
  = for_each (body_early i) (worker_params (config_of w) v BASE <$> drop first rows) w.
Proof.
  intros Hv. unfold workers_func. rewrite (bind_run _ _ _ _ _ (worker_list_eq i BASE rows w v Hv)).
  by rewrite fmap_drop.
Qed.

Lemma workers_func_late_eq i BASE first rows w v :
  Vaults (config_of w) !! i = Some v ->
  workers_func_late i BASE first rows w
  = for_each (body_late i) (worker_params (config_of w) v BASE <$> drop first rows) w.
Proof.
  intros Hv. unfold workers_func_late.
  rewrite (bind_run _ _ _ _ _ (worker_list_eq i BASE rows w v Hv)). by rewrite fmap_drop.
Qed.

(** What the loop of each of them runs, over its rows. *)
Lemma worker_scripts_loop sc i BASE rows w v :
  (sc, i, BASE, rows) ∈ worker_scripts -> Vaults (config_of w) !! i = Some v ->
  forallb row_ok rows = true /\ rows <> [] /\
  exists body, round i True body /\
    sc w = for_each body (worker_params (config_of w) v BASE <$> rows) w.
Proof.
  intros Hsc Hv. unfold worker_scripts in Hsc.
  apply elem_of_cons in Hsc as [[= -> -> -> ->]|Hsc].
  { split; [vm_compute; reflexivity|]. split; [done|].
    exists (body_late 2). split; [apply round_late|]. by apply workers_func_late_eq. }
  repeat (apply elem_of_cons in Hsc as [[= -> -> -> ->]|Hsc];
    [split; [vm_compute; reflexivity|]; split; [done|]; eexists; split; [apply round_early|];
     exact (workers_func_eq _ _ _ _ w v Hv)|]).
  by apply elem_of_nil in Hsc.
Qed.

(** What the claims on these scripts rest on. *)
Lemma workers_run sc i BASE rows w s v :
  (sc, i, BASE, rows) ∈ worker_scripts -> workers_pre w i BASE s v -> room w (2 * length rows) ->
  (forall r, r ∈ rows -> exists pl, pool_listed s (row_id r) pl) ->
  exists w' us, sc w = (w', Ok tt) /\ NoDup us /\ Forall (fun a => getAddress a = Some a) us /\
    let ps := worker_params (config_of w) v BASE <$> rows in
    Forall2 (fun p a => worker_live (chain w') (site_for s p) (wp_POOL_ID p) a) ps us /\
    config_of w' = with_Vaults (config_of w)
      (alter (with_workers (zip_with worker_entry ps us)) i (Vaults (config_of w))) /\
    files w' !! network_name = Some (config_of w') /\
    (forall b, settled w b ->
      accounts (chain w') !! b = enlisted s b (zip ps us) <$> accounts (chain w) !! b) /\
    (forall b, settled w b -> b ∉ site_addrs s -> accounts (chain w') !! b = accounts (chain w) !! b).
Proof.
  intros Hsc Hpre Hroom Hpools.
  destruct (worker_scripts_loop sc i BASE rows w v Hsc (wp_entry _ _ _ _ _ Hpre))
    as (Hok & Hne & body & Hround & ->).
  destruct (rounds_run i True body s Hround (worker_params (config_of w) v BASE <$> rows) w)
    as (w' & us & Hrun & Hj & Hf & Hnd & Hnew & Hall & _ & Hrest).
  - by rewrite length_fmap.
  - apply (wp_ready _ _ _ _ _ Hpre).
  - apply (wp_settled _ _ _ _ _ Hpre).
  - intros p Hp. apply list_elem_of_fmap in Hp as (r & -> & Hr). split.
    + apply (row_denotes w i BASE s v r Hpre). rewrite forallb_forall in Hok.
      by apply Hok, list_elem_of_In.
    + destruct (Hpools r Hr) as [pl Hpl]. exists pl. by destruct r as [[[? ?] ?] ?].
  - exists w', us. split; [done|]. split; [done|].
    split; [eapply Forall_impl; [exact Hnew|]; by intros a [_ ?]|]. cbv zeta. split_and!; try done.
    + apply Hf; [done|]. intros E. by apply fmap_nil_inv in E.
    + intros b Hb Hs. rewrite Hrest by done. destruct (_ !! b); [|done]. cbn. by rewrite enlisted_other.
Qed.

(** C10: the workers of a vault.  When the configuration names the vault, the exchange and
    strategies and configurations of the deployer, and the exchange has a pair of the base
    token for the pool of every row that the loop reaches, each of the scripts 014-2 to
    014-8 finishes.  The loop reaches the rows of the file from an index on: 5 in 014-2, 12
    in 014-3, 1 in 014-4, 0 in the others.  Every such row then has a worker of its own: a
    proxy initialised and configured for the vault and the pool, which may use the shared
    strategies and the vault's own and is whitelisted on every one of them, whose factors
    are in the worker configuration and which the vault's configuration refers there.  They
    are recorded in order, in memory and on disk.  The strategies and the configurations
    have gained the entries of these workers and are otherwise as they were, and no other
    contract that was there has changed. *)
Theorem workers_deployed sc i BASE rows w s v :
  (sc, i, BASE, rows) ∈ worker_scripts -> workers_pre w i BASE s v -> room w (2 * length rows) ->
  (forall r, r ∈ rows -> exists pl, pool_listed s (row_id r) pl) ->
  exists w' us, sc w = (w', Ok tt) /\ NoDup us /\
    let ps := worker_params (config_of w) v BASE <$> rows in
    Forall2 (fun p a => worker_live (chain w') (site_for s p) (wp_POOL_ID p) a) ps us /\
    config_of w' = with_Vaults (config_of w)
      (alter (with_workers (zip_with worker_entry ps us)) i (Vaults (config_of w))) /\
    files w' !! network_name = Some (config_of w') /\
    (forall b, settled w b ->
      accounts (chain w') !! b = enlisted s b (zip ps us) <$> accounts (chain w) !! b) /\
    (forall b, settled w b -> b ∉ site_addrs s -> accounts (chain w') !! b = accounts (chain w) !! b).
Proof.
  intros Hsc Hpre Hroom Hpools.
  destruct (workers_run sc i BASE rows w s v Hsc Hpre Hroom Hpools) as (w' & us & Hr & Hnd & _ & Hall).
  by exists w', us.
Qed.

(** The HUSKI vault gets no worker.  Script 014-1 still has the placeholder -1 as its
    pool: whatever the world, it throws -- before the proxy exists -- and neither the
    configuration nor a file changes. *)
Theorem workers_huski_fail w : exists w' e, workers_huski w = (w', Err e) /\
  config_of w' = config_of w /\ files w' = files w /\ creations w' <= S (creations w).
Proof.
  unfold workers_huski, workers_func_once. destruct (Vaults (config_of w) !! 1) as [v|] eqn:Hv.
  - rewrite (bind_run _ _ _ _ _ (worker_list_eq 1 "HUSKY" rows_huski w v Hv)).
    cbn [rows_huski fmap list_fmap drop for_each].
    set (p := worker_params _ _ _ _).
    destruct (deployProxy_Err w worker_types [JStr (wp_VAULT_ADDR p); js_opt (wp_BASE_TOKEN_ADDR p);
      JStr (wp_MASTER_CHEF_ADDR p); JStr (wp_PANCAKESWAP_ROUTER_ADDR p); JNum (wp_POOL_ID p);
      js_opt (wp_ADD_STRAT_ADDR p); js_opt (wp_LIQ_STRAT_ADDR p);
      JStr (wp_REINVEST_BOUNTY_BPS p)] init_worker) as (e & He).
    { eapply (coerce_all_Err _ _ 4); [reflexivity|reflexivity|]. by apply coerce_num_Err. }
    exists (with_impl w), e. split; [|done].
    erewrite bind_throw; [reflexivity|]. erewrite bind_throw; [reflexivity|].
    erewrite bind_throw; [reflexivity|]. exact He.
  - exists w, "Cannot read properties of undefined". split; [|split_and!; (done || lia)].
    erewrite bind_throw; [reflexivity|]. unfold worker_list.
    rewrite (bind_run _ _ _ _ _ (get_config_eq w)). unfold lift. by rewrite Hv.
Qed.
End Theory.
