(* ===== verification/StrategyTheory.v ===== *)
(** * Deploying the strategies

    What script 012 leaves: the five shared strategies, owned by the deployer and recorded
    under their keys, the two that unwrap the native token whitelisted on the relayer; and
    how script 013 gives the vaults from index 3 on a strategy of their own. *)

From S2P Require Import Prelude Buffers MerkleTree BalanceTree Evm.
From S2P Require Import Timelock TimelockTheory HuskyToken FairLaunch Lending Workers Chain ChainTheory.
From S2P Require Import Script ScriptTheory Effects WorkerScripts CoreScriptTheory PipelineTheory WorkerTheory.

Section Theory.
Context `{AbiCoder} `{!OpenZeppelin} `{!Network} `{!EthersNumbers} `{!Selectors} `{!Pancake}.

(** ** Every contract but one is kept *)

Definition kept_but (r : address) (w w' : World) : Prop :=
  creations w <= creations w' /\
  forall a, settled w a -> a <> r -> accounts (chain w') !! a = accounts (chain w) !! a.

Lemma kept_but_trans r w1 w2 w3 : kept_but r w1 w2 -> kept_but r w2 w3 -> kept_but r w1 w3.
Proof.
  intros [L1 K1] [L2 K2]. split; [lia|]. intros a Ha Hne.
  rewrite K2; [by apply K1|by eapply settled_le|done].
Qed.

Lemma kept_kept_but r w w' : kept w w' -> kept_but r w w'.
Proof. intros [L K]. split; [done|]. intros a Ha _. by apply K. Qed.

Lemma effects_kept_but r g w w' : effects w w' (at_code r g) -> kept_but r w w'.
Proof.
  intros E. split; [by rewrite (ef_creations _ _ _ E)|]. intros a _ Ha.
  rewrite (ef_accounts _ _ _ E). destruct (_ !! a); [|done]. cbn. by rewrite at_code_ne.
Qed.

Lemma held_kept_but r w w' a c : kept_but r w w' -> settled w a -> a <> r -> held w a c -> held w' a c.
Proof. intros [_ K] Ha Hne (q & Hq & Hp). exists q. by rewrite K. Qed.

(** ** Deploying one of them *)

Definition new_strategy (kind : StrategyKind) (f r : address) : Strategy :=
  {| st_owner := signer; st_kind := kind; st_factory := f; st_router := r; okWorkers := ∅ |}.

(** The world after a strategy's proxy exists. *)
Definition with_strategy (w : World) (st : Strategy) : World :=
  with_contract (with_impl w) (Some (new_proxy w)) (CStrategy st).

Lemma with_strategy_held w st :
  room w 2 -> st_owner st = signer ->
  kept w (with_strategy w st) /\ held (with_strategy w st) (proxy_address w) (CStrategy st) /\
  settled (with_strategy w st) (proxy_address w).
Proof.
  intros Hroom Ho. split; [by apply kept_proxy|]. split.
  - exists (Some (new_proxy w)). split; [apply proxy_account|]. cbn. rewrite Ho. split; [|done].
    intros [= E]. by apply signer_proxyAdmin.
  - unfold room in Hroom. apply settled_created; cbn; lia.
Qed.

Lemma deploy_plain kind rs r f w :
  getAddress rs = Some r -> router_factory r = Some f ->
  deployProxy (with_args [TAddress] [JStr rs] (init_strategy kind)) w
  = (with_strategy w (new_strategy kind f r), Ok (proxy_address w)).
Proof.
  intros Hr Hf. eapply deployProxy_eq; [apply coerce_all_cons; [by apply coerce_address|done]|].
  cbn. unfold Strategy_initialize. by rewrite Hf.
Qed.

Lemma deploy_native kind rs r f bo b ro rel w :
  getAddress rs = Some r -> router_factory r = Some f -> denotes bo b -> denotes ro rel ->
  deployProxy (with_args [TAddress; TAddress; TAddress] [JStr rs; js_opt bo; js_opt ro]
    (init_strategy_native kind)) w
  = (with_strategy w (new_strategy (kind b rel) f r), Ok (proxy_address w)).
Proof.
  intros Hr Hf Hb Hrel. eapply deployProxy_eq.
  - apply coerce_all_cons; [by apply coerce_address|].
    do 2 (apply coerce_all_cons; [by apply coerce_denotes|]). done.
  - cbn. unfold Strategy_initialize. by rewrite Hf.
Qed.

Definition with_caller (R : WNativeRelayer) (a : address) : WNativeRelayer :=
  {| wnr_owner := wnr_owner R; wnative := wnative R; okCallers := <[ a := true ]> (okCallers R) |}.

(** [wNativeRelayer.setCallerOk([a], true)] *)
Lemma caller_run w o r R a :
  denotes o r -> held w r (CWNativeRelayer R) -> getAddress a = Some a ->
  exists w', send (js_opt o) "setCallerOk(address[],bool)" [TArray TAddress; TBool]
      [JArr [JStr a]; JBool true] w = (w', Ok tt) /\
    effects w w' (at_code r (fun _ => CWNativeRelayer (with_caller R a))) /\
    held w' r (CWNativeRelayer (with_caller R a)).
Proof.
  intros (s & -> & Hs) Hh Ha. destruct Hh as (q & Hq & Hp & Ho). injection Ho as Ho.
  destruct (send_own as_WNativeRelayer CWNativeRelayer (fun m x => setCallerOk m x [a] true)
    w s r q (CWNativeRelayer R) R (with_caller R a) m_setCallerOk
    [JArr [JStr a]; JBool true] [VArray [VAddress a]; VBool true]) as (w' & Hr & E); try done.
  - cbn. in_list.
  - apply coerce_all_cons; [by apply coerce_one_address|done].
  - unfold setCallerOk. by rewrite onlyOwner_owner.
  - exists w'. split; [exact Hr|]. split; [exact E|]. exists q.
    rewrite (ef_accounts _ _ _ E), Hq. cbn. rewrite at_code_eq, Ho. done.
Qed.

(** ** Script 012 *)

Section Shared.
Variables (rs : string) (r f : address) (b rel : address) (ro bo : option string).
Hypothesis Hr : getAddress rs = Some r.
Hypothesis Hf : router_factory r = Some f.
Hypothesis Hb : denotes bo b.
Hypothesis Hrel : denotes ro rel.

(** A deployed strategy of the deployer, apart from the relayer. *)
Definition deployed_strategy (w : World) (a : address) (kind : StrategyKind) : Prop :=
  settled w a /\ a <> rel /\ held w a (CStrategy (new_strategy kind f r)).

Lemma deployed_kept w w' a kind :
  kept_but rel w w' -> deployed_strategy w a kind -> deployed_strategy w' a kind.
Proof.
  intros K (Hs & Hne & Hh). split; [by eapply settled_le; [apply K|]|]. split; [done|].
  by eapply held_kept_but.
Qed.

(** The state between two steps: where the relayer is, and the same configuration. *)
Record stage (w0 w : World) (n : nat) (R : WNativeRelayer) : Prop := {
  sg_creations : creations w = n + creations w0;
  sg_config : config_of w = config_of w0;
  sg_files : files w = files w0;
  sg_relayer : held w rel (CWNativeRelayer R);
  sg_settled : settled w rel;
  sg_kept : kept_but rel w0 w
}.

Lemma stage_strategy w0 w n R kind :
  room w0 (2 + n) -> stage w0 w n R ->
  let w' := with_strategy w (new_strategy kind f r) in
  stage w0 w' (2 + n) R /\ kept_but rel w w' /\ deployed_strategy w' (proxy_address w) kind.
Proof.
  intros Hroom [Hn Hj Hfi Hh Hs Hk] w'. unfold room in Hroom.
  destruct (with_strategy_held w (new_strategy kind f r)) as (K & Hheld & Hset);
    [unfold room; lia|done|].
  assert (proxy_address w <> rel) as Hne.
  { intros E. apply (Hs (S (creations w))); [lia|done]. }
  split; [|split; [by apply kept_kept_but|done]]. constructor.
  - cbn. lia.
  - done.
  - done.
  - destruct Hh as (q & Hq & Hp). exists q. split; [|done]. rewrite <-Hq. by apply K.
  - eapply settled_le; [|exact Hs]. apply K.
  - eapply kept_but_trans; [exact Hk|by apply kept_kept_but].
Qed.

Lemma stage_caller w0 w n R a :
  stage w0 w n R -> getAddress a = Some a ->
  exists w', send (js_opt ro) "setCallerOk(address[],bool)" [TArray TAddress; TBool]
      [JArr [JStr a]; JBool true] w = (w', Ok tt) /\
    stage w0 w' n (with_caller R a) /\ kept_but rel w w'.
Proof.
  intros [Hn Hj Hfi Hh Hs Hk] Ha. destruct (caller_run w ro rel R a Hrel Hh Ha) as (w' & Hrun & E & Hh').
  pose proof (effects_kept_but _ _ _ _ E) as K. exists w'. split; [exact Hrun|]. split; [|exact K].
  constructor.
  - by rewrite (ef_creations _ _ _ E).
  - by rewrite (ef_config _ _ _ E).
  - by rewrite (ef_files _ _ _ E).
  - exact Hh'.
  - eapply settled_le; [|exact Hs]. apply K.
  - by eapply kept_but_trans.
Qed.
End Shared.

(** The keys of the configuration and what they are to name. *)
Definition STRATEGIES (wbnb relayer : address) : list (string * StrategyKind) :=
  [("StrategyAddBaseTokenOnly", PancakeswapV2AddBaseTokenOnly);
   ("StrategyLiquidate", PancakeswapV2Liquidate);
   ("StrategyWithdrawMinimizeTrading", PancakeswapV2WithdrawMinimizeTrading wbnb relayer);
   ("StrategyPartialCloseLiquidate", PancakeswapV2PartialCloseLiquidate);
   ("StrategyPartialCloseMinimizeTrading", PancakeswapV2PartialCloseMinimizeTrading wbnb relayer)].

Definition with_strategies (j : Json) (kas : list (string * address)) : Json :=
  foldl (fun j ka => with_SharedStrategies j ka.1 ka.2) j kas.

Lemma set_strategy_eq {A} k a w (g : script A) :
  (set_strategy k a ;; g) w = g (with_config w (with_SharedStrategies (config_of w) k a)).
Proof. unfold set_strategy. by erewrite bind_run; [|erewrite bind_run; [reflexivity|apply get_config_eq]]. Qed.

Lemma with_strategies_other j kas k :
  k ∉ kas.*1 -> SharedStrategies (with_strategies j kas) !! k = SharedStrategies j !! k.
Proof.
  unfold with_strategies. revert j. induction kas as [|[k' a] kas IH]; [done|]. cbn. intros j Hk.
  rewrite not_elem_of_cons in Hk. destruct Hk as [Hne Hk]. rewrite IH; [|done]. cbn.
  by rewrite lookup_insert_ne.
Qed.

(** Every key is recorded, with its strategy. *)
Lemma with_strategies_lookup j kas :
  NoDup kas.*1 -> Forall (fun ka => SharedStrategies (with_strategies j kas) !! ka.1 = Some ka.2) kas.
Proof.
  revert j. induction kas as [|[k a] kas IH]; [constructor|]. cbn. intros j Hd.
  inversion_clear Hd as [|? ? Hk Hd']. constructor; [|by apply IH].
  change (with_strategies j ((k, a) :: kas)) with (with_strategies (with_SharedStrategies j k a) kas).
  cbn. rewrite with_strategies_other by done. apply lookup_insert_eq.
Qed.

(** The state after the last transaction of the script, before the file is written. *)
Lemma strategies_stage w r f b rel R :
  room w 10 -> getAddress (RouterV2 (config_of w)) = Some r -> router_factory r = Some f ->
  denotes (Tokens_of (config_of w) !! "WBNB") b ->
  denotes (SharedConfig (config_of w) !! "WNativeRelayer") rel ->
  held w rel (CWNativeRelayer R) -> settled w rel ->
  exists w' a1 a2 a3 a4 a5,
    deploy_strategies w = (saved w' (with_strategies (config_of w)
      (zip (STRATEGIES b rel).*1 [a1; a2; a3; a4; a5])), Ok tt) /\
    [a1; a2; a3; a4; a5] = (fun k => created (k + creations w)) <$> [1; 3; 5; 7; 9] /\
    stage rel w w' 10 (with_caller (with_caller R a3) a5) /\
    Forall2 (fun kk a => deployed_strategy r f rel w' a kk.2)
      (STRATEGIES b rel) [a1; a2; a3; a4; a5].
Proof.
  intros Hroom Hr Hf Hb Hrel Hh Hs.
  assert (stage rel w w 0 R) as S0 by (constructor; try done; split; done).
  set (rs := RouterV2 (config_of w)) in *. set (ro := SharedConfig (config_of w) !! "WNativeRelayer") in *.
  set (bo := Tokens_of (config_of w) !! "WBNB") in *.
  unfold deploy_strategies. rewrite (bind_run _ _ _ _ _ (get_config_eq w)). cbv zeta.
  fold rs ro bo.
  rewrite (bind_run _ _ _ _ _ (deploy_plain PancakeswapV2AddBaseTokenOnly rs r f w Hr Hf)).
  destruct (stage_strategy r f rel w w 0 R PancakeswapV2AddBaseTokenOnly) as (S1 & K1 & D1);
    [unfold room in *; lia|done|]. set (w1 := with_strategy w _) in *.
  rewrite (bind_run _ _ _ _ _ (deploy_plain PancakeswapV2Liquidate rs r f w1 Hr Hf)).
  destruct (stage_strategy r f rel w w1 2 R PancakeswapV2Liquidate) as (S2 & K2 & D2);
    [unfold room in *; lia|done|]. set (w2 := with_strategy w1 _) in *.
  rewrite (bind_run _ _ _ _ _ (deploy_native PancakeswapV2WithdrawMinimizeTrading rs r f bo b ro rel w2
    Hr Hf Hb Hrel)).
  destruct (stage_strategy r f rel w w2 4 R (PancakeswapV2WithdrawMinimizeTrading b rel))
    as (S3 & K3 & D3); [unfold room in *; lia|done|]. set (w3 := with_strategy w2 _) in *.
  destruct (stage_caller rel ro Hrel w w3 6 R (proxy_address w2) S3 (created_ok _)) as (w4 & Hr4 & S4 & K4).
  rewrite (bind_run _ _ _ _ _ Hr4).
  rewrite (bind_run _ _ _ _ _ (deploy_plain PancakeswapV2PartialCloseLiquidate rs r f w4 Hr Hf)).
  destruct (stage_strategy r f rel w w4 6 (with_caller R (proxy_address w2))
    PancakeswapV2PartialCloseLiquidate) as (S5 & K5 & D5);
    [unfold room in *; lia|done|]. set (w5 := with_strategy w4 _) in *.
  rewrite (bind_run _ _ _ _ _ (deploy_native PancakeswapV2PartialCloseMinimizeTrading rs r f bo b ro rel w5
    Hr Hf Hb Hrel)).
  destruct (stage_strategy r f rel w w5 8 (with_caller R (proxy_address w2))
    (PancakeswapV2PartialCloseMinimizeTrading b rel)) as (S6 & K6 & D6);
    [unfold room in *; lia|done|]. set (w6 := with_strategy w5 _) in *.
  destruct (stage_caller rel ro Hrel w w6 10 (with_caller R (proxy_address w2)) (proxy_address w5) S6
    (created_ok _)) as (w7 & Hr7 & S7 & K7).
  rewrite (bind_run _ _ _ _ _ Hr7).
  rewrite !set_strategy_eq, !config_of_with_config, !with_config_twice.
  rewrite (sg_config _ _ _ _ _ S7).
  exists w7, (proxy_address w), (proxy_address w1), (proxy_address w2), (proxy_address w4),
    (proxy_address w5). split; [|split; [|split; [exact S7|]]].
  - rewrite <-save_eq. reflexivity.
  - unfold proxy_address, w6, w5. cbn [creations with_strategy with_contract with_created with_impl].
    by rewrite (sg_creations _ _ _ _ _ S4).
  - repeat constructor; cbn; (eapply deployed_kept; [|eassumption]);
      eauto 8 using kept_but_trans.
Qed.

(** C27: the shared strategies.  When the configuration names a router, the wrapped native
    token and a relayer of the deployer, script 012 finishes: the five strategies exist at
    addresses of their own, as proxies of the deployer with empty whitelists, initialised
    for the router and, where they unwrap the native token, the relayer; each is recorded
    under its key, in memory and on disk; exactly the two that unwrap have been added to
    the relayer's callers; no other contract has changed. *)
Theorem strategies_deployed w r f b rel R :
  room w 10 -> getAddress (RouterV2 (config_of w)) = Some r -> router_factory r = Some f ->
  denotes (Tokens_of (config_of w) !! "WBNB") b ->
  denotes (SharedConfig (config_of w) !! "WNativeRelayer") rel ->
  held w rel (CWNativeRelayer R) -> settled w rel ->
  exists w' us a3 a5, deploy_strategies w = (w', Ok tt) /\ NoDup us /\
    us !! 2 = Some a3 /\ us !! 4 = Some a5 /\
    Forall2 (fun kk a => SharedStrategies (config_of w') !! kk.1 = Some a /\
      ~ settled w a /\ settled w' a /\ held w' a (CStrategy (new_strategy kk.2 f r)))
      (STRATEGIES b rel) us /\
    held w' rel (CWNativeRelayer (with_caller (with_caller R a3) a5)) /\
    config_of w' = with_strategies (config_of w) (zip (STRATEGIES b rel).*1 us) /\
    files w' !! network_name = Some (config_of w') /\
    kept_but rel w w'.
Proof.
  intros Hroom Hr Hf Hb Hrel Hh Hs.
  destruct (strategies_stage w r f b rel R) as (w' & a1 & a2 & a3 & a4 & a5 & Hrun & Hus & St & Hall);
    try done.
  unfold room in Hroom.
  exists (saved w' (with_strategies (config_of w) (zip (STRATEGIES b rel).*1 [a1; a2; a3; a4; a5]))),
    [a1; a2; a3; a4; a5], a3, a5.
  split; [exact Hrun|]. split; [|split; [done|split; [done|split; [|split; [|split; [|split]]]]]].
  - rewrite Hus. apply NoDup_fmap_2_strong; [|by apply (bool_decide_unpack _)].
    intros x y Hx Hy E. apply list_elem_of_In in Hx, Hy.
    destruct (decide (x = y)) as [|Hne]; [done|]. exfalso. revert E. apply created_neq; cbn in *; lia.
  - rewrite config_of_saved.
    pose proof (with_strategies_lookup (config_of w) (zip (STRATEGIES b rel).*1 [a1; a2; a3; a4; a5])
      ltac:(by apply (bool_decide_unpack _))) as Hkeys.
    assert (Forall (fun a => ~ settled w a) [a1; a2; a3; a4; a5]) as Hnew.
    { rewrite Hus. repeat constructor; intros Hset; by eapply Hset; [|reflexivity]; cbn; lia. }
    repeat (apply Forall2_cons in Hall as [(? & ? & ?) Hall]).
    repeat (apply Forall_cons in Hkeys as [? Hkeys]). repeat (apply Forall_cons in Hnew as [? Hnew]).
    by repeat constructor.
  - apply (sg_relayer _ _ _ _ _ St).
  - by rewrite config_of_saved.
  - rewrite config_of_saved. unfold saved. cbn. apply lookup_insert_eq.
  - apply (sg_kept _ _ _ _ _ St).
Qed.

(** ** Script 013 *)

Section TwoSides.
Variables (rs : string) (r f : address).
Hypothesis Hr : getAddress rs = Some r.
Hypothesis Hf : router_factory r = Some f.

(** The strategy of a vault of the configuration. *)
Definition two_sides (v : VaultEntry) : Strategy :=
  new_strategy (PancakeswapV2AddTwoSidesOptimal (default EmptyString (getAddress (ve_address v)))) f r.

Definition two_sides_body (i : nat) : script unit :=
  config ← get_config;
  v ← lift (of_option (Vaults config !! i) "Cannot read properties of undefined");
  twoSides ← deployProxy (with_args [TAddress; TAddress]
    [JStr (RouterV2 config); JStr (ve_address v)] init_two_sides);
  set_config (with_Vaults config (alter (with_two_sides twoSides) i (Vaults config))) ;;
  save_config.

Lemma two_sides_round w i v :
  RouterV2 (config_of w) = rs -> Vaults (config_of w) !! i = Some v -> is_Some (getAddress (ve_address v)) ->
  two_sides_body i w = (saved (with_strategy w (two_sides v)) (with_Vaults (config_of w)
    (alter (with_two_sides (proxy_address w)) i (Vaults (config_of w)))), Ok tt).
Proof.
  intros Hrs Hv [a Ha]. unfold two_sides_body. rewrite (bind_run _ _ _ _ _ (get_config_eq w)).
  rewrite Hv. cbn [of_option]. rewrite (bind_run (lift (Ok v)) _ _ _ _ eq_refl). rewrite Hrs.
  erewrite bind_run; [apply save_eq|].
  unfold with_strategy, two_sides. rewrite Ha. cbn [default].
  eapply deployProxy_eq; [do 2 (apply coerce_all_cons; [by apply coerce_address|]); done|].
  cbn. unfold Strategy_initialize. by rewrite Hf.
Qed.

(** The vaults from index [i] on, with their strategies. *)
Definition with_all_two_sides (i : nat) (us : list address) (vs : list VaultEntry) : list VaultEntry :=
  take i vs ++ zip_with with_two_sides us (drop i vs).

Lemma with_all_two_sides_cons i u us vs v :
  vs !! i = Some v ->
  with_all_two_sides (S i) us (alter (with_two_sides u) i vs) = with_all_two_sides i (u :: us) vs.
Proof.
  intros Hv. unfold with_all_two_sides. rewrite (drop_S vs v i Hv). cbn [zip_with].
  assert (alter (with_two_sides u) i vs !! i = Some (with_two_sides u v)) as Hv'
    by (by rewrite list_lookup_alter_eq, Hv).
  rewrite (take_S_r _ _ _ Hv'), <-app_assoc. cbn [app]. f_equal.
  - by rewrite take_alter, decide_False by lia.
  - do 2 f_equal. apply drop_alter_lt. lia.
Qed.

Lemma two_sides_rounds m : forall i w,
  room w (2 * m) -> RouterV2 (config_of w) = rs -> length (Vaults (config_of w)) = i + m ->
  Forall (fun v => is_Some (getAddress (ve_address v))) (drop i (Vaults (config_of w))) ->
  exists w' us, for_each two_sides_body (seq i m) w = (w', Ok tt) /\
    us = (fun k => created (S (creations w + 2 * k))) <$> seq 0 m /\
    kept w w' /\
    Forall2 (fun v u => settled w' u /\ held w' u (CStrategy (two_sides v))) (drop i (Vaults (config_of w))) us /\
    config_of w' = with_Vaults (config_of w) (with_all_two_sides i us (Vaults (config_of w))) /\
    (0 < m -> files w' !! network_name = Some (config_of w')).
Proof.
  induction m as [|m IH]; intros i w Hroom Hrs Hlen Hvs.
  { exists w, []. split; [done|]. split; [done|]. split; [apply kept_refl|].
    rewrite drop_ge by lia. split; [constructor|]. split; [|lia].
    unfold with_all_two_sides. rewrite take_ge by lia. cbn [zip_with]. rewrite app_nil_r.
    by destruct (config_of w). }
  destruct (lookup_lt_is_Some_2 (Vaults (config_of w)) i) as [v Hv]; [lia|].
  rewrite (drop_S _ _ _ Hv) in *. apply Forall_cons in Hvs as [Hva Hvs].
  pose proof (two_sides_round w i v Hrs Hv Hva) as Hround.
  set (w1 := saved _ _) in Hround.
  destruct (with_strategy_held w (two_sides v)) as (K & Hheld & Hset);
    [unfold room in *; lia|done|].
  assert (config_of w1 = with_Vaults (config_of w)
    (alter (with_two_sides (proxy_address w)) i (Vaults (config_of w)))) as Hj by apply config_of_saved.
  destruct (IH (S i) w1) as (w' & us & Hrun & Hus & Hk & Hall & Hj' & Hfi).
  { unfold room in *. cbn. lia. }
  { by rewrite Hj. }
  { rewrite Hj. cbn. rewrite length_alter. lia. }
  { rewrite Hj. cbn. by rewrite drop_alter_lt by lia. }
  exists w', (proxy_address w :: us). cbn [seq for_each]. rewrite (bind_run _ _ _ _ _ Hround).
  split; [exact Hrun|]. split; [|split; [|split; [|split]]].
  - rewrite Hus. cbn [fmap list_fmap seq]. rewrite Nat.add_0_r. f_equal.
    rewrite <-fmap_S_seq, <-list_fmap_compose. apply list_fmap_ext. intros j x _. cbn. f_equal. lia.
  - by eapply kept_trans.
  - constructor.
    + split; [by eapply settled_le; [apply Hk|]|]. destruct Hheld as (q & Hq & Hp). exists q.
      split; [|done]. destruct Hk as [_ Hk]. rewrite Hk; [exact Hq|exact Hset].
    + rewrite Hj in Hall. cbn in Hall. by rewrite drop_alter_lt in Hall by lia.
  - rewrite Hj', Hj. unfold with_Vaults. cbn. f_equal. by apply with_all_two_sides_cons with v.
  - intros _. destruct m as [|m]; [|apply Hfi; lia]. assert (w' = w1) as -> by (by injection Hrun).
    rewrite Hj. unfold w1, saved. cbn. apply lookup_insert_eq.
Qed.
End TwoSides.

(** The vaults' own strategies.  When the configuration names a router and the address
    of every vault from index 3 on, script 013 finishes: each of these vaults has a strategy
    of its own, a new proxy of the deployer initialised for the router and that vault and
    recorded in its entry; the first three vaults, which the loop skips, keep theirs, and no
    contract has changed.  With three vaults or fewer it writes nothing. *)
Theorem vault_strategies_deployed w r f :
  let vs := Vaults (config_of w) in
  0 < length vs -> room w (2 * (length vs - 3)) ->
  getAddress (RouterV2 (config_of w)) = Some r -> router_factory r = Some f ->
  Forall (fun v => is_Some (getAddress (ve_address v))) (drop 3 vs) ->
  exists w' us, deploy_vault_strategies w = (w', Ok tt) /\ NoDup us /\ kept w w' /\
    Forall2 (fun v u => ~ settled w u /\ held w' u (CStrategy (two_sides r f v))) (drop 3 vs) us /\
    Vaults (config_of w') = take 3 vs ++ zip_with with_two_sides us (drop 3 vs) /\
    (if decide (length vs <= 3) then w' = w
     else files w' !! network_name = Some (config_of w')).
Proof.
  intros vs Hpos Hroom Hr Hf Hvs. unfold deploy_vault_strategies.
  rewrite (bind_run _ _ _ _ _ (get_config_eq w)). fold vs.
  destruct (lookup_lt_is_Some_2 vs 0 Hpos) as [v0 Hv0]. rewrite Hv0. cbn [of_option].
  rewrite (bind_run (lift (Ok v0)) _ _ _ _ eq_refl).
  assert (0 < length vs) as Hl by done.
  destruct (decide (length vs <= 3)) as [Hle|Hgt].
  { replace (length vs - 3) with 0 by lia. cbn [seq for_each]. exists w, []. split; [done|].
    split; [constructor|]. split; [apply kept_refl|]. rewrite drop_ge by done. split; [constructor|].
    split; [|done]. cbn [zip_with]. by rewrite app_nil_r, take_ge. }
  destruct (two_sides_rounds (RouterV2 (config_of w)) r f Hr Hf (length vs - 3) 3 w)
    as (w' & us & Hrun & Hus & Hk & Hall & Hj & Hfi); [done|done|fold vs; lia|done|].
  unfold room in Hroom. exists w', us. split; [exact Hrun|]. split; [|split; [done|split; [|split]]].
  - rewrite Hus. apply NoDup_fmap_2_strong; [|apply NoDup_seq].
    intros x y Hx Hy E. apply elem_of_seq in Hx, Hy.
    destruct (decide (x = y)) as [|Hne]; [done|]. exfalso. revert E. apply created_neq; lia.
  - apply Forall2_same_length_lookup_2; [by apply Forall2_length in Hall|].
    intros k v u Hv Hu. destruct (Forall2_lookup_lr _ _ _ _ _ _ Hall Hv Hu) as [_ Hh]. split; [|done].
    rewrite Hus in Hu. apply list_lookup_fmap_Some in Hu as (k' & -> & Hk').
    apply lookup_seq in Hk' as [-> Hlt]. intros Hset. apply (Hset (S (creations w + 2 * k))); [lia|done].
  - by rewrite Hj.
  - apply Hfi. lia.
Qed.
End Theory.
