(* ===== verification/OwnerScriptTheory.v ===== *)
(** * What the owner's setup scripts do

    Handing contracts over to the timelock, and after it; adding a pool with a gas limit
    that hides a failure; the parameters that h001 and h003 leave. *)

From S2P Require Import Prelude Buffers MerkleTree BalanceTree Evm.
From S2P Require Import Timelock TimelockTheory HuskyToken FairLaunch FairLaunchTheory Lending Workers.
From S2P Require Import Chain ChainTheory Script ScriptTheory Effects TimelockScripts OwnerScripts.

Section Theory.
Context `{AbiCoder} `{!OpenZeppelin} `{!Network} `{!EthersNumbers} `{!Selectors}.

(** ** Ownership *)

Lemma owner_set_owner c o : is_Some (owner_of c) -> owner_of (set_owner c o) = Some o.
Proof. intros [x Hx]. by destruct c. Qed.

Lemma transferOwnership_in cl c : is_Some (owner_of c) -> m_transferOwnership ∈ methods cl c.
Proof. intros [x Hx]. destruct c; try done; cbn; in_list. Qed.

(** The account with its ownership handed to [tl], for the addresses of a list. *)
Definition handed (tl : address) (l : list address) (b : address) (acc : Account) : Account :=
  if decide (b ∈ l) then {| proxy := proxy acc; code := set_owner (code acc) tl |} else acc.

Lemma handed_cons tl a l b acc :
  a ∉ l -> handed tl l b (handed tl [a] b acc) = handed tl (a :: l) b acc.
Proof.
  intros Ha. unfold handed. destruct (decide (b = a)) as [->|Hne].
  - by rewrite (decide_False (P := a ∈ l)), !decide_True by set_solver.
  - rewrite (decide_False (P := b ∈ [a])) by set_solver.
    repeat case_decide; set_solver.
Qed.

Definition transfer (T s : string) : script unit :=
  send (JStr s) "transferOwnership(address)" [TAddress] [JStr T].

Lemma transfer_run w T tl s a p c :
  getAddress T = Some tl -> tl <> zero_address -> getAddress s = Some a ->
  accounts (chain w) !! a = Some {| proxy := p; code := c |} ->
  proxy_admin <$> p <> Some signer -> owner_of c = Some signer ->
  exists w', transfer T s w = (w', Ok tt) /\ effects w w' (handed tl [a]).
Proof.
  intros HT Hz Hs Ha Hp Ho. unfold transfer.
  rewrite (send_method w s a _ m_transferOwnership [JStr T] [VAddress tl] Hs Ha Hp);
    [|by apply transferOwnership_in|by apply coerce_all_cons; [apply coerce_address|]].
  cbn [m_run m_transferOwnership]. unfold code_at. cbn [self next_msg]. rewrite Ha. cbn. rewrite Ho. cbn.
  unfold transferOwnership. rewrite onlyOwner_owner by done. cbn. rewrite bool_decide_eq_true_2 by done.
  eexists. split; [reflexivity|]. split; try done. intros b. cbn. rewrite Ha. cbn. unfold handed.
  destruct (decide (b = a)) as [->|Hne].
  - rewrite lookup_insert_eq, Ha. cbn. by rewrite decide_True by set_solver.
  - rewrite lookup_insert_ne by done. destruct (_ !! b); [|done]. cbn. by rewrite decide_False by set_solver.
Qed.

(** The deployer is refused what it no longer owns. *)
Lemma transfer_refused w T tl s a p c :
  getAddress T = Some tl -> getAddress s = Some a ->
  accounts (chain w) !! a = Some {| proxy := p; code := c |} ->
  proxy_admin <$> p <> Some signer -> is_Some (owner_of c) -> owner_of c <> Some signer ->
  exists e, transfer T s w = (w, Err e).
Proof.
  intros HT Hs Ha Hp [o Ho] Hne. unfold transfer.
  rewrite (send_method w s a _ m_transferOwnership [JStr T] [VAddress tl] Hs Ha Hp);
    [|by apply transferOwnership_in|by apply coerce_all_cons; [apply coerce_address|]].
  cbn [m_run m_transferOwnership]. unfold code_at. cbn [self next_msg]. rewrite Ha. cbn. rewrite Ho. cbn.
  unfold transferOwnership, onlyOwner. rewrite (bool_decide_eq_false_2 (o = _)) by (intros E; cbn in E; congruence). by eexists.
Qed.

Lemma handed_run T tl : forall ss l w,
  getAddress T = Some tl -> tl <> zero_address ->
  Forall2 (fun s a => getAddress s = Some a) ss l -> NoDup l ->
  (forall a, a ∈ l -> exists c, held w a c) ->
  exists w', for_each (transfer T) ss w = (w', Ok tt) /\ effects w w' (handed tl l).
Proof.
  intros ss l w HT Hz Hss. revert w. induction Hss as [|s a ss l Hs _ IH]; intros w Hd Hl.
  - exists w. split; [done|]. split; try done. intros b. destruct (_ !! b); [|done]. cbn.
    unfold handed. by rewrite decide_False by set_solver.
  - apply NoDup_cons in Hd as [Hnot Hd]. destruct (Hl a) as (c & p & Ha & Hp & Ho); [by left|].
    destruct (transfer_run w T tl s a p c HT Hz Hs Ha Hp Ho) as (w1 & Hr1 & E1).
    destruct (IH w1 Hd) as (w' & Hr & E).
    { intros b Hb. destruct (Hl b) as (c' & p' & Hb' & Hp' & Ho'); [by right|].
      exists c', p'. rewrite (ef_accounts _ _ _ E1), Hb'. cbn. unfold handed.
      by rewrite decide_False by set_solver. }
    exists w'. cbn [for_each]. rewrite (bind_run _ _ _ _ _ Hr1). split; [exact Hr|].
    eapply effects_ext, effects_trans; [|exact E1|exact E]. intros b acc _. by apply handed_cons.
Qed.

(** Handing over to the timelock.  When the listed contracts are different contracts of
    the deployer, script s004 finishes; every one of them is then owned by the timelock and
    otherwise as before, behind the same proxy, and no other account, no configuration and
    no file has changed.  It is final: run again, the script throws at the first contract
    and changes nothing. *)
Theorem ownership_handed_over w T tl ss l :
  getAddress T = Some tl -> tl <> zero_address -> tl <> signer ->
  Forall2 (fun s a => getAddress s = Some a) ss l -> NoDup l -> l <> [] ->
  (forall a, a ∈ l -> exists c, held w a c) ->
  exists w', s004_func T ss w = (w', Ok tt) /\ effects w w' (handed tl l) /\
    (forall a, a ∈ l -> code_at (chain w') a ≫= owner_of = Some tl) /\
    exists e, s004_func T ss w' = (w', Err e).
Proof.
  intros HT Hz Hne Hss Hd Hnil Hl. destruct (handed_run T tl ss l w HT Hz Hss Hd Hl) as (w' & Hr & E).
  assert (forall a c p, a ∈ l -> accounts (chain w) !! a = Some {| proxy := p; code := c |} ->
    accounts (chain w') !! a = Some {| proxy := p; code := set_owner c tl |}) as Hafter.
  { intros a c p Hin Ha. rewrite (ef_accounts _ _ _ E), Ha. cbn. unfold handed. by rewrite decide_True. }
  exists w'. split; [exact Hr|]. split; [exact E|]. split.
  - intros a Hin. destruct (Hl a Hin) as (c & p & Ha & Hp & Ho). unfold code_at.
    rewrite (Hafter a c p Hin Ha). cbn. apply owner_set_owner. by rewrite Ho.
  - destruct Hss as [|s a ss l Hs Hss]; [done|]. destruct (Hl a) as (c & p & Ha & Hp & Ho); [by left|].
    assert (owner_of (set_owner c tl) = Some tl) as Ho' by (apply owner_set_owner; by rewrite Ho).
    destruct (transfer_refused w' T tl s a p (set_owner c tl) HT Hs) as [e He];
      [by apply Hafter; [left|]|done|by rewrite Ho'|congruence|].
    exists e. unfold s004_func. cbn [for_each]. by erewrite bind_throw.
Qed.

(** ** s005 *)

(** When [addPool] without an update accepts the pool. *)
Definition pool_accepted (f : FairLaunch) (alloc : Z) (tok : address) : Prop :=
  fl_owner f = signer /\ tok <> zero_address /\ tok ∉ stakeToken <$> poolInfo f /\
  (totalAllocPoint f + alloc < UINT256)%Z.

Lemma isDuplicatedPool_spec f tok :
  isDuplicatedPool f tok = true <-> tok ∈ stakeToken <$> poolInfo f.
Proof.
  unfold isDuplicatedPool. rewrite existsb_exists. split.
  - intros (p & Hp%list_elem_of_In & E%bool_decide_eq_true). subst. by apply list_elem_of_fmap_2.
  - intros (p & -> & Hp%list_elem_of_In)%list_elem_of_fmap. exists p. split; [done|].
    by apply bool_decide_eq_true.
Qed.

Lemma addPool_plain {W} `{Tokens W} m f (h : W) sym alloc tok :
  sender m = signer -> uint256 (totalAllocPoint f) -> uint256 alloc -> pool_accepted f alloc tok ->
  addPool m (f, h) sym alloc tok false
  = Ok (with_pools f (poolInfo f ++ [new_pool f (number (block m)) sym alloc tok])
          (totalAllocPoint f + alloc) (lastMultiplier f), h).
Proof.
  intros Hm Ht Ha (Ho & Hz & Hd & Hlt). unfold addPool. cbn [fst]. rewrite onlyOwner_owner by congruence.
  cbn. rewrite bool_decide_eq_true_2 by done. cbn.
  assert (isDuplicatedPool f tok = false) as ->.
  { apply not_true_iff_false. by rewrite isDuplicatedPool_spec. }
  cbn. by rewrite sm_add_small.
Qed.

Lemma addPool_refused {W} `{Tokens W} m f (h : W) sym alloc tok r :
  sender m = signer -> uint256 (totalAllocPoint f) -> uint256 alloc ->
  addPool m (f, h) sym alloc tok false = Ok r -> pool_accepted f alloc tok.
Proof.
  intros Hm Ht Ha Hr. unfold addPool in Hr. cbn [fst] in Hr.
  apply bind_Ok in Hr as ([] & Ho & Hr). apply onlyOwner_Ok in Ho. cbn in Hr.
  apply bind_Ok in Hr as (_ & Hz%require_Ok%bool_decide_eq_true & Hr).
  apply bind_Ok in Hr as (_ & Hd%require_Ok & Hr). apply bind_Ok in Hr as (total & Hs & _).
  apply sm_add_Ok in Hs as [-> Hu]; [|done..]. split; [congruence|]. split; [done|]. split.
  - intros Hin%isDuplicatedPool_spec. by rewrite Hin in Hd.
  - apply Hu.
Qed.

(** Script s005 cannot fail visibly.  Whatever the state of FairLaunch, it finishes, and
    no configuration or file changes; the pool has been appended, with the allocation added
    to the total, exactly when the deployer still owns FairLaunch and the token is new and
    the total does not overflow -- otherwise the transaction has reverted unnoticed, because
    of the explicit gas limit, and the chain is as it was. *)
Theorem pool_added_or_not w FL TOK SYMBOL ALLOC fl tok alloc p f :
  getAddress FL = Some fl -> getAddress TOK = Some tok -> decimal ALLOC = Some alloc ->
  uint256 alloc -> uint256 (totalAllocPoint f) ->
  accounts (chain w) !! fl = Some {| proxy := p; code := CFairLaunch f |} ->
  proxy_admin <$> p <> Some signer ->
  exists w', s005_func FL TOK ALLOC SYMBOL w = (w', Ok tt) /\
    config_of w' = config_of w /\ files w' = files w /\
    ((pool_accepted f alloc tok /\
      chain w' = set_code (chain w) fl (CFairLaunch (with_pools f
        (poolInfo f ++ [new_pool f (number (mined (height w))) SYMBOL alloc tok])
        (totalAllocPoint f + alloc) (lastMultiplier f)))) \/
     (~ pool_accepted f alloc tok /\ chain w' = chain w)).
Proof.
  intros HFL HTOK HA Ha Ht Hacc Hp. unfold s005_func.
  rewrite (send_gasLimit_method w FL fl _ m_addPool _ [VString SYMBOL; VUint alloc; VAddress tok; VBool false]
    HFL Hacc Hp); [|cbn; in_list|].
  2: { apply coerce_all_cons; [done|]. apply coerce_all_cons; [by apply coerce_decimal|].
       apply coerce_all_cons; [by apply coerce_address|done]. }
  cbn [m_run m_addPool]. unfold on_FairLaunch, get, code_at. cbn [self next_msg]. rewrite Hacc. cbn.
  destruct (addPool _ _ _ _ _ _) as [[f' ch']|e] eqn:E; cbn.
  - eexists. split; [reflexivity|]. split; [done|split; [done|left]].
    pose proof (addPool_refused (next_msg w fl) _ _ _ _ _ _ eq_refl Ht Ha E) as Hok. split; [done|].
    rewrite (addPool_plain (next_msg w fl) _ _ _ _ _ eq_refl Ht Ha Hok) in E. by injection E as <- <-.
  - eexists. split; [reflexivity|]. split; [done|split; [done|right]]. split; [|done].
    intros Hok. by rewrite (addPool_plain (next_msg w fl) _ _ _ _ _ eq_refl Ht Ha Hok) in E.
Qed.

(** ** h001 and h003 *)

(** The price feeder.  On an oracle of the deployer, h001 replaces the feeder and nothing
    else; from then on setPrices reverts for every other sender, the deployer included.  On
    an oracle of anyone else it throws and changes nothing. *)
Theorem feeder_replaced w o feeder_addr p s :
  denotes (Oracle (config_of w) !! "SimpleOracle") o -> getAddress h001_FEEDER_ADDR = Some feeder_addr ->
  accounts (chain w) !! o = Some {| proxy := p; code := CSimplePriceOracle s |} ->
  proxy_admin <$> p <> Some signer ->
  if decide (spo_owner s = signer) then
    exists w' s', h001 w = (w', Ok tt) /\ effects w w' (at_code o (fun _ => CSimplePriceOracle s')) /\
      feeder s' = feeder_addr /\ store s' = store s /\ spo_owner s' = signer /\
      forall m t0 t1 ps, sender m <> feeder_addr -> is_ok (setPrices m s' t0 t1 ps) = false
  else exists e, h001 w = (w, Err e).
Proof.
  intros (so & Eo & Hso) Hfa Hacc Hp. unfold h001. rewrite (bind_run _ _ _ _ _ (get_config_eq w)).
  cbv beta. rewrite Eo. cbn [js_opt].
  assert (coerce_all [TAddress] [JStr h001_FEEDER_ADDR] = Ok [VAddress feeder_addr]) as Hvs
    by (by apply coerce_all_cons; [apply coerce_address|]).
  case_decide as Ho.
  - set (s' := {| spo_owner := spo_owner s; feeder := feeder_addr; store := store s |}).
    destruct (send_own as_SimplePriceOracle CSimplePriceOracle (fun m x => setFeeder m x feeder_addr)
      w so o p (CSimplePriceOracle s) s s' m_setFeeder [JStr h001_FEEDER_ADDR] [VAddress feeder_addr])
      as (w' & Hr & E); try done.
    + cbn. in_list.
    + unfold setFeeder. by rewrite onlyOwner_owner.
    + exists w', s'. split; [exact Hr|]. split; [exact E|]. do 3 (split; [done|]).
      intros m t0 t1 ps Hne. unfold setPrices. by rewrite (bool_decide_eq_false_2 (sender m = _)).
  - rewrite (send_method w so o _ m_setFeeder [JStr h001_FEEDER_ADDR] [VAddress feeder_addr] Hso Hacc Hp); [|cbn; in_list|exact Hvs].
    cbn [m_run m_setFeeder]. unfold own, get, code_at. cbn [self next_msg]. rewrite Hacc. cbn.
    unfold setFeeder, onlyOwner. rewrite bool_decide_eq_false_2 by done. by eexists.
Qed.

(** The parameters that h003 sets.  On a vault configuration of the deployer whose
    maximal kill prize admits 500, h003 sets the eight parameters from the configuration
    file -- 100 ether of minimal debt, 1600, 4 and 500 basis points, the high interest
    model -- and leaves its owner, its workers and every other contract as they were; on
    any other configuration it throws and changes nothing. *)
Theorem vault_parameters_set w v c p model nat relayer fl :
  getAddress h003_VAULT_CONFIG_ADDR = Some v ->
  denotes (SharedConfig (config_of w) !! "HighInterestTripleSlopeModel") model ->
  getAddress (NativeAddress (config_of w)) = Some nat ->
  denotes (SharedConfig (config_of w) !! "WNativeRelayer") relayer ->
  getAddress (FairLaunch_address (config_of w)) = Some fl ->
  accounts (chain w) !! v = Some {| proxy := p; code := CBasicVaultConfig c |} ->
  proxy_admin <$> p <> Some signer ->
  if decide (bvc_owner c = signer /\ (500 <= maxKillBps c)%Z) then
    exists w', h003 w = (w', Ok tt) /\ effects w w' (at_code v (fun _ => CBasicVaultConfig
      {| bvc_owner := signer; minDebtSize := 100 * 10 ^ 18; getReservePoolBps := 1600;
         getCloseBps := 4; getKillBps := 500; bvc_workers := bvc_workers c;
         interestModel := model; wrappedNative := nat; wNativeRelayer := relayer;
         fairLaunch := fl; maxKillBps := maxKillBps c |}))
  else exists e, h003 w = (w, Err e).
Proof.
  intros Hv (sm & Em & Hm) Hn (sr & Er & Hr) Hf Hacc Hp. unfold h003.
  rewrite (bind_run _ _ _ _ _ (get_config_eq w)). rewrite (parseEther_decimal "100" 100) by done.
  cbn [of_option]. rewrite (bind_run (lift (Ok _)) _ _ _ _ eq_refl). cbv zeta. rewrite Em, Er. cbn [js_opt].
  set (args := [JNum _; _; _; _; _; _; _; _]).
  set (vs := [VUint (100 * 10 ^ 18); VUint 1600; VUint 4; VUint 500; VAddress model; VAddress nat;
              VAddress relayer; VAddress fl]).
  assert (coerce_all (m_types m_setParams) args = Ok vs) as Hvs.
  { apply coerce_all_cons; [by apply coerce_num|].
    do 3 (apply coerce_all_cons; [by apply coerce_decimal|]).
    do 4 (apply coerce_all_cons; [by apply coerce_address|]). done. }
  case_decide as Ho.
  - destruct Ho as [Ho Hk].
    eapply (send_own as_BasicVaultConfig CBasicVaultConfig (fun m x => setParams m x (100 * 10 ^ 18) 1600 4 500
      model nat relayer fl) w h003_VAULT_CONFIG_ADDR v p (CBasicVaultConfig c) c _ m_setParams args vs
      Hv Hacc Hp).
    + cbn. in_list.
    + exact Hvs.
    + reflexivity.
    + reflexivity.
    + unfold setParams. rewrite onlyOwner_owner by exact Ho. cbn [mbind result_bind].
      rewrite (proj2 (Z.leb_le _ _)) by exact Hk. cbn [require mbind result_bind]. by rewrite Ho.
  - rewrite (send_method w h003_VAULT_CONFIG_ADDR v _ m_setParams args vs Hv Hacc Hp);
      [|cbn; in_list|exact Hvs].
    cbn [m_run m_setParams vs]. unfold own, get, code_at. cbn [self next_msg]. rewrite Hacc. cbn.
    unfold setParams. destruct (onlyOwner _ _) eqn:Eo; [|by eexists]. cbn.
    apply onlyOwner_Ok in Eo. destruct (500 <=? maxKillBps c)%Z eqn:Ek; [|by eexists].
    exfalso. apply Ho. split; [done|]. by apply Z.leb_le.
Qed.
End Theory.
