(* ===== verification/ValidateTheory.v ===== *)
(** * What the validation scripts accept

    The workers that a script 014 has just deployed pass the checks of
    validate_vaults_config.ts; and what the price oracle answers, on which
    validate_oracles_config.ts depends. *)

From S2P Require Import Prelude Buffers MerkleTree BalanceTree Evm.
From S2P Require Import Timelock TimelockTheory HuskyToken FairLaunch Lending Workers Chain ChainTheory.
From S2P Require Import Script ScriptTheory Effects WorkerScripts CoreScriptTheory PipelineTheory.
From S2P Require Import WorkerTheory WorkerRuns Validate.

Section Theory.
Context `{AbiCoder} `{!OpenZeppelin} `{!Network} `{!EthersNumbers} `{!Selectors} `{!Pancake}.

(** ** View calls *)

Lemma view_eq {A B} (prj : Code -> option A) (f : A -> B) w s a p c x :
  getAddress s = Some a -> accounts (chain w) !! a = Some {| proxy := p; code := c |} ->
  prj c = Some x -> view prj (JStr s) f w = (w, Ok (f x)).
Proof.
  intros Hs Ha Hx. unfold view. cbn [coerce]. rewrite Hs. cbn.
  unfold get, code_at. rewrite Ha. cbn. by rewrite Hx.
Qed.

Lemma expect_true b w : b = true -> expect b w = (w, Ok tt).
Proof. by intros ->. Qed.

Lemma expect_strategy_true w s a p k o b :
  getAddress s = Some a -> accounts (chain w) !! a = Some {| proxy := p; code := CWorker k |} ->
  denotes o b -> okStrats k !! b = Some true -> expect_strategy (JStr s) (js_opt o) w = (w, Ok tt).
Proof.
  intros Hs Ha Ho Hk. unfold expect_strategy. rewrite (coerce_denotes o b Ho).
  rewrite (bind_run (lift (Ok _)) _ _ _ _ eq_refl).
  rewrite (bind_run _ _ _ _ _ (view_eq as_Worker _ w s a p (CWorker k) k Hs Ha eq_refl)).
  by rewrite Hk.
Qed.

(** ** The workers of a vault *)

(** A worker's site and the configuration that names it. *)
Record site_named (j : Json) (v : VaultEntry) (s : WorkerSite) : Prop := {
  sn_vault : getAddress (ve_address v) = Some (ws_vault s);
  sn_vault_lower : toLowerCase (ve_address v) = toLowerCase (ws_vault s);
  sn_base : exists b, ve_baseToken v = Some b /\ toLowerCase b = toLowerCase (ws_base s);
  sn_add : denotes (SharedStrategies j !! "StrategyAddBaseTokenOnly") (ws_add s);
  sn_liq : denotes (SharedStrategies j !! "StrategyLiquidate") (ws_liq s);
  sn_strats : Forall2 denotes
    [SharedStrategies j !! "StrategyPartialCloseLiquidate";
     SharedStrategies j !! "StrategyPartialCloseMinimizeTrading";
     SharedStrategies j !! "StrategyWithdrawMinimizeTrading";
     Some (ve_StrategyAddTwoSidesOptimal v)] (ws_strats s)
}.

Lemma configured_okStrats s id pl b :
  b ∈ ws_all s -> okStrats (configured_worker s id pl) !! b = Some true.
Proof.
  intros Hb. unfold configured_worker. cbn [okStrats with_okStrats]. rewrite set_all_lookup.
  case_decide as Hin; [done|]. cbn [okStrats new_worker].
  unfold ws_all in Hb. apply elem_of_cons in Hb as [->|Hb].
  - destruct (decide (ws_liq s = ws_add s)) as [->|Hne]; [by rewrite lookup_insert_eq|].
    rewrite lookup_insert_ne by done. by rewrite lookup_insert_eq.
  - apply elem_of_cons in Hb as [->|Hb]; [by rewrite lookup_insert_eq|done].
Qed.

Lemma live_validates w j v s e pv vt :
  worker_live (chain w) s (we_pId e) (we_address e) -> getAddress (we_address e) = Some (we_address e) ->
  site_named j v s -> accounts (chain w) !! ws_vault s = Some {| proxy := pv; code := CVault vt |} ->
  token vt = ws_base s -> validate_worker j v e w = (w, Ok tt).
Proof.
  intros [(px & pl & _ & _ & Hk) _ _ _] Ha [Hv Hvl (b & Hb & Hbl) Hadd Hliq Hstr] Hvt Htok.
  set (k := configured_worker s (we_pId e) pl) in *.
  assert (forall B (f : Worker -> B), view as_Worker (JStr (we_address e)) f w = (w, Ok (f k))) as Hview.
  { intros B f. by eapply (view_eq as_Worker). }
  assert (forall o c, denotes o c -> c ∈ ws_all s ->
    expect_strategy (JStr (we_address e)) (js_opt o) w = (w, Ok tt)) as Hok.
  { intros o c Ho Hc. eapply expect_strategy_true; [exact Ha|exact Hk|exact Ho|].
    by apply configured_okStrats. }
  apply Forall2_cons_inv_l in Hstr as (s1 & l1 & D1 & Hstr & E1).
  apply Forall2_cons_inv_l in Hstr as (s2 & l2 & D2 & Hstr & E2).
  apply Forall2_cons_inv_l in Hstr as (s3 & l3 & D3 & Hstr & E3).
  apply Forall2_cons_inv_l in Hstr as (s4 & l4 & D4 & Hstr & E4). subst l1 l2 l3.
  unfold validate_worker. cbv zeta.
  rewrite (bind_run _ _ _ _ _ (Hview _ operator)).
  rewrite (bind_run _ _ _ _ _ (expect_true _ w (bool_decide_eq_true_2 _ Hvl))).
  rewrite Hb. cbn [of_option]. rewrite (bind_run (lift (Ok _)) _ _ _ _ eq_refl).
  rewrite (bind_run _ _ _ _ _ (Hview _ baseToken)).
  rewrite (bind_run _ _ _ _ _ (expect_true _ w (bool_decide_eq_true_2 _ Hbl))).
  rewrite (bind_run _ _ _ _ _ (Hview _ pid)).
  rewrite (bind_run _ _ _ _ _ (expect_true _ w (Z.eqb_refl _))).
  rewrite (bind_run _ _ _ _ _ (view_eq as_Vault token w _ _ _ _ vt Hv Hvt eq_refl)).
  rewrite (bind_run _ _ _ _ _ (expect_true _ w (bool_decide_eq_true_2 _ (eq_sym Htok)))).
  do 2 (rewrite (bind_run _ _ _ _ _ (Hview _ _));
        rewrite (bind_run _ _ _ _ _ (expect_true _ w (Z.eqb_refl _)))).
  unfold ws_all in Hok. rewrite E1 in Hok.
  rewrite (bind_run _ _ _ _ _ (Hok _ _ Hadd ltac:(in_list))).
  rewrite (bind_run _ _ _ _ _ (Hok _ _ Hliq ltac:(in_list))).
  rewrite (bind_run _ _ _ _ _ (Hok _ _ D3 ltac:(in_list))).
  rewrite (bind_run _ _ _ _ _ (Hok _ _ D1 ltac:(in_list))).
  rewrite (bind_run _ _ _ _ _ (Hok _ _ D2 ltac:(in_list))).
  exact (Hok _ _ D4 ltac:(in_list)).
Qed.

Lemma zip_entry_inv ps us e :
  e ∈ zip_with worker_entry ps us -> exists p a, (p, a) ∈ zip ps us /\ e = worker_entry p a.
Proof.
  intros Hin. rewrite zip_with_zip in Hin. apply list_elem_of_fmap in Hin as ([p a] & -> & Hin).
  by exists p, a.
Qed.

(** C26: what is deployed validates.  Under the conditions of the worker scripts 014-2 to
    014-8, and when the recorded vault and base token are those of a vault for that token,
    the script finishes, appends one entry per row to the vault's workers, and on each of
    these entries all twelve comparisons of validate_vaults_config.ts succeed. *)
Theorem deployed_workers_validate sc i BASE rows w s v b pv vt :
  (sc, i, BASE, rows) ∈ worker_scripts -> workers_pre w i BASE s v -> room w (2 * length rows) ->
  (forall r, r ∈ rows -> exists pl, pool_listed s (row_id r) pl) ->
  toLowerCase (ve_address v) = toLowerCase (ws_vault s) ->
  ve_baseToken v = Some b -> toLowerCase b = toLowerCase (ws_base s) ->
  accounts (chain w) !! ws_vault s = Some {| proxy := pv; code := CVault vt |} ->
  token vt = ws_base s -> settled w (ws_vault s) ->
  exists w' v' es, sc w = (w', Ok tt) /\ Vaults (config_of w') !! i = Some v' /\
    ve_workers v' = ve_workers v ++ es /\ length es = length rows /\
    forall e, e ∈ es -> validate_worker (config_of w') v' e w' = (w', Ok tt).
Proof.
  intros Hsc Hpre Hroom Hpools Hvl Hb Hbl Hvt Htok Hset.
  assert (ws_vault s ∉ site_addrs s) as Hnot.
  { intros Hin. destruct (wp_ready _ _ _ _ _ Hpre) as [Hst (c & q & Hc & _) (c' & q' & Hc' & _)].
    unfold site_addrs in Hin. apply elem_of_cons in Hin as [E|Hin]; [by rewrite <-E, Hvt in Hc|].
    apply elem_of_cons in Hin as [E|Hin]; [by rewrite <-E, Hvt in Hc'|].
    destruct (Hst _ Hin) as (st & q2 & Hc2 & _). by rewrite Hvt in Hc2. }
  destruct (workers_run sc i BASE rows w s v Hsc Hpre Hroom Hpools)
    as (w' & us & Hr & _ & Hus & Hlive & Hj & _ & _ & Hrest).
  set (ps := worker_params (config_of w) v BASE <$> rows) in *.
  exists w', (with_workers (zip_with worker_entry ps us) v), (zip_with worker_entry ps us).
  split; [exact Hr|]. split; [|split; [done|split]].
  - rewrite Hj. cbn [Vaults with_Vaults]. by rewrite list_lookup_alter_eq, (wp_entry _ _ _ _ _ Hpre).
  - rewrite length_zip_with, <-(Forall2_length _ _ _ Hlive). unfold ps. rewrite length_fmap. lia.
  - intros e (p & a & Hin & ->)%zip_entry_inv.
    assert (getAddress a = Some a) as Ha.
    { rewrite Forall_forall in Hus. apply Hus. apply list_elem_of_In.
      apply list_elem_of_In in Hin. by apply in_combine_r in Hin. }
    assert (worker_live (chain w') (site_for s p) (wp_POOL_ID p) a) as Hl.
    { apply list_elem_of_lookup in Hin as [k Hk]. rewrite lookup_zip_with in Hk.
      destruct (ps !! k) as [p'|] eqn:Ep; [|done]. destruct (us !! k) as [a'|] eqn:Ea; [|done].
      injection Hk as -> ->. exact (Forall2_lookup_lr _ _ _ _ _ _ Hlive Ep Ea). }
    eapply (live_validates w' _ _ (site_for s p) (worker_entry p a) pv vt); [exact Hl|exact Ha| | |exact Htok].
    + rewrite Hj. destruct Hpre. split; try done. by exists b.
    + rewrite Hrest; [exact Hvt|exact Hset|exact Hnot].
Qed.

(** ** Prices *)

(** The last price a feed gives for a pair. *)
Fixpoint fed (t0 t1 : address) (l : list (address * address * Z)) : option Z :=
  match l with
  | [] => None
  | (a0, a1, p) :: l =>
      match fed t0 t1 l with
      | Some p => Some p
      | None => if bool_decide (a0 = t0 /\ a1 = t1) then Some p else None
      end
  end.

Definition price_entry (m : Msg) (p : Z) : PriceData :=
  {| price := (p mod 2 ^ 192)%Z; lastUpdate := (timestamp (block m) mod 2 ^ 64)%Z |}.

Lemma fold_prices_lookup (m : Msg) (l : list (address * address * Z)) (st : gmap (address * address) PriceData)
    (t0 t1 : address) :
  foldl (fun (st : gmap (address * address) PriceData) (tp : address * address * Z) =>
    <[ (tp.1.1, tp.1.2) := price_entry m tp.2 ]> st) st l !! (t0, t1)
  = match fed t0 t1 l with Some p => Some (price_entry m p) | None => st !! (t0, t1) end.
Proof.
  revert st. induction l as [|[[a0 a1] p] l IH]; intros st; [done|]. cbn [foldl fst snd fed].
  rewrite IH. destruct (fed t0 t1 l); [done|]. case_bool_decide as E.
  - destruct E as [-> ->]. by rewrite lookup_insert_eq.
  - rewrite lookup_insert_ne; [done|]. intros [= -> ->]. by apply E.
Qed.

(** What the oracle answers after a feed.  A feed that succeeds has made every pair it
    names answer the last price it was given, truncated to 192 bits, with the time of the
    feed; a price that is a multiple of 2^192 -- zero or an overflowing one -- makes the
    pair answer nothing at all; and every other pair answers as before. *)
Theorem prices_fed m o t0s t1s ps o' t0 t1 :
  setPrices m o t0s t1s ps = Ok o' -> (0 < timestamp (block m) < 2 ^ 64)%Z ->
  match fed t0 t1 (zip (zip t0s t1s) ps) with
  | Some p =>
      if decide (p mod 2 ^ 192 = 0)%Z then is_ok (getPrice o' t0 t1) = false
      else getPrice o' t0 t1 = Ok ((p mod 2 ^ 192)%Z, timestamp (block m))
  | None => getPrice o' t0 t1 = getPrice o t0 t1
  end.
Proof.
  intros Hs Ht. unfold setPrices in Hs. inv_result. subst o'. unfold getPrice. cbn [store].
  change (fun st tp => <[ (tp.1.1, tp.1.2) := {| price := (tp.2 mod 2 ^ 192)%Z;
    lastUpdate := (timestamp (block m) mod 2 ^ 64)%Z |} ]> st)
    with (fun (st : gmap (address * address) PriceData) (tp : address * address * Z) => <[ (tp.1.1, tp.1.2) := price_entry m tp.2 ]> st).
  rewrite fold_prices_lookup. destruct (fed t0 t1 _) as [p|]; [|done].
  unfold price_entry. cbn [from_option id price lastUpdate].
  rewrite (Z.mod_small (timestamp (block m))) by lia.
  rewrite (proj2 (Z.eqb_neq (timestamp (block m)) 0)) by lia.
  destruct (decide (p mod 2 ^ 192 = 0)%Z) as [Hz|Hz]; [by rewrite Hz|]. by rewrite (proj2 (Z.eqb_neq _ 0)).
Qed.

(** The price line of a pair: the second of its tokens in terms of the first. *)
Definition lp_price (o : SimplePriceOracle) (lp : LpEntry) : option (string * (Z * Z)) :=
  a ← getAddress (lp_address lp);
  t0 ← pair_token0 a;
  t1 ← pair_token1 a;
  match getPrice o t1 t0 with Ok r => Some (lp_name lp, r) | Err _ => None end.

Definition price_line (config : Json) (lp : LpEntry) : script (string * (Z * Z)) :=
  ts ← pair_tokens lp; queryOraclePrice config (lp_name lp) ts.2 ts.1.

Lemma price_line_spec w oa p o lp :
  denotes (Oracle (config_of w) !! "SimpleOracle") oa ->
  accounts (chain w) !! oa = Some {| proxy := p; code := CSimplePriceOracle o |} ->
  match lp_price o lp with
  | Some r => price_line (config_of w) lp w = (w, Ok r)
  | None => exists e, price_line (config_of w) lp w = (w, Err e)
  end.
Proof.
  intros (so & Eo & Hso) Ha.
  assert (view as_SimplePriceOracle (js_opt (Oracle (config_of w) !! "SimpleOracle"))
    (fun o => getPrice o) w = (w, Ok (getPrice o))) as Hview.
  { rewrite Eo. by eapply (view_eq as_SimplePriceOracle (fun o => getPrice o)). }
  unfold view in Hview. unfold lp_price, price_line, pair_tokens, queryOraclePrice, view, lift, ask.
  unfold mbind, option_bind, script_bind, mret, script_ret. cbn [coerce of_option].
  destruct (getAddress (lp_address lp)) as [a|]; cbn; [|by eexists].
  destruct (pair_token0 a) as [t0|]; cbn; [|by eexists].
  destruct (pair_token1 a) as [t1|]; cbn; [|by eexists].
  destruct (coerce TAddress (js_opt (Oracle (config_of w) !! "SimpleOracle"))) as [[b| | | | | |]|]; try done.
  destruct (get as_SimplePriceOracle (chain w) b) as [o'|]; [|done].
  injection Hview as Hview. rewrite <-Hview. destruct (getPrice o' t1 t0); [done|by eexists].
Qed.

Lemma mapM_lines (f : LpEntry -> script (string * (Z * Z))) (g : LpEntry -> option (string * (Z * Z))) w l :
  (forall lp, match g lp with Some r => f lp w = (w, Ok r) | None => exists e, f lp w = (w, Err e) end) ->
  match mapM g l with
  | Some rs => mapM f l w = (w, Ok rs)
  | None => exists e, mapM f l w = (w, Err e)
  end.
Proof.
  intros Hf. induction l as [|lp l IH]; [done|]. cbn. specialize (Hf lp).
  destruct (g lp) as [r|]; cbn.
  - rewrite (bind_run _ _ _ _ _ Hf). destruct (mapM g l) as [rs|]; cbn.
    + by rewrite (bind_run _ _ _ _ _ IH).
    + destruct IH as [e He]. exists e. by erewrite bind_throw.
  - destruct Hf as [e He]. exists e. by erewrite bind_throw.
Qed.

(** Validating the oracle.  Against an oracle that the configuration names, the script
    changes nothing; it finishes exactly when every listed pair is a pair whose second
    token is priced in its first, and then reports these prices in the order of the list;
    otherwise it throws. *)
Theorem oracles_validate w oa p o :
  denotes (Oracle (config_of w) !! "SimpleOracle") oa ->
  accounts (chain w) !! oa = Some {| proxy := p; code := CSimplePriceOracle o |} ->
  match mapM (lp_price o) (LpTokens (config_of w)) with
  | Some lines => validate_oracles w = (w, Ok lines)
  | None => exists e, validate_oracles w = (w, Err e)
  end.
Proof.
  intros Ho Ha. unfold validate_oracles. rewrite (bind_run _ _ _ _ _ (get_config_eq w)).
  apply mapM_lines. intros lp. by eapply price_line_spec.
Qed.
End Theory.
