(* ===== verification/VaultScriptTheory.v ===== *)
(** * Deploying a vault

    The functional behaviour of scripts 011-1 to 011-8: the contracts they create and
    wire together and the records they leave, and how they fail when the base token is
    not in the configuration. *)

From S2P Require Import Prelude Buffers MerkleTree BalanceTree Evm.
From S2P Require Import Timelock TimelockTheory HuskyToken FairLaunch FairLaunchTheory.
From S2P Require Import Lending Workers Chain ChainTheory.
From S2P Require Import Script ScriptTheory VaultScripts CoreScriptTheory PipelineTheory.

Section Theory.
Context `{AbiCoder} `{!OpenZeppelin} `{!Network} `{!EthersNumbers} `{!Selectors}.

(** ** The final loop *)

Section Record_loop.
Variables NAME SYMBOL vault debt : string.
Variable BASE : option string.

(** What the loop does to one entry. *)
Definition record_entry (e : VaultEntry) : VaultEntry :=
  if bool_decide (ve_symbol e = SYMBOL) then recorded NAME SYMBOL vault debt BASE e else e.

(** The same chain, with the configuration's vaults replaced. *)
Definition vaults_world (w w' : World) (vs : list VaultEntry) : Prop :=
  chain w' = chain w /\ height w' = height w /\ creations w' = creations w /\
  console w' = console w /\ config_of w' = with_Vaults (config_of w) vs.

Lemma record_loop rest : forall before w0 w,
  vaults_world w0 w ((record_entry <$> before) ++ rest) ->
  (Exists (fun e => ve_symbol e = SYMBOL) before -> files w !! network_name = Some (config_of w)) ->
  exists w',
    for_each (fun i =>
      config ← get_config;
      match Vaults config !! i with
      | Some v =>
          if bool_decide (ve_symbol v = SYMBOL) then
            set_config (with_Vaults config
              (<[ i := recorded NAME SYMBOL vault debt BASE v ]> (Vaults config))) ;;
            save_config
          else mret tt
      | None => mret tt
      end) (seq (length before) (length rest)) w = (w', Ok tt) /\
    vaults_world w0 w' (record_entry <$> before ++ rest) /\
    (Exists (fun e => ve_symbol e = SYMBOL) (before ++ rest) ->
     files w' !! network_name = Some (config_of w')).
Proof.
  induction rest as [|e rest IH]; intros before w0 w Hw Hf.
  { exists w. rewrite !app_nil_r in *. done. }
  cbn [length seq for_each].
  assert (length (record_entry <$> before) = length before) as Hlen by apply length_fmap.
  assert (Vaults (config_of w) !! length before = Some e) as Hi.
  { destruct Hw as (_ & _ & _ & _ & ->). cbn. rewrite lookup_app_r by lia. by rewrite Hlen, Nat.sub_diag. }
  assert (exists w1, (config ← get_config;
      match Vaults config !! length before with
      | Some v =>
          if bool_decide (ve_symbol v = SYMBOL) then
            set_config (with_Vaults config
              (<[ length before := recorded NAME SYMBOL vault debt BASE v ]> (Vaults config))) ;;
            save_config
          else mret tt
      | None => mret tt
      end) w = (w1, Ok tt) /\ vaults_world w0 w1 ((record_entry <$> before ++ [e]) ++ rest) /\
      (Exists (fun e => ve_symbol e = SYMBOL) (before ++ [e]) ->
       files w1 !! network_name = Some (config_of w1))) as (w1 & Hrun & Hw1 & Hf1).
  { rewrite (bind_run _ _ _ _ _ (get_config_eq w)), Hi. rewrite fmap_app. cbn [fmap list_fmap].
    unfold record_entry at 2. case_bool_decide as E.
    - eexists. split; [apply save_eq|]. split.
      + destruct Hw as (H1' & H2' & H3' & H4' & Hj). split_and!; try done.
        rewrite config_of_saved, Hj. cbn. rewrite insert_app_r_alt by lia.
        rewrite Hlen, Nat.sub_diag. cbn. by rewrite <-app_assoc.
      + intros _. rewrite config_of_saved. apply lookup_insert_eq.
    - exists w. split; [done|]. split; [by rewrite <-app_assoc|].
      intros [?|Hx]%Exists_app; [by apply Hf|]. apply Exists_cons in Hx as [?|Hx]; [done|].
      by apply Exists_nil in Hx. }
  rewrite (bind_run _ _ _ _ _ Hrun).
  destruct (IH (before ++ [e]) w0 w1 Hw1 Hf1) as (w' & Hrest & Hw' & Hf').
  exists w'. rewrite length_app, Nat.add_1_r in Hrest. rewrite <-!app_assoc in *. done.
Qed.

Lemma record_vault_run w :
  Exists (fun e => ve_symbol e = SYMBOL) (Vaults (config_of w)) ->
  exists w', record_vault NAME SYMBOL vault debt BASE w = (w', Ok tt) /\
    vaults_world w w' (record_entry <$> Vaults (config_of w)) /\
    files w' !! network_name = Some (config_of w').
Proof.
  intros Hex. unfold record_vault. rewrite (bind_run _ _ _ _ _ (get_config_eq w)).
  destruct (record_loop (Vaults (config_of w)) [] w w) as (w' & Hr & Hw & Hf).
  - split_and!; try done. by destruct (config_of w).
  - by intros ?%Exists_nil.
  - exists w'. split; [exact Hr|]. split; [exact Hw|by apply Hf].
Qed.
End Record_loop.

(** ** Before and after *)

(** What the configuration names, and the contracts found there. *)
Record Site := {
  at_entry : VaultEntry;
  at_base : string;
  at_base_address : address;
  at_timelock : address;
  at_fl : address;
  at_relayer : string;
  at_relayer_address : address;
  at_cfg : address;
  fl_proxy : option Proxy;
  relayer_proxy : option Proxy;
  cfg_proxy : option Proxy;
  the_fairLaunch : FairLaunch;
  the_relayer : WNativeRelayer;
  the_config : BasicVaultConfig
}.

(** What script 011 finds: the entry of its vault configuration, the contracts the
    configuration names, owned by the deployer, and nothing staked yet. *)
Record vault_pre (w : World) (vaultIndex : nat) (BASE : string) (AD AO : Z) (s : Site) : Prop := {
  pre_room : room w 4;
  pre_entry : Vaults (config_of w) !! vaultIndex = Some (at_entry s);
  pre_base : Tokens_of (config_of w) !! BASE = Some (at_base s);
  pre_base_ok : getAddress (at_base s) = Some (at_base_address s);
  pre_timelock : getAddress (js_Timelock (config_of w)) = Some (at_timelock s);
  pre_fl : getAddress (FairLaunch_address (config_of w)) = Some (at_fl s);
  pre_relayer : SharedConfig (config_of w) !! "WNativeRelayer" = Some (at_relayer s);
  pre_relayer_ok : getAddress (at_relayer s) = Some (at_relayer_address s);
  pre_cfg : getAddress (ve_config (at_entry s)) = Some (at_cfg s);
  pre_settled : forall a, a ∈ [at_fl s; at_relayer_address s; at_cfg s] -> settled w a;
  pre_fl_at : accounts (chain w) !! at_fl s
    = Some {| proxy := fl_proxy s; code := CFairLaunch (the_fairLaunch s) |};
  pre_relayer_at : accounts (chain w) !! at_relayer_address s
    = Some {| proxy := relayer_proxy s; code := CWNativeRelayer (the_relayer s) |};
  pre_cfg_at : accounts (chain w) !! at_cfg s
    = Some {| proxy := cfg_proxy s; code := CBasicVaultConfig (the_config s) |};
  pre_admin : forall p, p ∈ [fl_proxy s; relayer_proxy s] -> proxy_admin <$> p <> Some signer;
  pre_fl_owner : fl_owner (the_fairLaunch s) = signer;
  pre_relayer_owner : wnr_owner (the_relayer s) = signer;
  pre_cfg_fl : fairLaunch (the_config s) = at_fl s;
  pre_fl_nonzero : at_fl s <> zero_address;
  pre_idle : idle (at_fl s) (chain w) (poolInfo (the_fairLaunch s));
  pre_tokens : forall p, p ∈ poolInfo (the_fairLaunch s) -> settled w (stakeToken p);
  pre_pools : uint256 (Z.of_nat (length (poolInfo (the_fairLaunch s))));
  pre_alloc : uint256 (totalAllocPoint (the_fairLaunch s)) /\ uint256 AO /\ uint256 AD;
  pre_total : (totalAllocPoint (the_fairLaunch s) + AO + AD < UINT256)%Z
}.

Definition debt_address (w : World) : address := proxy_address w.
Definition vault_address (w : World) : address := created (S (S (S (creations w)))).

(** What it leaves: the two contracts, wired to each other and to FairLaunch, the pools,
    the relayer and the records.  [n1] and [n2] are the blocks of the two [addPool]s. *)
Record vault_post (w w' : World) (NAME : string) (AD AO : Z) (s : Site) : Prop := {
  post_debt : exists D,
    accounts (chain w') !! debt_address w = Some {| proxy := Some (new_proxy w); code := CDebtToken D |} /\
    dt_owner D = vault_address w /\ timelock D = at_timelock s /\
    dt_name D = "debt" +:+ ve_symbol (at_entry s) +:+ "_V2" /\ dt_symbol D = dt_name D /\
    (forall a, okHolders D !! a = if decide (a ∈ [vault_address w; at_fl s]) then Some true else None) /\
    (forall a, erc20_balanceOf (dt_erc20 D) a = 0%Z) /\
    erc20_allowance (dt_erc20 D) (vault_address w) (at_fl s) = MAX_UINT256;
  post_vault : exists V p,
    accounts (chain w') !! vault_address w = Some {| proxy := Some p; code := CVault V |} /\
    proxy_admin p = proxyAdmin /\ v_owner V = signer /\ v_name V = NAME /\
    v_symbol V = ve_symbol (at_entry s) /\ v_decimals V = 18%Z /\ token V = at_base_address s /\
    debtToken V = debt_address w /\ config V = at_cfg s /\
    fairLaunchPoolId V = Z.of_nat (length (poolInfo (the_fairLaunch s)));
  post_fairLaunch :
    let F := the_fairLaunch s in
    let n1 := number (mined (6 + height w)) in let n2 := number (mined (8 + height w)) in
    accounts (chain w') !! at_fl s = Some {| proxy := fl_proxy s; code := CFairLaunch
      (with_pools F
         ((touch n2 <$> ((touch n1 <$> poolInfo F)
             ++ [new_pool F n1 ("debt" +:+ ve_symbol (at_entry s)) AO (debt_address w)]))
          ++ [new_pool F n2 (ve_symbol (at_entry s)) AD (vault_address w)])
         (totalAllocPoint F + AO + AD) (lastMultiplier F)) |};
  post_relayer : exists R,
    accounts (chain w') !! at_relayer_address s
      = Some {| proxy := relayer_proxy s; code := CWNativeRelayer R |} /\
    wnr_owner R = signer /\ okCallers R = <[ vault_address w := true ]> (okCallers (the_relayer s));
  post_rest : forall a, settled w a -> a <> at_fl s -> a <> at_relayer_address s ->
    accounts (chain w') !! a = accounts (chain w) !! a;
  post_config :
    let pid := Z.of_nat (length (poolInfo (the_fairLaunch s))) in
    let j := config_of w in
    config_of w' = with_Vaults (with_FairLaunch j (FairLaunch_address j)
      (FairLaunch_pools j ++
        [{| pe_id := pid; pe_stakingToken := "debt" +:+ ve_symbol (at_entry s);
            pe_address := debt_address w |};
         {| pe_id := pid + 1; pe_stakingToken := ve_symbol (at_entry s);
            pe_address := vault_address w |}]))
      (record_entry NAME (ve_symbol (at_entry s)) (vault_address w) (debt_address w)
         (Some (at_base s)) <$> Vaults j);
  post_file : files w' !! network_name = Some (config_of w')
}.

(** The debt token with the vault and FairLaunch allowed to hold it. *)
Definition with_okHolders (v fl : address) (D : DebtToken) : DebtToken :=
  {| dt_owner := dt_owner D; dt_erc20 := dt_erc20 D; dt_name := dt_name D;
     dt_symbol := dt_symbol D; timelock := timelock D;
     okHolders := set_all (okHolders D) [v; fl] true |}.

(** The debt token's deployment. *)
Lemma deploy_debt_eq w nm tls tl :
  getAddress tls = Some tl ->
  let D := DebtToken_initialize (creating (with_impl w) (debt_address w)) nm nm tl in
  deployProxy (with_args [TString; TString; TAddress] [JStr nm; JStr nm; JStr tls] init_debtToken) w
  = (with_contract (with_impl w) (Some (new_proxy w)) (CDebtToken D), Ok (debt_address w)).
Proof.
  intros Htl D. eapply deployProxy_eq.
  - do 2 (apply coerce_all_cons; [done|]). apply coerce_all_cons; [by apply coerce_address|done].
  - reflexivity.
Qed.

(** A proxy that stays while the next implementation is deployed. *)
Lemma proxy_account_impl w p c :
  room w 3 ->
  let w1 := with_contract (with_impl w) p c in
  accounts (chain (with_impl w1)) !! proxy_address w = Some {| proxy := p; code := c |}.
Proof.
  intros Hroom w1. unfold room in Hroom.
  destruct (kept_created w1 {| proxy := None; code := CLogic |}) as [_ K]; [unfold room; cbn; lia|].
  unfold with_impl. rewrite K; [apply proxy_account|]. apply settled_created; cbn; lia.
Qed.

Section Run.
Variables (w : World) (vaultIndex : nat) (NAME BASE : string) (AD AO : Z) (s : Site).
Hypothesis P : vault_pre w vaultIndex BASE AD AO s.

Lemma debt_new : ~ settled w (debt_address w).
Proof.
  pose proof (pre_room _ _ _ _ _ _ P) as Hr. unfold room in Hr.
  intros Hs. apply (Hs (S (creations w))); [lia|done].
Qed.

Lemma vault_new : ~ settled w (vault_address w).
Proof.
  pose proof (pre_room _ _ _ _ _ _ P) as Hr. unfold room in Hr.
  intros Hs. apply (Hs (S (S (S (creations w))))); [lia|done].
Qed.

Lemma vault_distinct :
  NoDup [debt_address w; vault_address w; at_fl s; at_relayer_address s; at_cfg s].
Proof.
  pose proof (pre_fl_at _ _ _ _ _ _ P) as Hfl. pose proof (pre_relayer_at _ _ _ _ _ _ P) as Hr.
  pose proof (pre_cfg_at _ _ _ _ _ _ P) as Hc. pose proof debt_new. pose proof vault_new.
  pose proof (pre_room _ _ _ _ _ _ P) as Hroom. unfold room in Hroom.
  assert (debt_address w <> vault_address w) by (apply created_neq; lia).
  assert (forall a, a ∈ [at_fl s; at_relayer_address s; at_cfg s] ->
    debt_address w <> a /\ vault_address w <> a).
  { intros a Ha. pose proof (pre_settled _ _ _ _ _ _ P a Ha). by split; intros <-. }
  assert (at_fl s <> at_relayer_address s) by congruence.
  assert (at_fl s <> at_cfg s) by congruence.
  assert (at_relayer_address s <> at_cfg s) by congruence.
  repeat constructor; set_solver.
Qed.

Let SYMBOL := ve_symbol (at_entry s).
Let debtSYMBOL := "debt" +:+ SYMBOL.
Let d := debt_address w.
Let v := vault_address w.

Let D0 : DebtToken :=
  DebtToken_initialize (creating (with_impl w) d) (debtSYMBOL +:+ "_V2") (debtSYMBOL +:+ "_V2")
    (at_timelock s).

Let w1 : World := with_contract (with_impl w) (Some (new_proxy w)) (CDebtToken D0).

Let V0 : Vault :=
  new_Vault (creating (with_impl w1) v) (at_cfg s) (at_base_address s) NAME SYMBOL 18 d.

Lemma run_deploy_debt :
  deployProxy (with_args [TString; TString; TAddress]
    [JStr (debtSYMBOL +:+ "_V2"); JStr (debtSYMBOL +:+ "_V2"); JStr (js_Timelock (config_of w))]
    init_debtToken) w = (w1, Ok d).
Proof. apply deploy_debt_eq, (pre_timelock _ _ _ _ _ _ P). Qed.

(** The world once both contracts exist, the debt token approved for FairLaunch. *)
Let w2 (t : Erc20) : World :=
  with_created (with_impl w1)
    (set_account (set_code (chain (with_impl w1)) d (CDebtToken (with_dt_erc20 D0 t))) v
       {| proxy := Some (new_proxy w1); code := CVault V0 |}).

Lemma settled_kept a : settled w a ->
  accounts (chain (with_impl w1)) !! a = accounts (chain w) !! a.
Proof.
  intros Ha. pose proof (pre_room _ _ _ _ _ _ P) as Hr. unfold room in Hr.
  destruct (kept_trans w w1 (with_impl w1)) as [_ K];
    [apply kept_proxy; unfold room; lia|apply kept_created; unfold room; cbn; lia|]. by apply K.
Qed.

Lemma w1_debt : accounts (chain (with_impl w1)) !! d
  = Some {| proxy := Some (new_proxy w); code := CDebtToken D0 |}.
Proof.
  apply proxy_account_impl. pose proof (pre_room _ _ _ _ _ _ P). unfold room in *. lia.
Qed.

Let fl := at_fl s.
Let r := at_relayer_address s.
Let cfg := at_cfg s.
Let pd := Some (new_proxy w).
Let pv := Some (new_proxy w1).
Let pf := fl_proxy s.
Let pr := relayer_proxy s.
Let pc := cfg_proxy s.
Let C := the_config s.
Let fls := FairLaunch_address (config_of w).
Let rs := at_relayer s.

Lemma d_new : ~ settled w d.
Proof. exact debt_new. Qed.

Lemma v_new : ~ settled w v.
Proof. exact vault_new. Qed.

Lemma d_ok : getAddress d = Some d.
Proof. apply created_ok. Qed.

Lemma v_ok : getAddress v = Some v.
Proof. apply created_ok. Qed.

Lemma fl_ok : getAddress fls = Some fl.
Proof. apply (pre_fl _ _ _ _ _ _ P). Qed.

Lemma r_ok : getAddress rs = Some r.
Proof. apply (pre_relayer_ok _ _ _ _ _ _ P). Qed.

Lemma v_nonzero : v <> zero_address.
Proof. apply created_nonzero. Qed.

Lemma no_admin p : p ∈ [pd; pv; pf; pr] -> proxy_admin <$> p <> Some signer.
Proof.
  intros [->|[->|Hp]%elem_of_cons]%elem_of_cons; [| |by apply (pre_admin _ _ _ _ _ _ P)];
    cbn; intros [= E]; by apply signer_proxyAdmin.
Qed.

(** The five accounts on the chain of [x]; the other contracts of [w] are as they were. *)
Record scene (x : World) (D : DebtToken) (V : Vault) (F : FairLaunch) (R : WNativeRelayer) : Prop := {
  sc_debt : accounts (chain x) !! d = Some {| proxy := pd; code := CDebtToken D |};
  sc_vault : accounts (chain x) !! v = Some {| proxy := pv; code := CVault V |};
  sc_fl : accounts (chain x) !! fl = Some {| proxy := pf; code := CFairLaunch F |};
  sc_relayer : accounts (chain x) !! r = Some {| proxy := pr; code := CWNativeRelayer R |};
  sc_cfg : accounts (chain x) !! cfg = Some {| proxy := pc; code := CBasicVaultConfig C |};
  sc_rest : forall a, settled w a -> a <> fl -> a <> r ->
    accounts (chain x) !! a = accounts (chain w) !! a
}.

Lemma scene_neqs : d <> v /\ d <> fl /\ d <> r /\ d <> cfg /\ v <> fl /\ v <> r /\ v <> cfg /\
  fl <> r /\ fl <> cfg /\ r <> cfg.
Proof. pose proof vault_distinct as Hd. repeat (apply NoDup_cons in Hd as [? Hd]). set_solver. Qed.

Ltac scene_update :=
  intros []; pose proof d_new; pose proof v_new; pose proof scene_neqs as (? & ? & ? & ? & ? & ? & ? & ? & ? & ?);
  constructor; cbn; intros;
  repeat (rewrite lookup_insert_eq || rewrite lookup_insert_ne by (done || by intros <-));
  repeat match goal with E : _ = Some _ |- _ => rewrite E end; by auto.

Lemma scene_debt x D V F R D' :
  scene x D V F R -> scene (with_chain x (set_code (chain x) d (CDebtToken D'))) D' V F R.
Proof. scene_update. Qed.

Lemma scene_vault x D V F R V' :
  scene x D V F R -> scene (with_chain x (set_code (chain x) v (CVault V'))) D V' F R.
Proof. scene_update. Qed.

Lemma scene_fl x D V F R F' :
  scene x D V F R -> scene (with_chain x (set_code (chain x) fl (CFairLaunch F'))) D V F' R.
Proof. scene_update. Qed.

Lemma scene_relayer x D V F R R' :
  scene x D V F R -> scene (with_chain x (set_code (chain x) r (CWNativeRelayer R'))) D V F R'.
Proof. scene_update. Qed.

Lemma scene_pool x D V F R D' V' :
  scene x D V F R ->
  scene (with_chain x (set_code (set_code (chain x) d (CDebtToken D')) v (CVault V'))) D' V' F R.
Proof. scene_update. Qed.

(** *** The transactions of the script, one by one *)

Lemma run_setOkHolders x D V F R :
  scene x D V F R -> dt_owner D = signer ->
  send (JStr d) "setOkHolders(address[],bool)" [TArray TAddress; TBool]
    [JArr [JStr v; JStr fls]; JBool true] x
  = (with_chain x (set_code (chain x) d (CDebtToken (with_okHolders v fl D))), Ok tt).
Proof.
  intros Hs Hown.
  assert (coerce_all [TArray TAddress; TBool] [JArr [JStr v; JStr fls]; JBool true]
    = Ok [VArray [VAddress v; VAddress fl]; VBool true]) as Hvs.
  { apply coerce_all_cons; [|done].
    apply (coerce_addresses [v; fls] [v; fl]).
    constructor; [exact v_ok|constructor; [exact fl_ok|constructor]]. }
  rewrite (send_method x d d _ m_setOkHolders _ [VArray [VAddress v; VAddress fl]; VBool true]
    d_ok (sc_debt _ _ _ _ _ Hs)); [|apply no_admin; in_list|cbn; in_list|exact Hvs].
  cbn [m_run m_setOkHolders]. unfold own, get, code_at. cbn [self next_msg].
  rewrite (sc_debt _ _ _ _ _ Hs). cbn. unfold setOkHolders. by rewrite onlyOwner_owner.
Qed.

Lemma run_transferOwnership x D V F R :
  scene x D V F R -> dt_owner D = signer ->
  send (JStr d) "transferOwnership(address)" [TAddress] [JStr v] x
  = (with_chain x (set_code (chain x) d (CDebtToken (with_dt_owner D v))), Ok tt).
Proof.
  intros Hs Hown.
  assert (coerce_all [TAddress] [JStr v] = Ok [VAddress v]) as Hvs
    by (apply coerce_all_cons; [apply coerce_address, v_ok|done]).
  rewrite (send_method x d d _ m_transferOwnership _ [VAddress v] d_ok (sc_debt _ _ _ _ _ Hs));
    [|apply no_admin; in_list|cbn; in_list|exact Hvs].
  cbn [m_run m_transferOwnership]. unfold code_at. cbn [self next_msg].
  rewrite (sc_debt _ _ _ _ _ Hs). cbn. unfold transferOwnership. rewrite onlyOwner_owner by done.
  cbn. rewrite bool_decide_eq_true_2; [done|apply v_nonzero].
Qed.

Lemma run_addPool x D V F R sym alloc tok :
  scene x D V F R -> fl_owner F = signer -> getAddress tok = Some tok -> tok <> zero_address ->
  idle fl (chain x) (poolInfo F) -> tok ∉ stakeToken <$> poolInfo F ->
  uint256 (totalAllocPoint F) -> uint256 alloc -> (totalAllocPoint F + alloc < UINT256)%Z ->
  let n := number (mined (height x)) in
  send (JStr fls) "addPool(string,uint256,address,bool)" [TString; TUint 256; TAddress; TBool]
    [JStr sym; JNum alloc; JStr tok; JBool true] x
  = (with_chain x (set_code (chain x) fl (CFairLaunch
       (with_pools F ((touch n <$> poolInfo F) ++ [new_pool F n sym alloc tok])
          (totalAllocPoint F + alloc) (lastMultiplier F)))), Ok tt).
Proof.
  intros Hs Hown Htok Hz Hidle Hnew Ht Ha Hlt n.
  assert (coerce_all [TString; TUint 256; TAddress; TBool]
    [JStr sym; JNum alloc; JStr tok; JBool true]
    = Ok [VString sym; VUint alloc; VAddress tok; VBool true]) as Hvs.
  { apply coerce_all_cons; [done|]. apply coerce_all_cons; [by apply coerce_num|].
    apply coerce_all_cons; [by apply coerce_address|done]. }
  rewrite (send_method x fls fl _ m_addPool _ [VString sym; VUint alloc; VAddress tok; VBool true]
    fl_ok (sc_fl _ _ _ _ _ Hs)); [|apply no_admin; in_list|cbn; in_list|exact Hvs].
  cbn [m_run m_addPool]. unfold on_FairLaunch, get, code_at. cbn [self next_msg].
  rewrite (sc_fl _ _ _ _ _ Hs). cbn [fmap option_fmap option_map code of_option mbind option_bind
    as_FairLaunch result_bind].
  by rewrite addPool_idle.
Qed.

Lemma run_poolLength x D V F R :
  scene x D V F R -> view as_FairLaunch (JStr fls) poolLength x = (x, Ok (poolLength F)).
Proof.
  intros Hs. unfold view. rewrite (coerce_address _ _ fl_ok). unfold get, code_at.
  by rewrite (sc_fl _ _ _ _ _ Hs).
Qed.

Lemma run_setCallerOk x D V F R :
  scene x D V F R -> wnr_owner R = signer ->
  send (JStr rs) "setCallerOk(address[],bool)" [TArray TAddress; TBool]
    [JArr [JStr v]; JBool true] x
  = (with_chain x (set_code (chain x) r (CWNativeRelayer
       {| wnr_owner := wnr_owner R; wnative := wnative R;
          okCallers := set_all (okCallers R) [v] true |})), Ok tt).
Proof.
  intros Hs Hown.
  assert (coerce_all [TArray TAddress; TBool] [JArr [JStr v]; JBool true]
    = Ok [VArray [VAddress v]; VBool true]) as Hvs.
  { apply coerce_all_cons; [|done]. apply (coerce_addresses [v] [v]).
    constructor; [exact v_ok|constructor]. }
  rewrite (send_method x rs r _ m_setCallerOk _ [VArray [VAddress v]; VBool true]
    r_ok (sc_relayer _ _ _ _ _ Hs)); [|apply no_admin; in_list|cbn; in_list|exact Hvs].
  cbn [m_run m_setCallerOk]. unfold own, get, code_at. cbn [self next_msg].
  rewrite (sc_relayer _ _ _ _ _ Hs). cbn. unfold setCallerOk. by rewrite onlyOwner_owner.
Qed.

(** The vault approves FairLaunch on the debt token and remembers the pool. *)
Lemma run_setFairLaunchPoolId x D V F R pid :
  scene x D V F R -> v_owner V = signer -> debtToken V = d -> config V = cfg -> uint256 pid ->
  exists t, erc20_approve (dt_erc20 D) v fl MAX_UINT256 = Ok t /\
    send_gasLimit (JStr v) "setFairLaunchPoolId(uint256)" [TUint 256] [JNum pid] x
    = (with_chain x (set_code (set_code (chain x) d (CDebtToken (with_dt_erc20 D t))) v
         (CVault (with_fairLaunchPoolId V d pid))), Ok tt).
Proof.
  intros Hs Hown Hd Hc Hpid.
  destruct (erc20_approve_spec (dt_erc20 D) v fl MAX_UINT256 v_nonzero (pre_fl_nonzero _ _ _ _ _ _ P)) as (t & Ht & _).
  exists t. split; [done|].
  assert (coerce_all [TUint 256] [JNum pid] = Ok [VUint pid]) as Hvs
    by (apply coerce_all_cons; [by apply coerce_num|done]).
  rewrite (send_gasLimit_method x v v _ m_setFairLaunchPoolId _ [VUint pid] v_ok
    (sc_vault _ _ _ _ _ Hs)); [|apply no_admin; in_list|cbn; in_list|exact Hvs].
  cbn [m_run m_setFairLaunchPoolId]. unfold setFairLaunchPoolId, getFairLaunchAddr, safeApprove, get, code_at.
  cbn [self next_msg]. rewrite (sc_vault _ _ _ _ _ Hs). cbn.
  rewrite onlyOwner_owner by done. cbn. rewrite Hc, (sc_cfg _ _ _ _ _ Hs). cbn.
  rewrite Hd, (sc_debt _ _ _ _ _ Hs). cbn. rewrite (pre_cfg_fl _ _ _ _ _ _ P : fairLaunch C = fl), Ht. cbn.
  pose proof scene_neqs as (? & _). rewrite lookup_insert_ne by done.
  rewrite (sc_vault _ _ _ _ _ Hs). cbn. by rewrite Hd.
Qed.

Lemma run_deploy_vault : exists t,
  erc20_approve erc20_new v (at_fl s) MAX_UINT256 = Ok t /\
  deployProxy (with_args [TAddress; TAddress; TString; TString; TUint 8; TAddress]
    [JStr (ve_config (at_entry s)); JStr (at_base s); JStr NAME; JStr SYMBOL; JNum 18; JStr d]
    init_vault) w1 = (w2 t, Ok v) /\
  scene (w2 t) (with_dt_erc20 D0 t) V0 (the_fairLaunch s) (the_relayer s).
Proof.
  destruct (erc20_approve_spec erc20_new v (at_fl s) MAX_UINT256) as (t & Ht & _);
    [apply created_nonzero|apply (pre_fl_nonzero _ _ _ _ _ _ P)|].
  exists t. split; [done|]. split.
  - eapply deployProxy_eq.
    + apply coerce_all_cons; [apply coerce_address, (pre_cfg _ _ _ _ _ _ P)|].
      apply coerce_all_cons; [apply coerce_address, (pre_base_ok _ _ _ _ _ _ P)|].
      do 2 (apply coerce_all_cons; [done|]). apply coerce_all_cons; [by apply coerce_num|].
      apply coerce_all_cons; [apply (coerce_address d d), created_ok|done].
    + cbv beta iota delta [init_vault]. unfold Vault_initialize, getFairLaunchAddr, get, code_at.
      rewrite settled_kept by (apply (pre_settled _ _ _ _ _ _ P); in_list).
      rewrite (pre_cfg_at _ _ _ _ _ _ P). cbn [fmap option_fmap option_map code of_option mbind
        option_bind as_BasicVaultConfig result_bind].
      rewrite (pre_cfg_fl _ _ _ _ _ _ P). unfold safeApprove, code_at. rewrite w1_debt.
      cbn [fmap option_fmap option_map code erc20_of self creating dt_erc20 D0 DebtToken_initialize].
      change (proxy_address w1) with v. 
      rewrite Ht. reflexivity.
  - destruct scene_neqs as (N1 & N2 & N3 & N4 & N5 & N6 & N7 & _).
    assert (accounts (chain (w2 t)) = <[ v := {| proxy := Some (new_proxy w1); code := CVault V0 |} ]>
      (<[ d := {| proxy := accounts (chain (with_impl w1)) !! d ≫= proxy;
                  code := CDebtToken (with_dt_erc20 D0 t) |} ]> (accounts (chain (with_impl w1)))))
      as Hacc by done.
    assert (forall a, a <> d -> a <> v -> accounts (chain (w2 t)) !! a
      = accounts (chain (with_impl w1)) !! a) as Hother
      by (intros a ??; rewrite Hacc; by rewrite !lookup_insert_ne).
    constructor.
    + rewrite Hacc.
      rewrite lookup_insert_ne by done. rewrite lookup_insert_eq. by rewrite w1_debt.
    + cbn. by rewrite lookup_insert_eq.
    + rewrite Hother, settled_kept by (done || (apply (pre_settled _ _ _ _ _ _ P); in_list)).
      apply (pre_fl_at _ _ _ _ _ _ P).
    + rewrite Hother, settled_kept by (done || (apply (pre_settled _ _ _ _ _ _ P); in_list)).
      apply (pre_relayer_at _ _ _ _ _ _ P).
    + rewrite Hother, settled_kept by (done || (apply (pre_settled _ _ _ _ _ _ P); in_list)).
      apply (pre_cfg_at _ _ _ _ _ _ P).
    + intros a Ha _ _. rewrite Hother, settled_kept; [done|done|..]; intros ->;
        [by apply debt_new|by apply vault_new].
Qed.

Lemma scene_ext x y D V F R : chain y = chain x -> scene x D V F R -> scene y D V F R.
Proof. intros E []. constructor; rewrite E; done. Qed.

(** The stake tokens of the old pools are untouched contracts, so nothing is staked. *)
Lemma idle_old x D V F R :
  scene x D V F R -> idle (at_fl s) (chain x) (poolInfo (the_fairLaunch s)).
Proof.
  intros Hs p Hp. pose proof (pre_idle _ _ _ _ _ _ P p Hp) as Hi.
  cbn [token_balanceOf chain_tokens] in *. unfold chain_balanceOf, get, code_at in *.
  rewrite (sc_rest _ _ _ _ _ Hs); [exact Hi|by apply (pre_tokens _ _ _ _ _ _ P)|..];
    intros E; rewrite E in Hi.
  - by rewrite (pre_fl_at _ _ _ _ _ _ P : accounts (chain w) !! fl = _) in Hi.
  - by rewrite (pre_relayer_at _ _ _ _ _ _ P : accounts (chain w) !! r = _) in Hi.
Qed.

Lemma balance_debt x D V F R :
  scene x D V F R -> (forall a, erc20_balanceOf (dt_erc20 D) a = 0%Z) ->
  token_balanceOf (chain x) d (at_fl s) = Ok 0%Z.
Proof.
  intros Hs Hb. cbn [token_balanceOf chain_tokens]. unfold chain_balanceOf, get, code_at.
  rewrite (sc_debt _ _ _ _ _ Hs). cbn. by rewrite Hb.
Qed.

Lemma idle_touch self (ch : Chain) n ps : idle self ch ps -> idle self ch (touch n <$> ps).
Proof.
  intros Hi p (q & -> & Hq)%list_elem_of_fmap. rewrite touch_stakeToken. by apply Hi.
Qed.

Lemma touch_tokens n (ps : list PoolInfo) : stakeToken <$> (touch n <$> ps) = stakeToken <$> ps.
Proof. rewrite <-list_fmap_compose. apply list_fmap_ext. intros ? p _. apply touch_stakeToken. Qed.

Lemma not_staked a : ~ settled w a -> a ∉ stakeToken <$> poolInfo (the_fairLaunch s).
Proof.
  intros Ha (p & -> & Hp)%list_elem_of_fmap. by apply Ha, (pre_tokens _ _ _ _ _ _ P).
Qed.

(** The world after a pool has been recorded. *)
Definition pushed (x : World) (id : Z) (st a : string) : World :=
  with_config x (with_FairLaunch (config_of x) (FairLaunch_address (config_of x))
    (FairLaunch_pools (config_of x) ++
       [{| pe_id := id; pe_stakingToken := st; pe_address := a |}])).

Lemma push_pool_eq id st a x : push_pool id st a x = (pushed x id st a, Ok tt).
Proof. done. Qed.

Lemma scene_pushed x id st a D V F R : scene x D V F R -> scene (pushed x id st a) D V F R.
Proof. by apply scene_ext. Qed.

Let F : FairLaunch := the_fairLaunch s.

(** FairLaunch once the debt token has its pool, and once the vault has its own. *)
Let F1 (n : Z) : FairLaunch :=
  with_pools F ((touch n <$> poolInfo F) ++ [new_pool F n debtSYMBOL AO d])
    (totalAllocPoint F + AO) (lastMultiplier F).

Let F2 (n1 n2 : Z) : FairLaunch :=
  with_pools F ((touch n2 <$> poolInfo (F1 n1)) ++ [new_pool F n2 SYMBOL AD v])
    (totalAllocPoint F + AO + AD) (lastMultiplier F).

(** The debt token is handed to the vault and gets its pool. *)
Lemma wire_debt x D V R :
  scene x D V F R -> dt_owner D = signer ->
  let n := number (mined (2 + height x)) in
  exists x', config_of x' = config_of x /\ height x' = 3 + height x /\
    scene x' (with_dt_owner (with_okHolders v fl D) v) V (F1 n) R /\
    forall (k : script unit),
      (send (JStr d) "setOkHolders(address[],bool)" [TArray TAddress; TBool]
         [JArr [JStr v; JStr fls]; JBool true] ;;
       send (JStr d) "transferOwnership(address)" [TAddress] [JStr v] ;;
       send (JStr fls) "addPool(string,uint256,address,bool)"
         [TString; TUint 256; TAddress; TBool] [JStr debtSYMBOL; JNum AO; JStr d; JBool true] ;; k) x
      = k x'.
Proof.
  intros Hs Hown n. pose proof (pre_alloc _ _ _ _ _ _ P) as (Ht & HAO & HAD).
  pose proof (scene_debt _ _ _ _ _ (with_okHolders v fl D) Hs) as Hs1.
  pose proof (scene_debt _ _ _ _ _ (with_dt_owner (with_okHolders v fl D) v) Hs1) as Hs2.
  pose proof (scene_fl _ _ _ _ _ (F1 n) Hs2) as Hs3.
  eexists. split; [|split; [|split; [exact Hs3|]]]; [done|done|]. intros k.
  erewrite bind_run; [|by eapply run_setOkHolders].
  erewrite bind_run; [|by eapply run_transferOwnership].
  erewrite bind_run; [reflexivity|].
  eapply run_addPool; [exact Hs2|apply (pre_fl_owner _ _ _ _ _ _ P)|exact d_ok|apply created_nonzero
    |by eapply idle_old|apply not_staked, d_new|done|done|].
  pose proof (pre_total _ _ _ _ _ _ P). unfold uint256 in HAD. unfold F. lia.
Qed.

(** The vault learns its pool, and gets one for its own shares. *)
Lemma wire_vault x D R n1 :
  scene x D V0 (F1 n1) R -> (forall a, erc20_balanceOf (dt_erc20 D) a = 0%Z) ->
  let pid := Z.of_nat (length (poolInfo F)) in
  let n2 := number (mined (1 + height x)) in
  exists x' t, height x' = 2 + height x /\
    erc20_approve (dt_erc20 D) v fl MAX_UINT256 = Ok t /\
    config_of x' = with_FairLaunch (config_of x) (FairLaunch_address (config_of x))
      (FairLaunch_pools (config_of x) ++
        [{| pe_id := pid; pe_stakingToken := debtSYMBOL; pe_address := d |}]) /\
    scene x' (with_dt_erc20 D t) (with_fairLaunchPoolId V0 d pid) (F2 n1 n2) R /\
    forall (k : script unit),
      (send_gasLimit (JStr v) "setFairLaunchPoolId(uint256)" [TUint 256] [JNum pid] ;;
       push_pool pid debtSYMBOL d ;;
       send (JStr fls) "addPool(string,uint256,address,bool)"
         [TString; TUint 256; TAddress; TBool] [JStr SYMBOL; JNum AD; JStr v; JBool true] ;; k) x
      = k x'.
Proof.
  intros Hs Hb pid n2. pose proof (pre_alloc _ _ _ _ _ _ P) as (Ht & HAO & HAD).
  pose proof (pre_total _ _ _ _ _ _ P) as Htot. unfold uint256 in Ht, HAO, HAD. fold F in Ht, Htot.
  destruct (run_setFairLaunchPoolId _ _ _ _ _ pid Hs) as (t & Happ & Hrun);
    [done..|apply (pre_pools _ _ _ _ _ _ P)|].
  pose proof (scene_pool _ _ _ _ _ (with_dt_erc20 D t) (with_fairLaunchPoolId V0 d pid) Hs) as Hs1.
  set (x1 := with_chain x _) in Hs1, Hrun.
  set (x2 := pushed x1 pid debtSYMBOL d).
  pose proof (scene_pushed x1 pid debtSYMBOL d _ _ _ _ Hs1) as Hs2. fold x2 in Hs2.
  destruct (erc20_approve_spec (dt_erc20 D) v fl MAX_UINT256) as (t' & Happ' & Hbal & _);
    [apply v_nonzero|apply (pre_fl_nonzero _ _ _ _ _ _ P)|].
  rewrite Happ in Happ'. injection Happ' as <-.
  pose proof (scene_fl _ _ _ _ _ (F2 n1 n2) Hs2) as Hs3.
  eexists _, t. split; [|split; [exact Happ|split; [|split; [exact Hs3|]]]]; [done| |].
  { change (config_of (with_chain x2 _)) with (config_of x2). apply config_of_with_config. }
  intros k. erewrite bind_run; [|exact Hrun]. erewrite bind_run; [|apply push_pool_eq].
  erewrite bind_run; [reflexivity|].
  refine (run_addPool x2 _ _ (F1 n1) R SYMBOL AD v Hs2 (pre_fl_owner _ _ _ _ _ _ P) v_ok v_nonzero
    _ _ _ _ _).
  - intros p [Hp|Hp%list_elem_of_singleton]%elem_of_app.
    + eapply idle_touch; [by eapply idle_old|exact Hp].
    + subst p. eapply balance_debt; [exact Hs2|]. intros a. cbn. by rewrite Hbal.
  - cbn [poolInfo F1 with_pools]. rewrite fmap_app, touch_tokens.
    intros [Hin|Hin%list_elem_of_singleton]%elem_of_app; [by eapply not_staked; [apply v_new|]|].
    cbn in Hin. destruct scene_neqs as [N _]. by apply N.
  - cbn. unfold uint256. lia.
  - done.
  - cbn. lia.
Qed.

Lemma symbol_entry : Exists (fun e => ve_symbol e = SYMBOL) (Vaults (config_of w)).
Proof.
  apply Exists_exists. exists (at_entry s). split; [|done].
  eapply list_elem_of_lookup_2, (pre_entry _ _ _ _ _ _ P).
Qed.

Lemma poolLength_F1 n : (poolLength (F1 n) - 1 = Z.of_nat (length (poolInfo F)))%Z.
Proof. unfold poolLength. cbn. rewrite length_app, length_fmap. cbn. lia. Qed.

Lemma poolLength_F2 n1 n2 : (poolLength (F2 n1 n2) - 1 = Z.of_nat (length (poolInfo F)) + 1)%Z.
Proof. unfold poolLength. cbn. rewrite !length_app, !length_fmap, length_app, length_fmap. cbn. lia. Qed.

(** The script, transaction by transaction. *)
Lemma vault_run : exists w' t t' R,
  vault_func vaultIndex NAME AD AO BASE w = (w', Ok tt) /\
  erc20_approve erc20_new v fl MAX_UINT256 = Ok t /\ erc20_approve t v fl MAX_UINT256 = Ok t' /\
  R = {| wnr_owner := wnr_owner (the_relayer s); wnative := wnative (the_relayer s);
         okCallers := set_all (okCallers (the_relayer s)) [v] true |} /\
  scene w' (with_dt_erc20 (with_dt_owner (with_okHolders v fl (with_dt_erc20 D0 t)) v) t')
    (with_fairLaunchPoolId V0 d (Z.of_nat (length (poolInfo F))))
    (F2 (number (mined (6 + height w))) (number (mined (8 + height w)))) R /\
  files w' !! network_name = Some (config_of w') /\
  config_of w' = with_Vaults (with_FairLaunch (config_of w) (FairLaunch_address (config_of w))
    (FairLaunch_pools (config_of w) ++
      [{| pe_id := Z.of_nat (length (poolInfo F)); pe_stakingToken := debtSYMBOL; pe_address := d |};
       {| pe_id := Z.of_nat (length (poolInfo F)) + 1; pe_stakingToken := SYMBOL; pe_address := v |}]))
    (record_entry NAME SYMBOL v d (Some (at_base s)) <$> Vaults (config_of w)).
Proof.
  destruct run_deploy_vault as (t & Ht & Hvault & Hs).
  destruct (erc20_approve_spec erc20_new v fl MAX_UINT256) as (t_ & Ht_ & Hb & _);
    [apply v_nonzero|apply (pre_fl_nonzero _ _ _ _ _ _ P)|].
  unfold fl in Ht_. rewrite Ht in Ht_. injection Ht_ as <-.
  destruct (wire_debt (w2 t) _ V0 (the_relayer s) Hs eq_refl) as (x1 & J1 & H1' & Hs1 & R1).
  set (n1 := number (mined (2 + height (w2 t)))) in *.
  assert (config_of (w2 t) = config_of w) as J0 by done. rewrite J0 in J1.
  destruct (wire_vault x1 _ (the_relayer s) n1 Hs1) as (x2 & t' & H2' & Ht' & J2 & Hs2 & R2).
  { intros a. cbn. by rewrite Hb, erc20_new_balance. }
  rewrite H1' in Hs2. rewrite J1 in J2.
  set (x3 := pushed x2 (Z.of_nat (length (poolInfo F)) + 1) SYMBOL v).
  assert (scene x3 _ _ _ _) as Hs3 by (apply scene_pushed; exact Hs2).
  pose proof (run_setCallerOk x3 _ _ _ _ Hs3 (pre_relayer_owner _ _ _ _ _ _ P)) as R3.
  set (x4 := with_chain x3 _) in R3.
  assert (config_of x4 = with_FairLaunch (config_of x2)
    (FairLaunch_address (config_of x2)) (FairLaunch_pools (config_of x2) ++
      [{| pe_id := Z.of_nat (length (poolInfo F)) + 1; pe_stakingToken := SYMBOL; pe_address := v |}]))
    as J4 by apply config_of_with_config.
  rewrite J2 in J4. cbn in J4. rewrite <-app_assoc in J4. cbn in J4.
  destruct (record_vault_run NAME SYMBOL v d (Some (at_base s)) x4) as (w' & R4 & Hw' & Hf).
  { rewrite J4. cbn. apply symbol_entry. }
  destruct Hw' as (Hch & _ & _ & _ & J'). rewrite J4 in J'.
  eexists w', t, t', _. split; [|split; [exact Ht|split; [exact Ht'|split; [reflexivity|
    split; [|split; [exact Hf|exact J']]]]]].
  - unfold vault_func. erewrite bind_run; [|apply get_config_eq]. cbv beta zeta.
    rewrite (pre_entry _ _ _ _ _ _ P), (pre_base _ _ _ _ _ _ P), (pre_relayer _ _ _ _ _ _ P).
    cbn [of_option js_opt]. erewrite bind_run; [|reflexivity]. cbv beta.
    erewrite bind_run; [|apply run_deploy_debt]. erewrite bind_run; [|apply Hvault].
    rewrite R1. erewrite bind_run; [|by eapply run_poolLength]. rewrite poolLength_F1.
    rewrite R2. erewrite bind_run; [|by eapply run_poolLength]. rewrite poolLength_F2.
    erewrite bind_run; [|apply push_pool_eq]. erewrite bind_run; [|exact R3]. exact R4.
  - eapply scene_ext; [exact Hch|].
    pose proof (scene_relayer _ _ _ _ _ {| wnr_owner := wnr_owner (the_relayer s);
      wnative := wnative (the_relayer s); okCallers := set_all (okCallers (the_relayer s)) [v] true |}
      Hs3) as Hs4.
    exact Hs4.
Qed.

Lemma vault_run_post :
  exists w', vault_func vaultIndex NAME AD AO BASE w = (w', Ok tt) /\ vault_post w w' NAME AD AO s.
Proof.
  destruct vault_run as (w' & t & t' & R & Hrun & Ht & Ht' & -> & Hs & Hf & J).
  exists w'. split; [exact Hrun|].
  destruct (erc20_approve_spec erc20_new v fl MAX_UINT256) as (u & Hu & Hb & _);
    [apply v_nonzero|apply (pre_fl_nonzero _ _ _ _ _ _ P)|].
  rewrite Ht in Hu. injection Hu as <-.
  destruct (erc20_approve_spec t v fl MAX_UINT256) as (u & Hu & Hb' & Hall);
    [apply v_nonzero|apply (pre_fl_nonzero _ _ _ _ _ _ P)|].
  rewrite Ht' in Hu. injection Hu as <-.
  constructor.
  - eexists. split; [apply (sc_debt _ _ _ _ _ Hs)|]. split_and!; try done.
    + intros a. cbn [okHolders with_dt_erc20 with_dt_owner with_okHolders].
      rewrite set_all_lookup. cbn. by rewrite lookup_empty.
    + intros a. cbn. by rewrite Hb', Hb, erc20_new_balance.
    + cbn. rewrite Hall. by rewrite decide_True.
  - eexists _, _. split; [apply (sc_vault _ _ _ _ _ Hs)|]. done.
  - apply (sc_fl _ _ _ _ _ Hs).
  - eexists. split; [apply (sc_relayer _ _ _ _ _ Hs)|].
    split; [apply (pre_relayer_owner _ _ _ _ _ _ P)|done].
  - intros a Ha Hnf Hnr. by apply (sc_rest _ _ _ _ _ Hs).
  - exact J.
  - exact Hf.
Qed.
End Run.

(** C9: deploying a vault.  When the configuration names a vault configuration, a base
    token, a timelock, and a FairLaunch and a native relayer that the deployer owns and in
    which nothing is staked, each of the scripts 011 finishes and leaves what
    [vault_post] says: a debt token owned by the vault, which it and FairLaunch may hold,
    with FairLaunch approved to take it; the vault with its parameters, linked to the pool
    of its debt token; a pool for each of the two tokens with the allocations of the file,
    the other pools brought up to date; the vault whitelisted on the relayer; every other
    contract untouched; and all of it recorded in the configuration and on disk, with the
    identifiers the pools have on chain. *)
Theorem vault_deployed w vaultIndex NAME BASE AD AO s :
  vault_pre w vaultIndex BASE AD AO s ->
  exists w', vault_func vaultIndex NAME AD AO BASE w = (w', Ok tt) /\ vault_post w w' NAME AD AO s.
Proof. intros P. by eapply vault_run_post. Qed.

(** A base token that is not in the configuration.  Scripts 011 throw, but only
    after a debt token has been deployed; neither the configuration nor the file mentions
    it, and the deployer is left as its owner.  This is what 011-1 does with the
    configurations of the repository, where the token's key is HUSKI. *)
Theorem vault_without_base_token w vaultIndex NAME BASE AD AO e tl :
  room w 3 ->
  Tokens_of (config_of w) !! BASE = None ->
  Vaults (config_of w) !! vaultIndex = Some e ->
  getAddress (js_Timelock (config_of w)) = Some tl ->
  exists w' err D, vault_func vaultIndex NAME AD AO BASE w = (w', Err err) /\
    accounts (chain w') !! debt_address w
      = Some {| proxy := Some (new_proxy w); code := CDebtToken D |} /\
    dt_owner D = signer /\ config_of w' = config_of w /\ files w' = files w /\
    kept w w'.
Proof.
  intros Hroom Hb He Htl. set (nm := ("debt" +:+ ve_symbol e) +:+ "_V2").
  set (D := DebtToken_initialize (creating (with_impl w) (debt_address w)) nm nm tl).
  set (w1 := with_contract (with_impl w) (Some (new_proxy w)) (CDebtToken D)).
  unfold vault_func. erewrite bind_run; [|apply get_config_eq]. cbv beta zeta.
  rewrite Hb, He. cbn [of_option js_opt]. erewrite bind_run; [|reflexivity]. cbv beta.
  erewrite bind_run; [|apply (deploy_debt_eq w nm _ tl Htl)].
  change (with_contract (with_impl w) (Some (new_proxy w)) (CDebtToken _)) with w1.
  edestruct (deployProxy_Err w1 [TAddress; TAddress; TString; TString; TUint 8; TAddress])
    as [err Herr]; cycle 1.
  { erewrite bind_throw; [|exact Herr]. exists (with_impl w1), err, D. split; [done|].
    split; [by apply proxy_account_impl|]. do 3 (split; [done|]). unfold room in Hroom.
    eapply kept_trans; [apply kept_proxy|apply kept_created]; unfold room; cbn; lia. }
  by eapply (coerce_all_Err _ _ 1).
Qed.
End Theory.
