(* ===== verification/UserScripts.v ===== *)
(** * Scripts that use a deployed protocol

    s002 of src/deploy/setup, which makes the first deposit of a vault, and
    src/validate/validate_workers_config.ts, which asks the worker configurations whether
    their workers are stable; over the protocol at work, and what they achieve. *)

From S2P Require Import Prelude Buffers MerkleTree BalanceTree Evm Uint Sums HuskyMath Amm InterestModel.
From S2P Require Import HuskyToken FairLaunch Lending Staking Workers Script.
From S2P Require Import Bank BankTheory BankValue Strategies Farm FarmTheory Protocol.

Open Scope Z_scope.

(** The protocol at work, its vault, and the transactions mined so far. *)
Record Session `{OpenZeppelin} {M R : Type} := {
  bank : Bank;
  protocol : Protocol M R;
  mined_txs : nat
}.
Arguments Session {_} M R.

Section Scripts.
Context `{AbiCoder} `{!Pancake} `{!OpenZeppelin} `{!Network} `{!EthersNumbers}.
Context {M R : Type} `{!Ledger M} `{!Exchange M} `{!Rewards R}.

(** The message of a transaction of the signer to the vault. *)
Definition from_signer (s : Session M R) : Msg :=
  {| sender := signer; self := home (protocol s); block := mined (mined_txs s) |}.

(** [await vault.method(...args, { value })]: gas estimation throws when the call reverts,
    and nothing is sent.  The contract at any other address is not followed. *)
Definition send_vault (to : JsValue) (value : Z) (c : VaultCall) (s : Session M R) :
    Session M R * result unit :=
  match coerce TAddress to with
  | Ok (VAddress a) =>
      if bool_decide (a = home (protocol s)) then
        match vault_call (from_signer s) signer value (bank s, protocol s) c with
        | Ok (b, w) => ({| bank := b; protocol := w; mined_txs := S (mined_txs s) |}, Ok tt)
        | Err e => (s, Err e)
        end
      else (s, Err "call revert exception")
  | _ => (s, Err "invalid address")
  end.

(** ** s002_seed_wbnb_vault.ts *)

Definition VAULT_ADDRESS : string := "0x12A7a7130d9a4CF1D7E87F776C01BC230E5B3E17".

Definition s002_func (s : Session M R) : Session M R * result unit :=
  match parseEther "1" with
  | Some MSG_VALUE => send_vault (JStr VAULT_ADDRESS) MSG_VALUE (Deposit MSG_VALUE) s
  | None => (s, Err "invalid decimal value")
  end.

(** ** validate_workers_config.ts *)

(** What a line prints. *)
Record WorkerReport := {
  rp_name : string;
  rp_isStable : bool;
  rp_config : Config
}.

(** A request to the provider is answered in some state of the chain. *)
Definition State : Type := Block * Protocol M R.

Definition address_of (v : JsValue) : result address :=
  match coerce TAddress v with Ok (VAddress a) => Ok a | _ => Err "invalid address" end.

(** The two requests of a worker, answered in the states [s1] and [s2]. *)
Definition queryWorkerConfigs (s1 s2 : State) (e : WorkerEntry) : result WorkerReport :=
  config ← address_of (js_opt (we_config e));
  worker ← address_of (JStr (we_address e));
  c ← wc_at s1.2 config;
  stable ← isStable s1.1 s1.2 c worker;
  c ← wc_at s2.2 config;
  Ok {| rp_name := we_name e; rp_isStable := stable; rp_config := config_of_worker c worker |}.

(** The workers of a vault, all of which are waited for: [seen n] is the state that the n-th
    request of the vault meets.  Nothing is assumed on the order of the states. *)
Fixpoint query_workers (seen : nat -> State) (n : nat) (es : list WorkerEntry) : result (list WorkerReport) :=
  match es with
  | [] => Ok []
  | e :: es =>
      r ← queryWorkerConfigs (seen (2 * n)%nat) (seen (2 * n + 1)%nat) e;
      rs ← query_workers seen (S n) es;
      Ok (r :: rs)
  end.

(** The vaults one after the other; the first query that fails ends the run. *)
Fixpoint query_vaults (seen : nat -> nat -> State) (i : nat) (vs : list VaultEntry) :
    result (list (list WorkerReport)) :=
  match vs with
  | [] => Ok []
  | v :: vs =>
      rs ← query_workers (seen i) 0 (ve_workers v);
      rest ← query_vaults seen (S i) vs;
      Ok (rs :: rest)
  end.

Definition validate_workers (seen : nat -> nat -> State) (main test : Json) : result (list (list WorkerReport)) :=
  query_vaults seen 0 (Vaults (if bool_decide (network_name = "mainnet") then main else test)).
End Scripts.
