(* ===== verification/UserScriptTheory.v ===== *)
(** * What the scripts that use a protocol achieve

    A vault is seeded by its first deposit, unless tokens were sent to it before: then no one
    can deposit any more.  A validation of the workers that completes has found every worker
    at a price close to the oracle's. *)

From S2P Require Import Prelude Buffers MerkleTree BalanceTree Evm Uint Sums HuskyMath Amm InterestModel.
From S2P Require Import HuskyToken FairLaunch Lending Staking Workers Script.
From S2P Require Import Bank BankTheory BankValue Strategies Farm FarmTheory Protocol UserScripts.

Open Scope Z_scope.

(** ** Shares of a vault *)

Section Shares.
Context `{AbiCoder} `{!OpenZeppelin} {W : Type} `{!Ledger W} `{!NativeRelayer W} `{!Surroundings W} `{!Lawful W}.

Lemma nonReentrant_shares b (w : W) body b' w' :
  nonReentrant b w body = Ok (b', w') ->
  (forall g b1 w1, body (with_guard b g) w = Ok (b1, w1) -> v_erc20 (vault b1) = v_erc20 (vault b)) ->
  v_erc20 (vault b') = v_erc20 (vault b).
Proof.
  unfold nonReentrant. intros Hr Hbody. apply bind_Ok in Hr as (g & _ & Hr).
  apply bind_Ok in Hr as ([b1 w1] & Hrun & Hr). injection Hr as <- <-. exact (Hbody _ _ _ Hrun).
Qed.

Lemma accrue_shares m b (w : W) v b' : accrue m b w v = Ok b' -> v_erc20 (vault b') = v_erc20 (vault b).
Proof. unfold accrue. intros Hr. destruct (_ <? _); inv_result; by simplify_eq. Qed.

Lemma work_shares m id worker principal loan maxReturn data b (w : W) b' w' :
  debts_ok b -> 0 <= principal -> 0 <= loan < UINT256 -> 0 <= maxReturn ->
  work_body m id worker principal loan maxReturn data b w = Ok (b', w') ->
  v_erc20 (vault b') = v_erc20 (vault b).
Proof.
  intros Hb Hp Hl Hm Hr. apply work_body_spec in Hr as (id' & b1 & removed & b2 & w2 & b3 & b4 & w4 & w5 &
    bal & back & c & strategy & w3 & Hsel & _ & _ & _ & _ & Hrem & _ & _ & Hcall & _ & Hback & Htake & _ & -> & Hu & Hpre);
    [|done..].
  apply select_position_books, same_books_vault in Hsel as (_ & _ & _ & E1 & _).
  apply removeDebt_fields in Hrem as (E2 & _). pose proof (sbs_vault _ _ Hcall) as E3.
  assert (vault b4 = vault b3) as E4.
  { unfold take_debt in Htake. destruct (_ <? _); [|by injection Htake as <- _]. inv_result. simplify_eq.
    match goal with Ha : addDebt _ _ _ = _ |- _ => by apply addDebt_fields in Ha as (? & _) end. }
  cbn. rewrite E4, E3, E2. exact E1.
Qed.

(** Shares are made by deposits and taken by withdrawals only. *)
Lemma vault_call_shares m origin msgValue b (w : W) c b' w' :
  idle b -> typed_call c -> vault_call m origin msgValue (b, w) c = Ok (b', w') ->
  (exists a, c = Deposit a) \/ (exists a, c = Withdraw a) \/ v_erc20 (vault b') = v_erc20 (vault b).
Proof.
  intros Hb Hc Hr. destruct c; [by eauto|by eauto|..]; right; right; cbn in Hc, Hr.
  - apply bind_Ok in Hr as (_ & _ & Hr). apply bind_Ok in Hr as (w1 & _ & Hr).
    apply bind_Ok in Hr as (b1 & Hacc & Hr). rewrite <-(accrue_shares _ _ _ _ _ Hacc).
    apply accrue_idle in Hacc; [|done]. apply nonReentrant_shares in Hr; [done|]. intros g b2 w2 Hrun.
    unfold uint256 in Hc. eapply work_shares in Hrun; [exact Hrun| |lia..].
    apply (debts_ok_ext b1); try done. apply Hacc.
  - apply bind_Ok in Hr as (_ & _ & Hr). apply bind_Ok in Hr as (b1 & Hacc & Hr).
    rewrite <-(accrue_shares _ _ _ _ _ Hacc). apply accrue_idle in Hacc; [|done].
    apply nonReentrant_shares in Hr; [done|]. intros g b2 w2 Hrun.
    apply kill_body_spec in Hrun as (? & debt & ? & ? & ? & ? & ? & ? & ? & ? & ? & _ & _ & Hrem & _).
    + by apply removeDebt_fields in Hrem as (-> & _).
    + apply (debts_ok_ext b1); try done. apply Hacc.
    + apply Hacc.
  - exfalso. eapply (inExec_false m b w); [done|exact Hr].
  - exfalso. eapply (inExec_false m b w); [done|exact Hr].
  - apply bind_Ok in Hr as (_ & _ & Hr). apply nonReentrant_shares in Hr; [done|]. intros g b2 w2 Hrun.
    cbn beta in Hrun. inv_result. by simplify_eq.
  - inv_result. by simplify_eq.
Qed.
End Shares.

(** ** The first deposit *)

Section Seeding.
Context `{AbiCoder} `{!OpenZeppelin} {W : Type} `{!Ledger W} `{!NativeRelayer W} `{!Surroundings W} `{!Lawful W}.
Context {tok me : address} `{!BaseToken tok me}.

(** A vault that has no shares and has lent nothing, and holds [t] tokens: sent to it by
    anyone, when there are some. *)
Record unseeded (m : Msg) (b : Bank) (w : W) (t : Z) : Prop := {
  un_idle : idle b;
  un_at : at_vault (tok := tok) (me := me) m b w;
  un_debt : vaultDebtVal b = 0;
  un_supply : totalSupply b = 0;
  un_value : lenders_value m b w t
}.

Lemma accrue_no_debt m b (w : W) v b' : idle b -> vaultDebtVal b = 0 -> accrue m b w v = Ok b' ->
  b' = with_vault b (with_lastAccrueTime (vault b) (Z.max (lastAccrueTime (vault b)) (now m))).
Proof.
  intros Hb Hd Hr. unfold accrue in Hr. destruct (Z.ltb_spec (lastAccrueTime (vault b)) (now m)).
  2: { injection Hr as <-. rewrite Z.max_l by lia. by destruct b as [[]]. }
  apply bind_Ok in Hr as (i & Hi & Hr). unfold pendingInterest in Hi. rewrite Hd, (proj2 (Z.ltb_lt _ _)) in Hi by done.
  assert (i = 0) as ->.
  { inv_result. lawful. inv_uint. by rewrite !Z.mul_0_r. }
  pose proof (val_range b (idle_debts b Hb)). pose proof (idle_reserve b Hb).
  inv_result. lawful. inv_uint. subst b'. rewrite Z.max_r by lia.
  match goal with Hs : sm_add (reservePool b) _ = _ |- _ => apply sm_add_inv in Hs as [-> _]; [|done..] end.
  rewrite Z.mul_0_l, Z.div_0_l, !Z.add_0_r by done. by destruct b as [[]].
Qed.

(** A deposit is one into the vault with interest accrued. *)
Lemma deposit_accrued m v b (w : W) a r : deposit m v (b, w) a = Ok r ->
  exists w1 b1, accrue m b w1 a = Ok b1 /\
    (forall b2, accrue m b1 w1 a = Ok b2 -> b2 = b1 -> token (vault b1) = token (vault b) ->
      config (vault b1) = config (vault b) -> deposit m v (b1, w) a = Ok r).
Proof.
  intros Hr. cbn in Hr. apply bind_Ok in Hr as (w1 & Hw & Hr). apply bind_Ok in Hr as (b1 & Hacc & Hr).
  exists w1, b1. split; [done|]. intros b2 Hb2 -> Et Ec. cbn.
  assert (transferTokenToVault m v b1 w a = Ok w1) as ->.
  { rewrite <-Hw. unfold transferTokenToVault, vconfig. by rewrite Et, Ec. }
  cbn. by rewrite Hb2.
Qed.

Lemma deposit_no_tiny m v b (w : W) a b' w' : deposit m v (b, w) a = Ok (b', w') -> 10 ^ 17 < totalSupply b'.
Proof.
  intros Hr. cbn in Hr. apply bind_Ok in Hr as (w1 & _ & Hr). apply bind_Ok in Hr as (b1 & _ & Hr).
  unfold nonReentrant in Hr. apply bind_Ok in Hr as (g & _ & Hr). apply bind_Ok in Hr as ([b2 w2] & Hrun & Hr).
  injection Hr as <- <-. unfold deposit_body in Hrun. apply bind_Ok in Hrun as (tokens & _ & Hrun).
  apply bind_Ok in Hrun as (total & _ & Hrun). apply bind_Ok in Hrun as (share & _ & Hrun).
  apply bind_Ok in Hrun as (e & _ & Hrun). apply bind_Ok in Hrun as (u & Hs%require_Ok & Hrun).
  injection Hrun as <- <-. by apply Z.ltb_lt in Hs.
Qed.

Lemma unseeded_deposit m v b w t a b' w' :
  unseeded m b w t -> uint256 a -> deposit m v (b, w) a = Ok (b', w') ->
  t = 0 /\ totalSupply b' = a /\
  erc20_balanceOf (v_erc20 (vault b')) (sender m) = erc20_balanceOf (v_erc20 (vault b)) (sender m) + a /\
  lenders_value m b' w' a.
Proof.
  intros [Hb Hat Hd Hs Hv] Ha Hr. pose proof (deposit_no_tiny _ _ _ _ _ _ _ Hr) as Htiny.
  destruct (deposit_accrued _ _ _ _ _ _ Hr) as (w1 & b1 & Hacc & Hagain).
  pose proof (accrue_idle _ _ _ _ _ Hb Hacc) as Hb1. apply accrue_no_debt in Hacc; [|done..].
  assert (now m <= lastAccrueTime (vault b1)) as Hnow by (subst b1; cbn; lia).
  assert (accrue m b1 w1 a = Ok b1) as Hstill.
  { unfold accrue. by rewrite (proj2 (Z.ltb_ge _ _)). }
  assert (deposit m v (b1, w) a = Ok (b', w')) as Hr1 by (apply (Hagain b1); subst b1; done).
  apply (deposit_spec m v b1 w a b' w' t) in Hr1 as (share & Hv' & Hshare & Hmint & _); try done.
  - assert (totalSupply b1 = 0) as Hs1 by (by subst b1). rewrite Hs1, Z.mul_0_r in Hshare.
    assert (v_erc20 (vault b1) = v_erc20 (vault b)) as Ee by (by subst b1). rewrite Ee in Hmint.
    apply erc20_mint_spec in Hmint as (Hsup & Hbal & _). unfold totalSupply in *. rewrite Hs in Hsup.
    destruct (Z.eqb_spec t 0) as [->|Hnz]; [|rewrite Z.div_0_l in Hshare; lia].
    subst share. split_and!; try done; lia.
  - subst b1. by apply (at_vault_still m b w).
  - by subst b1.
Qed.

(** Nothing gives shares of a vault to anyone once it holds tokens. *)
Lemma unseeded_call m origin v b w t c b' w' :
  unseeded m b w t -> t <> 0 -> typed_call c -> vault_call m origin v (b, w) c = Ok (b', w') ->
  totalSupply b' = 0.
Proof.
  intros Hu Ht Hc Hr.
  destruct (vault_call_shares _ _ _ _ _ _ _ _ (un_idle _ _ _ _ Hu) Hc Hr) as [[a ->]|[[a ->]|E]].
  - by destruct (unseeded_deposit m v b w t a b' w' Hu Hc Hr) as (? & _).
  - exfalso. cbn in Hr. apply bind_Ok in Hr as (b1 & Hacc & Hr). apply accrue_shares in Hacc.
    unfold nonReentrant in Hr. apply bind_Ok in Hr as (g & _ & Hr). apply bind_Ok in Hr as ([b2 w2] & Hrun & _).
    unfold withdraw_body in Hrun. apply bind_Ok in Hrun as (x & _ & Hrun).
    apply bind_Ok in Hrun as (y & _ & Hrun). apply bind_Ok in Hrun as (z & Hz & _).
    apply sm_div_Ok in Hz as [_ Hz]. pose proof (un_supply _ _ _ _ Hu) as Hs.
    unfold totalSupply in *. cbn in Hz. rewrite Hacc in Hz. lia.
  - unfold totalSupply. rewrite E. apply Hu.
Qed.
End Seeding.

(** ** The scripts *)

Section Scripts.
Context `{AbiCoder} `{!Pancake} `{!OpenZeppelin} `{!Network} `{!EthersNumbers}.
Context {M R : Type} `{!Ledger M} `{!Exchange M} `{!Rewards R} `{!Chef} `{!Pairs}.

Lemma one_ether : parseEther "1" = Some (10 ^ 18).
Proof. by apply (parseEther_decimal "1" 1). Qed.

(** The transaction of s002. *)
Lemma s002_sends (s : Session M R) : getAddress VAULT_ADDRESS = Some (home (protocol s)) ->
  s002_func s = match deposit (from_signer s) (10 ^ 18) (bank s, protocol s) (10 ^ 18) with
                | Ok (b, w) => ({| bank := b; protocol := w; mined_txs := S (mined_txs s) |}, Ok tt)
                | Err e => (s, Err e)
                end.
Proof.
  intros Ha. unfold s002_func, send_vault. rewrite one_ether. cbn [coerce]. rewrite Ha. cbn [of_option mbind result_bind].
  by rewrite bool_decide_eq_true_2.
Qed.

(** C20: script s002 makes the first deposit of a vault: when it does not throw, the signer
    has one token's worth of shares, which are all there are, and the vault holds just that
    token for them.  But if anyone has sent any amount of the token to the vault before, the
    script throws, and no call of anyone gives the vault a share as long as the vault holds
    something. *)
Theorem vault_seeding (s : Session M R) tok me t `{!PlainToken (M := M) tok me} :
  getAddress VAULT_ADDRESS = Some (home (protocol s)) ->
  unseeded (tok := tok) (me := me) (from_signer s) (bank s) (protocol s) t ->
  (t <> 0 ->
    (exists e, s002_func s = (s, Err e)) /\
    forall m origin msgValue c b w,
      at_vault (tok := tok) (me := me) m (bank s) (protocol s) -> typed_call c ->
      vault_call m origin msgValue (bank s, protocol s) c = Ok (b, w) -> totalSupply b = 0) /\
  (forall s', s002_func s = (s', Ok tt) ->
    t = 0 /\ totalSupply (bank s') = 10 ^ 18 /\
    erc20_balanceOf (v_erc20 (vault (bank s'))) signer
      = erc20_balanceOf (v_erc20 (vault (bank s))) signer + 10 ^ 18 /\
    lenders_value (from_signer s) (bank s') (protocol s') (10 ^ 18)).
Proof.
  intros Ha Hu. rewrite (s002_sends s Ha). pose proof (unseeded_deposit (tok := tok) (me := me) (from_signer s)
    (10 ^ 18) (bank s) (protocol s) t (10 ^ 18)) as Hdep.
  destruct (deposit _ _ _ _) as [[b w]|e].
  - destruct (Hdep b w Hu ltac:(done) eq_refl) as (-> & Hrest).
    split; [done|]. intros s' [= <-]. by split.
  - split; [|done]. intros Ht. split; [by exists e|]. intros m origin v c b w Hat Hc Hr.
    eapply (unseeded_call (tok := tok) (me := me) m origin v); [|exact Ht|exact Hc|exact Hr].
    destruct Hu as [Hb Hat0 Hd Hs (x & Hx & E)]. split; try done. exists x. split; [|done].
    rewrite <-Hx. unfold myBalance. by rewrite (at_self _ _ _ Hat), (at_self _ _ _ Hat0).
Qed.

(** ** The validation of the workers *)

(** A line of the validation: the worker was at its price in some state of the chain. *)
Definition reported (e : WorkerEntry) (r : WorkerReport) (states : nat -> State (M := M) (R := R)) : Prop :=
  rp_name r = we_name e /\ rp_isStable r = true /\
  exists worker n, getAddress (we_address e) = Some worker /\ at_oracle_price (states n).1 (states n).2 worker.

Lemma isStable_true blk (w : Protocol M R) c worker b : isStable blk w c worker = Ok b -> b = true.
Proof. unfold isStable. intros Hr. by unroll Hr. Qed.

Lemma query_reported s1 s2 e r : queryWorkerConfigs (M := M) (R := R) s1 s2 e = Ok r ->
  rp_name r = we_name e /\ rp_isStable r = true /\
  exists worker, getAddress (we_address e) = Some worker /\ at_oracle_price s1.1 s1.2 worker.
Proof.
  unfold queryWorkerConfigs. intros Hr. apply bind_Ok in Hr as (config & _ & Hr).
  apply bind_Ok in Hr as (worker & Hw & Hr). apply bind_Ok in Hr as (c & Hc & Hr).
  apply bind_Ok in Hr as (st & Hst & Hr). apply bind_Ok in Hr as (c2 & _ & Hr). injection Hr as <-. cbn.
  pose proof (isStable_true _ _ _ _ _ Hst) as ->. split_and!; [done..|]. exists worker. split.
  - unfold address_of in Hw. cbn [coerce] in Hw. destruct (getAddress (we_address e)); cbn in Hw; [|done].
    by injection Hw as ->.
  - unfold wc_at in Hc. apply fmap_Ok in Hc as (tc & Htc%of_option_Ok & <-). by eapply isStable_price.
Qed.

Lemma query_workers_reported seen n es rs : query_workers (M := M) (R := R) seen n es = Ok rs ->
  Forall2 (fun e r => reported e r seen) es rs.
Proof.
  revert n rs. induction es as [|e es IH]; intros n rs Hr; cbn in Hr; [by injection Hr as <-|].
  apply bind_Ok in Hr as (r & Hq & Hr). apply bind_Ok in Hr as (rest & Hrest & Hr). injection Hr as <-.
  constructor; [|by eapply IH]. apply query_reported in Hq as (? & ? & worker & ? & ?).
  split_and!; [done..|]. by eexists _, _.
Qed.

(** A validation of the workers that completes has printed a line for every worker of the
    configuration, in its order, and each says that the worker is stable, as it was: a worker
    that is not stable makes the call revert and ends the run, [isStable: false] is never
    printed. *)
Theorem validated_workers_stable seen main test reports :
  validate_workers (M := M) (R := R) seen main test = Ok reports ->
  Forall2 (fun v rs => exists i, Forall2 (fun e r => reported e r (seen i)) (ve_workers v) rs)
    (Vaults (if bool_decide (network_name = "mainnet") then main else test)) reports.
Proof.
  unfold validate_workers. generalize 0%nat. generalize (Vaults (if bool_decide (network_name = "mainnet") then main else test)).
  intros vs. revert reports. induction vs as [|v vs IH]; intros reports i Hr; cbn in Hr; [by injection Hr as <-|].
  apply bind_Ok in Hr as (rs & Hq%query_workers_reported & Hr). apply bind_Ok in Hr as (rest & Hrest & Hr).
  injection Hr as <-. constructor; [by exists i|by eapply IH].
Qed.
End Scripts.
