(* ===== verification/ShieldTheory.v ===== *)
(** * FairLaunch under Shield

    Once Shield owns FairLaunch, whatever anyone sends: FairLaunch keeps its owner and its
    pools' tokens -- Shield's own [addPool] calls a function that FairLaunch does not have --
    and Shield never mints beyond its limit.  Script 021 and the command it prints lead
    there. *)

From S2P Require Import Prelude Buffers MerkleTree BalanceTree Evm Uint.
From S2P Require Import Timelock TimelockTheory HuskyToken Shield FairLaunch FairLaunchTheory Lending Workers.
From S2P Require Import Chain ChainTheory Watch Script ScriptTheory TimelockScripts.
From S2P Require Import TimelockScriptTheory TimelockScriptRuns ProductScripts.

Section Shield.
Context `{AbiCoder} `{!OpenZeppelin} `{!Selectors}.

Variables (fa sa : address) (toks : list address) (limit : Z).
Hypothesis apart : fa <> sa.

(** FairLaunch at [fa] belongs to the Shield at [sa], with the pools' tokens [toks]. *)
Record fair_ok (F : FairLaunch) : Prop := {
  fo_owner : fl_owner F = sa;
  fo_tokens : stakeToken <$> poolInfo F = toks
}.

Record shield_ok (S : Shield) : Prop := {
  so_target : fairLaunchV1 S = fa;
  so_limit : mintLimit S = limit;
  so_count : (0 <= mintCount S <= limit)%Z
}.

Definition shielded (ch : Chain) : Prop := exists F S,
  accounts ch !! fa = Some {| proxy := None; code := CFairLaunch F |} /\
  accounts ch !! sa = Some {| proxy := None; code := CShield S |} /\ fair_ok F /\ shield_ok S.

Lemma shielded_write ch x acc : x <> fa -> x <> sa -> shielded ch -> shielded (set_account ch x acc).
Proof.
  intros Hf Hs (F & S & HF & HS & HH). exists F, S. cbn. by rewrite !lookup_insert_ne.
Qed.

Lemma shielded_plain ch x c : shielded ch -> x = fa \/ x = sa -> code_at ch x = Some c -> erc20_of c = None.
Proof.
  unfold code_at. intros (F & S & HF & HS & _) [->| ->] Hc; [rewrite HF in Hc|rewrite HS in Hc];
    by injection Hc as <-.
Qed.

Lemma shielded_admin ch x acc who : shielded ch -> x = fa \/ x = sa -> accounts ch !! x = Some acc ->
  proxy_admin <$> proxy acc = Some who -> who = sa.
Proof.
  intros (F & S & HF & HS & _) [->| ->] Hc Hw; [rewrite HF in Hc|rewrite HS in Hc];
    by injection Hc as <-.
Qed.

Lemma shielded_get_fair ch F : shielded ch -> get as_FairLaunch ch fa = Ok F ->
  accounts ch !! fa = Some {| proxy := None; code := CFairLaunch F |} /\ fair_ok F.
Proof.
  intros (F' & S & HF & _ & HO & _) (c & Hc & Hx)%get_Ok. unfold code_at in Hc. rewrite HF in Hc.
  injection Hc as <-. by injection Hx as <-.
Qed.

Lemma shielded_get_shield ch S : shielded ch -> get as_Shield ch sa = Ok S ->
  accounts ch !! sa = Some {| proxy := None; code := CShield S |} /\ shield_ok S.
Proof.
  intros (F & S' & _ & HS & _ & HO) (c & Hc & Hx)%get_Ok. unfold code_at in Hc. rewrite HS in Hc.
  injection Hc as <-. by injection Hx as <-.
Qed.

Lemma shielded_set_fair ch F : shielded ch -> fair_ok F -> shielded (set_code ch fa (CFairLaunch F)).
Proof.
  intros (F' & S & HF & HS & _ & HO) HF'. exists F, S. unfold set_code, set_account. cbn.
  rewrite HF. cbn. rewrite lookup_insert_eq, lookup_insert_ne by done. done.
Qed.

Lemma shielded_set_shield ch S : shielded ch -> shield_ok S -> shielded (set_code ch sa (CShield S)).
Proof.
  intros (F & S' & HF & HS & HO & _) HS'. exists F, S. unfold set_code, set_account. cbn.
  rewrite HS. cbn. rewrite lookup_insert_eq, lookup_insert_ne by done. done.
Qed.

Abbreviation keeps := (stays shielded).

Lemma keeps_calls b : R_calls keeps b.
Proof.
  split_and!; intros m w x v w' _ Hr;
    (eapply stays_chain_husky; [apply shielded_write|apply shielded_plain|exact Hr]).
Qed.

(** ** The functions of FairLaunch that keep its owner and its tokens *)

Lemma keys_tokens F F' : keys F' = keys F -> stakeToken <$> poolInfo F' = stakeToken <$> poolInfo F.
Proof. intros E. apply (f_equal (fmap fst)) in E. unfold keys in E. by rewrite <-!list_fmap_compose in E. Qed.

Lemma fair_ok_same F F' :
  fl_owner F' = fl_owner F -> stakeToken <$> poolInfo F' = stakeToken <$> poolInfo F -> fair_ok F -> fair_ok F'.
Proof. intros E1 E2 []. split; congruence. Qed.

Lemma massUpdatePools_same m F (w : Chain) F' w' :
  massUpdatePools m (F, w) = Ok (F', w') ->
  fl_owner F' = fl_owner F /\ stakeToken <$> poolInfo F' = stakeToken <$> poolInfo F.
Proof. intros (E1 & _ & E2)%massUpdatePools_key. split; [done|by apply keys_tokens]. Qed.

Lemma setPool_same m F (w : Chain) pid alloc F' w' :
  setPool m (F, w) pid alloc = Ok (F', w') ->
  fl_owner F' = fl_owner F /\ stakeToken <$> poolInfo F' = stakeToken <$> poolInfo F.
Proof.
  unfold setPool. intros Hr. apply bind_Ok in Hr as (_ & _ & Hr).
  apply bind_Ok in Hr as ([g v] & Hg & Hr). apply massUpdatePools_same in Hg as [E1 E2].
  apply bind_Ok in Hr as (p & Hp%of_option_Ok & Hr). inv_result. subst. cbn. split; [done|].
  rewrite list_fmap_insert, <-E2. apply list_insert_id. by rewrite list_lookup_fmap, Hp.
Qed.

Lemma kept_on_fair m ch f ch' :
  self m = fa ->
  (forall F w F' w', f (F, w) = Ok (F', w') -> keeps w w' /\
     fl_owner F' = fl_owner F /\ stakeToken <$> poolInfo F' = stakeToken <$> poolInfo F) ->
  on_FairLaunch m ch f = Ok ch' -> keeps ch ch'.
Proof.
  intros Hm Hf Hr Hh. unfold on_FairLaunch in Hr. rewrite Hm in Hr.
  apply bind_Ok in Hr as (F & HF & Hr). apply bind_Ok in Hr as ([F' c'] & Hc & Hr). injection Hr as <-.
  destruct (Hf _ _ _ _ Hc) as (Hk & E1 & E2). destruct (shielded_get_fair _ _ Hh HF) as [_ HO].
  apply shielded_set_fair; [by apply Hk|]. by eapply fair_ok_same.
Qed.

Lemma kept_own_fair m ch f ch' :
  self m = fa ->
  (forall F F', f m F = Ok F' -> fl_owner F' = fl_owner F /\ poolInfo F' = poolInfo F) ->
  own as_FairLaunch CFairLaunch f m ch = Ok ch' -> keeps ch ch'.
Proof.
  intros Hm Hf Hr Hh. unfold own in Hr. rewrite Hm in Hr.
  apply bind_Ok in Hr as (F & HF & Hr). apply bind_Ok in Hr as (F' & HF' & Hr). injection Hr as <-.
  destruct (Hf _ _ HF') as [E1 E2]. destruct (shielded_get_fair _ _ Hh HF) as [_ HO].
  apply shielded_set_fair; [done|]. eapply fair_ok_same; [done|by rewrite E2|done].
Qed.

(** Every function of FairLaunch but [addPool] and the transfer of ownership. *)
Definition harmless : list Method :=
  [m_setPool; m_setBonus; m_massUpdatePools; m_fl_manualMint; m_setDev; m_setHuskyPerBlock;
   m_setBadgeRelayer; m_setBadgePoints].

Lemma harmless_kept mt m ch vs ch' :
  mt ∈ harmless -> self m = fa -> m_run mt m ch vs = Ok ch' -> keeps ch ch'.
Proof.
  intros Hin Hm Hr.
  repeat (apply elem_of_cons in Hin as [->|Hin]); [| | | | | | | |by apply elem_of_nil in Hin];
    cbn in Hr; args.
  all: first
    [eapply kept_own_fair; [exact Hm| |exact Hr]; intros F F' Hf;
     unfold setBonus, setDev, setHuskyPerBlock, setBadgeRelayer, setBadgePoints in Hf; by inv_result; subst
    |eapply kept_on_fair; [exact Hm| |exact Hr]; intros F w F' w' Hf; cbv beta in Hf].
  - split; [|by eapply setPool_same].
    eapply (setPool_preserves keeps); [by intros ??|intros ??????; auto|apply keeps_calls|exact Hf].
  - split; [|by eapply massUpdatePools_same].
    eapply (massUpdatePools_preserves keeps); [by intros ??|intros ??????; auto|apply keeps_calls|exact Hf].
  - split; [eapply (fl_manualMint_preserves keeps); [apply keeps_calls|exact Hf]|].
    unfold fl_manualMint in Hf. by inv_result; subst.
Qed.

(** The others are for the owner, Shield. *)
Lemma fair_denied F cl mt m ch vs ch' :
  shielded ch -> self m = fa -> sender m <> sa -> mt ∈ methods cl (CFairLaunch F) ->
  m_run mt m ch vs = Ok ch' -> mt ∈ harmless.
Proof.
  intros (F' & S & HF & HS & [HO _] & _) Hm Hne Hin Hr. cbn [methods ownable] in Hin.
  repeat (apply elem_of_cons in Hin as [->|Hin]); try (by in_list); try (by apply elem_of_nil in Hin);
    exfalso; cbn in Hr; args; unfold on_FairLaunch, get, code_at, addPool, transferOwnership, onlyOwner in Hr;
    rewrite Hm, HF in Hr; cbn in Hr; rewrite HO, (bool_decide_eq_false_2 (sa = sender m)) in Hr by congruence; done.
Qed.

(** ** Calls *)

Lemma shielded_transfer ch from to v ch' :
  transfer_native ch from to v = Ok ch' -> accounts ch' = accounts ch.
Proof.
  unfold transfer_native. destruct (v =? 0)%Z; [by intros [= ->]|]. intros Hr. inv_result. by subst.
Qed.

(** Shield's call of a function that FairLaunch has. *)
Lemma forwarded depth b mt vs ch ch' F :
  accounts ch !! fa = Some {| proxy := None; code := CFairLaunch F |} -> mt ∈ harmless ->
  have_types vs (m_types mt) ->
  call depth b sa fa 0 (encode_call (m_sig mt) (m_types mt) vs) ch = Ok ch' ->
  m_run mt {| sender := sa; self := fa; block := b |} ch vs = Ok ch'.
Proof.
  intros HF Hin Hvs Hr. destruct depth as [|depth]; [done|].
  erewrite call_method in Hr; [exact Hr|exact HF|done| |exact Hvs].
  cbn [code methods].
  repeat (apply elem_of_cons in Hin as [->|Hin]); try (by apply elem_of_nil in Hin); in_list.
Qed.

(** ... and of the one that it does not have. *)
Lemma addPool_reverts depth b vs ch F :
  accounts ch !! fa = Some {| proxy := None; code := CFairLaunch F |} ->
  is_ok (call depth b sa fa 0
    (encode_call "addPool(uint256,address,bool)" [TUint 256; TAddress; TBool] vs) ch) = false.
Proof.
  intros HF. destruct depth as [|depth]; [done|].
  eapply call_unknown; [exact HF|done| | |].
  - apply (bool_decide_unpack _). by vm_compute.
  - apply (bool_decide_unpack _). by vm_compute.
  - apply (bool_decide_unpack _). by vm_compute.
Qed.

Definition kept_call (cl : Call) : Prop := forall b from to v d ch ch',
  cl b from to v d ch = Ok ch' -> from <> fa -> from <> sa -> shielded ch -> shielded ch'.

Lemma forward_kept depth m ch sig types vs ch' :
  kept_call (call depth) -> have_types vs types ->
  (exists mt, mt ∈ harmless /\ sig = m_sig mt /\ types = m_types mt) \/
  (sig = "addPool(uint256,address,bool)" /\ types = [TUint 256; TAddress; TBool]) ->
  forward (call depth) m ch sig types vs = Ok ch' -> keeps ch ch'.
Proof.
  intros IH Hvs Hsig Hr Hh. unfold forward, external in Hr.
  apply bind_Ok in Hr as (s & Hs & Hr). apply bind_Ok in Hr as (_ & _ & Hr).
  apply bind_Ok in Hr as (_ & _ & Hr).
  pose proof Hh as (F & S & HF & HS & HO & [Ht _ _]).
  destruct (decide (self m = sa)) as [E|E].
  - rewrite E in Hs. apply shielded_get_shield in Hs as [HS' _]; [|done].
    rewrite HS in HS'. injection HS' as <-. rewrite E, Ht in Hr.
    destruct Hsig as [(mt & Hin & -> & ->)|[-> ->]].
    + eapply harmless_kept; [exact Hin| |by eapply forwarded|exact Hh]. done.
    + pose proof (addPool_reverts depth (block m) vs ch F HF) as Hn. by rewrite Hr in Hn.
  - eapply IH; [exact Hr| |exact E|exact Hh]. intros Ef. rewrite Ef in Hs.
    apply get_Ok in Hs as (c & Hc & Hx). unfold code_at in Hc. rewrite HF in Hc. by injection Hc as <-.
Qed.

(** FairLaunch's [manualMint] does not touch Shield. *)
Lemma manualMint_leaves m ch to amount ch' :
  self m = fa -> shielded ch ->
  m_run m_fl_manualMint m ch [VAddress to; VUint amount] = Ok ch' -> accounts ch' !! sa = accounts ch !! sa.
Proof.
  intros Hm (F & S & HF & HS & _) Hr. cbn in Hr. unfold on_FairLaunch in Hr.
  apply bind_Ok in Hr as (F' & _ & Hr). apply bind_Ok in Hr as ([F1 c1] & Hc & Hr). injection Hr as <-.
  unfold fl_manualMint in Hc. apply bind_Ok in Hc as (_ & _ & Hc).
  apply bind_Ok in Hc as (c2 & Hh & Hc). injection Hc as -> ->. cbn in Hh. unfold chain_husky in Hh.
  apply bind_Ok in Hh as (h & Hg & Hh). apply bind_Ok in Hh as (h' & _ & Hh). injection Hh as <-.
  rewrite Hm. unfold set_code, set_account. cbn. rewrite lookup_insert_ne by done.
  apply lookup_insert_ne. intros E. cbn in Hg. rewrite E in Hg.
  apply get_Ok in Hg as (c & Hc & Hx). unfold code_at in Hc. rewrite HS in Hc. by injection Hc as <-.
Qed.

(** [amount] HUSKI more, with [to] and in the count of those minted by hand. *)
Record hand_minted (h h' : HuskyToken) (to : address) (amount : Z) : Prop := {
  hm_supply : erc20_totalSupply (husky_erc20 h') = (erc20_totalSupply (husky_erc20 h) + amount)%Z;
  hm_balance : forall a, erc20_balanceOf (husky_erc20 h') a
    = (erc20_balanceOf (husky_erc20 h) a + if decide (a = to) then amount else 0)%Z;
  hm_minted : manualMinted h' = (manualMinted h + amount)%Z
}.

Lemma moveDelegates_fields m h src dst v h' :
  moveDelegates m h src dst v = Ok h' -> husky_erc20 h' = husky_erc20 h /\ manualMinted h' = manualMinted h.
Proof.
  assert (forall h a n v h', writeCheckpoint m h a n v = Ok h' ->
    husky_erc20 h' = husky_erc20 h /\ manualMinted h' = manualMinted h) as Hw.
  { unfold writeCheckpoint. intros * Hr. inv_result. case_match; inv_result; by subst. }
  unfold moveDelegates. intros Hr. destruct (_ && _); [|by injection Hr as <-].
  apply bind_Ok in Hr as (h1 & Hsrc & Hdst).
  assert (husky_erc20 h1 = husky_erc20 h /\ manualMinted h1 = manualMinted h) as [<- <-].
  { clear Hdst. case_match; inv_result; [by eapply Hw|by subst]. }
  case_match; inv_result; [by eapply Hw|by subst].
Qed.

Lemma manualMint_exact m h to amount h' :
  (0 <= manualMinted h)%Z -> uint256 amount -> manualMint m h to amount = Ok h' -> hand_minted h h' to amount.
Proof.
  intros Hh0 Ha Hr. unfold manualMint, mint in Hr. apply bind_Ok in Hr as (_ & _ & Hr).
  apply bind_Ok in Hr as (n & Hn & Hr). apply bind_Ok in Hr as (_ & _ & Hr). apply bind_Ok in Hr as (_ & _ & Hr).
  apply bind_Ok in Hr as (x & _ & Hr). apply bind_Ok in Hr as (_ & _ & Hr).
  apply bind_Ok in Hr as (t & Ht & Hr). apply moveDelegates_fields in Hr as [Et Em].
  apply sm_add_inv in Hn as [-> _]; [|done|done].
  apply erc20_mint_spec in Ht as (Hs & Hto & Hne). split; rewrite ?Et, ?Em; [done| |done].
  intros a. destruct (decide (a = to)) as [->|E]; [exact Hto|]. rewrite Z.add_0_r. by apply Hne.
Qed.

Lemma typed_amount to amount : have_types [VAddress to; VUint amount] [TAddress; TUint 256] -> uint256 amount.
Proof.
  intros Hvs. inversion_clear Hvs as [|? ? ? ? _ Hv]. inversion_clear Hv as [|? ? ? ? Ht _].
  by inversion_clear Ht.
Qed.

(** A successful [mintWarchest] mints what it counts. *)
Lemma mintWarchest_exact depth m ch to amount ch' F S h :
  accounts ch !! fa = Some {| proxy := None; code := CFairLaunch F |} ->
  accounts ch !! sa = Some {| proxy := None; code := CShield S |} -> shield_ok S ->
  self m = sa -> have_types [VAddress to; VUint amount] [TAddress; TUint 256] ->
  code_at ch (husky F) = Some (CHuskyToken h) -> (0 <= manualMinted h)%Z ->
  m_run (m_mintWarchest (call depth)) m ch [VAddress to; VUint amount] = Ok ch' ->
  exists h', sender m = sh_owner S /\ code_at ch' (husky F) = Some (CHuskyToken h') /\
    hand_minted h h' to amount /\ (mintCount S + amount <= limit)%Z /\
    accounts ch' !! sa
      = Some {| proxy := None; code := CShield (with_mintCount S (mintCount S + amount)) |}.
Proof.
  intros HF HS [Ht Hl [Hc0 _]] Hm Hvs Hh Hh0 Hr. cbn in Hr.
  apply bind_Ok in Hr as (s & Hs & Hr). apply bind_Ok in Hr as (u & Hown & Hr).
  apply bind_Ok in Hr as (u' & Hok & Hr). apply bind_Ok in Hr as (ch1 & Hc & Hr).
  unfold external in Hc. apply bind_Ok in Hc as (_ & _ & Hc).
  apply bind_Ok in Hr as (s1 & Hs1 & Hr). apply bind_Ok in Hr as (n & Hn & Hr). injection Hr as <-.
  rewrite Hm in *. assert (s = S) as ->.
  { apply get_Ok in Hs as (c & Hcd & Hx). unfold code_at in Hcd. rewrite HS in Hcd. injection Hcd as <-. by injection Hx. }
  rewrite Ht in Hc. change "manualMint(address,uint256)" with (m_sig m_fl_manualMint) in Hc.
  eapply forwarded in Hc; [|exact HF|unfold harmless; in_list|exact Hvs]. cbn in Hc.
  unfold on_FairLaunch in Hc. apply bind_Ok in Hc as (F1 & HF1 & Hc). cbn [self] in HF1.
  assert (F1 = F) as ->.
  { apply get_Ok in HF1 as (c & Hcd & Hx). unfold code_at in Hcd. rewrite HF in Hcd. injection Hcd as <-. by injection Hx. }
  apply bind_Ok in Hc as ([F1 c1] & Hfl & Hc). injection Hc as <-. unfold fl_manualMint in Hfl.
  apply bind_Ok in Hfl as (_ & _ & Hfl). apply bind_Ok in Hfl as (c2 & Hhm & Hfl). injection Hfl as <- <-.
  cbn in Hhm. unfold chain_husky in Hhm. apply bind_Ok in Hhm as (h1 & Hg & Hhm).
  apply bind_Ok in Hhm as (h' & Hmint & Hhm). injection Hhm as <-.
  cbn [to_husky self fst] in *.
  assert (h1 = h) as ->.
  { apply get_Ok in Hg as (c & Hcd & Hx). rewrite Hh in Hcd. injection Hcd as <-. by injection Hx. }
  assert (husky F <> fa /\ husky F <> sa) as [Hnf Hns].
  { unfold code_at in Hh. split; intros E; rewrite E in Hh; [rewrite HF in Hh|rewrite HS in Hh]; done. }
  pose proof (typed_amount _ _ Hvs) as Hu.
  assert (s1 = S) as ->.
  { apply get_Ok in Hs1 as (c & Hcd & Hx). unfold code_at, set_code, set_account in Hcd. cbn in Hcd.
    rewrite !lookup_insert_ne in Hcd by done. rewrite HS in Hcd. injection Hcd as <-. by injection Hx. }
  apply sm_add_inv in Hn as [-> _]; [|done|done].
  exists h'. split; [unfold onlyOwner in Hown; apply require_Ok in Hown; by to_props|]. split_and!.
  - unfold code_at, set_code, set_account. cbn.
    rewrite lookup_insert_ne, lookup_insert_ne, lookup_insert_eq by done. done.
  - eapply manualMint_exact; [done|exact Hu|exact Hmint].
  - unfold mint_allowed in Hok. apply bind_Ok in Hok as (n & Hn & Hok).
    apply sm_add_inv in Hn as [-> _]; [|done|done]. apply require_Ok in Hok. to_props. lia.
  - unfold set_code, set_account. cbn. rewrite lookup_insert_eq, lookup_insert_ne, lookup_insert_ne by done. by rewrite HS.
Qed.

Lemma mintWarchest_kept depth m ch vs ch' :
  kept_call (call depth) -> have_types vs [TAddress; TUint 256] ->
  m_run (m_mintWarchest (call depth)) m ch vs = Ok ch' -> keeps ch ch'.
Proof.
  intros IH Hvs Hr Hh. cbn in Hr. args. apply bind_Ok in Hr as (s & Hs & Hr).
  apply bind_Ok in Hr as (_ & _ & Hr). apply bind_Ok in Hr as (u & Hok & Hr).
  apply bind_Ok in Hr as (ch1 & Hc & Hr). unfold external in Hc. apply bind_Ok in Hc as (_ & _ & Hc).
  apply bind_Ok in Hr as (s1 & Hs1 & Hr). apply bind_Ok in Hr as (n & Hn & Hr). injection Hr as <-.
  pose proof Hh as (F & S & HF & HS & HO & [Ht Hl Hcnt]).
  destruct (decide (self m = sa)) as [E|E].
  - rewrite E in *. apply shielded_get_shield in Hs as [HS' _]; [|done].
    rewrite HS in HS'. injection HS' as E1. subst s. rewrite Ht in Hc.
    change "manualMint(address,uint256)" with (m_sig m_fl_manualMint) in Hc.
    eapply forwarded in Hc; [|exact HF|unfold harmless; in_list|exact Hvs].
    pose proof (manualMint_leaves {| sender := sa; self := fa; block := block m |} _ _ _ _ eq_refl Hh Hc) as Hsa.
    apply harmless_kept in Hc; [|unfold harmless; in_list|done]. specialize (Hc Hh).
    apply shielded_get_shield in Hs1 as [HS1 _]; [|done]. rewrite Hsa, HS in HS1. injection HS1 as E1. subst s1.
    pose proof (typed_amount _ _ Hvs) as Hu. pose proof (proj1 (sm_add_inv _ _ _ (proj1 Hcnt) Hu Hn)) as En.
    destruct Hu as [Hu _].
    apply shielded_set_shield; [done|]. unfold mint_allowed in Hok. rewrite Hn in Hok. cbn in Hok.
    apply require_Ok in Hok. to_props. split; cbn; [done|done|lia].
  - apply shielded_write; [|exact E|].
    + intros Ef. rewrite Ef in Hs. apply get_Ok in Hs as (c & Hcd & Hx). unfold code_at in Hcd.
      rewrite HF in Hcd. by injection Hcd as <-.
    + eapply IH; [exact Hc| |exact E|exact Hh]. intros Ef. rewrite Ef in Hs.
      apply get_Ok in Hs as (c & Hcd & Hx). unfold code_at in Hcd. rewrite HF in Hcd. by injection Hcd as <-.
Qed.

Lemma shield_methods_kept depth mt m ch vs ch' :
  kept_call (call depth) -> mt ∈ shield_methods (call depth) -> have_types vs (m_types mt) ->
  m_run mt m ch vs = Ok ch' -> keeps ch ch'.
Proof.
  intros IH Hin Hvs Hr.
  repeat (apply elem_of_cons in Hin as [->|Hin]); [| | | | |by apply elem_of_nil in Hin]; cbn in Hvs.
  3: by eapply mintWarchest_kept.
  1: eapply (forward_kept depth m); [exact IH|exact Hvs| |exact Hr]; left; exists m_setHuskyPerBlock.
  2: eapply (forward_kept depth m); [exact IH|exact Hvs| |exact Hr]; left; exists m_setBonus.
  4: eapply (forward_kept depth m); [exact IH|exact Hvs| |exact Hr]; left; exists m_setPool.
  1,2,4: (split; [unfold harmless; in_list|done]).
  cbn in Hr. apply bind_Ok in Hr as (ch1 & Hc & Hr). inv_result. subst.
  eapply (forward_kept depth m); [exact IH|exact Hvs| |exact Hc]. by right.
Qed.

Lemma execute_kept cl m ch t ch' :
  kept_call cl -> executeTransaction cl m ch t = Ok ch' -> keeps ch ch'.
Proof.
  intros IH Hr Hh. unfold executeTransaction in Hr.
  apply bind_Ok in Hr as (s & Hs & Hr). apply bind_Ok in Hr as (s1 & _ & Hr).
  apply bind_Ok in Hr as (ch1 & Hc & Hr). apply bind_Ok in Hr as (s2 & _ & Hr). injection Hr as <-.
  unfold bubble in Hc. destruct (cl _ _ _ _ _ _) as [ch2|] eqn:Ecl; [|done]. injection Hc as ->.
  assert (self m <> fa /\ self m <> sa) as [Hf Hsa].
  { destruct Hh as (F & S & HF & HS & _). apply get_Ok in Hs as (c & Hcd & Hx). unfold code_at in Hcd.
    split; intros E; rewrite E in Hcd; [rewrite HF in Hcd|rewrite HS in Hcd]; by injection Hcd as <-. }
  apply shielded_write; [done..|]. eapply IH; [exact Ecl|done|done|]. by apply shielded_write.
Qed.

Lemma call_kept depth : kept_call (call depth).
Proof.
  induction depth as [|depth IH]; [by intros|].
  intros b from to v d ch ch' Hr Hf Hs Hh. cbn in Hr. apply bind_Ok in Hr as (ch1 & Ht & Hr).
  apply shielded_transfer in Ht. assert (shielded ch1) as Hh1.
  { destruct Hh as (F & S & HF & HS & HH). exists F, S. by rewrite Ht. }
  clear Hh Ht ch. destruct (accounts ch1 !! to) as [acc|] eqn:Eto; [|by injection Hr as <-].
  set (m := {| sender := from; self := to; block := b |}) in *. case_bool_decide as Hadm.
  - apply dispatch_inv in Hr as [->|(mt & vs & Hin & _ & Hr)]; [done|].
    eapply (stays_proxy_methods fa sa); [apply shielded_write|exact Hin| | |exact Hr|exact Hh1];
      cbn; intros ->; destruct Hh1 as (F & S & HF & HS & _).
    + rewrite HF in Eto. by injection Eto as <-.
    + rewrite HS in Eto. by injection Eto as <-.
  - apply dispatch_inv in Hr as [->|(mt & vs & Hin & Hvs & Hr)]; [done|].
    destruct (decide (to = fa)) as [->|Hne].
    { pose proof Hh1 as (F & S & HF & _). rewrite HF in Eto. injection Eto as <-.
      eapply (harmless_kept mt m); [|done|exact Hr|exact Hh1].
      eapply (fair_denied F _ mt m); [exact Hh1|done|done|exact Hin|exact Hr]. }
    destruct (stays_methods fa sa shielded shielded_write shielded_plain shielded_admin _ _ _ Hin)
      as [->|[Hsh|Hst]].
    + cbn in Hr. apply with_tx_inv in Hr as (t & _ & Hr); [|done]. by eapply execute_kept.
    + by eapply shield_methods_kept.
    + destruct (decide (to = sa)) as [->|Hns]; [|exact (Hst m ch1 vs ch' Hne Hns Hr Hh1)].
      pose proof Hh1 as (F & S & _ & HS & _). rewrite HS in Eto. injection Eto as <-.
      cbn [code methods] in Hin. apply elem_of_app in Hin as [Hin|Hin]; [by eapply shield_methods_kept|].
      repeat (apply elem_of_cons in Hin as [->|Hin]); try (by apply elem_of_nil in Hin).
      all: cbn in Hr; args; unfold code_at in Hr; cbn in Hr; rewrite HS in Hr; cbn in Hr; inv_result; subst;
        apply (shielded_set_shield ch1 (with_sh_owner S _)); [done|];
        destruct Hh1 as (F' & S' & _ & HS' & _ & []); rewrite HS in HS'; injection HS' as <-; by split.
Qed.

Lemma history_kept ts ch :
  (forall b from to v d, (b, from, to, v, d) ∈ ts -> from <> fa /\ from <> sa) ->
  shielded ch -> shielded (foldl transact ch ts).
Proof.
  revert ch. induction ts as [|t ts IH]; intros ch Hts Hh; [done|]. cbn [foldl]. apply IH.
  - intros b from to v d Hin. eapply Hts. by right.
  - destruct t as [[[[b from] to] v] d]. destruct (Hts b from to v d) as [Hf Hs]; [by left|].
    unfold transact. destruct (call _ _ _ _ _ _ _) eqn:E; [|done]. by eapply call_kept.
Qed.
End Shield.

Section Script021.
Context `{AbiCoder} `{!OpenZeppelin} `{!Network} `{!EthersNumbers} `{!Selectors}.

(** What deploying Shield does to the world. *)
Lemma deploy_shield_Ok w w' tl fl a :
  deploy_shield tl fl w = (w', Ok a) -> exists tla fla,
    getAddress tl = Some tla /\ getAddress fl = Some fla /\ tla <> zero_address /\ a = created (creations w) /\
    w' = with_created w (set_account (chain w) a {| proxy := None; code := CShield
      {| sh_owner := tla; fairLaunchV1 := fla; mintLimit := 8000000 * 10 ^ 18;
         mintCount := 250000 * 10 ^ 18 |} |}).
Proof.
  unfold deploy_shield, deploy, create, with_args. cbn [coerce_all].
  destruct (getAddress tl) as [tla|] eqn:Et; cbn [coerce]; rewrite Et; cbn; [|done].
  destruct (getAddress fl) as [fla|] eqn:Ef; cbn; [|done].
  unfold new_Shield, transferOwnership. rewrite onlyOwner_owner by done. cbn.
  destruct (decide (tla = zero_address)) as [->|Hz]; [done|].
  rewrite bool_decide_eq_true_2 by done. cbn. intros [= <- <-]. exists tla, fla. done.
Qed.

(** The Shield that script 021 deploys for the timelock. *)
Definition fresh_shield (tla fla : address) : Shield :=
  {| sh_owner := tla; fairLaunchV1 := fla; mintLimit := 8000000 * 10 ^ 18;
     mintCount := 250000 * 10 ^ 18 |}.

(** Queueing and printing touch the timelock only. *)
Lemma queue_print_leaves w w' tl tla s target sig types args printed eta a :
  timelock_at w tl tla s -> a <> tla ->
  (queue tl target sig types args eta ;; print_execute target sig types printed eta) w = (w', Ok tt) ->
  accounts (chain w') !! a = accounts (chain w) !! a.
Proof.
  intros Ht Ha Hr. destruct (js_tx target (JStr "0") sig types args (JStr eta)) as [tx|e] eqn:Htx.
  2: { destruct (queue_Err w tl _ _ _ _ _ _ Htx) as [e' E].
       unfold mbind, script_bind in Hr. by rewrite E in Hr. }
  unfold mbind, script_bind in Hr. rewrite (queue_eq w tl tla s _ _ _ _ _ tx Ht Htx) in Hr.
  destruct (queueTransaction _ _ _) as [s'|e]; [|done]. injection Hr as <-.
  cbn. by rewrite lookup_insert_ne.
Qed.

(** The command hands FairLaunch over. *)
Lemma run_handover w tl tla s c tx sh fla F :
  timelock_at w tl tla s -> command_tx c = Ok tx -> ready (next_msg w tla) s tx ->
  cmd_value c = JStr "0" -> coerce_all (cmd_types c) (cmd_args c) = Ok [VAddress sh] ->
  cmd_sig c = m_sig m_transferOwnership -> cmd_types c = m_types m_transferOwnership ->
  target tx = fla -> accounts (chain w) !! fla = Some {| proxy := None; code := CFairLaunch F |} ->
  fl_owner F = tla -> sh <> zero_address ->
  exists w', run_command tl c w = (w', Ok tt) /\
    accounts (chain w') !! fla = Some {| proxy := None; code := CFairLaunch (with_fl_owner F sh) |} /\
    (forall a, a <> tla -> a <> fla -> accounts (chain w') !! a = accounts (chain w) !! a).
Proof.
  intros Ht Htx Hready Hv Hvs Hsig Hty <- Hacc Hown Hnz.
  assert (target tx <> tla) as Hne.
  { intros E. destruct Ht as (_ & Ht & _). rewrite E, Ht in Hacc. done. }
  destruct (run_ready_method w tl tla s c tx _ {| proxy := None; code := CFairLaunch F |} m_transferOwnership
    (fun g => set_code (consumed (chain w) tla s tx g) (target tx) (CFairLaunch (with_fl_owner F sh)))
    Ht Htx Hready Hv Hvs Hsig Hty) as (g & _ & Hrc); try done.
  - intros cl. in_list.
  - intros g. cbn. unfold code_at. cbn. rewrite lookup_insert_ne by done. rewrite Hacc. cbn.
    unfold transferOwnership. rewrite onlyOwner_owner by done. cbn. by rewrite bool_decide_eq_true_2.
  - intros g. cbn. by rewrite lookup_insert_ne.
  - rewrite Hrc. eexists. split; [done|]. cbn. split.
    + rewrite lookup_insert_ne, lookup_insert_eq by done. by rewrite lookup_insert_ne, Hacc by done.
    + intros a Ha Ha'. by rewrite !lookup_insert_ne.
Qed.

(** C19: the Shield.  Script 021 deploys a Shield that the timelock owns and prints the command
    that hands FairLaunch over to it.  Once the timelock has run that command, whatever
    history of transactions follows, signed by anyone and with any nesting of calls:
    FairLaunch belongs to the Shield for ever and its list of pools keeps exactly the tokens
    it had -- no one, not even the timelock, can add a pool again, since Shield forwards a
    signature that FairLaunch does not have.  And a [mintWarchest] that succeeds then is the
    call of Shield's owner: it makes exactly its amount of new HUSKI, for the account named,
    and counts it, and the count stays within the limit of eight million. *)
Theorem shield_freezes_pools w0 w1 tl tla fl fla eta z s0 :
  timelock_at w0 tl tla s0 -> getAddress fl = Some fla -> decimal eta = Some z ->
  s021_func tl fl eta w0 = (w1, Ok tt) ->
  let sh := created (creations w0) in
  exists c tx, console w1 = console w0 ++ [c] /\ command_tx c = Ok tx /\
    accounts (chain w1) !! sh = Some {| proxy := None; code := CShield (fresh_shield tla fla) |} /\
    forall w s F, timelock_at w tl tla s -> ready (next_msg w tla) s tx ->
      accounts (chain w) !! fla = Some {| proxy := None; code := CFairLaunch F |} -> fl_owner F = tla ->
      accounts (chain w) !! sh = accounts (chain w1) !! sh ->
      exists w', run_command tl c w = (w', Ok tt) /\
        forall ts, (forall b from to v d, (b, from, to, v, d) ∈ ts -> from <> fla /\ from <> sh) ->
        exists F' S', accounts (foldl transact (chain w') ts) !! fla
                      = Some {| proxy := None; code := CFairLaunch F' |} /\
          accounts (foldl transact (chain w') ts) !! sh = Some {| proxy := None; code := CShield S' |} /\
          fl_owner F' = sh /\ stakeToken <$> poolInfo F' = stakeToken <$> poolInfo F /\
          (mintCount S' <= 8000000 * 10 ^ 18)%Z /\
          forall depth m to amount ch h, self m = sh ->
            have_types [VAddress to; VUint amount] (m_types (m_mintWarchest (call depth))) ->
            code_at (foldl transact (chain w') ts) (husky F') = Some (CHuskyToken h) ->
            (0 <= manualMinted h)%Z ->
            m_run (m_mintWarchest (call depth)) m (foldl transact (chain w') ts) [VAddress to; VUint amount]
            = Ok ch ->
            exists h', sender m = sh_owner S' /\ code_at ch (husky F') = Some (CHuskyToken h') /\
              hand_minted h h' to amount /\ (mintCount S' + amount <= 8000000 * 10 ^ 18)%Z /\
              accounts ch !! sh
                = Some {| proxy := None; code := CShield (with_mintCount S' (mintCount S' + amount)) |}.
Proof.
  intros Ht0 Hfl Hz Hrun sh. unfold s021_func in Hrun.
  apply script_bind_Ok in Hrun as [(wa & a & Hd & Hrun)|(e & _ & ?)]; [|done].
  apply deploy_shield_Ok in Hd as (tla' & fla' & Et & Ef & Hz0 & -> & ->).
  rewrite (proj1 Ht0) in Et. injection Et as <-. rewrite Hfl in Ef. injection Ef as <-. fold sh in Hrun.
  assert (sh <> tla) as Hsh by (apply Ht0; lia).
  set (wa := with_created _ _) in Hrun.
  assert (timelock_at wa tl tla s0) as Hta.
  { destruct Ht0 as (Hg & Hacc & Hc). split; [done|]. split; [cbn; by rewrite lookup_insert_ne|].
    intros n Hn. apply Hc. cbn in Hn. lia. }
  pose proof Hrun as Hq.
  apply (queue_print_Ok _ _ _ _ _ _ _ _ _ _ _ z Hta eq_refl Hz) in Hrun
    as (c & tx & vs & Hc & Htx & Hct & Hcv & Hcs & Hcty & Hvs & Hcvs & Htgt).
  cbn in Hvs. unfold sh in Hvs. rewrite created_ok in Hvs. cbn in Hvs. injection Hvs as <-. fold sh in Hcvs.
  rewrite Hfl in Htgt. injection Htgt as Htgt.
  assert (accounts (chain w1) !! sh = Some {| proxy := None; code := CShield (fresh_shield tla fla) |}) as HS.
  { rewrite (queue_print_leaves _ _ _ _ _ _ _ _ _ _ _ _ Hta Hsh Hq). cbn. by rewrite lookup_insert_eq. }
  exists c, tx. split_and!; [done|done|exact HS|].
  intros w s F Ht Hready HF Hown Hkeep.
  destruct (run_handover w tl tla s c tx sh fla F Ht Htx Hready Hcv Hcvs Hcs Hcty (eq_sym Htgt) HF Hown
    (created_nonzero _)) as (w' & Hrc & HF' & Hrest).
  exists w'. split; [exact Hrc|]. intros ts Hts.
  assert (fla <> sh) as Hne.
  { intros E. rewrite <-E, HF, E, HS in Hkeep. done. }
  destruct (history_kept fla sh (stakeToken <$> poolInfo F) (8000000 * 10 ^ 18) Hne ts (chain w') Hts)
    as (F' & S' & HF2 & HS2 & [Ho Htok] & HSok).
  { exists (with_fl_owner F sh), (fresh_shield tla fla). split; [exact HF'|].
    - split; [exact (eq_trans (Hrest sh Hsh (not_eq_sym Hne)) (eq_trans Hkeep HS))|].
      split; [by split|]. split; cbn [fairLaunchV1 mintLimit mintCount fresh_shield];
        [reflexivity|reflexivity|lia]. }
  exists F', S'. split_and!; [assumption..|apply HSok|].
  intros depth m to amount ch h Hm Hvs Hh Hh0 Hmw.
  by eapply (mintWarchest_exact fla sh (8000000 * 10 ^ 18)).
Qed.
End Script021.
