(* ===== verification/ProductScriptTheory.v ===== *)
(** * What script 022 deploys

    The public offering of script 022: a configuration with its three offerings, in a state
    from which the sale keeps its books. *)

From S2P Require Import Prelude Buffers MerkleTree BalanceTree Evm.
From S2P Require Import Timelock HuskyToken Shield Offering OfferingTheory FairLaunch Lending Workers.
From S2P Require Import Chain ChainTheory Script ScriptTheory TimelockScripts ProductScripts.

Section Script022.
Context `{AbiCoder} `{!OpenZeppelin} `{!Network} `{!EthersNumbers} `{!Selectors}.

Definition allowed (c : PublicOfferingConfig) (a : address) : PublicOfferingConfig :=
  with_allows c (<[ a := true ]> (allows c)).

(** Opening one offering: it exists, and the configuration allows it. *)
Lemma open_offering_eq w c C tok feed toka feeda :
  getAddress c = Some c -> accounts (chain w) !! c = Some {| proxy := None; code := CPublicOfferingConfig C |} ->
  poc_owner C = signer -> getAddress tok = Some toka -> getAddress feed = Some feeda ->
  c <> created (creations w) ->
  let a := created (creations w) in
  exists w', open_offering c tok feed w = (w', Ok a) /\ creations w' = S (creations w) /\
    accounts (chain w') !! c = Some {| proxy := None; code := CPublicOfferingConfig (allowed C a) |} /\
    accounts (chain w') !! a = Some {| proxy := None;
      code := CPublicOffering (new_PublicOffering (creating w a) c toka feeda) |} /\
    forall x, x <> c -> x <> a -> accounts (chain w') !! x = accounts (chain w) !! x.
Proof.
  intros Hc HC Hown Htok Hfeed Hne a. unfold open_offering, deploy_offering, deploy, create, with_args.
  unfold mbind, script_bind. cbn [coerce_all coerce]. rewrite Hc, Htok, Hfeed.
  cbn [of_option mbind result_bind]. fold a. unfold send_unawaited.
  set (w1 := with_created w _).
  assert (accounts (chain w1) !! c = Some {| proxy := None; code := CPublicOfferingConfig C |}) as HC1
    by (cbn; by rewrite lookup_insert_ne).
  change "setPublicOffering(address,bool)" with (m_sig m_setPublicOffering).
  change [TAddress; TBool] with (m_types m_setPublicOffering).
  rewrite (send_method w1 c c _ m_setPublicOffering _ [VAddress a; VBool true] Hc HC1);
    [|done|in_list|cbn; unfold a; by rewrite created_ok].
  cbn [m_run m_setPublicOffering]. unfold own, get, code_at. cbn [self next_msg]. rewrite HC1.
  cbn [fmap option_fmap option_map mbind option_bind as_PublicOfferingConfig code of_option result_bind].
  unfold setPublicOffering. rewrite onlyOwner_owner by done. cbn [mbind result_bind].
  eexists. split; [reflexivity|]. split; [done|]. cbn [chain with_chain].
  unfold set_code. rewrite HC1. unfold set_account. cbn. split_and!.
  - by rewrite lookup_insert_eq.
  - rewrite lookup_insert_ne, lookup_insert_eq by done. done.
  - intros x Hx Hx'. by rewrite !lookup_insert_ne.
Qed.

(** The same two steps, of the sale. *)
Lemma reach_open `{!Aggregators} c ca os toks nat_ m tok feed :
  sale_reachable {| cfg := c; cfg_address := ca; offerings := os; sale_tokens := toks; sale_native := nat_ |} ->
  os !! self m = None ->
  sale_reachable {| cfg := allowed c (self m); cfg_address := ca;
    offerings := <[ self m := new_PublicOffering m ca tok feed ]> os; sale_tokens := toks; sale_native := nat_ |}.
Proof.
  intros Hr Hn. set (s := {| cfg := c |}) in Hr.
  apply (reach_step _ _ (reach_step _ _ Hr (step_open m s tok feed Hn))).
  apply (step_allow {| sender := poc_owner c; self := ca; block := block m |} (with_offering s (self m) _) (self m) true).
  - cbn. rewrite lookup_insert_eq. by eexists.
  - unfold setPublicOffering. by rewrite onlyOwner_owner.
Qed.

(** The public offering as deployed.  Whatever the world, script 022 leaves a configuration
    that the deployer owns, with nothing raised, and three offerings it allows, one for each
    currency with its feed, and nothing else on the chain changes; with any balances it is a
    state from which the sale keeps its books. *)
Theorem offerings_deployed w ETH USDT USDC f1 f2 f3 eth usdt usdc e1 e2 e3 :
  getAddress ETH = Some eth -> getAddress USDT = Some usdt -> getAddress USDC = Some usdc ->
  getAddress f1 = Some e1 -> getAddress f2 = Some e2 -> getAddress f3 = Some e3 ->
  creations w + 4 <= max_creations ->
  let n := creations w in
  exists w' C o1 o2 o3, s022_func ETH USDT USDC f1 f2 f3 w = (w', Ok tt) /\
    accounts (chain w') !! created n = Some {| proxy := None; code := CPublicOfferingConfig C |} /\
    poc_owner C = signer /\ raisedAmount C = 0%Z /\
    Forall2 (fun a '(o, (tok, feed)) =>
        accounts (chain w') !! a = Some {| proxy := None; code := CPublicOffering o |} /\
        allows C !! a = Some true /\ po_owner o = signer /\ po_config o = created n /\
        po_token o = tok /\ priceFeed o = feed)
      [created (n + 1); created (n + 2); created (n + 3)]
      [(o1, (eth, e1)); (o2, (usdt, e2)); (o3, (usdc, e3))] /\
    (forall x, (forall i, i < 4 -> x <> created (n + i)) -> accounts (chain w') !! x = accounts (chain w) !! x) /\
    forall `{!Aggregators} toks nat_, sale_reachable
      {| cfg := C; cfg_address := created n;
         offerings := <[ created (n + 3) := o3 ]> (<[ created (n + 2) := o2 ]> {[ created (n + 1) := o1 ]});
         sale_tokens := toks; sale_native := nat_ |}.
Proof.
  intros He Hu Hc H1' H2' H3' Hroom n.
  assert (forall i j, i < 4 -> j < 4 -> i <> j -> created (n + i) <> created (n + j)) as Hdis.
  { intros i j Hi Hj Hij E. apply created_inj in E; subst n; lia. }
  unfold s022_func, mbind, script_bind, deploy, create.
  set (c := created (creations w)). set (C0 := new_PublicOfferingConfig (creating w c)).
  set (w0 := with_created w _).
  assert (accounts (chain w0) !! c = Some {| proxy := None; code := CPublicOfferingConfig C0 |}) as HC0
    by (cbn; by rewrite lookup_insert_eq).
  assert (creations w0 = n + 1) as Ew0 by (cbn; subst n; lia).
  pose proof (Hdis 0 1 ltac:(lia) ltac:(lia) ltac:(lia)) as D01. rewrite Nat.add_0_r in D01.
  pose proof (Hdis 0 2 ltac:(lia) ltac:(lia) ltac:(lia)) as D02. rewrite Nat.add_0_r in D02.
  pose proof (Hdis 0 3 ltac:(lia) ltac:(lia) ltac:(lia)) as D03. rewrite Nat.add_0_r in D03.
  pose proof (Hdis 1 2 ltac:(lia) ltac:(lia) ltac:(lia)) as D12.
  pose proof (Hdis 1 3 ltac:(lia) ltac:(lia) ltac:(lia)) as D13.
  pose proof (Hdis 2 3 ltac:(lia) ltac:(lia) ltac:(lia)) as D23.
  destruct (open_offering_eq w0 c C0 ETH f1 eth e1 (created_ok _) HC0 eq_refl He H1')
    as (w1 & -> & Ew1 & HC1 & Ho1 & Hx1); [by rewrite Ew0|].
  destruct (open_offering_eq w1 c _ USDT f2 usdt e2 (created_ok _) HC1 eq_refl Hu H2')
    as (w2 & -> & Ew2 & HC2 & Ho2 & Hx2); [rewrite Ew1, Ew0; replace (S (n + 1)) with (n + 2) by lia; done|].
  destruct (open_offering_eq w2 c _ USDC f3 usdc e3 (created_ok _) HC2 eq_refl Hc H3')
    as (w3 & -> & Ew3 & HC3 & Ho3 & Hx3); [rewrite Ew2, Ew1, Ew0; replace (S (S (n + 1))) with (n + 3) by lia; done|].
  rewrite Ew2, Ew1, Ew0 in *. replace (S (S (n + 1))) with (n + 3) in * by lia.
  replace (S (n + 1)) with (n + 2) in * by lia.
  assert (accounts (chain w3) !! created (n + 1) = accounts (chain w1) !! created (n + 1)) as K1
    by (rewrite Hx3, Hx2; auto).
  assert (accounts (chain w3) !! created (n + 2) = accounts (chain w2) !! created (n + 2)) as K2
    by (rewrite Hx3; auto).
  eexists w3, _, _, _, _. split; [reflexivity|]. split; [exact HC3|]. split; [done|]. split; [done|].
  split; [|split].
  - apply Forall2_cons. split; [split; [by rewrite K1|]|apply Forall2_cons; split; [split; [by rewrite K2|]|
      apply Forall2_cons; split; [split; [exact Ho3|]|constructor]]]; (split; [|done]); cbn.
    + by rewrite !lookup_insert_ne, lookup_insert_eq by auto.
    + by rewrite lookup_insert_ne, lookup_insert_eq by auto.
    + by rewrite lookup_insert_eq.
  - intros x Hx. pose proof (Hx 0 ltac:(lia)) as X0. rewrite Nat.add_0_r in X0.
    rewrite Hx3, Hx2, Hx1 by (done || apply Hx; lia). cbn. by rewrite lookup_insert_ne by done.
  - intros ? toks nat_. apply (reach_open _ c _ toks nat_ (creating w2 (created (n + 3)))).
    2: { cbn. rewrite lookup_insert_ne by auto. by rewrite lookup_singleton_ne. }
    apply (reach_open _ c _ toks nat_ (creating w1 (created (n + 2)))).
    2: { cbn. by rewrite lookup_singleton_ne. }
    rewrite <-insert_empty. apply (reach_open _ c _ toks nat_ (creating w0 (created (n + 1)))); [|done].
    by apply (reach_new (creating w c)).
Qed.
End Script022.
