(* ===== verification/Instances.v ===== *)
(** * Concrete library functions

    Instances of the library interfaces, used only to evaluate the development
    on concrete inputs: they show that the laws assumed of ethereumjs-util and
    ethers can hold together.  The digest is a padded 24-bit checksum, not Keccak; [getAddress] lower-cases instead of checksumming. *)

From S2P Require Import Prelude Buffers MerkleTree BalanceTree Evm.
From Stdlib Require Import Strings.Byte Strings.Ascii.

Definition checksum (b : Buffer) : Buffer :=
  be_bytes 3 (foldl (fun h x => Z.land (5 * h + Z.of_N (Byte.to_N x) + 1) 16777215)%Z
                    (Z.of_nat (length b)) b) ++ replicate 29 Byte.x00.

#[export] Program Instance test_ethereumjs : EthereumJsUtil := {
  keccak256 := checksum;
  bufferToHex b := "0x" +:+ hex b
}.
Next Obligation. intros b. unfold checksum. by rewrite length_app, be_bytes_length. Qed.
Next Obligation. done. Qed.

Definition test_getAddress (s : string) : option string :=
  (fun b => "0x" +:+ hex b) <$> addressBytes s.

Definition be_value (b : Buffer) : Z :=
  foldl (fun z x => (256 * z + Z.of_N (Byte.to_N x))%Z) 0%Z b.

(** Decimal strings, and hexadecimal strings with an even number of digits. *)
Definition test_BigNumber_from (s : string) : option Z :=
  match decimal s with Some z => Some z | None =>
  match s with
  | String c1 (String c2 digits) =>
      if decide (String c1 (String c2 EmptyString) = "0x")
      then Some (be_value (from_hex digits)) else None
  | _ => None
  end end.

Definition test_toHexString (z : Z) : string :=
  "0x" +:+ hex (be_bytes (S (Z.to_nat (Z.log2 z / 8))) z).

Definition test_solidityKeccak256 (i : Z) (a : string) (m : Z) : option string :=
  if decide (uint256 i /\ uint256 m) then
    bs ← addressBytes a; Some ("0x" +:+ hex (keccak256 (encodePacked i bs m)))
  else None.

Lemma addressBytes_hex b : length b = 20 -> addressBytes ("0x" +:+ hex b) = Some b.
Proof.
  intros Hb. change ("0x" +:+ hex b) with (String "0"%char (String "x"%char (hex b))).
  unfold addressBytes. rewrite from_hex_hex, hex_length, Hb. done.
Qed.

Lemma test_getAddress_Some s a :
  test_getAddress s = Some a -> exists b, length b = 20 /\ a = "0x" +:+ hex b /\ addressBytes a = Some b.
Proof.
  unfold test_getAddress. destruct (addressBytes s) as [b|] eqn:E; simpl; [|done].
  intros [= <-]. exists b. pose proof (addressBytes_length_20 s b E).
  split_and!; [done..|by apply addressBytes_hex].
Qed.

Lemma be_value_snoc b x : be_value (b ++ [x]) = (256 * be_value b + Z.of_N (Byte.to_N x))%Z.
Proof. unfold be_value. by rewrite foldl_app. Qed.

Lemma byte_of_Z_value z : Z.of_N (Byte.to_N (byte_of_Z z)) = (z mod 256)%Z.
Proof.
  unfold byte_of_Z. pose proof (Z.mod_pos_bound z 256 ltac:(lia)).
  destruct (Byte.of_N (Z.to_N (z mod 256))) eqn:E.
  - apply Byte.to_of_N_iff in E. lia.
  - apply Byte.of_N_None_iff in E. lia.
Qed.

Lemma be_value_be_bytes n z :
  (0 <= z < 256 ^ Z.of_nat n)%Z -> be_value (be_bytes n z) = z.
Proof.
  revert z. induction n as [|n IH]; intros z Hz.
  { simpl in Hz. assert (z = 0)%Z as -> by lia. done. }
  change (be_bytes (S n) z) with (be_bytes n (z / 256) ++ [byte_of_Z z]).
  rewrite be_value_snoc, byte_of_Z_value, IH.
  - pose proof (Z.div_mod z 256). lia.
  - rewrite Nat2Z.inj_succ, Z.pow_succ_r in Hz by lia. split; [apply Z.div_pos; lia|].
    apply Z.div_lt_upper_bound; lia.
Qed.

Lemma test_roundtrip z : (0 <= z)%Z -> test_BigNumber_from (test_toHexString z) = Some z.
Proof.
  intros Hz. unfold test_toHexString.
  set (n := S (Z.to_nat (Z.log2 z / 8))).
  change ("0x" +:+ hex (be_bytes n z)) with (String "0"%char (String "x"%char (hex (be_bytes n z)))).
  unfold test_BigNumber_from. change (decimal _) with (@None Z). cbv iota.
  rewrite decide_True by done.
  rewrite from_hex_hex, be_value_be_bytes; [done|]. split; [done|].
  destruct (decide (z = 0)%Z) as [->|Hz0]; [apply Z.pow_pos_nonneg; lia|].
  destruct (Z.log2_spec z) as [_ Hlt]; [lia|].
  eapply Z.lt_le_trans; [exact Hlt|].
  replace 256%Z with (2 ^ 8)%Z by done. rewrite <-Z.pow_mul_r by lia.
  apply Z.pow_le_mono_r; [lia|]. subst n.
  pose proof (Z.log2_nonneg z). pose proof (Z.div_pos (Z.log2 z) 8).
  pose proof (Z.div_mod (Z.log2 z) 8). pose proof (Z.mod_pos_bound (Z.log2 z) 8). lia.
Qed.

Lemma test_isAddress s :
  bool_decide (is_Some (test_getAddress s)) = true <-> is_Some (test_getAddress s).
Proof. apply bool_decide_eq_true. Qed.

Lemma test_bytes s a : test_getAddress s = Some a -> is_Some (addressBytes a).
Proof. intros (b & _ & _ & E)%test_getAddress_Some. by eexists. Qed.

Lemma test_idemp s a : test_getAddress s = Some a -> test_getAddress a = Some a.
Proof. intros (b & Hb & -> & E)%test_getAddress_Some. unfold test_getAddress. by rewrite E. Qed.

Lemma test_canonical s s' a a' :
  test_getAddress s = Some a -> test_getAddress s' = Some a' ->
  addressBytes a = addressBytes a' -> a = a'.
Proof.
  intros (b & ? & -> & E)%test_getAddress_Some (b' & ? & -> & E')%test_getAddress_Some.
  congruence.
Qed.

Lemma test_packed i a bs m :
  uint256 i -> uint256 m -> test_getAddress a = Some a -> addressBytes a = Some bs ->
  test_solidityKeccak256 i a m = Some ("0x" +:+ hex (keccak256 (encodePacked i bs m))).
Proof.
  intros Hi Hm _ Ha. unfold test_solidityKeccak256.
  rewrite decide_True by done. by rewrite Ha.
Qed.

#[export] Instance test_ethers : Ethers := {
  isAddress s := bool_decide (is_Some (test_getAddress s));
  getAddress := test_getAddress;
  BigNumber_from := test_BigNumber_from;
  toHexString := test_toHexString;
  solidityKeccak256 := test_solidityKeccak256;
  isAddress_spec := test_isAddress;
  getAddress_bytes := test_bytes;
  getAddress_idemp := test_idemp;
  getAddress_canonical := test_canonical;
  BigNumber_toHexString := test_roundtrip;
  solidityKeccak256_spec := test_packed
}.
