(* ===== verification/AirdropWitnesses.v ===== *)
(** * The airdrop theorems on a concrete input

    Each lemma applies one theorem to a three-account airdrop, evaluated with the
    library functions of Instances.v: the hypotheses can hold together. *)

From S2P Require Import Prelude Buffers MerkleTree BalanceTree Instances.
From S2P Require Import ParseBalanceMap MerkleDistributor.

(** ** A token and a proof verifier *)

Notation ledger := (gmap string Z).

Definition ledger_balance (t : ledger) (a : string) : Z := default 0%Z (t !! a).

Definition ledger_transfer (t : ledger) (src dst : string) (m : Z) : result (ledger * bool) :=
  require (negb (bool_decide (src = zero_address))) "ERC20: transfer from the zero address" ;;
  require (negb (bool_decide (dst = zero_address))) "ERC20: transfer to the zero address" ;;
  if decide (0 <= m <= ledger_balance t src)%Z then
    let t := <[src := (ledger_balance t src - m)%Z]> t in
    Ok (<[dst := (ledger_balance t dst + m)%Z]> t, true)
  else Err "ERC20: transfer amount exceeds balance".

Lemma ledger_transfer_spec t src dst m :
  src <> zero_address -> dst <> zero_address -> src <> dst -> (0 <= m <= ledger_balance t src)%Z ->
  exists t', ledger_transfer t src dst m = Ok (t', true) /\
    ledger_balance t' src = (ledger_balance t src - m)%Z /\
    ledger_balance t' dst = (ledger_balance t dst + m)%Z /\
    forall a, a <> src -> a <> dst -> ledger_balance t' a = ledger_balance t a.
Proof.
  intros Hs Hd Hne Hm. unfold ledger_transfer. rewrite !bool_decide_eq_false_2 by done. cbn.
  rewrite decide_True by done.
  eexists; split; [done|]. unfold ledger_balance. split_and!.
  - rewrite lookup_insert_ne by done. by rewrite lookup_insert_eq.
  - rewrite lookup_insert_eq. simpl. by rewrite lookup_insert_ne.
  - intros a H1 H2. by rewrite !lookup_insert_ne.
Qed.

#[export] Instance ledger_token : ERC20 ledger := {
  balanceOf := ledger_balance;
  transfer := ledger_transfer;
  transfer_spec := ledger_transfer_spec
}.

Definition test_processProof (proof : list Buffer) (leaf : Buffer) : Buffer :=
  foldl (fun computed p =>
           if decide (buf_le computed p) then keccak256 (computed ++ p)
           else keccak256 (p ++ computed)) leaf proof.

Lemma test_verify_spec proof root leaf :
  bool_decide (test_processProof proof leaf = root) = true <->
  test_processProof proof leaf = root.
Proof. apply bool_decide_eq_true. Qed.

#[export] Instance test_merkle_proof : MerkleProofLib := {
  MerkleProof_verify proof root leaf := bool_decide (test_processProof proof leaf = root);
  MerkleProof_verify_spec := test_verify_spec
}.

(** ** The airdrop *)

Definition alice := "0x1111111111111111111111111111111111111111".
Definition bob := "0x2222222222222222222222222222222222222222".
Definition carol := "0x3333333333333333333333333333333333333333".
Definition dave := "0x4444444444444444444444444444444444444444".

Definition entry_alice := {| address := alice; earnings := "0xc8"; reasons := "" |}.
Definition entry_bob := {| address := bob; earnings := "0x012c"; reasons := "socks,user" |}.
Definition entry_carol := {| address := carol; earnings := "0xfa"; reasons := "" |}.

Definition input := [entry_carol; entry_alice; entry_bob].
Definition balances :=
  [{| account := alice; amount := 200 |}; {| account := bob; amount := 300 |};
   {| account := carol; amount := 250 |}].

Definition tree : MerkleTree :=
  match new_BalanceTree balances with
  | Ok t => t
  | Err _ => {| elements := []; bufferElementPositionIndex := ∅; layers := [] |}
  end.
Definition leaves : list Buffer :=
  match toNodes 0 balances with Ok ns => ns | Err _ => [] end.
Definition troot : Buffer := default [] (getRoot tree).
Definition leaf0 : Buffer := default [] (leaves !! 0).
Definition info : MerkleDistributorInfo :=
  match parseBalanceMap (NewFormats input) with
  | Ok i => i
  | Err _ => {| merkleRoot := ""; tokenTotal := ""; claims := ∅ |}
  end.

Lemma getProof_complete_witness :
  exists pf r, getProof tree leaf0 = Ok pf /\ getRoot tree = Some r /\
    fold_proof leaf0 pf = Some r /\ length pf <= Nat.log2_up (length (elements tree)).
Proof.
  apply (getProof_complete leaves tree leaf0); [vm_compute; reflexivity|].
  apply list_elem_of_lookup. exists 0. vm_compute. reflexivity.
Defined.

Lemma getProof_missing_witness :
  getProof tree [] = Err "Element does not exist in Merkle tree".
Proof.
  apply (getProof_missing leaves tree []); [vm_compute; reflexivity|].
  apply (bool_decide_unpack _). vm_compute. exact I.
Defined.

Lemma new_MerkleTree_canonical_witness :
  new_MerkleTree (leaf0 :: leaves) = new_MerkleTree leaves.
Proof.
  apply (new_MerkleTree_canonical (leaf0 :: leaves) leaves).
  intros x. split.
  - intros [->|?]%elem_of_cons; [|done].
    apply list_elem_of_lookup. exists 0. vm_compute. reflexivity.
  - intros ?. by right.
Defined.

Lemma verifyProof_complete_witness :
  exists pf r, balance_getProof tree 1 bob 300 = Ok (bufArrToHexArr pf) /\
    getRoot tree = Some r /\ verifyProof 1 bob 300 pf r = Ok true.
Proof.
  apply (verifyProof_complete balances tree 1 {| account := bob; amount := 300 |});
    vm_compute; reflexivity.
Defined.

Definition bob_proof : list Buffer :=
  match balance_getProof tree 1 bob 300 with
  | Ok p => (fun h => from_hex (substr2 h)) <$> p
  | Err _ => []
  end.

Lemma balances_ok b : b ∈ balances -> entry_ok b.
Proof.
  intros Hb. repeat (apply elem_of_cons in Hb as [->|Hb]; [split; [by vm_compute|done]|]).
  by apply elem_of_nil in Hb.
Qed.

Lemma bob_proof_length p : p ∈ bob_proof -> length p = 32.
Proof.
  assert (Forall (fun p : Buffer => length p = 32) bob_proof) as Hf
    by (apply (bool_decide_unpack _); vm_compute; exact I).
  rewrite Forall_forall in Hf. apply Hf.
Qed.

Lemma verifyProof_sound_witness :
  balances !! Z.to_nat 1 = Some {| account := bob; amount := 300 |} \/
  exists q q', q ∈ claim_queries 1 bob 300 bob_proof /\ q' ∈ build_queries balances tree /\
    collision q q'.
Proof.
  apply (verifyProof_sound balances tree troot 1 bob 300 bob_proof);
    [apply balances_ok|done|done|done|by vm_compute|apply bob_proof_length|
     vm_compute; reflexivity..].
Defined.

Lemma parseBalanceMap_claims_verify_witness :
  exists root, merkleRoot info = bufferToHex root /\
    forall a c, claims info !! a = Some c -> exists m pf,
      (0 < m)%Z /\ claim_amount c = toHexString m /\ claim_proof c = bufArrToHexArr pf /\
      verifyProof (Z.of_nat (claim_index c)) a m pf root = Ok true.
Proof.
  apply (parseBalanceMap_claims_verify (NewFormats input) info). vm_compute. reflexivity.
Defined.

Lemma parseBalanceMap_conserves_witness :
  exists es, Forall2 (fun e kd => parse_entry e = Some kd) input es /\ NoDup es.*1 /\
    (forall a, is_Some (claims info !! a) <-> a ∈ es.*1) /\
    (forall a d c, (a, d) ∈ es -> claims info !! a = Some c ->
       claim_amount c = toHexString (data_amount d) /\ claim_flags c = data_flags d /\
       claim_index c < length input) /\
    (forall a a' c c', claims info !! a = Some c -> claims info !! a' = Some c' ->
       claim_index c = claim_index c' -> a = a') /\
    tokenTotal info = toHexString (foldr Z.add 0%Z (data_amount <$> es.*2)).
Proof. apply (parseBalanceMap_conserves input info). vm_compute. reflexivity. Defined.

Lemma parseBalanceMap_permutation_witness :
  parseBalanceMap (NewFormats [entry_alice; entry_carol; entry_bob]) = Ok info.
Proof.
  apply (parseBalanceMap_permutation input); [apply perm_swap|vm_compute; reflexivity].
Defined.

Definition data_carol : gmap string AccountData :=
  match dataByAddress [entry_carol] with Ok m => m | Err _ => ∅ end.

Lemma parseBalanceMap_rejects_witness :
  parseBalanceMap (NewFormats ([entry_carol] ++ entry_carol :: [entry_bob]))
  = Err ("Duplicate address: " +:+ carol).
Proof.
  apply (parseBalanceMap_rejects [entry_carol] entry_carol [entry_bob] data_carol);
    [vm_compute; reflexivity|by vm_compute|].
  apply (bool_decide_unpack _). vm_compute. exact I.
Defined.

Definition distributor := new_Distributor dave troot.

Lemma isClaimed_bitmap_witness :
  isClaimed (setClaimed distributor 257) 1
    = bool_decide (257 = 1)%Z || isClaimed distributor 1 /\
  isClaimed (new_Distributor (self distributor) (root distributor)) 1 = false.
Proof. apply (isClaimed_bitmap distributor 257 1); lia. Defined.

Definition funds : ledger := {[ dave := 1000%Z ]}.
Definition bob_claim : ClaimCall :=
  {| c_index := 1; c_account := bob; c_amount := 300; c_proof := bob_proof |}.
Definition after_claim : Distributor * ledger :=
  match claim distributor funds bob_claim with Ok s => s | Err _ => (distributor, ∅) end.

Lemma claim_sound_witness :
  balances !! Z.to_nat (c_index bob_claim)
    = Some {| account := c_account bob_claim; amount := c_amount bob_claim |} \/
  exists q q', q ∈ claim_queries (c_index bob_claim) (c_account bob_claim)
                     (c_amount bob_claim) (c_proof bob_claim) /\
    q' ∈ build_queries balances tree /\ collision q q'.
Proof.
  apply (claim_sound balances tree distributor funds bob_claim after_claim.1 after_claim.2).
  - apply balances_ok.
  - done.
  - vm_compute; reflexivity.
  - vm_compute; reflexivity.
  - vm_compute; split; [discriminate|reflexivity].
  - vm_compute; split; [discriminate|reflexivity].
  - vm_compute; reflexivity.
  - apply bob_proof_length.
  - vm_compute; reflexivity.
Defined.

Definition amount_fits (e : NewFormat) : bool :=
  match BigNumber_from (earnings e) with
  | Some m => (0 <=? m)%Z && (m <? UINT256)%Z
  | None => true
  end.

Lemma input_amounts b m : b ∈ input -> BigNumber_from (earnings b) = Some m -> uint256 m.
Proof.
  intros Hb Hm. assert (forallb amount_fits input = true) as Hf by (vm_compute; reflexivity).
  rewrite forallb_forall in Hf. specialize (Hf b). unfold amount_fits in Hf.
  rewrite Hm in Hf. apply list_elem_of_In, Hf in Hb. unfold uint256. to_props. done.
Qed.

Lemma distribution_completes_witness :
  exists calls d' (tok' : ledger),
    Forall2 (fun ac call => claim_call ac.1 ac.2 = Some call) (map_to_list (claims info)) calls /\
    claim_all (new_Distributor dave troot, funds) calls = Ok (d', tok') /\
    balanceOf tok' dave = (balanceOf funds dave - 750)%Z /\
    forall call, call ∈ calls ->
      balanceOf tok' (c_account call) = (balanceOf funds (c_account call) + c_amount call)%Z.
Proof.
  apply (distribution_completes (NewFormats input) info dave troot funds 750);
    [vm_compute; reflexivity|apply input_amounts|done|vm_compute; reflexivity|by vm_compute|
     vm_compute; reflexivity..|done|done].
Defined.
