(* ===== verification/ChainInstances.v ===== *)
(** * Concrete interfaces of the chain

    Instances of the ABI codec, the OpenZeppelin parts, ethers' number parsing, a
    network and the function selectors, over the library functions of Instances.v.
    They show that the laws the theorems rely on can hold together, and let the
    theorems be applied to concrete worlds. *)

From stdpp Require Import countable.
From S2P Require Import Prelude Buffers MerkleTree BalanceTree Evm.
From S2P Require Import Timelock HuskyToken FairLaunch Lending Workers Chain ChainTheory Script.
From S2P Require Import Instances.
From Stdlib Require Import Strings.Byte Strings.Ascii.

(** ** The ABI codec: a self-describing encoding *)

Fixpoint typed (v : AbiValue) (t : AbiType) {struct v} : bool :=
  match v, t with
  | VAddress a, TAddress => bool_decide (getAddress a = Some a)
  | VUint z, TUint n => (0 <=? z)%Z && (z <? 2 ^ n)%Z
  | VBool _, TBool | VString _, TString | VBytes _, TBytes => true
  | VArray vs, TArray t => forallb (fun v => typed v t) vs
  | VTuple vs, TTuple ts =>
      (fix go vs ts {struct vs} := match vs, ts with
        | [], [] => true
        | v :: vs, t :: ts => typed v t && go vs ts
        | _, _ => false
        end) vs ts
  | _, _ => false
  end.

Fixpoint typed_all (vs : list AbiValue) (ts : list AbiType) : bool :=
  match vs, ts with
  | [], [] => true
  | v :: vs, t :: ts => typed v t && typed_all vs ts
  | _, _ => false
  end.

Lemma typed_has_type v : forall t, typed v t = true <-> has_type v t.
Proof.
  revert v. fix IH 1. intros v t.
  destruct v as [a|z|b|s|b|vs|vs]; destruct t as [|n| | | |t|ts]; cbn;
    try (split; [discriminate|inversion 1]); try (split; [intros; constructor|reflexivity]).
  - rewrite bool_decide_eq_true. split; [by constructor|by inversion 1].
  - rewrite andb_true_iff, Z.leb_le, Z.ltb_lt. split; [by constructor|by inversion 1].
  - enough (forallb (fun v => typed v t) vs = true <-> forall v, v ∈ vs -> has_type v t) as ->.
    { split; [by constructor|by inversion 1]. }
    induction vs as [|v vs IHvs]; cbn.
    + split; [by intros _ v ?%elem_of_nil|done].
    + rewrite andb_true_iff, IHvs, (IH v t). split.
      * intros [Hv Hvs] x [->|Hx]%elem_of_cons; auto.
      * intros Hall. split; [apply Hall; by left|]. intros x Hx. apply Hall. by right.
  - transitivity (have_types vs ts); [|split; [by constructor|by inversion 1]].
    revert ts. induction vs as [|v vs IHvs]; intros [|t ts].
    + split; [constructor|done].
    + split; [done|by inversion 1].
    + split; [done|by inversion 1].
    + rewrite andb_true_iff, IHvs, (IH v t). split; [by intros []; constructor|by inversion 1].
Qed.

Lemma typed_all_have_types vs ts : typed_all vs ts = true <-> have_types vs ts.
Proof.
  revert ts. induction vs as [|v vs IH]; intros [|t ts]; cbn; try (split; [done|by inversion 1]).
  - split; [constructor|done].
  - rewrite andb_true_iff, IH, typed_has_type. split; [by intros []; constructor|by inversion 1].
Qed.

Definition Leaf : Type := string + (Z + Buffer).

Fixpoint to_tree (v : AbiValue) : gen_tree Leaf :=
  match v with
  | VAddress a => GenNode 0 [GenLeaf (inl a)]
  | VUint z => GenNode 1 [GenLeaf (inr (inl z))]
  | VBool b => GenNode (if b then 2 else 3) []
  | VString s => GenNode 4 [GenLeaf (inl s)]
  | VBytes b => GenNode 5 [GenLeaf (inr (inr b))]
  | VArray vs => GenNode 6 (to_tree <$> vs)
  | VTuple vs => GenNode 7 (to_tree <$> vs)
  end.

Fixpoint of_tree (t : gen_tree Leaf) : AbiValue :=
  match t with
  | GenNode 0 [GenLeaf (inl a)] => VAddress a
  | GenNode 1 [GenLeaf (inr (inl z))] => VUint z
  | GenNode 2 [] => VBool true
  | GenNode 4 [GenLeaf (inl s)] => VString s
  | GenNode 5 [GenLeaf (inr (inr b))] => VBytes b
  | GenNode 6 ts => VArray (of_tree <$> ts)
  | GenNode 7 ts => VTuple (of_tree <$> ts)
  | _ => VBool false
  end.

Lemma of_to_tree v : of_tree (to_tree v) = v.
Proof.
  revert v. fix IH 1. intros [a|z|[]|s|b|vs|vs]; try reflexivity; cbn; f_equal;
    (induction vs as [|v vs IHvs]; [reflexivity|]; cbn; rewrite IH; f_equal; exact IHvs).
Qed.

#[export] Instance abi_value_eq_dec : EqDecision AbiValue.
Proof. refine (inj_eq_dec to_tree). intros x y E. by rewrite <-(of_to_tree x), E, of_to_tree. Defined.

#[export] Instance abi_value_countable : Countable AbiValue :=
  inj_countable' to_tree of_tree of_to_tree.

Fixpoint pos_bytes (p : positive) : Buffer :=
  match p with
  | xH => [x01]
  | xO p => x00 :: pos_bytes p
  | xI p => x02 :: pos_bytes p
  end.

Fixpoint bytes_pos (b : Buffer) : positive :=
  match b with
  | x00 :: b => xO (bytes_pos b)
  | x02 :: b => xI (bytes_pos b)
  | _ => xH
  end.

Lemma bytes_pos_bytes p : bytes_pos (pos_bytes p) = p.
Proof. induction p as [p IH|p IH|]; cbn; congruence. Qed.

Definition test_encode (_ : list AbiType) (vs : list AbiValue) : Buffer := pos_bytes (countable.encode vs).

Definition test_decode (ts : list AbiType) (b : Buffer) : option (list AbiValue) :=
  vs ← countable.decode (bytes_pos b); if typed_all vs ts then Some vs else None.

Lemma test_decode_encode ts vs : have_types vs ts -> test_decode ts (test_encode ts vs) = Some vs.
Proof.
  intros Ht%typed_all_have_types. unfold test_decode, test_encode.
  rewrite bytes_pos_bytes, countable.decode_encode. cbn. by rewrite Ht.
Qed.

Lemma test_decode_typed ts b vs : test_decode ts b = Some vs -> have_types vs ts.
Proof.
  unfold test_decode. intros (xs & _ & Hr)%bind_Some. destruct (typed_all xs ts) eqn:E; [|done].
  injection Hr as <-. by apply typed_all_have_types.
Qed.

#[export] Instance test_abi : AbiCoder := {
  abi_encode := test_encode;
  abi_decode := test_decode;
  abi_decode_encode := test_decode_encode;
  abi_decode_typed := test_decode_typed
}.

(** ** OpenZeppelin: balances and allowances as maps, the guard as a flag *)

Record TestErc20 := {
  bal : gmap string Z;
  supply : Z;
  allow : gmap (string * string) Z
}.

Definition test_balanceOf (t : TestErc20) (a : address) : Z := default 0%Z (bal t !! a).

Definition test_allowance (t : TestErc20) (o s : address) : Z := default 0%Z (allow t !! (o, s)).

Definition test_approve (t : TestErc20) (o s : address) (v : Z) : result TestErc20 :=
  require (bool_decide (o <> zero_address)) "ERC20: approve from the zero address" ;;
  require (bool_decide (s <> zero_address)) "ERC20: approve to the zero address" ;;
  Ok {| bal := bal t; supply := supply t; allow := <[ (o, s) := v ]> (allow t) |}.

Definition test_mint (t : TestErc20) (a : address) (v : Z) : result TestErc20 :=
  require (bool_decide (a <> zero_address)) "ERC20: mint to the zero address" ;;
  require (supply t + v <? UINT256)%Z "SafeMath: addition overflow" ;;
  Ok {| bal := <[ a := (test_balanceOf t a + v)%Z ]> (bal t); supply := (supply t + v)%Z;
        allow := allow t |}.

Definition test_transfer (t : TestErc20) (from to : address) (v : Z) : result TestErc20 :=
  require (v <=? test_balanceOf t from)%Z "ERC20: transfer amount exceeds balance" ;;
  let b := <[ from := (test_balanceOf t from - v)%Z ]> (bal t) in
  Ok {| bal := <[ to := (default 0 (b !! to) + v)%Z ]> b; supply := supply t; allow := allow t |}.

Definition test_burn (t : TestErc20) (a : address) (v : Z) : result TestErc20 :=
  require (v <=? test_balanceOf t a)%Z "ERC20: burn amount exceeds balance" ;;
  Ok {| bal := <[ a := (test_balanceOf t a - v)%Z ]> (bal t); supply := (supply t - v)%Z;
        allow := allow t |}.

Lemma test_approve_spec t o s v :
  o <> zero_address -> s <> zero_address -> exists t', test_approve t o s v = Ok t' /\
    (forall a, test_balanceOf t' a = test_balanceOf t a) /\
    (forall o' s', test_allowance t' o' s'
                   = if decide (o' = o /\ s' = s) then v else test_allowance t o' s').
Proof.
  intros Ho Hs. unfold test_approve. rewrite !bool_decide_eq_true_2 by done.
  eexists. split; [reflexivity|]. split; [done|]. intros o' s'. unfold test_allowance. cbn.
  case_decide as E; [destruct E as [-> ->]; by rewrite lookup_insert_eq|].
  rewrite lookup_insert_ne; [done|]. intros [= -> ->]. by apply E.
Qed.

Lemma test_approve_inv t o s v t' : test_approve t o s v = Ok t' ->
  (forall a, test_balanceOf t' a = test_balanceOf t a) /\
  (forall o' s', test_allowance t' o' s'
                 = if decide (o' = o /\ s' = s) then v else test_allowance t o' s').
Proof.
  intros Hr. assert (o <> zero_address /\ s <> zero_address) as [Ho Hs].
  { unfold test_approve in Hr. inv_result. by to_props. }
  destruct (test_approve_spec t o s v Ho Hs) as (u & Hu & Hspec). rewrite Hu in Hr. by injection Hr as <-.
Qed.

Lemma test_mint_allowance t a v t' o s :
  test_mint t a v = Ok t' -> test_allowance t' o s = test_allowance t o s.
Proof. unfold test_mint. intros Hr. inv_result. by subst. Qed.

Lemma test_burn_allowance t a v t' o s :
  test_burn t a v = Ok t' -> test_allowance t' o s = test_allowance t o s.
Proof. unfold test_burn. intros Hr. inv_result. by subst. Qed.

Lemma test_transfer_allowance t from to v t' o s :
  test_transfer t from to v = Ok t' -> test_allowance t' o s = test_allowance t o s.
Proof. unfold test_transfer. intros Hr. inv_result. by subst. Qed.

Lemma test_mint_spec t a v t' : test_mint t a v = Ok t' ->
  supply t' = (supply t + v)%Z /\ test_balanceOf t' a = (test_balanceOf t a + v)%Z /\
  forall b, b <> a -> test_balanceOf t' b = test_balanceOf t b.
Proof.
  unfold test_mint. intros Hr. apply bind_Ok in Hr as (_ & _ & Hr). apply bind_Ok in Hr as (_ & _ & Hr).
  injection Hr as <-. split; [done|].
  split; [unfold test_balanceOf at 1; cbn; by rewrite lookup_insert_eq|].
  intros b Hb. unfold test_balanceOf at 1. cbn. by rewrite lookup_insert_ne.
Qed.

Lemma test_mint_ok t a v : a <> zero_address -> (0 <= v)%Z -> (supply t + v < UINT256)%Z ->
  is_ok (test_mint t a v) = true.
Proof.
  intros Ha _ Hs. unfold test_mint. rewrite bool_decide_eq_true_2 by done. cbn.
  apply Z.ltb_lt in Hs. by rewrite Hs.
Qed.

Lemma test_mint_bound t a v t' : test_mint t a v = Ok t' -> (supply t' < UINT256)%Z.
Proof. unfold test_mint. intros Hr. inv_result. to_props. by subst. Qed.

Lemma test_burn_spec t a v t' : test_burn t a v = Ok t' ->
  (v <= test_balanceOf t a)%Z /\ supply t' = (supply t - v)%Z /\
  test_balanceOf t' a = (test_balanceOf t a - v)%Z /\
  forall b, b <> a -> test_balanceOf t' b = test_balanceOf t b.
Proof.
  unfold test_burn. intros Hr. inv_result. to_props. subst. unfold test_balanceOf in *. cbn.
  rewrite lookup_insert_eq. split_and!; [done..|]. intros b Hb. by rewrite lookup_insert_ne.
Qed.

Lemma test_transfer_spec t from to v t' : test_transfer t from to v = Ok t' ->
  (v <= test_balanceOf t from)%Z /\ supply t' = supply t /\
  forall b, test_balanceOf t' b = (test_balanceOf t b - (if decide (b = from) then v else 0)
    + (if decide (b = to) then v else 0))%Z.
Proof.
  unfold test_transfer. intros Hr. inv_result. to_props. subst. split_and!; [done..|]. intros b.
  unfold test_balanceOf in *. cbn. destruct (decide (b = to)) as [->|Hb].
  - rewrite lookup_insert_eq. cbn. destruct (decide (to = from)) as [->|].
    + rewrite lookup_insert_eq. cbn. lia.
    + rewrite lookup_insert_ne by done. lia.
  - rewrite lookup_insert_ne by done. destruct (decide (b = from)) as [->|].
    + rewrite lookup_insert_eq. cbn. lia.
    + rewrite lookup_insert_ne by done. lia.
Qed.

Lemma test_transfer_ok t from to v : from <> zero_address -> to <> zero_address ->
  (0 <= v <= test_balanceOf t from)%Z -> is_ok (test_transfer t from to v) = true.
Proof. intros _ _ [_ Hv]. unfold test_transfer. by rewrite (proj2 (Z.leb_le _ _) Hv). Qed.

Definition test_enter (g : bool) : result bool :=
  if g then Err "ReentrancyGuard: reentrant call" else Ok true.

Lemma test_entered (g g' : bool) : test_enter g = Ok g' -> is_ok (test_enter g') = false.
Proof. destruct g; [done|]. by intros [= <-]. Qed.

#[export] Instance test_openzeppelin : OpenZeppelin := {
  Erc20 := TestErc20;
  erc20_new := {| bal := ∅; supply := 0; allow := ∅ |};
  erc20_balanceOf := test_balanceOf;
  erc20_totalSupply := supply;
  erc20_allowance := test_allowance;
  erc20_approve := test_approve;
  erc20_mint := test_mint;
  erc20_transfer := test_transfer;
  erc20_burn := test_burn;
  erc20_new_balance a := eq_refl;
  erc20_new_supply := eq_refl;
  erc20_approve_spec := test_approve_spec;
  erc20_mint_spec := test_mint_spec;
  erc20_mint_bound := test_mint_bound;
  erc20_burn_spec := test_burn_spec;
  erc20_transfer_spec := test_transfer_spec;
  erc20_transfer_ok := test_transfer_ok;
  erc20_mint_ok := test_mint_ok;
  erc20_approve_inv := test_approve_inv;
  erc20_new_allowance o s := eq_refl;
  erc20_mint_allowance := test_mint_allowance;
  erc20_burn_allowance := test_burn_allowance;
  erc20_transfer_allowance := test_transfer_allowance;
  Guard := bool;
  guard_new := false;
  guard_enter := test_enter;
  guard_leave _ := false;
  guard_new_ok := eq_refl;
  guard_entered := test_entered;
  guard_left _ _ _ := eq_refl
}.

(** ** Numbers *)

Fixpoint split_dot (s : string) : string * option string :=
  match s with
  | EmptyString => (EmptyString, None)
  | String c s =>
      if bool_decide (c = "."%char) then (EmptyString, Some s)
      else let '(a, b) := split_dot s in (String c a, b)
  end.

Definition test_parseEther (s : string) : option Z :=
  match split_dot s with
  | (a, None) => z ← decimal a; Some (z * 10 ^ 18)%Z
  | (a, Some b) =>
      x ← decimal a; y ← decimal b;
      let n := Z.of_nat (String.length b) in
      if (n <=? 18)%Z then Some (x * 10 ^ 18 + y * 10 ^ (18 - n))%Z else None
  end.

Lemma digit_dot c n : digit c = Some n -> c <> "."%char.
Proof. by intros Hc ->. Qed.

Lemma split_decimal_from s acc z : decimal_from acc s = Some z -> split_dot s = (s, None).
Proof.
  revert acc. induction s as [|c s IH]; intros acc Hs; [done|]. cbn in Hs.
  apply bind_Some in Hs as (n & Hc & Hs). cbn. rewrite bool_decide_eq_false_2 by by eapply digit_dot.
  by rewrite (IH _ Hs).
Qed.

Lemma split_fraction a b acc z :
  decimal_from acc a = Some z -> split_dot (a +:+ "." +:+ b) = (a, Some b).
Proof.
  revert acc. induction a as [|c a IH]; intros acc Hs; [done|]. cbn in Hs.
  apply bind_Some in Hs as (n & Hc & Hs). change (String c a +:+ "." +:+ b) with (String c (a +:+ "." +:+ b)).
  cbn [split_dot]. rewrite bool_decide_eq_false_2 by by eapply digit_dot. by rewrite (IH _ Hs).
Qed.

Lemma decimal_Some s z : decimal s = Some z -> decimal_from 0 s = Some z.
Proof. unfold decimal. by case_bool_decide. Qed.

Lemma test_BigNumber_decimal s z : decimal s = Some z -> test_BigNumber_from s = Some z.
Proof. unfold test_BigNumber_from. by intros ->. Qed.

Lemma test_parseEther_decimal s z :
  decimal s = Some z -> test_parseEther s = Some (z * 10 ^ 18)%Z.
Proof.
  intros Hs. unfold test_parseEther. rewrite (split_decimal_from _ _ _ (decimal_Some _ _ Hs)).
  by rewrite Hs.
Qed.

Lemma test_parseEther_fraction a b x y :
  decimal a = Some x -> decimal b = Some y -> (Z.of_nat (String.length b) <= 18)%Z ->
  test_parseEther (a +:+ "." +:+ b)
  = Some (x * 10 ^ 18 + y * 10 ^ (18 - Z.of_nat (String.length b)))%Z.
Proof.
  intros Ha Hb Hn. unfold test_parseEther. rewrite (split_fraction a b _ _ (decimal_Some _ _ Ha)).
  rewrite Ha, Hb. cbn [mbind option_bind]. by rewrite (proj2 (Z.leb_le _ _)).
Qed.

#[export] Instance test_numbers : EthersNumbers := {
  parseEther := test_parseEther;
  BigNumber_decimal := test_BigNumber_decimal;
  parseEther_decimal := test_parseEther_decimal;
  parseEther_fraction := test_parseEther_fraction
}.

(** ** A network *)

(** The address with a given numeric value. *)
Definition test_address (z : Z) : address := "0x" +:+ hex (be_bytes 20 z).

Definition TEST_CREATIONS : nat := 1000.

Definition test_created (n : nat) : address :=
  test_address (2 ^ 159 + Z.of_nat (n `min` (TEST_CREATIONS - 1))).

Definition test_mined (n : nat) : Block :=
  let z := Z.of_nat (n `min` TEST_CREATIONS) in
  {| number := 5000000 + z; timestamp := 1600000000 + z |}.

Lemma test_address_ok z : getAddress (test_address z) = Some (test_address z).
Proof.
  cbn [getAddress test_ethers]. unfold test_getAddress, test_address.
  by rewrite addressBytes_hex by apply be_bytes_length.
Qed.

Lemma test_address_inj x y :
  (0 <= x < 2 ^ 160)%Z -> (0 <= y < 2 ^ 160)%Z -> test_address x = test_address y -> x = y.
Proof.
  intros Hx Hy E. unfold test_address in E.
  apply (f_equal addressBytes) in E.
  rewrite !addressBytes_hex in E by apply be_bytes_length.
  apply (f_equal (fmap be_value)), (inj Some) in E. rewrite !be_value_be_bytes in E by done. done.
Qed.

Lemma test_zero_address : zero_address = test_address 0.
Proof. by vm_compute. Qed.

Lemma test_created_range n :
  (0 < 2 ^ 159 + Z.of_nat (n `min` (TEST_CREATIONS - 1)) < 2 ^ 160)%Z.
Proof.
  assert (Z.of_nat (n `min` (TEST_CREATIONS - 1)) <= 999)%Z by (unfold TEST_CREATIONS; lia).
  change (2 ^ 160)%Z with (2 ^ 159 + 2 ^ 159)%Z.
  assert (999 < 2 ^ 159)%Z by done. lia.
Qed.

Lemma test_created_nonzero n : test_created n <> zero_address.
Proof.
  rewrite test_zero_address. intros E. pose proof (test_created_range n) as Hr.
  apply test_address_inj in E; [lia|lia|done].
Qed.

Lemma test_created_inj i j :
  i < TEST_CREATIONS -> j < TEST_CREATIONS -> test_created i = test_created j -> i = j.
Proof.
  intros Hi Hj E. pose proof (test_created_range i). pose proof (test_created_range j).
  apply test_address_inj in E; [|lia..]. unfold TEST_CREATIONS in *. lia.
Qed.

Lemma test_mined_uint256 n :
  uint256 (number (test_mined n)) /\ uint256 (timestamp (test_mined n)).
Proof.
  cbn [number timestamp test_mined]. set (k := Z.of_nat (n `min` TEST_CREATIONS)).
  assert (0 <= k <= 1000)%Z as Hk by (unfold k, TEST_CREATIONS; lia). clearbody k.
  unfold uint256. assert (1700000000 < UINT256)%Z by done. lia.
Qed.

#[export] Program Instance test_network : Network := {
  network_name := "testnet";
  signer := test_address 1;
  proxyAdmin := test_address 2;
  mined := test_mined;
  created := test_created;
  max_creations := TEST_CREATIONS;
  created_nonzero := test_created_nonzero;
  created_inj := test_created_inj;
  signer_ok := test_address_ok 1
}.
Next Obligation. rewrite test_zero_address. by intros E%test_address_inj. Qed.
Next Obligation. intros n. apply test_address_ok. Qed.
Next Obligation. by intros E%test_address_inj. Qed.
Next Obligation. intros n. apply test_mined_uint256. Qed.
Next Obligation. intros n. apply test_mined_uint256. Qed.

#[export] Instance test_selectors : Selectors.
Proof. unfold Selectors. apply (bool_decide_unpack _). vm_compute. exact I. Qed.

(** ** The exchange's views *)

(** One router, one chef, and for every pool a pair of the token 11 and the token 23. *)
#[export] Program Instance test_pancake : Pancake := {
  router_WETH _ := Some (test_address 4);
  router_factory _ := Some (test_address 20);
  chef_lpToken _ _ := Some (test_address 21);
  chef_cake _ := Some (test_address 22);
  pair_token0 _ := Some (test_address 11);
  pair_token1 _ := Some (test_address 23)
}.
Next Obligation. intros p t [= <-]. apply test_address_ok. Qed.
Next Obligation. intros p t [= <-]. apply test_address_ok. Qed.
