(* ===== verification/MarketInstances.v ===== *)
(** * A concrete market

    Tokens, one pair with its router and a MasterChef, as an instance of the interfaces of
    Bank.v and Strategies.v that has the laws the theorems ask for. *)

From S2P Require Import Prelude Buffers MerkleTree BalanceTree Evm Uint HuskyMath Amm InterestModel.
From S2P Require Import HuskyToken FairLaunch Lending Workers Bank BankTheory BankValue Strategies Farm FarmTheory Protocol.
From S2P Require Import Instances ChainInstances.

Open Scope Z_scope.

Definition BASE : address := test_address 11.
Definition FARMING : address := test_address 23.
Definition LP : address := test_address 21.

Record Market := {
  bals : gmap (address * address) Z;
  pair0 : Z;                            (* the reserve of [BASE] *)
  pair1 : Z;
  lp_supply : Z;
  stakes : gmap (address * Z * address) Z
}.

Definition bal_of (w : Market) (tok a : address) : Z := default 0 (bals w !! (tok, a)).

(** A word of the EVM. *)
Definition word (v : Z) : result Z := require ((0 <=? v) && (v <? UINT256)) EmptyString ;; Ok v.

Definition set_bal (w : Market) (tok a : address) (v : Z) : Market :=
  {| bals := <[ (tok, a) := v ]> (bals w); pair0 := pair0 w; pair1 := pair1 w; lp_supply := lp_supply w;
     stakes := stakes w |}.

Definition set_pair (w : Market) (r0 r1 supply : Z) : Market :=
  {| bals := bals w; pair0 := r0; pair1 := r1; lp_supply := supply; stakes := stakes w |}.

Definition set_stake (w : Market) (k : address * Z * address) (v : Z) : Market :=
  {| bals := bals w; pair0 := pair0 w; pair1 := pair1 w; lp_supply := lp_supply w;
     stakes := <[ k := v ]> (stakes w) |}.

Definition credit (w : Market) (tok a : address) (v : Z) : result Market :=
  require (0 <=? v) EmptyString ;;
  x ← word (bal_of w tok a + v); Ok (set_bal w tok a x).

Definition debit (w : Market) (tok a : address) (v : Z) : result Market :=
  require (0 <=? v) EmptyString ;;
  x ← word (bal_of w tok a - v); Ok (set_bal w tok a x).

Definition move (w : Market) (tok from to : address) (v : Z) : result Market :=
  w ← debit w tok from v; credit w tok to v.

(** The constant-product pair of [BASE] and [FARMING]. *)
Definition reserve_in (w : Market) (tok : address) : Z * Z :=
  if bool_decide (tok = BASE) then (pair0 w, pair1 w) else (pair1 w, pair0 w).

Definition traded (w : Market) (tok : address) (i o : Z) : Market :=
  if bool_decide (tok = BASE) then set_pair w (pair0 w + i) (pair1 w - o) (lp_supply w)
  else set_pair w (pair0 w - o) (pair1 w + i) (lp_supply w).

Definition swap (m : Msg) (w : Market) (path : list address) (i o : Z) (to : address) : result Market :=
  match path with
  | [a; b] =>
      w ← move w a (self m) LP i; w ← move w b LP to o; Ok (traded w a i o)
  | _ => Err "PancakeLibrary: INVALID_PATH"
  end.

#[export] Instance test_ledger : Ledger Market := {
  balanceOf w tok a := word (bal_of w tok a);
  safeTransfer m w tok to v := move w tok (self m) to v;
  safeTransferFrom m w tok from to v := move w tok from to v;
  send_native w _ _ _ := Ok w;
  wrapped_deposit m w tok v := credit w tok (self m) v;
  wrapped_withdraw m w tok v := debit w tok (self m) v
}.

Definition chef_key (c : address) (pid : Z) (u : address) : address * Z * address := (c, pid, u).
Definition stake_of (w : Market) (c : address) (pid : Z) (u : address) : Z := default 0 (stakes w !! chef_key c pid u).

#[export] Instance test_exchange : Exchange Market := {
  safeApprove _ w _ _ _ := Ok w;
  approve _ w _ _ _ := Ok (true, w);
  transfer m w tok to v := w ← move w tok (self m) to v; Ok (true, w);
  pair_totalSupply w _ := word (lp_supply w);
  pair_getReserves w _ :=
    require ((0 <=? pair0 w) && (pair0 w <? 2 ^ 112) && (0 <=? pair1 w) && (pair1 w <? 2 ^ 112)) EmptyString ;;
    Ok (pair0 w, pair1 w);
  factory_getPair _ _ _ _ := Ok LP;
  chef_amount w c pid u := word (stake_of w c pid u);
  chef_deposit m w c pid v :=
    w ← move w LP (self m) c v; x ← word (stake_of w c pid (self m) + v);
    Ok (set_stake w (chef_key c pid (self m)) x);
  chef_withdraw m w c pid v :=
    w ← move w LP c (self m) v; x ← word (stake_of w c pid (self m) - v);
    Ok (set_stake w (chef_key c pid (self m)) x);
  swapExactTokensForTokens m w _ i least path to _ :=
    let '(rIn, rOut) := reserve_in w (default BASE (head path)) in
    o ← getAmountOut i rIn rOut;
    require (least <=? o) "PancakeRouter: INSUFFICIENT_OUTPUT_AMOUNT" ;;
    swap m w path i o to;
  swapTokensForExactTokens m w _ o most path to _ :=
    let '(rIn, rOut) := reserve_in w (default BASE (head path)) in
    i ← getAmountIn o rIn rOut;
    require (i <=? most) "PancakeRouter: EXCESSIVE_INPUT_AMOUNT" ;;
    swap m w path i o to;
  addLiquidity m w _ a b x y _ _ to _ :=
    let '(ra, rb) := reserve_in w a in
    best ← quote x ra rb;
    '(x, y) ← (if best <=? y then Ok (x, best) else z ← quote y rb ra; Ok (z, y));
    w ← move w a (self m) LP x; w ← move w b (self m) LP y;
    let minted := Z.min (x * lp_supply w / ra) (y * lp_supply w / rb) in
    w ← credit w LP to minted;
    let '(d0, d1) := if bool_decide (a = BASE) then (x, y) else (y, x) in
    Ok (minted, set_pair w (pair0 w + d0) (pair1 w + d1) (lp_supply w + minted));
  removeLiquidity m w _ a b l _ _ to _ :=
    let d0 := l * pair0 w / lp_supply w in
    let d1 := l * pair1 w / lp_supply w in
    w ← debit w LP (self m) l; w ← move w BASE LP to d0; w ← move w FARMING LP to d1;
    Ok (set_pair w (pair0 w - d0) (pair1 w - d1) (lp_supply w - l))
}.

(** ** The laws *)

Lemma word_Ok v x : word v = Ok x -> x = v /\ uint256 v.
Proof. unfold word, uint256. intros Hr. inv_result. to_props. subst. lia. Qed.

Lemma word_val v x : word v = Ok x -> word v = Ok v.
Proof. intros Hx. by destruct (word_Ok _ _ Hx) as [<- _]. Qed.

Lemma bal_of_set w tok a v tok' a' :
  bal_of (set_bal w tok a v) tok' a' = if decide (tok' = tok /\ a' = a) then v else bal_of w tok' a'.
Proof.
  unfold bal_of. cbn. case_decide as E; [destruct E as [-> ->]; by rewrite lookup_insert_eq|].
  rewrite lookup_insert_ne; [done|]. intros [= -> ->]. by apply E.
Qed.

Lemma credit_spec w tok a v w' : credit w tok a v = Ok w' ->
  0 <= v /\ uint256 (bal_of w tok a + v) /\ w' = set_bal w tok a (bal_of w tok a + v).
Proof. unfold credit. intros Hr. inv_result. to_props. subst. by match goal with A : word _ = Ok _ |- _ => destruct (word_Ok _ _ A) as [-> ?] end. Qed.

Lemma debit_spec w tok a v w' : debit w tok a v = Ok w' ->
  0 <= v /\ uint256 (bal_of w tok a - v) /\ w' = set_bal w tok a (bal_of w tok a - v).
Proof. unfold debit. intros Hr. inv_result. to_props. subst. by match goal with A : word _ = Ok _ |- _ => destruct (word_Ok _ _ A) as [-> ?] end. Qed.

Lemma move_spec w tok from to v w' : move w tok from to v = Ok w' ->
  0 <= v /\ stakes w' = stakes w /\ pair0 w' = pair0 w /\ pair1 w' = pair1 w /\ lp_supply w' = lp_supply w /\
  forall a, from <> to ->
    bal_of w' tok a = bal_of w tok a - (if decide (a = from) then v else 0) + (if decide (a = to) then v else 0) /\
    (a = to -> uint256 (bal_of w' tok a)) /\ (a = from -> uint256 (bal_of w' tok a)).
Proof.
  unfold move. intros Hr. apply bind_Ok in Hr as (w1 & (Hv & U1 & ->)%debit_spec & Hr).
  apply credit_spec in Hr as (_ & U2 & ->). split_and!; [done..|]. intros a Hne.
  rewrite !bal_of_set in *.
  destruct (decide (a = to)) as [->|Ha].
  - rewrite decide_True, (decide_False (P := to = from)) by auto.
    rewrite (decide_False (P := tok = tok /\ to = from)) in * by naive_solver.
    split; [lia|]. split; [done|]. intros ->. done.
  - rewrite (decide_False (P := tok = tok /\ a = to)) by naive_solver.
    destruct (decide (a = from)) as [->|Hf].
    + rewrite decide_True by done. split; [lia|]. done.
    + rewrite decide_False by naive_solver. split; [lia|]. done.
Qed.

Ltac market_ops :=
  repeat match goal with
  | A : move _ _ _ _ _ = Ok _ |- _ =>
      let S := fresh in let P0 := fresh in let P1 := fresh in let L := fresh in
      apply move_spec in A as (_ & S & P0 & P1 & L & _)
  | A : credit _ _ _ _ = Ok _ |- _ => apply credit_spec in A as (_ & _ & ->)
  | A : debit _ _ _ _ = Ok _ |- _ => apply debit_spec in A as (_ & _ & ->)
  end.

Lemma swap_stakes m w path i o to w' : swap m w path i o to = Ok w' -> stakes w' = stakes w.
Proof.
  unfold swap. destruct path as [|a [|b []]]; try done. intros Hr. inv_result. subst. market_ops.
  unfold traded. case_match; cbn; congruence.
Qed.

Lemma market_untraded (w w' : Market) : deal w w' -> stakes w' = stakes w.
Proof.
  intros Hd; destruct Hd as [m tok to v Hr|m tok a to v Hr|a to v Hr|m tok v Hr|m tok v Hr|m tok a v Hr|
    m tok a v ok Hr|m tok to v ok Hr|m r i o path to d Hr|m r o i path to d Hr|
    m r a b x y x0 y0 to d l Hr|m r a b l x0 y0 to d Hr]; cbn in Hr; unroll Hr; market_ops; try done.
  all: try (match goal with A : swap _ _ _ _ _ _ = _ |- _ => by apply swap_stakes in A end).
  all: cbn in *; congruence.
Qed.

#[export] Instance test_chef : Chef (M := Market).
Proof.
  split.
  - intros w c p u v Hr. cbn in Hr. apply word_Ok in Hr as [-> ?]. done.
  - intros m w c p v w' x Hr Hx. cbn in *. inv_result. subst w'. market_ops.
    match goal with A : word (stake_of ?w1 _ _ _ + _) = Ok _ |- _ =>
      assert (stake_of w1 c p (self m) = stake_of w c p (self m)) as E by (unfold stake_of; congruence);
      rewrite E in A; destruct (word_Ok _ _ A) as [-> _]; apply word_val in A end.
    destruct (word_Ok _ _ Hx) as [-> _]. unfold stake_of at 1, chef_key. cbn. by rewrite lookup_insert_eq.
  - intros m w c p v w' x Hr Hx. cbn in *. inv_result. subst w'. market_ops.
    match goal with A : word (stake_of ?w1 _ _ _ - _) = Ok _ |- _ =>
      assert (stake_of w1 c p (self m) = stake_of w c p (self m)) as E by (unfold stake_of; congruence);
      rewrite E in A; destruct (word_Ok _ _ A) as [-> _]; apply word_val in A end.
    destruct (word_Ok _ _ Hx) as [-> _]. unfold stake_of at 1, chef_key. cbn. by rewrite lookup_insert_eq.
  - intros w w' c p u Hd%market_untraded. cbn. unfold stake_of. by rewrite Hd.
  - intros w tok a v Hr. cbn in Hr. apply word_Ok in Hr as [-> ?]. done.
Qed.

Lemma word_uint v : uint256 v -> word v = Ok v.
Proof. unfold uint256, word. intros Hv. by rewrite (proj2 (Z.leb_le 0 v)), (proj2 (Z.ltb_lt v _)) by lia. Qed.

#[export] Instance test_plain tok me : PlainToken (M := Market) tok me.
Proof.
  split; cbn.
  - intros m w to v w' x <- Hto Hr Hx. apply word_Ok in Hx as [-> _].
    apply move_spec in Hr as (_ & _ & _ & _ & _ & Hb).
    destruct (Hb (self m)) as (E & _ & U); [done|]. rewrite decide_True, decide_False in E by auto.
    specialize (U eq_refl). rewrite word_uint by done. f_equal. lia.
  - intros m w from v w' x Hfrom Hr Hx. apply word_Ok in Hx as [-> _].
    apply move_spec in Hr as (_ & _ & _ & _ & _ & Hb).
    destruct (Hb me) as (E & U & _); [done|]. rewrite decide_False, decide_True in E by auto.
    specialize (U eq_refl). rewrite word_uint by done. f_equal. lia.
  - intros m w v w' x <- Hr Hx. apply word_Ok in Hx as [-> _]. apply credit_spec in Hr as (_ & U & ->).
    rewrite bal_of_set, decide_True by done. by apply word_uint.
  - intros m w t v w' Hne Hr. apply debit_spec in Hr as (_ & _ & ->).
    rewrite bal_of_set, decide_False; [done|]. intros [_ ?]. by apply Hne.
  - by intros w a b v w' [= <-].
Qed.

#[export] Instance test_pairs : Pairs (M := Market).
Proof.
  assert (forall w w', pays w w' -> pair0 w' = pair0 w /\ pair1 w' = pair1 w /\ lp_supply w' = lp_supply w) as Hp.
  { intros w w' [m tok to v Hr|m tok v Hr|a b v Hr]; cbn in Hr.
    - by apply move_spec in Hr as (_ & _ & ? & ? & ? & _).
    - by apply debit_spec in Hr as (_ & _ & ->).
    - by injection Hr as <-. }
  split; cbn.
  - intros w w' p (_ & _ & E)%Hp. by rewrite E.
  - intros w w' p (E1 & E2 & _)%Hp. by rewrite E1, E2.
  - intros w p r0 r1 Hr. inv_result. to_props. simplify_eq. unfold uint112. lia.
Qed.
