(* ===== verification/TokenWitnesses.v ===== *)
(** * The theorems on the governance token at concrete inputs *)

From S2P Require Import Prelude Buffers MerkleTree BalanceTree Evm Uint Sums HuskyToken HuskyVotes HuskyLocks.
From S2P Require Import Instances ChainInstances.

Open Scope Z_scope.

(** Every signature is by one signer. *)
#[export] Instance test_signatures : Signatures := {
  ecrecover _ _ _ _ := test_address 9;
  chainid := 56
}.

Definition TOKEN : address := test_address 71.
Definition DEPLOYER : address := test_address 1.
Definition ANN : address := test_address 2.
Definition REP : address := test_address 3.
Definition REP2 : address := test_address 4.

Definition at_block (n : Z) (a : address) : Msg :=
  {| sender := a; self := TOKEN; block := {| number := n; timestamp := 1700000000 + n |} |}.

Definition get (r : result HuskyToken) (d : HuskyToken) : HuskyToken := match r with Ok s => s | Err _ => d end.

Definition no_token : HuskyToken :=
  {| husky_erc20 := erc20_new; husky_owner := zero_address; totalLock := 0; startReleaseBlock := 0;
     endReleaseBlock := 1; manualMinted := 0; locks := ∅; lastUnlockBlock := ∅; delegates := ∅;
     checkpoints := ∅; numCheckpoints := ∅; nonces := ∅ |}.

(** Deployed in block 5 with a release from block 100 to 200. *)
Definition token0 : HuskyToken := get (new_HuskyToken (at_block 5 DEPLOYER) 100 200) no_token.

Definition run (n : Z) (a : address) (c : TokenCall) (s : HuskyToken) : HuskyToken :=
  get (token_call (at_block n a) s c) s.

(** Delegated in block 6, half of it sent away in block 8, and some of that in block 9. *)
Definition token6 : HuskyToken := run 6 DEPLOYER (Delegate REP) token0.
Definition token8 : HuskyToken := run 8 DEPLOYER (Transfer ANN (125000 * 10 ^ 18)) token6.
Definition token9 : HuskyToken := run 9 DEPLOYER (Transfer ANN 1) token8.

Lemma run_value r d : is_ok r = true -> r = Ok (get r d).
Proof. by destruct r. Qed.

(** The conditions of a step, evaluated: whether the call succeeds, not the state it
    leaves, whose normal form is large. *)
Ltac run_ok :=
  split; [vm_compute; discriminate|split; [vm_compute; reflexivity|split;
    [vm_compute; reflexivity|apply run_value; vm_compute; reflexivity]]].

Lemma past_votes_are_final_witness :
  getPriorVotes (at_block 10 ANN) token9 REP 7 = Ok (250000 * 10 ^ 18) /\
  getPriorVotes (at_block 10 ANN) token9 REP 8 = Ok (125000 * 10 ^ 18).
Proof.
  assert (new_HuskyToken (at_block 5 DEPLOYER) 100 200 = Ok token0) as H0 by (apply run_value; vm_compute; reflexivity).
  assert (token_step (token0, 5) (token6, 6)) as H6.
  { exists (at_block 6 DEPLOYER), (Delegate REP). run_ok. }
  assert (token_step (token6, 6) (token8, 8)) as H8.
  { exists (at_block 8 DEPLOYER), (Transfer ANN (125000 * 10 ^ 18)). run_ok. }
  assert (token_step (token8, 8) (token9, 9)) as H9.
  { exists (at_block 9 DEPLOYER), (Transfer ANN 1). run_ok. }
  assert (rtc (later 7) (token6, 6) (token9, 9)) as Hlater.
  { exact (rtc_l _ _ _ _ (conj H8 eq_refl) (rtc_once _ _ (conj H9 eq_refl))). }
  split.
  - etransitivity; [exact (past_votes_are_final (at_block 5 DEPLOYER) 100 200 token0 token6 6 7 token9 9
      (at_block 10 ANN) REP H0 (rtc_once _ _ H6) ltac:(lia) Hlater eq_refl)|vm_compute; reflexivity].
  - etransitivity; [exact (past_votes_are_final (at_block 5 DEPLOYER) 100 200 token0 token8 8 8 token9 9
      (at_block 10 ANN) REP H0 (rtc_l _ _ _ _ H6 (rtc_once _ _ H8)) ltac:(lia)
      (rtc_once _ _ (conj H9 eq_refl)) eq_refl)|vm_compute; reflexivity].
Defined.

(** ** Locks *)

Definition LOCKED : Z := 100000 * 10 ^ 18.

(** The owner locks a part of its tokens in block 10. *)
Definition token10 : HuskyToken := run 10 DEPLOYER (Lock DEPLOYER LOCKED) token0.

Lemma token0_balances a : 0 <= erc20_balanceOf (husky_erc20 token0) a.
Proof.
  assert (map_Forall (fun _ z => 0 <= z) (bal (husky_erc20 token0))) as Hall.
  { apply (bool_decide_unpack _). vm_compute. exact I. }
  change (0 <= test_balanceOf (husky_erc20 token0) a). unfold test_balanceOf.
  destruct (bal (husky_erc20 token0) !! a) as [z|] eqn:Ha; [exact (Hall a z Ha)|cbn; lia].
Qed.

Lemma token0_locks : locks_ok TOKEN 5 token0.
Proof.
  assert (locks token0 = ∅) as El by (vm_compute; reflexivity).
  assert (lastUnlockBlock token0 = ∅) as Eu by (vm_compute; reflexivity).
  assert (allow (husky_erc20 token0) = ∅) as Ea by (vm_compute; reflexivity).
  split.
  - vm_compute. reflexivity.
  - intros a. unfold lock_of. rewrite El, lookup_empty. cbn. lia.
  - vm_compute. discriminate.
  - vm_compute. reflexivity.
  - intros a. change (test_allowance (husky_erc20 token0) TOKEN a = 0). unfold test_allowance.
    rewrite Ea. by rewrite lookup_empty.
  - intros a. unfold last_unlock. rewrite Eu, lookup_empty. cbn [default from_option].
    split; vm_compute; discriminate.
  - split; [vm_compute; discriminate|vm_compute; reflexivity].
  - exact token0_balances.
Qed.

Lemma lock_step : holder_step TOKEN (token0, 5) (token10, 10).
Proof.
  exists (at_block 10 DEPLOYER), (Lock DEPLOYER LOCKED). split.
  - split; [reflexivity|discriminate|split; [vm_compute; discriminate|vm_compute; reflexivity]|discriminate].
  - split; [vm_compute; discriminate|split; [vm_compute; discriminate|split; [reflexivity|]]].
    apply run_value. vm_compute. reflexivity.
Qed.

Lemma locks_are_released_witness :
  exists s'' amount, unlock (at_block 200 DEPLOYER) token10 = Ok s'' /\ amount = LOCKED /\
    lock_of s'' DEPLOYER = 0.
Proof.
  destruct (locks_are_released TOKEN token0 5 token10 10 token0_locks (rtc_once _ _ lock_step))
    as (_ & _ & Hrelease).
  assert (lock_of token10 DEPLOYER = LOCKED) as El by (vm_compute; reflexivity).
  destruct (Hrelease (at_block 200 DEPLOYER)) as (s'' & x & Hr & _ & Hl & _ & Hall).
  - reflexivity.
  - discriminate.
  - discriminate.
  - discriminate.
  - vm_compute. discriminate.
  - vm_compute. reflexivity.
  - vm_compute. reflexivity.
  - assert (x = LOCKED) as Hx.
    { transitivity (lock_of token10 DEPLOYER); [|exact El]. apply Hall. vm_compute. discriminate. }
    exists s'', x. split; [exact Hr|split; [exact Hx|]].
    change (sender (at_block 200 DEPLOYER)) with DEPLOYER in Hl. rewrite Hl, El, Hx. apply Z.sub_diag.
Defined.

(** ** The two exceptions *)

(** Locked in block 10, the owner calls [unlock] in block 20: at the first block of the
    release a part is released at once. *)
Example early_unlock_example :
  canUnlockAmount (at_block 100 DEPLOYER) token10 DEPLOYER = Ok 0 /\
  canUnlockAmount (at_block 100 DEPLOYER) (run 20 DEPLOYER Unlock token10) DEPLOYER
    = Ok (LOCKED * 80 / 180).
Proof. split; vm_compute; reflexivity. Qed.

(** The deployer's tokens vote twice. *)
Example duplicated_votes_example :
  let s := run 8 ANN (Delegate REP2) (run 7 DEPLOYER (TransferAll ANN) token6) in
  erc20_totalSupply (husky_erc20 s) = 250000 * 10 ^ 18 /\
  currentVotes s REP = 250000 * 10 ^ 18 /\ currentVotes s REP2 = 250000 * 10 ^ 18.
Proof. vm_compute. auto. Qed.
