(* ===== verification/LendingWitnesses.v ===== *)
(** * The theorems on lending and farming at concrete inputs

    A vault that lends a token, a worker on a pair of it, and the users who open, kill and
    stake, over the market of MarketInstances.v. *)

From S2P Require Import Prelude Buffers MerkleTree BalanceTree Evm Uint Sums HuskyMath Amm InterestModel.
From S2P Require Import HuskyToken FairLaunch FairLaunchTheory Lending Staking StakingTheory.
From S2P Require Import Workers Bank BankTheory BankValue Strategies Farm FarmTheory Protocol.
From S2P Require Import Instances ChainInstances MarketInstances.

Open Scope Z_scope.

Definition VAULT : address := test_address 60.
Definition WORKER : address := test_address 61.
Definition ADD_STRAT : address := test_address 62.
Definition LIQ_STRAT : address := test_address 63.
Definition CONFIG : address := test_address 64.
Definition WORKER_CONFIG : address := test_address 65.
Definition ORACLE : address := test_address 66.
Definition MODEL : address := test_address 67.
Definition RELAYER : address := test_address 68.
Definition DEBT : address := test_address 69.
Definition FAIR : address := test_address 70.
Definition HUSKI : address := test_address 71.
Definition ALICE : address := test_address 72.
Definition BOB : address := test_address 73.
Definition LENDER : address := test_address 74.
Definition OWNER : address := test_address 1.
Definition CHEF : address := test_address 14.
Definition ROUTER : address := test_address 15.

Definition COIN : Z := 10 ^ 18.
Definition TODAY : Block := {| number := 1000; timestamp := 1700000000 |}.
Definition msg (a : address) : Msg := {| sender := a; self := VAULT; block := TODAY |}.

(** ** The terms *)

Definition lending_config : BasicVaultConfig :=
  {| bvc_owner := OWNER; minDebtSize := COIN; getReservePoolBps := 1000; getCloseBps := 0; getKillBps := 500;
     bvc_workers := {[ WORKER := WORKER_CONFIG ]}; interestModel := MODEL; wrappedNative := test_address 4;
     wNativeRelayer := RELAYER; fairLaunch := FAIR; maxKillBps := 500 |}.

Lemma lending_config_typed : 0 <= minDebtSize lending_config /\ 0 <= getReservePoolBps lending_config /\
  0 <= getCloseBps lending_config /\ 0 <= getKillBps lending_config.
Proof. cbn. unfold COIN. lia. Qed.

Definition factors : Config := {| acceptDebt := true; workFactor := 7000; killFactor := 8333; maxPriceDiff := 11000 |}.

Definition worker_config : WorkerConfig :=
  {| wc_owner := OWNER; oracle := ORACLE; wc_workers := {[ WORKER := factors ]} |}.

Lemma worker_config_typed a c : wc_workers worker_config !! a = Some c -> 0 <= workFactor c /\ 0 <= killFactor c.
Proof. cbn. intros [_ <-]%lookup_singleton_Some. cbn. lia. Qed.

Definition prices (p : Z) : SimplePriceOracle :=
  {| spo_owner := OWNER; feeder := OWNER;
     store := {[ (BASE, FARMING) := {| price := p mod 2 ^ 192; lastUpdate := 1700000000 |} ]} |}.

Lemma prices_typed p k d : store (prices p) !! k = Some d -> 0 <= price d.
Proof. cbn. intros [_ <-]%lookup_singleton_Some. by apply Z.mod_pos_bound. Qed.

Definition lending_terms (p : Z) : Terms :=
  {| vaultConfigs := {[ CONFIG := {| tc_config := lending_config; tc_typed := lending_config_typed |} ]};
     workerConfigs := {[ WORKER_CONFIG := {| tw_config := worker_config; tw_typed := worker_config_typed |} ]};
     oracles := {[ ORACLE := {| to_oracle := prices p; to_typed := prices_typed p |} ]};
     interestModels := {[ MODEL := TripleSlope ]} |}.

(** ** The contracts *)

Definition a_worker : Worker :=
  {| wk_owner := OWNER; operator := VAULT; baseToken := BASE; masterChef := CHEF; router := ROUTER;
     factory := test_address 20; wNative := test_address 4; pid := 0; lpToken := LP; farmingToken := FARMING;
     cake := test_address 22; okStrats := <[ LIQ_STRAT := true ]> {[ ADD_STRAT := true ]};
     okReinvestors := ∅; addStrat := ADD_STRAT; liqStrat := LIQ_STRAT; reinvestBountyBps := 100;
     maxReinvestBountyBps := 500; fee := 9975; feeDenom := 10000 |}.

Definition executor (k : StrategyKind) : Executor :=
  {| ex_strategy := {| st_owner := OWNER; st_kind := k; st_factory := test_address 20; st_router := ROUTER;
                       okWorkers := {[ WORKER := true ]} |};
     ex_guard := guard_new |}.

Definition debt_token : DebtToken :=
  {| dt_owner := VAULT;
     dt_erc20 := {| bal := ∅; supply := 0; allow := {[ (VAULT, FAIR) := MAX_UINT256 ]} |};
     dt_name := "debtIbBASE"; dt_symbol := "debtIbBASE"; timelock := OWNER;
     okHolders := <[ FAIR := true ]> {[ VAULT := true ]} |}.

Definition huski : HuskyToken :=
  {| husky_erc20 := {| bal := ∅; supply := 0; allow := ∅ |}; husky_owner := FAIR; totalLock := 0;
     startReleaseBlock := 0; endReleaseBlock := 1; manualMinted := 0; locks := ∅; lastUnlockBlock := ∅;
     delegates := ∅; checkpoints := ∅; numCheckpoints := ∅; nonces := ∅ |}.

Definition fair : FairLaunch :=
  {| fl_owner := OWNER; husky := HUSKI; devaddr := OWNER; huskyPerBlock := COIN; bonusMultiplier := 0;
     bonusEndBlock := 0; bonusLockUpBps := 7000; lastMultiplier := 0;
     poolInfo := [{| pool_symbol := "debtIbBASE"; stakeToken := DEBT; allocPoint := 100; lastRewardBlock := 1000;
                     accHuskyPerShare := 0; accHuskyPerShareTilBonusEnd := 0 |}];
     totalAllocPoint := 100; startBlock := 0; badgeRelayer := zero_address;
     fl_badgePoints := zero_address; fl_complexOracle := zero_address |}.

Definition stakes0 : Stakes :=
  {| debts := {[ DEBT := debt_token ]}; husky_token := huski; fair_launch := fair; fair_address := FAIR;
     userInfo := ∅; points_at := ∅; prices_at := ∅; fair_guard := guard_new |}.

(** The vault holds 100 coins of its lender; the pair a million of each token. *)
Definition market0 : Market :=
  {| bals := <[ (BASE, VAULT) := 100 * COIN ]> (<[ (BASE, ALICE) := 10 * COIN ]>
       (<[ (BASE, LP) := 10 ^ 6 * COIN ]> {[ (FARMING, LP) := 10 ^ 6 * COIN ]}));
     pair0 := 10 ^ 6 * COIN; pair1 := 10 ^ 6 * COIN; lp_supply := 10 ^ 6 * COIN; stakes := ∅ |}.

Definition world0 : Protocol Market Stakes :=
  {| market := market0; rewards := stakes0; terms := lending_terms COIN; home := VAULT;
     farms := {[ WORKER := {| farm_worker := a_worker; shares := ∅; totalShare := 0; farm_guard := guard_new |} ]};
     executors := <[ LIQ_STRAT := executor PancakeswapV2Liquidate ]>
                    {[ ADD_STRAT := executor PancakeswapV2AddBaseTokenOnly ]};
     relays := ∅ |}.

Definition vault0 : Vault :=
  {| v_owner := OWNER; v_erc20 := {| bal := {[ LENDER := 100 * COIN ]}; supply := 100 * COIN; allow := ∅ |};
     v_name := "Interest Bearing BASE"; v_symbol := "ibBASE"; v_decimals := 18; token := BASE; debtToken := DEBT;
     config := CONFIG; nextPositionID := 1; fairLaunchPoolId := 0; lastAccrueTime := 1700000000 |}.

Definition bank0 : Bank := new_Bank vault0.

Definition strategy_data (a : address) : Buffer := abi_encode [TAddress; TBytes] [VAddress a; VBytes encode_0].

(** ** A position of two coins with two more borrowed *)

Definition open (bw : Bank * Protocol Market Stakes) : result (Bank * Protocol Market Stakes) :=
  vault_call (msg ALICE) ALICE 0 bw (Work 0 WORKER (2 * COIN) (2 * COIN) 0 (strategy_data ADD_STRAT)).

Lemma open_work bw :
  open bw = work (msg ALICE) ALICE 0 bw 0 WORKER (2 * COIN) (2 * COIN) 0 (strategy_data ADD_STRAT).
Proof. reflexivity. Qed.

Definition get {A} (r : result A) (d : A) : A := match r with Ok a => a | Err _ => d end.

Lemma idle0 : idle bank0.
Proof. apply (reachable_idle (W := Protocol Market Stakes)). apply reachable_initialize. Qed.

Lemma at_vault0 a : a <> VAULT -> at_vault (tok := BASE) (me := VAULT) (msg a) bank0 world0.
Proof.
  intros Ha. split; [done|done|by vm_compute|done|].
  intros c Hc. cbn in Hc. injection Hc as <-. by vm_compute.
Qed.

Lemma value0 a : lenders_value (msg a) bank0 world0 (100 * COIN).
Proof. exists (100 * COIN). split; [by vm_compute|reflexivity]. Qed.

Lemma ok_run {A} (r : result A) : is_ok r = true -> exists a, r = Ok a.
Proof. destruct r as [a|]; [by exists a|done]. Qed.

(** Names the result of a run that is seen to succeed by evaluation. *)
Ltac evaluate r b w E :=
  destruct (ok_run r ltac:(vm_compute; reflexivity)) as [[b w] E].

Ltac uints := cbn; unfold uint256, uint112, UINT256, COIN in *; repeat split; lia.

(** ** The vault *)

Lemma open_typed : typed_call (Work 0 WORKER (2 * COIN) (2 * COIN) 0 (strategy_data ADD_STRAT)).
Proof. uints. Qed.

Lemma opened_reachable b w : open (bank0, world0) = Ok (b, w) -> reachable (W := Protocol Market Stakes) b.
Proof.
  unfold open. intros E. exact (reachable_call bank0 world0 (msg ALICE) ALICE 0 _ b w
    (reachable_initialize vault0) open_typed E).
Qed.

Lemma vault_books_witness : exists b w, open (bank0, world0) = Ok (b, w) /\
  vaultDebtShare b = total_debtShare (positions b) /\ vaultDebtShare b <= vaultDebtVal b < UINT256.
Proof.
  evaluate (open (bank0, world0)) b w E. exists b, w. split; [exact E|].
  destruct (vault_books (W := Protocol Market Stakes) b (opened_reachable b w E)) as (Hs & _ & Hv & _).
  exact (conj Hs Hv).
Defined.


(** Alice is not the vault. *)
Lemma alice_at : at_vault (tok := BASE) (me := VAULT) (msg ALICE) bank0 world0.
Proof. apply at_vault0. by vm_compute. Qed.

Lemma five_typed : uint256 (5 * COIN).
Proof. uints. Qed.

Lemma accrued0 a : now (msg a) <= lastAccrueTime (vault bank0).
Proof. reflexivity || discriminate. Qed.

Lemma lenders_not_diluted_witness : exists b w, deposit (msg ALICE) 0 (bank0, world0) (5 * COIN) = Ok (b, w) /\
  exists t, lenders_value (msg ALICE) b w t /\ 100 * COIN * totalSupply b <= t * totalSupply bank0.
Proof.
  evaluate (deposit (msg ALICE) 0 (bank0, world0) (5 * COIN)) b w E. exists b, w. split; [exact E|].
  exact (lenders_not_diluted (tok := BASE) (me := VAULT) (msg ALICE) 0 bank0 world0 (5 * COIN) b w (100 * COIN)
    idle0 alice_at five_typed (accrued0 ALICE) (value0 ALICE) ltac:(vm_compute; discriminate) (or_introl E)).
Defined.

Lemma read {A B} (f : A -> B) r a v : r = Ok a -> f <$> r = Ok v -> f a = v.
Proof. intros -> E. cbn in E. by injection E. Qed.

(** Reads a value off the result of a run. *)
Ltac reads f E v := refine (read f _ _ v E _); vm_compute; reflexivity.

Definition deposited : result (Bank * Protocol Market Stakes) := deposit (msg ALICE) 0 (bank0, world0) (5 * COIN).

Definition returned : result (Bank * Protocol Market Stakes) :=
  bw ← deposited; withdraw (msg ALICE) bw (5 * COIN).

Definition held_by_vault (bw : Bank * Protocol Market Stakes) : result Z := balanceOf bw.2 BASE VAULT.

Lemma deposit_withdraw_round_witness : exists b1 w1 b2 w2,
  deposit (msg ALICE) 0 (bank0, world0) (5 * COIN) = Ok (b1, w1) /\
  withdraw (msg ALICE) (b1, w1) (5 * COIN) = Ok (b2, w2) /\
  totalSupply b2 = totalSupply bank0 /\ 105 * COIN - 100 * COIN <= 5 * COIN.
Proof.
  evaluate deposited b1 w1 E1. evaluate returned b2 w2 E2.
  assert (withdraw (msg ALICE) (b1, w1) (5 * COIN) = Ok (b2, w2)) as E3.
  { unfold returned in E2. rewrite E1 in E2. exact E2. }
  exists b1, w1, b2, w2. split; [exact E1|]. split; [exact E3|].
  assert (totalSupply b1 = 105 * COIN) as HS by reads (fun bw : Bank * Protocol Market Stakes => totalSupply bw.1) E1 (105 * COIN).
  assert (held_by_vault (b1, w1) = Ok (105 * COIN)) as Hx by reads held_by_vault E1 (Ok (105 * COIN)).
  assert (held_by_vault (b2, w2) = Ok (100 * COIN)) as Hy by reads held_by_vault E2 (Ok (100 * COIN)).
  destruct (deposit_withdraw_round (tok := BASE) (me := VAULT) (msg ALICE) 0 bank0 world0 (5 * COIN) (5 * COIN)
    b1 w1 b2 w2 (100 * COIN) (105 * COIN) (100 * COIN) idle0 alice_at five_typed five_typed (accrued0 ALICE)
    (value0 ALICE) ltac:(reflexivity) ltac:(vm_compute; reflexivity) E1 HS E3 Hx Hy) as (HS2 & Hle & _).
  exact (conj HS2 Hle).
Defined.

Lemma worker_not_vault : WORKER <> VAULT.
Proof. by vm_compute. Qed.

Lemma work_conserves_value_witness : exists b w, open (bank0, world0) = Ok (b, w) /\
  lenders_value (msg ALICE) b w (100 * COIN) /\ reservePool b = reservePool bank0.
Proof.
  evaluate (open (bank0, world0)) b w E. exists b, w. split; [exact E|]. rewrite open_work in E.
  destruct (work_conserves_value (tok := BASE) (me := VAULT) (msg ALICE) ALICE 0 bank0 world0 0 WORKER (2 * COIN)
    (2 * COIN) 0 (strategy_data ADD_STRAT) b w (100 * COIN) lending_config idle0 alice_at worker_not_vault open_typed
    (accrued0 ALICE) (value0 ALICE) eq_refl E) as (b1 & w1 & b2 & w2 & id & debt & back & _ & _ & _ & Hv & Hr).
  split; [|exact Hr]. change (getCloseBps lending_config) with 0 in Hv.
  rewrite Z.mul_0_r, Z.add_0_r in Hv. exact Hv.
Defined.

Definition terms_of (bw : Bank * Protocol Market Stakes) : Terms := terms bw.2.

Lemma opened_terms b w : open (bank0, world0) = Ok (b, w) -> terms w = lending_terms COIN.
Proof. intros E. change (terms_of (b, w) = lending_terms COIN). reads terms_of E (lending_terms COIN). Qed.

(** The kill factor is above the work factor, before and after payments. *)
Lemma factors_apart (w w1 w2 : Protocol Market Stakes) blk blk' c debt debt' f f' :
  terms w = lending_terms COIN -> rtc payment w1 w -> rtc payment w w2 ->
  wc_workFactor blk w1 c WORKER debt = Ok f -> wc_killFactor blk' w2 c WORKER debt' = Ok f' -> f <= f'.
Proof.
  intros Hw Hp1%payments_prices Hp2%payments_prices Hf Hf'. cbn in Hf, Hf'.
  unfold WorkerConfig_workFactor, WorkerConfig_killFactor, wc_at in Hf, Hf'.
  rewrite <-(sp_terms _ _ Hp1), Hw in Hf. rewrite (sp_terms _ _ Hp2), Hw in Hf'.
  destruct (decide (c = WORKER_CONFIG)) as [->|Hc].
  - cbn [workerConfigs lending_terms] in Hf, Hf'. rewrite lookup_singleton_eq in Hf, Hf'. cbn in Hf, Hf'.
    apply if_stable_Ok in Hf as [_ ->], Hf' as [_ ->].
    unfold config_of_worker. cbn [wc_workers worker_config]. rewrite lookup_singleton_eq. cbn. lia.
  - cbn [workerConfigs lending_terms] in Hf. rewrite lookup_singleton_ne in Hf by auto. discriminate Hf.
Qed.


Lemma debt_at_oracle_price_witness : exists b w, open (bank0, world0) = Ok (b, w) /\ at_oracle_price TODAY w WORKER.
Proof.
  evaluate (open (bank0, world0)) b w E. exists b, w. split; [exact E|].
  assert (debtShare (position b 1) = 2 * COIN) as Hd
    by reads (fun bw : Bank * Protocol Market Stakes => debtShare (position bw.1 1)) E (2 * COIN).
  rewrite open_work in E.
  destruct (debt_at_oracle_price (msg ALICE) ALICE bank0 world0 b w idle0) as [Hw _].
  apply (Hw 0 0 WORKER (2 * COIN) (2 * COIN) 0 (strategy_data ADD_STRAT) open_typed E).
  change (0 < debtShare (position b 1)). rewrite Hd. reflexivity.
Defined.

(** ** The position is killed

    The farming token has lost three quarters of its price, on the exchange and at the
    oracle. *)

Definition crash (w : Protocol Market Stakes) : Protocol Market Stakes :=
  let x := set_pair (set_bal (set_bal (market w) BASE LP (5 * 10 ^ 5 * COIN)) FARMING LP (2 * 10 ^ 6 * COIN))
             (5 * 10 ^ 5 * COIN) (2 * 10 ^ 6 * COIN) (lp_supply (market w)) in
  {| market := x; rewards := rewards w; terms := lending_terms (4 * COIN); home := home w; farms := farms w;
     executors := executors w; relays := relays w |}.

Definition crashed : result (Bank * Protocol Market Stakes) :=
  bw ← open (bank0, world0); Ok (bw.1, crash bw.2).

Definition killed : result (Bank * Protocol Market Stakes) := bw ← crashed; kill (msg BOB) BOB bw 1.

Definition value_of (bw : Bank * Protocol Market Stakes) : result Z :=
  x ← myBalance (msg BOB) bw.1 bw.2; Ok (x + vaultDebtVal bw.1 - reservePool bw.1).

Lemma kill_conserves_value_witness : exists b w b' w', crashed = Ok (b, w) /\
  kill (msg BOB) BOB (b, w) 1 = Ok (b', w') /\ debtShare (position b' 1) = 0.
Proof.
  evaluate crashed b w E. evaluate killed b' w' E2.
  assert (kill (msg BOB) BOB (b, w) 1 = Ok (b', w')) as E3.
  { unfold killed in E2. rewrite E in E2. exact E2. }
  exists b, w, b', w'. split; [exact E|]. split; [exact E3|].
  assert (idle b) as Hidle.
  { unfold crashed in E. destruct (open (bank0, world0)) as [[b0 w0]|] eqn:E0; [|discriminate E].
    injection E as <- _. exact (reachable_idle (W := Protocol Market Stakes) b0 (opened_reachable b0 w0 E0)). }
  assert (value_of (b, w) = Ok (100 * COIN)) as Hv by reads value_of E (Ok (100 * COIN)).
  assert (vconfig b w = Ok lending_config) as Hc
    by reads (fun bw : Bank * Protocol Market Stakes => vconfig bw.1 bw.2) E (Ok lending_config : result BasicVaultConfig).
  assert ((token (vault b), debtToken (vault b), p_owner (position b 1), lastAccrueTime (vault b))
          = (BASE, DEBT, ALICE, 1700000000)) as Hf
    by reads (fun bw : Bank * Protocol Market Stakes => (token (vault bw.1), debtToken (vault bw.1),
              p_owner (position bw.1 1), lastAccrueTime (vault bw.1))) E (BASE, DEBT, ALICE, 1700000000).
  injection Hf as Htok Hdt Hown Hlast.
  assert (at_vault (tok := BASE) (me := VAULT) (msg BOB) b w) as Hat.
  { split; [reflexivity|exact Htok|rewrite Hdt; by vm_compute|by vm_compute|].
    intros c Hc'. rewrite Hc in Hc'. injection Hc' as <-. by vm_compute. }
  assert (lenders_value (msg BOB) b w (100 * COIN)) as Hval.
  { unfold value_of in Hv. cbn [fst snd] in Hv. apply bind_Ok in Hv as (x & Hx & Hv). injection Hv as Hv.
    exists x. split; [exact Hx|by symmetry]. }
  destruct (kill_conserves_value (tok := BASE) (me := VAULT) (msg BOB) BOB b w 1 b' w' (100 * COIN) Hidle Hat
    ltac:(rewrite Hown; by vm_compute) ltac:(rewrite Hlast; vm_compute; discriminate) Hval E3)
    as (g & w1 & b1 & debt & w2 & x & back & c & h & f & _ & _ & _ & _ & _ & _ & _ & _ & _ & _ & _ & Hz & _).
  exact Hz.
Defined.

(** ** The worker: position 7 stays while the vault works on position 1 *)

Definition farm7 : Farm :=
  {| farm_worker := a_worker; shares := {[ 7 := 1000 ]}; totalShare := 1000; farm_guard := guard_new |}.

Definition world7 : Protocol Market Stakes :=
  {| market := set_bal (set_bal (set_stake market0 (chef_key CHEF 0 WORKER) 1500) BASE WORKER (4 * COIN)) LP CHEF 1500;
     rewards := stakes0; terms := lending_terms COIN; home := VAULT; farms := {[ WORKER := farm7 ]};
     executors := executors world0; relays := ∅ |}.

Definition at_worker : Msg := {| sender := VAULT; self := WORKER; block := TODAY |}.

Lemma farm7_ok : farm_ok farm7.
Proof.
  split; [reflexivity|]. intros id. unfold share_of. cbn. destruct (decide (id = 7)) as [->|Hid].
  - by rewrite lookup_singleton_eq.
  - by rewrite lookup_singleton_ne.
Qed.

Lemma farming7 : farming_at world7 WORKER farm7 1500.
Proof. split; [apply lookup_singleton_eq|vm_compute; reflexivity]. Qed.

Lemma others_not_diluted_witness : exists b w f',
  worker_call at_worker ALICE (bank0, world7) (RunWork 1 ALICE (2 * COIN) (strategy_data ADD_STRAT)) = Ok (b, w) /\
  farms w !! WORKER = Some f' /\ share_of f' 7 = 1000.
Proof.
  evaluate (worker_call at_worker ALICE (bank0, world7) (RunWork 1 ALICE (2 * COIN) (strategy_data ADD_STRAT))) b w E.
  destruct (others_not_diluted at_worker ALICE bank0 world7 _ b w farm7 1500 farming7 farm7_ok E)
    as (_ & f' & t' & [Hf' _] & _ & _ & Hkeep).
  exists b, w, f'. split; [exact E|]. split; [exact Hf'|].
  destruct (Hkeep 7) as [Hs _]; [discriminate|]. rewrite Hs. reflexivity.
Defined.

(** ** FairLaunch *)

Lemma stakes0_ok : stakes_ok stakes0.
Proof.
  split.
  - by apply NoDup_singleton.
  - intros pid a. unfold user, pool_users. cbn. by rewrite lookup_empty.
  - intros pid p d _ Hd. cbn in Hd. apply lookup_singleton_Some in Hd as [_ <-].
    unfold staked_in, pool_users. cbn. rewrite lookup_empty. cbn. rewrite map_sum_empty. by vm_compute.
  - reflexivity.
Qed.

Definition from_vault (a : address) : Msg := {| sender := VAULT; self := a; block := TODAY |}.

Definition minted : result Stakes := on_debt stakes0 DEBT (fun d => DebtToken_mint (from_vault DEBT) d VAULT (2 * COIN)).

Definition staked_for_alice : result Stakes := s ← minted; Staking.deposit (from_vault FAIR) s ALICE 0 (2 * COIN).

(** What the vault needs to take the stake out again. *)
Definition funder_view (s : Stakes) : result address * option (option bool * option bool) * address * address * Z :=
  (stakeToken <$> pool_at s 0, (fun d => (okHolders d !! FAIR, okHolders d !! VAULT)) <$> debts s !! DEBT,
   fundedBy (user s 0 ALICE), fair_address s, amount (user s 0 ALICE)).

Definition rewards_for_alice : result Stakes :=
  s ← staked_for_alice; staking_guard s (rewards_of (from_vault FAIR) ALICE 0 (2 * COIN)).


(** ** Arithmetic *)

Lemma sqrt_correct_witness : sqrt (10 ^ 40) = Z.sqrt (10 ^ 40).
Proof. apply sqrt_correct. uints. Defined.

Lemma worker_sells_at_router_price_witness :
  getMktSellAmount 9975 10000 COIN (1000 * COIN) (2000 * COIN)
  = Ok (get (getAmountOut COIN (1000 * COIN) (2000 * COIN)) 0).
Proof. apply worker_sells_at_router_price; [reflexivity|vm_compute; reflexivity]. Defined.

Lemma trade_keeps_product_witness :
  exists out, getAmountOut COIN (1000 * COIN) (2000 * COIN) = Ok out /\ out < 2000 * COIN.
Proof.
  destruct (ok_run (getAmountOut COIN (1000 * COIN) (2000 * COIN)) ltac:(vm_compute; reflexivity)) as [out E].
  exists out. split; [exact E|]. apply (trade_keeps_product _ _ _ _ E).
Defined.

Definition exact_trade : result (Z * Z) :=
  a ← getAmountIn COIN (1000 * COIN) (2000 * COIN); got ← getAmountOut a (1000 * COIN) (2000 * COIN); Ok (a, got).

Lemma amount_in_is_enough_witness : exists a got, getAmountIn COIN (1000 * COIN) (2000 * COIN) = Ok a /\
  getAmountOut a (1000 * COIN) (2000 * COIN) = Ok got /\ COIN <= got.
Proof.
  destruct (ok_run exact_trade ltac:(vm_compute; reflexivity)) as [[a got] E].
  unfold exact_trade in E. apply bind_Ok in E as (a1 & Ea & E). apply bind_Ok in E as (got1 & Eg & E).
  injection E as -> ->. exists a, got. split; [exact Ea|]. split; [exact Eg|].
  exact (amount_in_is_enough _ _ _ _ _ Ea Eg).
Defined.

Definition optimal_trade : result (Z * bool * Z) :=
  '(s, rev) ← optimalDeposit (5 * COIN) COIN (1000 * COIN) (2000 * COIN);
  out ← getAmountOut s (1000 * COIN) (2000 * COIN); Ok (s, rev, out).

Lemma optimalDeposit_optimal_witness : exists s out,
  optimalDeposit (5 * COIN) COIN (1000 * COIN) (2000 * COIN) = Ok (s, false) /\
  getAmountOut s (1000 * COIN) (2000 * COIN) = Ok out /\ s <= 5 * COIN.
Proof.
  destruct (ok_run optimal_trade ltac:(vm_compute; reflexivity)) as [[[s rev] out] E].
  assert (rev = false) as -> by (refine (read (fun x => x.1.2) _ _ false E _); vm_compute; reflexivity).
  unfold optimal_trade in E. apply bind_Ok in E as ([s1 rev1] & Es & E). apply bind_Ok in E as (out1 & Eo & E).
  injection E as -> -> ->. exists s, out. split; [exact Es|]. split; [exact Eo|].
  destruct (optimalDeposit_optimal (5 * COIN) COIN (1000 * COIN) (2000 * COIN) s false out
    ltac:(by vm_compute) ltac:(by vm_compute) ltac:(uints) ltac:(uints) Es Eo) as [Hs _]. exact Hs.
Defined.

Lemma optimalDeposit_total_witness : exists s rev, optimalDeposit COIN COIN (1000 * COIN) (2000 * COIN) = Ok (s, rev).
Proof. apply optimalDeposit_total; uints. Defined.

Definition single_trade : result (Z * Z) :=
  s ← addBaseToken_aIn (4 * COIN) (1000 * COIN); out ← getAmountOut s (1000 * COIN) (2000 * COIN); Ok (s, out).

Lemma addBaseToken_optimal_witness : exists s out, addBaseToken_aIn (4 * COIN) (1000 * COIN) = Ok s /\
  getAmountOut s (1000 * COIN) (2000 * COIN) = Ok out /\ s <= 4 * COIN.
Proof.
  destruct (ok_run single_trade ltac:(vm_compute; reflexivity)) as [[s out] E].
  unfold single_trade in E. apply bind_Ok in E as (s1 & Es & E). apply bind_Ok in E as (out1 & Eo & E).
  injection E as -> ->. exists s, out. split; [exact Es|]. split; [exact Eo|].
  destruct (addBaseToken_optimal (4 * COIN) (1000 * COIN) (2000 * COIN) s out
    ltac:(by vm_compute) ltac:(by vm_compute) Es Eo) as [Hs _]. exact Hs.
Defined.

Lemma interest_monotone_witness : exists r r',
  getInterestRate TripleSlopeModel COIN (9 * COIN) = Ok r /\ getInterestRate TripleSlopeModel (9 * COIN) COIN = Ok r' /\
  0 <= r <= r' /\ r' <= MAX_INTEREST_SLOPE_3 TripleSlopeModel / YEAR.
Proof. apply interest_monotone; [by left|uints..]. Defined.
