(* ===== verification/DeploymentWitnesses.v ===== *)
(** * The theorems on the chain and the scripts at concrete inputs

    Small concrete worlds over the instances of ChainInstances.v in which the
    hypotheses of the theorems hold. *)

From S2P Require Import Prelude Buffers MerkleTree BalanceTree Evm.
From S2P Require Import Timelock TimelockTheory HuskyToken FairLaunch FairLaunchTheory.
From S2P Require Import Lending Workers Chain ChainTheory.
From S2P Require Import Script ScriptTheory TimelockScripts TimelockScriptTheory TimelockScriptRuns.
From S2P Require Import CoreScripts VaultScripts CoreScriptTheory PipelineTheory VaultScriptTheory.
From S2P Require Import Instances ChainInstances.

(** ** A timelock with a history *)

Definition ADMIN : address := test_address 3.
Definition T0 : Z := 1600000000.
Definition T1 : Z := 1600100000.

Definition sample_tx : Tx :=
  {| target := test_address 9; value := 0; signature := "f()"; data := []; eta := T1 |}.

Lemma sample_tx_ok : tx_ok sample_tx.
Proof.
  unfold tx_ok, txValues, txTypes. by repeat constructor.
Qed.

Definition tl_fresh : Timelock :=
  {| admin := ADMIN; pendingAdmin := zero_address; delay := 86400; admin_initialized := false;
     queuedTransactions := ∅; guard := guard_new; events := [] |}.

Definition by_admin (t : Z) : Msg :=
  {| sender := ADMIN; self := test_address 5; block := {| number := 1; timestamp := t |} |}.

Definition tl_queued : Timelock :=
  set_queue tl_fresh ({[ txHash sample_tx ]} ∪ ∅) (guard tl_fresh) [QueueTransaction T0 sample_tx].

Lemma fresh_reachable : tl_reachable {| now := T0; contract := tl_fresh; inflight := None |}.
Proof. by apply (reach_new ADMIN 86400). Qed.

Lemma executed_reachable : exists s,
  tl_reachable {| now := T1; contract := s; inflight := None |} /\
  ExecuteTransaction T1 sample_tx ∈ events s.
Proof.
  assert (tl_reachable {| now := T0; contract := tl_queued; inflight := None |}) as Hq.
  { eapply reach_step; [exact fresh_reachable|].
    by apply (step_queue (by_admin T0) tl_fresh sample_tx); [exact sample_tx_ok|]. }
  assert (tl_reachable {| now := T1; contract := tl_queued; inflight := None |}) as Hb
    by (eapply reach_step; [exact Hq|by constructor]).
  destruct (execute_begin_ready (by_admin T1) tl_queued sample_tx sample_tx_ok) as (g & _ & Hg).
  { split; [done|]. split; [set_solver|]. done. }
  eexists. split.
  - eapply reach_step; [|exact (step_end (by_admin T1) (set_queue tl_queued
      (queuedTransactions tl_queued ∖ {[ txHash sample_tx ]}) g []) sample_tx)].
    eapply reach_step; [exact Hb|].
    by eapply (step_begin (by_admin T1) tl_queued sample_tx); [exact sample_tx_ok|exact Hg].
  - by left.
Qed.

Lemma timelock_delays_witness : exists s,
  ExecuteTransaction T1 sample_tx ∈ events s /\
  (eta sample_tx <= T1 <= eta sample_tx + GRACE_PERIOD)%Z.
Proof.
  destruct executed_reachable as (s & Hr & Hex). exists s. split; [exact Hex|].
  destruct (timelock_delays _ Hr) as [_ Hexec]. exact (proj1 (Hexec T1 sample_tx Hex)).
Defined.

Lemma timelock_no_replay_witness : exists s,
  ExecuteTransaction T1 sample_tx ∈ events s /\
  count (executes (txHash sample_tx)) (events s) <= count (queues (txHash sample_tx)) (events s).
Proof.
  destruct executed_reachable as (s & Hr & Hex). exists s. split; [exact Hex|].
  exact (proj1 (timelock_no_replay _ sample_tx Hr)).
Defined.

Definition tl_chain : Chain :=
  {| accounts := {[ test_address 5 := {| proxy := None; code := CTimelock tl_fresh |} ]};
     native := ∅ |}.

Lemma chain_refines_timelock_witness : exists s',
  code_at (foldl transact tl_chain [({| number := 2; timestamp := T1 |}, ADMIN, test_address 5, 0%Z, [])])
    (test_address 5) = Some (CTimelock s') /\
  rtc tl_step {| now := T0; contract := tl_fresh; inflight := None |} {| now := T1; contract := s'; inflight := None |} /\
  tl_reachable {| now := T1; contract := s'; inflight := None |}.
Proof.
  destruct (chain_refines_timelock
    [({| number := 2; timestamp := T1 |}, ADMIN, test_address 5, 0%Z, [])] tl_chain (test_address 5) tl_fresh T0)
    as (s' & Hs' & _ & Hsteps & Hr).
  - unfold code_at. cbn [accounts tl_chain]. by rewrite lookup_singleton_eq.
  - split; [apply (inv_guard _ (tl_reachable_inv _ fresh_reachable))|done].
  - repeat split; done.
  - exists s'. split; [exact Hs'|]. split; [exact Hsteps|]. exact (Hr fresh_reachable).
Defined.

(** ** A world *)

Definition sample_json : Json :=
  {| AdminAddress := ADMIN; NativeAddress := test_address 4; FeederAddress := test_address 6;
     js_Timelock := test_address 5; FairLaunch_address := test_address 10; FairLaunch_pools := [];
     Tokens_of := {[ "BUSD" := test_address 11 ]};
     SharedConfig := {[ "WNativeRelayer" := test_address 12 ]}; SharedStrategies := ∅;
     Oracle := ∅; MasterChef := test_address 14; RouterV2 := test_address 15; LpTokens := [];
     Vaults := [config_entry EmptyString EmptyString EmptyString] |}.

Definition world_of (ch : Chain) (j : Json) : World :=
  {| chain := ch; height := 0; creations := 0; MainnetConfig := j; TestnetConfig := j;
     files := ∅; console := [] |}.

Definition empty_world : World := world_of {| accounts := ∅; native := ∅ |} sample_json.

Lemma config_of_world ch j : config_of (world_of ch j) = j.
Proof. reflexivity. Qed.

Lemma empty_room k : k <= 1000 -> room empty_world k.
Proof. intros Hk. exact Hk. Qed.

Lemma deployed_timelock_safe_witness : exists w' tl s,
  deploy_timelock empty_world = (w', Ok tt) /\ code_at (chain w') tl = Some (CTimelock s) /\
  admin s = ADMIN.
Proof.
  destruct (deployed_timelock_safe empty_world ADMIN)
    as (w' & tl & s & Hr & _ & _ & Hc & Ha & _); [exact (test_address_ok 3)|].
  exists w', tl, s. exact (conj Hr (conj Hc Ha)).
Defined.

Lemma fairlaunch_bonus_never_set_witness : exists w' fl f,
  deploy_fairlaunch empty_world = (w', Ok tt) /\
  accounts (chain w') !! fl = Some {| proxy := None; code := CFairLaunch f |} /\
  bonusMultiplier f = 0%Z.
Proof.
  destruct (fairlaunch_bonus_never_set empty_world)
    as (w' & husky & fl & h & f & Hr & _ & _ & _ & _ & _ & _ & Hf & _ & _ & _ & _ & Hb).
  - apply empty_room. lia.
  - exists w', fl, f. exact (conj Hr (conj Hf Hb)).
Defined.

Lemma pipeline_configs_witness : exists w' es,
  (deploy_core ;; deploy_configs) empty_world = (w', Ok tt) /\
  Vaults (config_of w') = Vaults sample_json ++ es /\ NoDup (ve_config <$> es).
Proof.
  destruct (pipeline_configs empty_world ADMIN (test_address 4) (test_address 6))
    as (w' & fl & relayer & high & low & f & es & Hr & Hv & Hnd & _).
  - apply empty_room. lia.
  - apply test_address_ok.
  - apply test_address_ok.
  - apply test_address_ok.
  - exists w', es. exact (conj Hr (conj Hv Hnd)).
Defined.

Lemma vault_without_base_token_witness : exists w' err,
  vault_func 0 "Interest Bearing HUSKI" 0 0 "HUSKY" empty_world = (w', Err err) /\
  config_of w' = config_of empty_world.
Proof.
  destruct (vault_without_base_token empty_world 0 "Interest Bearing HUSKI" "HUSKY" 0 0
    (config_entry EmptyString EmptyString EmptyString) (test_address 5))
    as (w' & err & D & Hr & _ & _ & Hj & _).
  - apply empty_room. lia.
  - reflexivity.
  - reflexivity.
  - apply test_address_ok.
  - exists w', err. exact (conj Hr Hj).
Defined.

(** ** A world with a timelock *)

(** An address below those of created contracts. *)
Lemma low_not_created a z b n :
  addressBytes a = Some b -> be_value b = z -> (z < 2 ^ 159)%Z -> test_created n <> a.
Proof.
  intros Ha Hz Hlt E. pose proof (test_created_range n) as Hr.
  unfold test_created, test_address in E. subst a.
  rewrite addressBytes_hex in Ha by apply be_bytes_length. injection Ha as <-.
  rewrite be_value_be_bytes in Hz; [lia|]. split; [lia|]. apply Hr.
Qed.

(** The deployer administers this timelock. *)
Definition tl_signer : Timelock :=
  {| admin := signer; pendingAdmin := zero_address; delay := 86400; admin_initialized := false;
     queuedTransactions := ∅; guard := guard_new; events := [] |}.

(** A timelock at [tla], and another contract. *)
Definition tl_world (tla a : address) (acc : Account) : World :=
  world_of {| accounts := <[ tla := {| proxy := None; code := CTimelock tl_signer |} ]> {[ a := acc ]};
              native := ∅ |} sample_json.

Lemma tl_world_other tla a acc :
  a <> tla -> accounts (chain (tl_world tla a acc)) !! a = Some acc.
Proof. intros Ha. cbn. rewrite lookup_insert_ne by done. apply lookup_singleton_eq. Qed.

Definition lower (s : string) : address := default EmptyString (getAddress s).

Lemma timelock_in_world tl a acc :
  getAddress tl = Some (lower tl) ->
  (default 0%Z (be_value <$> addressBytes (lower tl)) < 2 ^ 159)%Z ->
  is_Some (addressBytes (lower tl)) ->
  timelock_at (tl_world (lower tl) a acc) tl (lower tl) tl_signer.
Proof.
  intros Hl Hlt [b Hb]. split; [exact Hl|]. split; [apply lookup_insert_eq|].
  intros n _. rewrite Hb in Hlt. by eapply low_not_created.
Qed.

(** A queued transaction is printed, so the first command of a script exists. *)
Lemma queue_print_runs w tl tla s target sig types args printed eta tx :
  timelock_at w tl tla s -> js_tx target (JStr "0") sig types args (JStr eta) = Ok tx ->
  is_ok (queueTransaction (next_msg w tla) s tx) = true ->
  exists w', (queue tl target sig types args eta ;; print_execute target sig types printed eta) w
             = (w', Ok tt) /\ console w' = console w ++
    [{| cmd_target := target; cmd_value := JStr "0"; cmd_sig := sig; cmd_types := types;
        cmd_args := printed; cmd_eta := js_number eta |}].
Proof.
  intros Ht Htx Hq. destruct (queueTransaction (next_msg w tla) s tx) as [s'|] eqn:E; [|done].
  erewrite bind_run; [|rewrite (queue_eq w tl tla s _ _ _ _ _ tx Ht Htx), E; reflexivity].
  eexists. by split.
Qed.

Definition S001_TL : string := "0x771F70042ebb6d2Cfc29b7BF9f3caf9F959385B8".
Definition S001_WORKER : string := "0xF3ECC0e5c238C7082fC59e682104DEA2f49A3787".
Definition S001_STRATEGY : string := "0xA4047bdA5288BC718E4a3De68781dA4D7e801e82".

Definition sample_worker : Worker :=
  {| wk_owner := lower S001_TL; operator := test_address 20; baseToken := test_address 21;
     masterChef := test_address 22; router := test_address 23; factory := test_address 24;
     wNative := test_address 25; pid := 251; lpToken := test_address 26;
     farmingToken := test_address 27; cake := test_address 28;
     okStrats := ∅; okReinvestors := ∅; addStrat := zero_address; liqStrat := zero_address;
     reinvestBountyBps := 0; maxReinvestBountyBps := 0; fee := 9975; feeDenom := 10000 |}.

Definition s001_world : World :=
  tl_world (lower S001_TL) (lower S001_WORKER) {| proxy := None; code := CWorker sample_worker |}.

Lemma s001_world_timelock : timelock_at s001_world S001_TL (lower S001_TL) tl_signer.
Proof. apply timelock_in_world; [by vm_compute|by vm_compute|vm_compute; by eexists]. Qed.

Lemma s001_runs : exists w1 c, s001_func S001_WORKER S001_STRATEGY true S001_TL "1615447380" s001_world
  = (w1, Ok tt) /\ console w1 = console s001_world ++ [c].
Proof.
  edestruct (queue_print_runs s001_world S001_TL (lower S001_TL) tl_signer S001_WORKER
    "setStrategyOk(address[],bool)" [ADDRESSES; TBool] [js_strings [S001_STRATEGY]; JBool true]
    [js_strings [S001_STRATEGY]; JBool true] "1615447380") as (w1 & Hr & Hc).
  - exact s001_world_timelock.
  - reflexivity.
  - reflexivity.
  - eexists w1, _. split; [exact Hr|exact Hc].
Qed.

(** The one command that s001 prints there is that of a queued transaction. *)
Lemma timelock_scripts_print_queued_witness : exists w1 s' c,
  s001 s001_world = (w1, Ok tt) /\ timelock_at w1 S001_TL (lower S001_TL) s' /\
  console w1 = console s001_world ++ [c] /\ commands_for tl_signer s' [c].
Proof.
  destruct s001_runs as (w1 & c & Hr & Hc). exists w1.
  destruct (timelock_scripts_print_queued S001_TL s001 ltac:(unfold timelock_scripts; in_list)
    s001_world w1 (Ok tt) (lower S001_TL) tl_signer s001_world_timelock Hr) as (s' & cs & Ht & Hcs & Hq).
  exists s', c. rewrite Hc in Hcs. apply (inj (app _)) in Hcs. subst cs.
  exact (conj Hr (conj Ht (conj Hc Hq))).
Defined.

Lemma s001_enables_strategy_witness : exists w1 c tx,
  s001_func S001_WORKER S001_STRATEGY true S001_TL "1615447380" s001_world = (w1, Ok tt) /\
  console w1 = console s001_world ++ [c] /\ command_tx c = Ok tx.
Proof.
  destruct s001_runs as (w1 & _ & Hr & _).
  destruct (s001_enables_strategy s001_world w1 s001_world S001_TL S001_WORKER S001_STRATEGY
    (lower S001_TL) "1615447380" 1615447380 tl_signer tl_signer (lower S001_WORKER) sample_worker None)
    as (c & tx & sta & Hc & Htx & _).
  - exact s001_world_timelock.
  - reflexivity.
  - exact Hr.
  - exact s001_world_timelock.
  - by vm_compute.
  - by vm_compute.
  - apply tl_world_other. by vm_compute.
  - done.
  - reflexivity.
  - exists w1, c, tx. exact (conj Hr (conj Hc Htx)).
Defined.

(** *** s009 *)

Definition S009_PROXY : string := "0x166f56F2EDa9817cAB77118AE4FCAA0002A17eC7".
Definition S009_ADMIN : string := "0x5379F32C8D5F663EACb61eeF63F722950294f452".

Definition timelock_world (a : address) (c : Code) : World :=
  tl_world (lower TIMELOCK) a {| proxy := None; code := c |}.

Lemma timelock_world_at a c : timelock_at (timelock_world a c) TIMELOCK (lower TIMELOCK) tl_signer.
Proof. apply timelock_in_world; [by vm_compute|by vm_compute|vm_compute; by eexists]. Qed.

Definition s009_world : World := timelock_world (lower S009_PROXY) CLogic.

Lemma s009_runs : exists w1, s009_func [S009_PROXY] S009_ADMIN TIMELOCK "1615789200" s009_world
  = (w1, Ok tt).
Proof.
  unfold s009_func. cbn [for_each].
  edestruct (queue_print_runs s009_world TIMELOCK (lower TIMELOCK) tl_signer S009_PROXY
    "changeAdmin(address)" [TAddress] [JStr S009_ADMIN] [JStr S009_ADMIN] "1615789200")
    as (w1 & Hr & _).
  - apply timelock_world_at.
  - reflexivity.
  - reflexivity.
  - exists w1. by rewrite (bind_run _ _ _ _ _ Hr).
Qed.

Lemma s009_changes_admin_witness : exists w1 cs,
  s009_func [S009_PROXY] S009_ADMIN TIMELOCK "1615789200" s009_world = (w1, Ok tt) /\
  console w1 = console s009_world ++ cs /\ length cs = 1.
Proof.
  destruct s009_runs as [w1 Hr].
  destruct (s009_changes_admin s009_world w1 TIMELOCK [S009_PROXY] S009_ADMIN (lower TIMELOCK)
    "1615789200" 1615789200 tl_signer) as (cs & Hcs & Hall).
  - apply timelock_world_at.
  - reflexivity.
  - exact Hr.
  - exists w1, cs. exact (conj Hr (conj Hcs (eq_sym (Forall2_length _ _ _ Hall)))).
Defined.

(** *** The commands that cannot succeed *)

Definition S010_CONFIG : string := "0x53dbb71303ad0F9AFa184B8f7147F9f12Bb5Dc01".

Definition sample_config : BasicVaultConfig :=
  vault_config (test_address 30) (test_address 4) (test_address 12) (test_address 10).

Definition s010_world : World := timelock_world (lower S010_CONFIG) (CBasicVaultConfig sample_config).

Definition s010_args (minDebt : JsValue) : list JsValue :=
  [minDebt; JStr "1000"; JStr "500"; JStr "0x375D32FadA30d7e6Fea242FCa221a22CC6d52B30";
   JStr "0xbb4CdB9CBd36B01bD1cBaEBF2De08d9173bc095c";
   JStr "0xE1D2CA01bc88F325fF7266DD2165944f3CAf0D3D";
   JStr "0xA625AB01B08ce023B2a342Dbb12a16f2C8489A8F"].

Lemma s010_prints_first : exists w0' r cs c,
  s010 s010_world = (w0', r) /\ console w0' = console s010_world ++ cs /\ c ∈ cs /\
  cmd_target c = S010_CONFIG.
Proof.
  unfold s010, s010_func. rewrite s010_sizes. erewrite bind_run; [|reflexivity].
  set (f := fun pm : s010_Params * Z => let '(p, minDebt) := pm in _).
  unfold s010_NEW_PARAMS. cbn [zip zip_with for_each].
  match goal with |- context [f ?p ≫= _] => set (p1 := p) end.
  edestruct (queue_print_runs s010_world TIMELOCK (lower TIMELOCK) tl_signer S010_CONFIG
      s010_SIGNATURE [TUint 256; TUint 256; TUint 256; TAddress; TAddress; TAddress; TAddress]
      (s010_args (JNum (2 * 10 ^ 18))) (s010_args (JStr "2000000000000000000")) "1617926400")
    as (w1 & Hr & Hc); [apply timelock_world_at|reflexivity|reflexivity|].
  assert (f p1 s010_world = (w1, Ok tt)) as Hf by exact Hr.
  rewrite (bind_run _ _ _ _ _ Hf).
  assert (forall l, prints (fun _ => True) (for_each f l)) as Hp.
  { intros l. apply prints_for_each. intros [p md].
    apply prints_bind; [apply prints_queue|]. intros _. by apply prints_print. }
  match goal with |- context [?rest w1] => destruct (rest w1) as [w' r] eqn:E end.
  apply (Hp [_]) in E as (cs & Hcs & _). exists w', r. eexists (_ :: cs), _.
  split; [reflexivity|]. split; [rewrite Hcs, Hc, <-app_assoc; reflexivity|]. split; [by left|done].
Qed.

Lemma dead_commands_revert_witness : exists w0' c e,
  (s010 s010_world).1 = w0' /\ run_command TIMELOCK c s010_world = (s010_world, Err e).
Proof.
  destruct s010_prints_first as (w0' & r & cs & c & Hr & Hcs & Hc & Ht).
  destruct (dead_commands_revert s010 s010_world w0' r cs c s010_world (lower TIMELOCK) tl_signer
    {| proxy := None; code := CBasicVaultConfig sample_config |}) as [e He].
  - left. reflexivity.
  - exact Hr.
  - exact Hcs.
  - exact Hc.
  - apply timelock_world_at.
  - rewrite Ht. apply (tl_world_other (lower TIMELOCK) (lower S010_CONFIG)). by vm_compute.
  - reflexivity.
  - rewrite Ht. by vm_compute.
  - exists w0', c, e. exact (conj (f_equal fst Hr) He).
Defined.

(** ** FairLaunch *)

Definition fl_fresh : FairLaunch :=
  new_FairLaunch (creating empty_world (test_address 10)) (test_address 13) signer 1000 1 0 2.

Definition fl_msg : Msg := next_msg empty_world (test_address 10).

Definition fl_pool : PoolInfo := new_pool fl_fresh 5000000 "debtibBUSD" 300 (test_address 14).

Definition fl_one : FairLaunch := with_pools fl_fresh [fl_pool] 300 0.

Lemma fl_one_reachable : fl_reachable (fl_one, chain empty_world).
Proof.
  assert (test_address 14 <> zero_address) as Hz
    by (rewrite test_zero_address; by intros E%test_address_inj).
  assert (idle (self fl_msg) (chain empty_world) (poolInfo fl_fresh)) as Hi
    by (by intros p ?%elem_of_nil).
  eapply fl_reach_step; [apply fl_reach_new|].
  eapply (step_addPool fl_msg fl_fresh); [|
    exact (addPool_idle fl_msg fl_fresh (chain empty_world) "debtibBUSD" 300 (test_address 14)
      eq_refl Hi Hz (not_elem_of_nil _) ltac:(done) ltac:(done) ltac:(done))].
  done.
Qed.

Lemma fairlaunch_allocations_witness : length (poolInfo fl_one) = 1 /\
  totalAllocPoint fl_one = alloc_sum (poolInfo fl_one).
Proof.
  split; [reflexivity|exact (proj1 (fairlaunch_allocations fl_one _ fl_one_reachable))].
Defined.

Lemma setPool_succeeds_witness :
  match setPool fl_msg (fl_one, chain empty_world) 0 700 with
  | Ok (f', v') => v' = chain empty_world /\ uint256 (300 - 300 + 700) /\
                   totalAllocPoint f' = (300 - 300 + 700)%Z
  | Err e => ~ uint256 (300 - 300 + 700)
  end.
Proof.
  apply (setPool_succeeds fl_msg fl_one (chain empty_world) (with_pools fl_fresh [fl_pool] 300 0)
    (chain empty_world) 0 fl_pool 700).
  - exact fl_one_reachable.
  - reflexivity.
  - done.
  - reflexivity.
  - reflexivity.
Defined.

(** ** A vault *)

Definition a_fl : address := test_address 10.
Definition a_relayer : address := test_address 12.
Definition a_cfg : address := test_address 15.

Definition sample_entry : VaultEntry := config_entry "ibBUSD" (test_address 30) a_cfg.

Definition vault_json : Json := with_Vaults sample_json [sample_entry].

Definition sample_relayer : WNativeRelayer :=
  {| wnr_owner := signer; wnative := test_address 4; okCallers := ∅ |}.

Definition vault_chain : Chain :=
  {| accounts := <[ a_fl := {| proxy := None; code := CFairLaunch fl_fresh |} ]>
       (<[ a_relayer := {| proxy := None; code := CWNativeRelayer sample_relayer |} ]>
         {[ a_cfg := {| proxy := None; code := CBasicVaultConfig sample_config |} ]});
     native := ∅ |}.

Definition vault_world : World := world_of vault_chain vault_json.

Definition sample_site : Site :=
  {| at_entry := sample_entry; at_base := test_address 11; at_base_address := test_address 11;
     at_timelock := test_address 5; at_fl := a_fl; at_relayer := a_relayer;
     at_relayer_address := a_relayer; at_cfg := a_cfg; fl_proxy := None; relayer_proxy := None;
     cfg_proxy := None; the_fairLaunch := fl_fresh; the_relayer := sample_relayer;
     the_config := sample_config |}.

Lemma test_settled w z : (0 <= z < 2 ^ 159)%Z -> settled w (test_address z).
Proof.
  intros Hz n _. eapply low_not_created; [apply addressBytes_hex, be_bytes_length| |apply Hz].
  apply be_value_be_bytes. split; [lia|]. change (256 ^ Z.of_nat 20)%Z with (2 ^ 159 + 2 ^ 159)%Z. lia.
Qed.

Lemma test_neq x y : (0 <= x < 2 ^ 160)%Z -> (0 <= y < 2 ^ 160)%Z -> x <> y ->
  test_address x <> test_address y.
Proof. intros Hx Hy Hne E. by apply Hne, test_address_inj. Qed.

(** Looking an address up among inserted ones. *)
Ltac find_inserted :=
  repeat match goal with
  | |- context [<[ ?a := _ ]> _ !! ?a] => rewrite lookup_insert_eq; reflexivity
  | |- context [{[ ?a := _ ]} !! ?a] => rewrite lookup_singleton_eq; reflexivity
  | |- context [<[ _ := _ ]> _ !! _] => rewrite lookup_insert_ne by (apply test_neq; done)
  end.

Lemma vault_world_pre : vault_pre vault_world 0 "BUSD" 200 300 sample_site.
Proof.
  constructor; try reflexivity; try apply test_address_ok; try done.
  - change (4 <= 1000). lia.
  - intros a Ha. cbn in Ha.
    repeat (apply elem_of_cons in Ha as [->|Ha]; [by apply test_settled|]). by apply elem_of_nil in Ha.
  - intros p Hp. cbn in Hp.
    repeat (apply elem_of_cons in Hp as [->|Hp]; [done|]). by apply elem_of_nil in Hp.
  - by intros p ?%elem_of_nil.
  - by intros p ?%elem_of_nil.
Qed.

Lemma vault_deployed_witness : exists w',
  vault_func 0 "Interest Bearing BUSD" 200 300 "BUSD" vault_world = (w', Ok tt) /\
  vault_post vault_world w' "Interest Bearing BUSD" 200 300 sample_site.
Proof.
  exact (vault_deployed vault_world 0 "Interest Bearing BUSD" "BUSD" 200 300 sample_site
    vault_world_pre).
Defined.
