(* ===== verification/WorkerWitnesses.v ===== *)
(** * The theorems on strategies and workers at concrete inputs

    Two small worlds: one in which script 012 runs, one in which script 014-8 deploys the workers of the USDC vault. *)

From S2P Require Import Prelude Buffers MerkleTree BalanceTree Evm.
From S2P Require Import Timelock HuskyToken FairLaunch Lending Workers Chain ChainTheory.
From S2P Require Import Script ScriptTheory Effects WorkerScripts CoreScriptTheory PipelineTheory.
From S2P Require Import WorkerTheory WorkerRuns StrategyTheory Validate ValidateTheory.
From S2P Require Import Instances ChainInstances DeploymentWitnesses.

(** ** Script 012 *)

Definition strategy_json : Json :=
  {| AdminAddress := ADMIN; NativeAddress := test_address 4; FeederAddress := test_address 6;
     js_Timelock := test_address 5; FairLaunch_address := test_address 10; FairLaunch_pools := [];
     Tokens_of := {[ "WBNB" := test_address 4 ]};
     SharedConfig := {[ "WNativeRelayer" := test_address 12 ]}; SharedStrategies := ∅;
     Oracle := ∅; MasterChef := test_address 14; RouterV2 := test_address 15; LpTokens := [];
     Vaults := [] |}.

Definition relayer_chain : Chain :=
  {| accounts := {[ a_relayer := {| proxy := None; code := CWNativeRelayer sample_relayer |} ]};
     native := ∅ |}.

Definition strategy_world : World := world_of relayer_chain strategy_json.

Lemma denotes_test o z : o = Some (test_address z) -> denotes o (test_address z).
Proof. intros ->. eexists. split; [done|apply test_address_ok]. Qed.

Lemma strategies_deployed_witness : exists w' a3 a5,
  deploy_strategies strategy_world = (w', Ok tt) /\
  held w' a_relayer (CWNativeRelayer (with_caller (with_caller sample_relayer a3) a5)).
Proof.
  destruct (strategies_deployed strategy_world (test_address 15) (test_address 20) (test_address 4)
    a_relayer sample_relayer) as (w' & us & a3 & a5 & Hr & _ & _ & _ & _ & Hh & _).
  - change (10 <= 1000). lia.
  - exact (test_address_ok 15).
  - reflexivity.
  - apply denotes_test. reflexivity.
  - apply denotes_test. reflexivity.
  - exists None. split; [apply lookup_singleton_eq|]. split; [discriminate|reflexivity].
  - by apply test_settled.
  - exists w', a3, a5. exact (conj Hr Hh).
Defined.

(** ** Script 014-8 *)

Definition worker_vault : VaultEntry :=
  {| ve_name := "Interest Bearing USDC"; ve_symbol := "ibUSDC"; ve_address := test_address 30;
     ve_baseToken := Some (test_address 11); ve_debtToken := test_address 31; ve_config := a_cfg;
     ve_tripleSlopeModel := Some (test_address 32); ve_StrategyAddTwoSidesOptimal := test_address 33;
     ve_workers := [] |}.

Definition worker_json : Json :=
  {| AdminAddress := ADMIN; NativeAddress := test_address 4; FeederAddress := test_address 6;
     js_Timelock := test_address 5; FairLaunch_address := test_address 10; FairLaunch_pools := [];
     Tokens_of := {[ "USDC" := test_address 11 ]};
     SharedConfig := {[ "WorkerConfig" := test_address 34 ]};
     SharedStrategies :=
       <[ "StrategyAddBaseTokenOnly" := test_address 35 ]>
         (<[ "StrategyLiquidate" := test_address 36 ]>
           (<[ "StrategyPartialCloseLiquidate" := test_address 37 ]>
             (<[ "StrategyPartialCloseMinimizeTrading" := test_address 38 ]>
               {[ "StrategyWithdrawMinimizeTrading" := test_address 39 ]})));
     Oracle := ∅; MasterChef := test_address 14; RouterV2 := test_address 15; LpTokens := [];
     Vaults := replicate 9 worker_vault |}.

Definition a_strategy (kind : StrategyKind) : Account :=
  {| proxy := None; code := CStrategy (new_strategy kind (test_address 20) (test_address 15)) |}.

Definition worker_vault_contract : Vault :=
  new_Vault {| sender := signer; self := test_address 30; block := mined 0 |} a_cfg (test_address 11)
    "Interest Bearing USDC" "ibUSDC" 18 (test_address 31).

Definition worker_chain : Chain :=
  {| accounts := <[ test_address 30 := {| proxy := None; code := CVault worker_vault_contract |} ]>
       (<[ test_address 33 := a_strategy (PancakeswapV2AddTwoSidesOptimal (test_address 30)) ]>
         (<[ test_address 35 := a_strategy PancakeswapV2AddBaseTokenOnly ]>
           (<[ test_address 36 := a_strategy PancakeswapV2Liquidate ]>
             (<[ test_address 37 := a_strategy PancakeswapV2PartialCloseLiquidate ]>
               (<[ test_address 38 := a_strategy PancakeswapV2Liquidate ]>
                 (<[ test_address 39 := a_strategy PancakeswapV2Liquidate ]>
                   (<[ test_address 34 := {| proxy := None; code := CWorkerConfig
                         {| wc_owner := signer; oracle := test_address 40; wc_workers := ∅ |} |} ]>
                     {[ a_cfg := {| proxy := None; code := CBasicVaultConfig sample_config |} ]})))))));
     native := ∅ |}.

Definition worker_world : World := world_of worker_chain worker_json.

Definition worker_site : WorkerSite :=
  {| ws_vault := test_address 30; ws_base := test_address 11; ws_chef := test_address 14;
     ws_router := test_address 15; ws_add := test_address 35; ws_liq := test_address 36;
     ws_strats := [test_address 37; test_address 38; test_address 39; test_address 33];
     ws_bot := ADMIN; ws_config := test_address 34; ws_vault_config := a_cfg;
     ws_work := 0; ws_kill := 0 |}.

Ltac find_account :=
  cbn [accounts worker_chain worker_world world_of chain worker_site ws_config ws_vault_config]; unfold a_cfg; find_inserted.

Lemma worker_world_pre : workers_pre worker_world 8 "USDC" worker_site worker_vault.
Proof.
  assert (forall z k, accounts worker_chain !! test_address z = Some (a_strategy k) ->
    strategy_ready worker_world (test_address z)) as Hst.
  { intros z k Hz. exists (new_strategy k (test_address 20) (test_address 15)), None.
    split; [exact Hz|split; [discriminate|reflexivity]]. }
  constructor.
  - reflexivity.
  - exact (test_address_ok 30).
  - apply denotes_test. reflexivity.
  - exact (test_address_ok 14).
  - exact (test_address_ok 15).
  - apply denotes_test. reflexivity.
  - apply denotes_test. reflexivity.
  - do 4 (apply List.Forall2_cons; [apply denotes_test; reflexivity|]). constructor.
  - exact (test_address_ok 3).
  - apply denotes_test. reflexivity.
  - exact (test_address_ok 15).
  - constructor.
    + intros a Ha. cbn [ws_all ws_add ws_liq ws_strats worker_site] in Ha.
      repeat (apply elem_of_cons in Ha as [->|Ha]; [eapply Hst; find_account|]).
      by apply elem_of_nil in Ha.
    + eexists. exists None. split; [find_account|]. split; [discriminate|reflexivity].
    + exists sample_config, None. split; [find_account|]. split; [discriminate|reflexivity].
  - intros b Hb. cbn [site_addrs ws_all ws_add ws_liq ws_strats worker_site ws_config ws_vault_config] in Hb.
    repeat (apply elem_of_cons in Hb as [->|Hb]; [by apply test_settled|]). by apply elem_of_nil in Hb.
Qed.

Definition test_pool : Pool :=
  {| pl_native := test_address 4; pl_factory := test_address 20; pl_lp := test_address 21;
     pl_farming := test_address 23; pl_cake := test_address 22 |}.

Lemma workers_deployed_witness : exists w', workers_usdc worker_world = (w', Ok tt) /\
  files w' !! network_name = Some (config_of w').
Proof.
  destruct (workers_deployed workers_usdc 8 "USDC" rows_usdc worker_world worker_site worker_vault)
    as (w' & us & Hr & _ & _ & _ & Hf & _).
  - unfold worker_scripts. in_list.
  - exact worker_world_pre.
  - change (4 <= 1000). lia.
  - intros r Hr. exists test_pool. unfold rows_usdc in Hr.
    repeat (apply elem_of_cons in Hr as [->|Hr]; [constructor; try reflexivity; [done|by left]|]).
    by apply elem_of_nil in Hr.
  - exists w'. exact (conj Hr Hf).
Defined.

Lemma deployed_workers_validate_witness : exists w' v' es, workers_usdc worker_world = (w', Ok tt) /\
  ve_workers v' = ve_workers worker_vault ++ es /\ length es = 2.
Proof.
  destruct (deployed_workers_validate workers_usdc 8 "USDC" rows_usdc worker_world worker_site worker_vault
    (test_address 11) None worker_vault_contract) as (w' & v' & es & Hr & _ & Hes & Hlen & _).
  - unfold worker_scripts. in_list.
  - exact worker_world_pre.
  - change (4 <= 1000). lia.
  - intros r Hr. exists test_pool. unfold rows_usdc in Hr.
    repeat (apply elem_of_cons in Hr as [->|Hr]; [constructor; try reflexivity; [done|by left]|]).
    by apply elem_of_nil in Hr.
  - reflexivity.
  - reflexivity.
  - reflexivity.
  - cbn [ws_vault worker_site]; find_account.
  - reflexivity.
  - by apply test_settled.
  - exists w', v', es. exact (conj Hr (conj Hes Hlen)).
Defined.

(** ** A price feed *)

Definition feed_msg : Msg :=
  {| sender := test_address 6; self := test_address 43; block := {| number := 1; timestamp := 1600000000 |} |}.

Definition feed_oracle : SimplePriceOracle :=
  {| spo_owner := signer; feeder := test_address 6; store := ∅ |}.

Lemma prices_fed_witness : exists o',
  setPrices feed_msg feed_oracle [test_address 11] [test_address 23] [5%Z] = Ok o' /\
  getPrice o' (test_address 11) (test_address 23) = Ok (5%Z, 1600000000%Z).
Proof.
  destruct (setPrices feed_msg feed_oracle [test_address 11] [test_address 23] [5%Z]) as [o'|e] eqn:E.
  - exists o'. split; [reflexivity|].
    pose proof (prices_fed feed_msg feed_oracle [test_address 11] [test_address 23] [5%Z] o'
      (test_address 11) (test_address 23) E ltac:(done)) as P.
    cbn [zip zip_with fed] in P. rewrite bool_decide_eq_true_2 in P by done.
    rewrite decide_False in P by done. exact P.
  - exfalso. unfold setPrices in E. rewrite !bool_decide_eq_true_2 in E by done. discriminate E.
Defined.

Definition priced_json : Json :=
  {| AdminAddress := ADMIN; NativeAddress := test_address 4; FeederAddress := test_address 6;
     js_Timelock := test_address 5; FairLaunch_address := test_address 10; FairLaunch_pools := [];
     Tokens_of := ∅; SharedConfig := ∅; SharedStrategies := ∅;
     Oracle := {[ "SimpleOracle" := test_address 43 ]}; MasterChef := test_address 14;
     RouterV2 := test_address 15;
     LpTokens := [{| lp_pId := 251; lp_name := "CAKE-WBNB LP"; lp_address := test_address 21 |}];
     Vaults := [] |}.

Definition priced_oracle : SimplePriceOracle :=
  {| spo_owner := signer; feeder := test_address 6;
     store := {[ (test_address 23, test_address 11) := {| price := 5; lastUpdate := 1600000000 |} ]} |}.

Definition priced_world : World := world_of
  {| accounts := {[ test_address 43 := {| proxy := None; code := CSimplePriceOracle priced_oracle |} ]};
     native := ∅ |} priced_json.

Lemma oracles_validate_witness :
  validate_oracles priced_world = (priced_world, Ok [("CAKE-WBNB LP", (5%Z, 1600000000%Z))]).
Proof.
  pose proof (oracles_validate priced_world (test_address 43) None priced_oracle) as P.
  assert (mapM (lp_price priced_oracle) (LpTokens (config_of priced_world))
    = Some [("CAKE-WBNB LP", (5%Z, 1600000000%Z))]) as E.
  { unfold priced_world. rewrite config_of_world. cbn [LpTokens priced_json mapM].
    unfold lp_price. cbn [lp_address lp_name]. rewrite test_address_ok. cbn [mbind option_bind].
    cbn [pair_token0 pair_token1 test_pancake mbind option_bind].
    unfold getPrice. cbn [store priced_oracle]. rewrite lookup_singleton_eq. reflexivity. }
  rewrite E in P. apply P.
  - apply denotes_test. reflexivity.
  - cbn [accounts chain priced_world world_of]. apply lookup_singleton_eq.
Defined.

(** ** Script 013 *)

Definition two_sides_json : Json := with_Vaults strategy_json (replicate 4 worker_vault).

Definition two_sides_world : World := world_of {| accounts := ∅; native := ∅ |} two_sides_json.

Lemma vault_strategies_deployed_witness : exists w' us,
  deploy_vault_strategies two_sides_world = (w', Ok tt) /\ NoDup us /\
  Vaults (config_of w') = take 3 (Vaults two_sides_json) ++
    zip_with with_two_sides us (drop 3 (Vaults two_sides_json)).
Proof.
  destruct (vault_strategies_deployed two_sides_world (test_address 15) (test_address 20))
    as (w' & us & Hr & Hnd & _ & _ & Hv & _).
  - change (0 < 4). lia.
  - change (2 <= 1000). lia.
  - exact (test_address_ok 15).
  - reflexivity.
  - constructor; [|constructor]. exists (test_address 30). exact (test_address_ok 30).
  - exists w', us. exact (conj Hr (conj Hnd Hv)).
Defined.
