(* ===== verification/OwnerWitnesses.v ===== *)
(** * The theorems on ownership at concrete inputs

    Small worlds in which the deployer or the timelock owns a few contracts. *)

From S2P Require Import Prelude Buffers MerkleTree BalanceTree Evm.
From S2P Require Import Timelock TimelockTheory HuskyToken FairLaunch Lending Workers Chain ChainTheory Governance.
From S2P Require Import Script ScriptTheory Effects OwnerScripts CoreScriptTheory PipelineTheory OwnerScriptTheory.
From S2P Require Import Instances ChainInstances DeploymentWitnesses.

(** ** The timelock as owner *)

Definition a_tl : address := test_address 5.
Definition a_config : address := test_address 40.
Definition a_admin : address := test_address 41.

Definition governed_config : Account :=
  {| proxy := Some {| proxy_admin := a_admin; implementation := test_address 42 |};
     code := set_owner (CBasicVaultConfig sample_config) a_tl |}.

Definition governing_admin : Account := {| proxy := None; code := CProxyAdmin a_tl |}.

Definition governed_chain : Chain :=
  {| accounts := <[ a_tl := {| proxy := None; code := CTimelock tl_fresh |} ]>
       (<[ a_config := governed_config ]> {[ a_admin := governing_admin ]});
     native := ∅ |}.

Ltac find_at :=
  unfold a_tl, a_config, a_admin; find_inserted.

Definition attempt : Transaction :=
  ({| number := 2; timestamp := T1 |}, ADMIN, a_config, 0%Z, selector "renounceOwnership()").

Lemma timelock_governs_witness :
  (accounts (foldl transact governed_chain [attempt]) !! a_config = Some governed_config /\
   accounts (foldl transact governed_chain [attempt]) !! a_admin = Some governing_admin) \/
  exists s' evs t1 tx, code_at (foldl transact governed_chain [attempt]) a_tl = Some (CTimelock s') /\
    events s' = evs ++ events tl_fresh /\ ExecuteTransaction t1 tx ∈ evs /\
    target tx ∈ [a_config; a_admin] /\ delayed s' tx t1.
Proof.
  apply (timelock_governs [attempt] governed_chain a_tl a_admin a_config governed_config governing_admin
    tl_fresh T0).
  - unfold code_at. cbn [accounts governed_chain]. by rewrite lookup_insert_eq.
  - exact fresh_reachable.
  - cbn [accounts governed_chain]. find_at.
  - reflexivity.
  - reflexivity.
  - right. reflexivity.
  - cbn [accounts governed_chain]. find_at.
  - reflexivity.
  - reflexivity.
  - repeat split; done.
  - intros b from to v d [[= -> -> -> -> ->]|[]%elem_of_nil]%elem_of_cons.
    unfold ADMIN, a_tl, a_admin. split; by apply test_neq.
Defined.

(** ** Handing over *)

Definition held_world : World := world_of
  {| accounts := <[ a_config := {| proxy := None; code := CBasicVaultConfig sample_config |} ]>
       {[ a_admin := {| proxy := None; code := CProxyAdmin signer |} ]}; native := ∅ |} sample_json.

Lemma ownership_handed_over_witness : exists w' e,
  s004_func a_tl [a_config; a_admin] held_world = (w', Ok tt) /\
  s004_func a_tl [a_config; a_admin] w' = (w', Err e).
Proof.
  destruct (ownership_handed_over held_world a_tl a_tl [a_config; a_admin] [a_config; a_admin])
    as (w' & Hr & _ & _ & e & He).
  - exact (test_address_ok 5).
  - rewrite test_zero_address. by apply test_neq.
  - by apply (test_neq 5 1).
  - constructor; [exact (test_address_ok 40)|]. constructor; [exact (test_address_ok 41)|constructor].
  - apply NoDup_cons. split; [|apply NoDup_singleton].
    intros E%list_elem_of_singleton. revert E. by apply (test_neq 40 41).
  - discriminate.
  - intros a [->|[->|[]%elem_of_nil]%elem_of_cons]%elem_of_cons; eexists; exists None;
      (split; [cbn [accounts chain held_world world_of]; find_at|split; [discriminate|reflexivity]]).
  - exists w', e. exact (conj Hr He).
Defined.

(** ** s005 *)

Lemma pool_added_or_not_witness : exists w',
  s005_func a_fl (test_address 14) "300" "ibETH" vault_world = (w', Ok tt) /\
  config_of w' = config_of vault_world.
Proof.
  destruct (pool_added_or_not vault_world a_fl (test_address 14) "ibETH" "300" a_fl (test_address 14) 300
    None fl_fresh) as (w' & Hr & Hj & _).
  - exact (test_address_ok 10).
  - exact (test_address_ok 14).
  - reflexivity.
  - done.
  - done.
  - cbn [accounts chain vault_world world_of vault_chain]. apply lookup_insert_eq.
  - discriminate.
  - exists w'. exact (conj Hr Hj).
Defined.

(** ** h001 and h003 *)

Definition oracle_json : Json := with_Oracle sample_json "SimpleOracle" (test_address 43).

Definition sample_oracle : SimplePriceOracle :=
  {| spo_owner := signer; feeder := test_address 6; store := ∅ |}.

Definition oracle_world : World := world_of
  {| accounts := {[ test_address 43 := {| proxy := None; code := CSimplePriceOracle sample_oracle |} ]};
     native := ∅ |} oracle_json.

Lemma feeder_replaced_witness : exists w' s', h001 oracle_world = (w', Ok tt) /\
  effects oracle_world w' (at_code (test_address 43) (fun _ => CSimplePriceOracle s')) /\
  feeder s' = lower h001_FEEDER_ADDR.
Proof.
  pose proof (feeder_replaced oracle_world (test_address 43) (lower h001_FEEDER_ADDR) None sample_oracle) as E.
  rewrite decide_True in E by reflexivity.
  destruct E as (w' & s' & Hr & Hef & Hf & _).
  - exists (test_address 43). split; [reflexivity|exact (test_address_ok 43)].
  - by vm_compute.
  - cbn [accounts chain oracle_world world_of]. apply lookup_singleton_eq.
  - discriminate.
  - exists w', s'. exact (conj Hr (conj Hef Hf)).
Defined.

Definition h003_json : Json := with_SharedConfig sample_json "HighInterestTripleSlopeModel" (test_address 44).

Definition h003_world : World := world_of
  {| accounts := {[ lower h003_VAULT_CONFIG_ADDR :=
       {| proxy := None; code := CBasicVaultConfig sample_config |} ]}; native := ∅ |} h003_json.

Lemma vault_parameters_set_witness : exists w', h003 h003_world = (w', Ok tt).
Proof.
  pose proof (vault_parameters_set h003_world (lower h003_VAULT_CONFIG_ADDR) sample_config None
    (test_address 44) (test_address 4) (test_address 12) (test_address 10)) as E.
  rewrite decide_True in E by (split; [reflexivity|done]).
  destruct E as (w' & Hr & _).
  - by vm_compute.
  - exists (test_address 44). split; [reflexivity|exact (test_address_ok 44)].
  - exact (test_address_ok 4).
  - exists (test_address 12). split; [reflexivity|exact (test_address_ok 12)].
  - exact (test_address_ok 10).
  - cbn [accounts chain h003_world world_of]. apply lookup_singleton_eq.
  - discriminate.
  - exists w'. exact Hr.
Defined.
