(* ===== verification/ProductWitnesses.v ===== *)
(** * Shield and the public offering at concrete inputs

    Script 021 from the deployment of Shield to the run of the command it prints, on a network
    whose blocks are two days apart; script 022; a sale with two deposits. *)

From S2P Require Import Prelude Sums Buffers MerkleTree BalanceTree Evm.
From S2P Require Import Timelock TimelockTheory HuskyToken Shield Offering OfferingTheory FairLaunch Lending Workers.
From S2P Require Import Chain ChainTheory Script ScriptTheory TimelockScripts TimelockScriptTheory TimelockScriptRuns.
From S2P Require Import ProductScripts ShieldTheory ProductScriptTheory.
From S2P Require Import Instances ChainInstances DeploymentWitnesses.

(** ** Script 021 *)

Definition days_mined (n : nat) : Block :=
  let z := Z.of_nat (n `min` 1000) in {| number := 5000000 + z; timestamp := 1600000000 + 172800 * z |}.

Lemma days_mined_uint256 n : uint256 (number (days_mined n)) /\ uint256 (timestamp (days_mined n)).
Proof.
  cbn [number timestamp days_mined]. set (k := Z.of_nat (n `min` 1000)).
  assert (0 <= k <= 1000)%Z as Hk by (unfold k; lia). clearbody k.
  unfold uint256. assert (2000000000 < UINT256)%Z by done. lia.
Qed.

Definition days : Network := {|
  network_name := "testnet"; signer := signer; proxyAdmin := proxyAdmin; mined := days_mined;
  created := created; max_creations := max_creations; signer_ok := signer_ok;
  signer_nonzero := signer_nonzero; created_ok := created_ok; created_nonzero := created_nonzero;
  created_inj := created_inj; signer_proxyAdmin := signer_proxyAdmin;
  mined_number n := proj1 (days_mined_uint256 n); mined_timestamp n := proj2 (days_mined_uint256 n)
|}.

Definition s021_tl : address := lower TIMELOCK.
Definition s021_fl : address := test_address 10.
Definition s021_eta : string := "1600300000".

Definition s021_fair : FairLaunch := with_fl_owner fl_one s021_tl.

Definition s021_world : World :=
  tl_world s021_tl s021_fl {| proxy := None; code := CFairLaunch s021_fair |}.

Definition s021_shield : address := created 0.

Section Days.
#[local] Existing Instance days.

Lemma s021_timelock : timelock_at s021_world TIMELOCK s021_tl tl_signer.
Proof.
  split; [by vm_compute|]. split; [apply lookup_insert_eq|]. intros n _.
  eapply (low_not_created _ _ _ n); [vm_compute; reflexivity|reflexivity|by vm_compute].
Qed.

Lemma s021_apart : s021_fl <> s021_tl /\ s021_shield <> s021_tl /\ s021_shield <> s021_fl.
Proof. split_and!; by vm_compute. Qed.

Definition s021_deployed : World := with_created s021_world (set_account (chain s021_world) s021_shield
  {| proxy := None; code := CShield (fresh_shield s021_tl s021_fl) |}).

Lemma s021_deployed_timelock : timelock_at s021_deployed TIMELOCK s021_tl tl_signer.
Proof.
  destruct s021_timelock as (Hg & Ha & Hc). split; [done|]. split; [|intros n _; apply Hc; cbn; lia].
  cbn. rewrite lookup_insert_ne by apply s021_apart. exact Ha.
Qed.

Definition s021_tx : Tx :=
  {| target := s021_fl; value := 0; signature := "transferOwnership(address)";
     data := abi_encode [TAddress] [VAddress s021_shield]; eta := 1600300000 |}.

Lemma s021_js_tx : js_tx s021_fl (JStr "0") "transferOwnership(address)" [TAddress] [JStr s021_shield] (JStr s021_eta)
  = Ok s021_tx.
Proof. reflexivity. Qed.

Definition s021_queued : Timelock :=
  set_queue tl_signer ({[ txHash s021_tx ]} ∪ queuedTransactions tl_signer) (guard tl_signer)
    [QueueTransaction (timestamp (mined 1)) s021_tx].

Lemma s021_queue : queueTransaction (next_msg s021_deployed s021_tl) tl_signer s021_tx = Ok s021_queued.
Proof. reflexivity. Qed.

Definition s021_after : World :=
  with_chain s021_deployed (set_code (chain s021_deployed) s021_tl (CTimelock s021_queued)).

(** The script, and the state its command finds two days later. *)
Lemma s021_runs : exists w1 c, s021_func TIMELOCK s021_fl s021_eta s021_world = (w1, Ok tt) /\
  console w1 = console s021_world ++ [c] /\ command_tx c = Ok s021_tx /\
  timelock_at w1 TIMELOCK s021_tl s021_queued /\ ready (next_msg w1 s021_tl) s021_queued s021_tx /\
  accounts (chain w1) !! s021_fl = Some {| proxy := None; code := CFairLaunch s021_fair |}.
Proof.
  assert (s021_func TIMELOCK s021_fl s021_eta s021_world = print_execute s021_fl "transferOwnership(address)" [TAddress]
      [JStr s021_shield] s021_eta s021_after) as Hr.
  { unfold s021_func. rewrite (bind_run _ _ s021_world s021_deployed s021_shield) by reflexivity.
    unfold mbind at 1, script_bind at 1.
    by rewrite (queue_eq _ _ _ _ _ _ _ _ _ _ s021_deployed_timelock s021_js_tx), s021_queue. }
  eexists _, _. split; [exact Hr|]. split; [reflexivity|].
  split; [exact (js_tx_printed s021_fl _ _ _ _ s021_eta 1600300000 _ eq_refl eq_refl s021_js_tx)|].
  destruct s021_deployed_timelock as (Hg & Ha & Hc). split; [|split].
  - split; [done|]. split; [|intros n Hn; apply Hc; cbn in *; lia].
    cbn. rewrite lookup_insert_eq. cbn in Ha. by rewrite Ha.
  - split; [reflexivity|]. split; [|split_and!; done]. cbn. apply elem_of_union. left. by apply elem_of_singleton.
  - cbn. rewrite lookup_insert_ne by apply not_eq_sym, s021_apart.
    rewrite lookup_insert_ne by apply s021_apart. rewrite lookup_insert_ne by apply not_eq_sym, s021_apart.
    by rewrite lookup_singleton_eq.
Qed.

(** The owner of the timelock tries to have a pool added, directly. *)
Definition s021_attempt : Transaction :=
  ({| number := 9; timestamp := 1700000000 |}, signer, s021_fl, 0%Z,
   encode_call "addPool(uint256,address,bool)" [TUint 256; TAddress; TBool] [VUint 1; VAddress signer; VBool true]).

Lemma shield_freezes_pools_witness : exists w1 c w' F' S',
  s021_func TIMELOCK s021_fl s021_eta s021_world = (w1, Ok tt) /\
  run_command TIMELOCK c w1 = (w', Ok tt) /\
  accounts (foldl transact (chain w') [s021_attempt]) !! s021_fl
    = Some {| proxy := None; code := CFairLaunch F' |} /\
  accounts (foldl transact (chain w') [s021_attempt]) !! s021_shield
    = Some {| proxy := None; code := CShield S' |} /\
  fl_owner F' = s021_shield /\ stakeToken <$> poolInfo F' = [test_address 14].
Proof.
  destruct s021_runs as (w1 & c & Hr & Hc & Htx & Ht & Hready & HF).
  destruct (shield_freezes_pools s021_world w1 TIMELOCK s021_tl s021_fl s021_fl s021_eta 1600300000 tl_signer
    s021_timelock (test_address_ok 10) eq_refl Hr) as (c' & tx' & Hc' & Htx' & HS & Hrest).
  rewrite Hc in Hc'. apply (inj (app _)) in Hc'. injection Hc' as <-. rewrite Htx in Htx'. injection Htx' as <-.
  destruct (Hrest w1 s021_queued s021_fair Ht Hready HF eq_refl eq_refl) as (w' & Hrun & Hall).
  destruct (Hall [s021_attempt]) as (F' & S' & HF' & HS' & Ho & Htok & _).
  - intros b from to v d [[= -> -> -> -> ->]|[]%elem_of_nil]%elem_of_cons. split; by vm_compute.
  - exists w1, c, w', F', S'. split; [exact Hr|]. split; [exact Hrun|]. split; [exact HF'|].
    split; [exact HS'|]. split; [exact Ho|]. exact Htok.
Defined.
End Days.

(** ** Script 022 *)

Lemma offerings_deployed_witness : exists w' C,
  s022_func (test_address 0) (test_address 50) (test_address 51) (test_address 52) (test_address 53) (test_address 54)
    empty_world = (w', Ok tt) /\
  accounts (chain w') !! created 0 = Some {| proxy := None; code := CPublicOfferingConfig C |} /\
  allows C !! created 3 = Some true.
Proof.
  pose proof (offerings_deployed empty_world (test_address 0) (test_address 50) (test_address 51) (test_address 52)
    (test_address 53) (test_address 54) (test_address 0) (test_address 50) (test_address 51) (test_address 52)
    (test_address 53) (test_address 54)) as Hd. cbv zeta in Hd.
  destruct Hd as (w' & C & o1 & o2 & o3 & Hr & HC & _ & _ & Hall & _); try apply test_address_ok.
  - change (4 <= 1000)%nat. lia.
  - exists w', C. split; [exact Hr|]. split; [exact HC|].
    apply Forall2_cons_1 in Hall as [_ Hall]. apply Forall2_cons_1 in Hall as [_ Hall].
    apply Forall2_cons_1 in Hall as [(_ & Ha & _) _]. exact Ha.
Defined.

(** ** A sale *)

(** A feed with one price: 2000 dollars, in units of 10^-8. *)
#[export] Program Instance test_aggregators : Aggregators := {
  feed_latestRoundData b a := Ok {| rd_roundId := 7; rd_answer := 2000 * 10 ^ 8; rd_startedAt := 1000;
    rd_updatedAt := 1000; rd_answeredInRound := 7 |};
  feed_getRoundData b a r := Ok {| rd_roundId := r; rd_answer := 2000 * 10 ^ 8; rd_startedAt := 1000;
    rd_updatedAt := 1000; rd_answeredInRound := 7 |}
}.
Next Obligation. intros b a r d [= <-]. cbn. lia. Qed.

Local Open Scope Z_scope.

Definition sale_config : PublicOfferingConfig :=
  new_PublicOfferingConfig {| sender := signer; self := test_address 59; block := mined 0 |}.

Definition sale_msg (n : Z) : Msg :=
  {| sender := test_address n; self := test_address 60; block := {| number := 9; timestamp := 1000 |} |}.

(** One offering of a token, allowed; an investor with ten units of native currency. *)
Definition sale_open : Sale :=
  {| cfg := allowed sale_config (self (sale_msg 63)); cfg_address := test_address 59;
     offerings := <[ self (sale_msg 63) :=
       new_PublicOffering (sale_msg 63) (test_address 59) (test_address 61) (test_address 64) ]> ∅;
     sale_tokens := ∅; sale_native := {[ test_address 62 := 10 ^ 19 ]} |}.

Lemma sale_open_reachable : sale_reachable sale_open.
Proof. apply reach_open; [|apply lookup_empty]. by eapply reach_new. Qed.

Definition sale_code : Buffer := getCode (test_address 65).

Definition sale_deposit : result Sale := deposit (sale_msg 62) sale_open (10 ^ 18) (10 ^ 18) 7 sale_code.

Definition sale_after : Sale := match sale_deposit with Ok s => s | Err _ => sale_open end.

Lemma sale_deposited : sale_deposit = Ok sale_after.
Proof.
  assert (is_ok sale_deposit = true) as Hok by by vm_compute.
  unfold sale_after. by destruct sale_deposit.
Qed.

Lemma sale_value_ok : uint256 (10 ^ 18).
Proof. split; [discriminate|reflexivity]. Qed.

Lemma sale_after_reachable : sale_reachable sale_after.
Proof.
  apply (reach_step _ _ sale_open_reachable).
  apply (step_deposit (sale_msg 62) sale_open (10 ^ 18) (10 ^ 18) 7 sale_code sale_after
    sale_value_ok sale_value_ok); [reflexivity|exact sale_deposited].
Qed.

(** The offering after the deposit. *)
Definition sale_offering : PublicOffering :=
  match offerings sale_after !! test_address 60 with Some o => o | None => no_offering end.

Lemma sale_offering_at : offerings sale_after !! test_address 60 = Some sale_offering.
Proof.
  assert (match offerings sale_after !! test_address 60 with Some _ => true | None => false end = true) as Hok
    by (vm_compute; reflexivity).
  unfold sale_offering. by destruct (offerings sale_after !! test_address 60).
Qed.

Lemma offering_books_witness : raisedAmount (cfg sale_after) = 2000 * 10 ^ 18 /\
  map_sum raised_by (offerings sale_after) = 2000 * 10 ^ 18.
Proof.
  destruct (offering_books sale_after sale_after_reachable) as (Hsum & _).
  assert (raisedAmount (cfg sale_after) = 2000 * 10 ^ 18) as E by (vm_compute; reflexivity).
  split; [exact E|]. rewrite <-Hsum. exact E.
Defined.

Lemma invitees_exact_witness :
  length (investors sale_offering) = 1%nat /\
  getInvitees sale_offering (test_address 65) = Ok (investors sale_offering).
Proof.
  split; [vm_compute; reflexivity|].
  rewrite (invitees_exact sale_after (test_address 60) sale_offering (test_address 65)
    sale_after_reachable sale_offering_at ltac:(vm_compute; reflexivity)).
  vm_compute. reflexivity.
Defined.

Lemma native_deposit_trapped_witness :
  native_of sale_open (test_address 60) = 0 /\ 10 ^ 18 <= native_of sale_after (test_address 60) /\
  exists o', offerings sale_after !! test_address 60 = Some o' /\
  investorBalanceOf o' !! test_address 62 = Some (2000 * 10 ^ 18).
Proof.
  destruct (native_deposit_trapped (sale_msg 62) sale_open
    (new_PublicOffering (sale_msg 63) (test_address 59) (test_address 61) (test_address 64))
    (10 ^ 18) (10 ^ 18) 7 sale_code sale_after sale_after) as (_ & _ & (r & o' & Hr & Ho' & Hb) & Hle).
  - apply lookup_insert_eq.
  - vm_compute; discriminate.
  - vm_compute; discriminate.
  - exact sale_value_ok.
  - vm_compute; discriminate.
  - exact sale_deposited.
  - apply rtc_refl.
  - split; [vm_compute; reflexivity|]. split; [exact Hle|]. exists o'. split; [exact Ho'|].
    injection Hr as <-. exact Hb.
Defined.
