(* ===== verification/BadgeWitnesses.v ===== *)
(** * Badges at concrete inputs

    An ERC-721 with its owners in a map; a system of badges in which Bob mints one and Alice
    takes it from him; a harvest against the view of what is pending. *)

From S2P Require Import Prelude Buffers MerkleTree BalanceTree Evm Uint.
From S2P Require Import HuskyToken FairLaunch Lending Badges Staking StakingTheory Pending.
From S2P Require Import BadgeTheory BadgeRelayer BadgeLocks Instances ChainInstances LendingWitnesses.

Open Scope Z_scope.

(** ** An ERC-721 *)

Definition test_owned (t : gmap Z address) (a : address) : gmap Z address := filter (fun p => p.2 = a) t.

Definition test_nft_balance (t : gmap Z address) (a : address) : result Z :=
  require (bool_decide (a <> zero_address)) "ERC721: balance query for the zero address" ;;
  Ok (Z.of_nat (size (test_owned t a))).

Definition test_nft_mint (t : gmap Z address) (a : address) (id : Z) : result (gmap Z address) :=
  require (bool_decide (a <> zero_address)) "ERC721: mint to the zero address" ;;
  require (bool_decide (t !! id = None)) "ERC721: token already minted" ;;
  Ok (<[ id := a ]> t).

Definition test_nft_transfer (t : gmap Z address) (from to : address) (id : Z) : result (gmap Z address) :=
  require (bool_decide (t !! id = Some from)) "ERC721: transfer of token that is not own" ;;
  require (bool_decide (to <> zero_address)) "ERC721: transfer to the zero address" ;;
  Ok (<[ id := to ]> t).

Definition test_nft_burn (t : gmap Z address) (id : Z) : result (gmap Z address) :=
  require (bool_decide (t !! id <> None)) "ERC721: owner query for nonexistent token" ;;
  Ok (delete id t).

Definition test_nft_uri (t : gmap Z address) (id : Z) (uri : string) : result (gmap Z address) :=
  require (bool_decide (t !! id <> None)) "ERC721Metadata: URI set of nonexistent token" ;; Ok t.

Lemma test_nft_balance_spec t a n : test_nft_balance t a = Ok n -> n = 0 <-> forall id, t !! id <> Some a.
Proof.
  unfold test_nft_balance. intros Hr. inv_result. subst n. rewrite <-Nat2Z.inj_0, Nat2Z.inj_iff.
  rewrite map_size_empty_iff, map_empty. unfold test_owned. split.
  - intros He id Hid. specialize (He id). apply map_lookup_filter_None in He as [He|He]; [congruence|by apply (He a)].
  - intros Hn id. apply map_lookup_filter_None. right. intros x Hid Hx. cbn in Hx. subst x. by eapply Hn.
Qed.

Lemma test_nft_mint_spec t a id t' : test_nft_mint t a id = Ok t' ->
  t !! id = None /\ forall i, t' !! i = if decide (i = id) then Some a else t !! i.
Proof.
  unfold test_nft_mint. intros Hr. inv_result. to_props. subst. split; [done|]. intros i.
  case_decide; subst; [by rewrite lookup_insert_eq|by rewrite lookup_insert_ne].
Qed.

Lemma test_nft_transfer_spec t from to id t' : test_nft_transfer t from to id = Ok t' ->
  t !! id = Some from /\ forall i, t' !! i = if decide (i = id) then Some to else t !! i.
Proof.
  unfold test_nft_transfer. intros Hr. inv_result. to_props. subst. split; [done|]. intros i.
  case_decide; subst; [by rewrite lookup_insert_eq|by rewrite lookup_insert_ne].
Qed.

Lemma test_nft_burn_spec t id t' : test_nft_burn t id = Ok t' ->
  is_Some (t !! id) /\ forall i, t' !! i = if decide (i = id) then None else t !! i.
Proof.
  unfold test_nft_burn. intros Hr. inv_result. to_props. subst. split; [by apply not_eq_None_Some|]. intros i.
  case_decide; subst; [by rewrite lookup_delete_eq|by rewrite lookup_delete_ne].
Qed.

Lemma test_nft_uri_spec t id u t' : test_nft_uri t id u = Ok t' -> forall i, t' !! i = t !! i.
Proof. unfold test_nft_uri. intros Hr. inv_result. by subst. Qed.

Lemma test_nft_balance_ok t a : a <> zero_address -> is_ok (test_nft_balance t a) = true.
Proof. intros Ha. unfold test_nft_balance. by rewrite bool_decide_eq_true_2. Qed.

Lemma test_nft_mint_ok t a id : a <> zero_address -> t !! id = None -> is_ok (test_nft_mint t a id) = true.
Proof. intros Ha Hid. unfold test_nft_mint. by rewrite !bool_decide_eq_true_2. Qed.

Lemma test_nft_transfer_ok t from to id :
  to <> zero_address -> t !! id = Some from -> is_ok (test_nft_transfer t from to id) = true.
Proof. intros Ha Hid. unfold test_nft_transfer. by rewrite !bool_decide_eq_true_2. Qed.

Lemma test_nft_burn_ok t id : is_Some (t !! id) -> is_ok (test_nft_burn t id) = true.
Proof. intros Hid. unfold test_nft_burn. by rewrite bool_decide_eq_true_2 by by apply not_eq_None_Some. Qed.

Lemma test_nft_uri_ok t id u : is_Some (t !! id) -> is_ok (test_nft_uri t id u) = true.
Proof. intros Hid. unfold test_nft_uri. by rewrite bool_decide_eq_true_2 by by apply not_eq_None_Some. Qed.

#[export] Instance test_erc721 : ERC721 := {
  Erc721 := gmap Z address;
  erc721_new := ∅;
  erc721_owner t id := t !! id;
  erc721_balanceOf := test_nft_balance;
  erc721_mint := test_nft_mint;
  erc721_transfer := test_nft_transfer;
  erc721_safeTransfer t from to id d := test_nft_transfer t from to id;
  erc721_burn := test_nft_burn;
  erc721_setTokenURI := test_nft_uri;
  erc721_new_owner id := lookup_empty id;
  erc721_balance_spec := test_nft_balance_spec;
  erc721_balance_ok := test_nft_balance_ok;
  erc721_mint_spec := test_nft_mint_spec;
  erc721_mint_ok := test_nft_mint_ok;
  erc721_transfer_spec := test_nft_transfer_spec;
  erc721_transfer_ok := test_nft_transfer_ok;
  erc721_safeTransfer_spec t from to id d t' := test_nft_transfer_spec t from to id t';
  erc721_burn_spec := test_nft_burn_spec;
  erc721_burn_ok := test_nft_burn_ok;
  erc721_uri_spec := test_nft_uri_spec;
  erc721_uri_ok := test_nft_uri_ok
}.

(** ** A system of badges *)

Definition NFT : address := test_address 80.
Definition POINTS : address := test_address 81.
Definition BADGES : address := test_address 82.

Definition by_owner (a : address) : Msg := {| sender := OWNER; self := a; block := TODAY |}.
Definition to_badges (a : address) : Msg := {| sender := a; self := BADGES; block := TODAY |}.

(** Two grades: one for nothing, one for ten points; they lock 50 and 80 HUSKI. *)
Definition graded : result BadgeNFT :=
  n ← setOperatorsOk (by_owner NFT) (new_BadgeNFT (by_owner NFT)) [BADGES] true;
  setGradeInfo (by_owner NFT) n [0; 1] [0; 10] [50 * COIN; 80 * COIN] [100; 100].

Definition nft0 : BadgeNFT := match graded with Ok n => n | Err _ => new_BadgeNFT (by_owner NFT) end.

Lemma nft0_graded : graded = Ok nft0.
Proof.
  assert (is_ok graded = true) as Hok by (vm_compute; reflexivity). unfold nft0. by destruct graded.
Qed.

Lemma nft0_reachable : nft_reachable nft0.
Proof.
  pose proof nft0_graded as Hr. unfold graded in Hr. apply bind_Ok in Hr as (n & Hn & Hr).
  eapply nft_next; [eapply nft_next; [apply (nft_fresh (by_owner NFT))|by eapply nft_operated]|].
  eapply nft_info; [| | |exact Hr]; repeat apply Forall_cons_2; try apply Forall_nil_2; (split; [discriminate|reflexivity]).
Qed.

(** Bob holds 100 HUSKI and ten points. *)
Definition badges0 : Badges :=
  {| staking :=
       {| debts := {[ DEBT := debt_token ]};
          husky_token := with_erc20 huski {| bal := {[ BOB := 100 * COIN ]}; supply := 100 * COIN; allow := ∅ |};
          fair_launch := with_badges fair BADGES POINTS zero_address; fair_address := FAIR; userInfo := ∅;
          points_at := {[ POINTS := {| bp_owner := OWNER; bp_erc20 := {| bal := {[ BOB := 10 ]}; supply := 10; allow := ∅ |};
            bp_allocPoint := 10; bp_operators := {[ BADGES := true ]}; inviteCodes := ∅; inviteCodesOwner := ∅;
            relationShips := ∅ |} ]};
          prices_at := ∅; fair_guard := guard_new |};
     relayer := BadgeRelayer_initialize (by_owner BADGES) HUSKI FAIR NFT POINTS zero_address CONFIG;
     relayer_address := BADGES; nft := nft0; nft_address := NFT; vault_configs := {[ CONFIG := lending_config ]};
     native_relayers := ∅; coins := ∅; others := {[ CONFIG; FAIR; BADGES ]} |}.

Definition bob_mints : result Badges := mintBadge (to_badges BOB) badges0 7 "ipfs://badge" 1 10001 0.

Definition badges1 : Badges := match bob_mints with Ok w => w | Err _ => badges0 end.

Lemma badges1_minted : bob_mints = Ok badges1.
Proof.
  assert (is_ok bob_mints = true) as Hok by (vm_compute; reflexivity). unfold badges1. by destruct bob_mints.
Qed.

Lemma badges0_ok : badges_ok badges0.
Proof.
  split; [exact (nft_reachable_ok _ nft0_reachable)|].
  assert (locked (nft badges0) = 0) as -> by (vm_compute; reflexivity). vm_compute. discriminate.
Qed.

Lemma badge_user0 a : a <> FAIR -> user_of (to_badges a) badges0.
Proof. intros Ha. split; [reflexivity|vm_compute; discriminate|exact Ha]. Qed.

Lemma badges1_step : badge_step badges0 badges1.
Proof.
  apply (badge_user (to_badges BOB) badges0 (MintBadge 7 "ipfs://badge" 1 10001 0)); [|exact I|exact badges1_minted].
  apply badge_user0. vm_compute. discriminate.
Qed.

Lemma badge_locks_backed_witness :
  locked (nft badges1) = 80 * COIN /\ locked (nft badges1) <= fair_huski badges1.
Proof.
  split; [vm_compute; reflexivity|].
  exact (proj1 (badge_locks_backed badges0 badges1 badges0_ok (rtc_once _ _ badges1_step))).
Defined.

(** Bob has badge 7, the one badge of grade 1. *)
Lemma badge_grades_witness : nft_reachable (nft badges1) /\ exists ids : gset Z,
  7 ∈ ids /\ size (filter (fun id => grade_of (nft badges1) id = 1) ids) = 1%nat.
Proof.
  destruct (badge_grades nft0 nft0_reachable) as (_ & Hcalls & _).
  pose proof (Hcalls (to_badges BOB) badges0 (MintBadge 7 "ipfs://badge" 1 10001 0) badges1 eq_refl badges1_minted) as Hr.
  split; [exact Hr|]. destruct (badge_grades (nft badges1) Hr) as ((ids & Hids & _ & _ & _ & Hcount & _) & _).
  exists ids. split.
  - apply Hids. apply not_eq_None_Some. vm_compute. discriminate.
  - assert (elem (gradeAmount (nft badges1)) 1 = Ok 1) as E by (vm_compute; reflexivity).
    rewrite (Hcount 1) in E by lia. injection E as E. lia.
Defined.

(** Alice names an address without code and a price of nothing. *)
Definition points1 : BadgePoints :=
  match points_at (staking badges1) !! POINTS with Some p => p | None => new_BadgePoints (by_owner POINTS) end.

Lemma points1_at : points_at (staking badges1) !! POINTS = Some points1.
Proof.
  assert (match points_at (staking badges1) !! POINTS with Some _ => true | None => false end = true) as Hok
    by (vm_compute; reflexivity).
  unfold points1. by destruct (points_at (staking badges1) !! POINTS).
Qed.

Lemma badges1_ok : badges_ok badges1.
Proof. exact (badge_step_ok _ _ badges1_step badges0_ok). Qed.

Lemma badges1_system : badge_system badges1 points1.
Proof. split; [exact points1_at|vm_compute; reflexivity..]. Qed.

Definition NOWHERE : address := test_address 99.

Lemma none_of {A} (o : option A) : (if o then false else true) = true -> o = None.
Proof. by destruct o. Qed.

Lemma nowhere_no_code : no_code badges1 NOWHERE.
Proof.
  split; [vm_compute; discriminate|apply none_of; vm_compute; reflexivity|apply none_of; vm_compute; reflexivity
    |vm_compute; discriminate|apply none_of; vm_compute; reflexivity|].
  apply (bool_decide_unpack _). vm_compute. exact I.
Qed.

Lemma alice_may_take : may_take (to_badges ALICE) points1 10002.
Proof. split; [vm_compute; discriminate|vm_compute; reflexivity..]. Qed.

(** Of the 80 HUSKI that Bob locked Alice gets 72, and he gets nothing. *)
Lemma badge_theft_witness : exists w1 w2,
  transferBadge (to_badges ALICE) badges1 0 NOWHERE 0 BOB 7 10002 = Ok w1 /\
  burnBadge (to_badges ALICE) w1 7 = Ok w2 /\
  huski_of (staking w2) ALICE = huski_of (staking badges1) ALICE + 72 * COIN /\
  huski_of (staking w2) BOB = huski_of (staking badges1) BOB /\ coins w2 = coins badges1.
Proof.
  destruct (badge_theft (to_badges ALICE) badges1 points1 lending_config NOWHERE BOB 7 10002 10 badges1_ok)
    as (w1 & w2 & v & Hrun & _ & Hburn & Hv & Ha & Hb & Hc).
  - split; vm_compute; [reflexivity|discriminate|discriminate].
  - exact badges1_system.
  - vm_compute; reflexivity.
  - exact nowhere_no_code.
  - vm_compute; discriminate.
  - exact alice_may_take.
  - vm_compute; reflexivity.
  - vm_compute; reflexivity.
  - vm_compute; discriminate.
  - apply (bool_decide_unpack _). vm_compute. exact I.
  - vm_compute; discriminate.
  - repeat apply Forall_cons_2; try apply Forall_nil_2; (split; vm_compute; [discriminate|reflexivity]).
  - exists w1, w2. split; [exact Hrun|]. split; [exact Hburn|].
    assert (elem (gradeLockHuskys (nft badges1)) (grade_of (nft badges1) 7) = Ok (80 * COIN)) as E by (vm_compute; reflexivity).
    rewrite E in Hv. injection Hv as <-. split; [exact Ha|]. split; [exact Hb|exact Hc].
Defined.

(** ** A harvest *)

Definition LATER : Block := {| number := 1100; timestamp := 1700000300 |}.
Definition alice_later : Msg := {| sender := ALICE; self := FAIR; block := LATER |}.

Definition farming_alice : Stakes := match staked_for_alice with Ok s => s | Err _ => stakes0 end.

Definition harvested : result Stakes := harvest alice_later farming_alice 0.

(** A hundred blocks of one HUSKI each. *)
Lemma pending_is_harvested_witness : exists s,
  harvested = Ok s /\ pendingHusky alice_later farming_alice 0 ALICE = Ok (100 * COIN) /\
  pendingHusky alice_later s 0 ALICE = Ok 0.
Proof.
  destruct (ok_run harvested ltac:(vm_compute; reflexivity)) as [s E]. exists s.
  assert (pendingHusky alice_later farming_alice 0 ALICE = Ok (100 * COIN)) as Hp by (vm_compute; reflexivity).
  split; [exact E|]. split; [exact Hp|].
  apply (pending_is_harvested alice_later farming_alice 0 (100 * COIN) s Hp E).
  apply (bool_decide_unpack _). vm_compute. exact I.
Defined.
