(* ===== verification/UserWitnesses.v ===== *)
(** * A vault is seeded at concrete inputs

    A vault of the wrapped native token before its first deposit, and the same vault after
    one unit of the token was sent to it. *)

From S2P Require Import Prelude Buffers MerkleTree BalanceTree Evm Uint Sums HuskyMath Amm InterestModel.
From S2P Require Import HuskyToken FairLaunch Lending Staking Workers Script.
From S2P Require Import Bank BankTheory BankValue Strategies Farm FarmTheory Protocol UserScripts UserScriptTheory.
From S2P Require Import Instances ChainInstances MarketInstances LendingWitnesses.

Open Scope Z_scope.

Definition SEEDED : address := default EmptyString (getAddress VAULT_ADDRESS).

Definition native_config : BasicVaultConfig :=
  {| bvc_owner := OWNER; minDebtSize := COIN; getReservePoolBps := 1000; getCloseBps := 0; getKillBps := 500;
     bvc_workers := ∅; interestModel := MODEL; wrappedNative := BASE;
     wNativeRelayer := RELAYER; fairLaunch := FAIR; maxKillBps := 500 |}.

Lemma native_config_typed : 0 <= minDebtSize native_config /\ 0 <= getReservePoolBps native_config /\
  0 <= getCloseBps native_config /\ 0 <= getKillBps native_config.
Proof. cbn. unfold COIN. lia. Qed.

(** The vault holds [held] units of the token. *)
Definition seed_world (held : Z) : Protocol Market Stakes :=
  {| market := {| bals := <[ (BASE, SEEDED) := held ]> {[ (BASE, ALICE) := 10 * COIN ]};
                  pair0 := 0; pair1 := 0; lp_supply := 0; stakes := ∅ |};
     rewards := stakes0;
     terms := {| vaultConfigs := {[ CONFIG := {| tc_config := native_config; tc_typed := native_config_typed |} ]};
                 workerConfigs := ∅; oracles := ∅; interestModels := {[ MODEL := TripleSlope ]} |};
     home := SEEDED; farms := ∅; executors := ∅; relays := ∅ |}.

Definition seed_bank : Bank := new_Bank
  {| v_owner := OWNER; v_erc20 := {| bal := ∅; supply := 0; allow := ∅ |};
     v_name := "Interest Bearing BNB"; v_symbol := "ibWBNB"; v_decimals := 18; token := BASE; debtToken := DEBT;
     config := CONFIG; nextPositionID := 1; fairLaunchPoolId := 0; lastAccrueTime := 1500000000 |}.

Definition unseeded_session (held : Z) : Session Market Stakes :=
  {| bank := seed_bank; protocol := seed_world held; mined_txs := 0 |}.

Lemma seed_address held : getAddress VAULT_ADDRESS = Some (home (protocol (unseeded_session held))).
Proof. by vm_compute. Qed.

Lemma seed_unseeded held : uint256 held ->
  unseeded (tok := BASE) (me := SEEDED) (from_signer (unseeded_session held)) seed_bank (seed_world held) held.
Proof.
  intros Hh. split.
  - apply (reachable_idle (W := Protocol Market Stakes)). apply reachable_initialize.
  - split; [done|done|by vm_compute|by vm_compute|]. intros c Hc. cbn in Hc. injection Hc as <-. by vm_compute.
  - done.
  - done.
  - exists held. split; [|cbn; lia]. unfold myBalance. cbn. apply word_uint in Hh. rewrite <-Hh. f_equal.
Qed.

Definition seeded : Session Market Stakes := (s002_func (unseeded_session 0)).1.

Lemma seeds : s002_func (unseeded_session 0) = (seeded, Ok tt).
Proof.
  unfold seeded. assert (is_ok (s002_func (unseeded_session 0)).2 = true) as Hok by (vm_compute; reflexivity).
  destruct (s002_func (unseeded_session 0)) as [s [[]|]]; [done|done].
Qed.

Definition at_seeded (a : address) : Msg := {| sender := a; self := SEEDED; block := TODAY |}.

Lemma alice_at_seeded : at_vault (tok := BASE) (me := SEEDED) (at_seeded ALICE) seed_bank (seed_world 1).
Proof.
  split; [done|done|by vm_compute|by vm_compute|]. intros c Hc. cbn in Hc. injection Hc as <-. by vm_compute.
Qed.

(** On the fresh vault the signer gets a coin of shares; with one unit in it the script throws,
    and whatever Alice deposits, there are no shares. *)
Lemma vault_seeding_witness :
  totalSupply (bank seeded) = 10 ^ 18 /\
  (exists e, s002_func (unseeded_session 1) = (unseeded_session 1, Err e)) /\
  forall a b w, uint256 a ->
    vault_call (at_seeded ALICE) ALICE 0 (seed_bank, seed_world 1) (Deposit a) = Ok (b, w) -> totalSupply b = 0.
Proof.
  destruct (vault_seeding (unseeded_session 0) BASE SEEDED 0 (seed_address 0)
    (seed_unseeded 0 ltac:(uints))) as [_ Hok].
  destruct (vault_seeding (unseeded_session 1) BASE SEEDED 1 (seed_address 1)
    (seed_unseeded 1 ltac:(uints))) as [Hno _].
  destruct (Hno ltac:(done)) as [Hthrows Hcalls].
  split; [apply (Hok seeded seeds)|]. split; [exact Hthrows|].
  intros a b w Ha Hr. exact (Hcalls _ _ _ (Deposit a) _ _ alice_at_seeded Ha Hr).
Defined.
